(* ===== verification/_CoqProject ===== *)
-Q . S2P
Prelude.v
RingBuf.v
Format.v
Descriptors.v
Machine.v
State.v
Vga.v
Printk.v
Console.v
Panik.v
MemoryMap.v
Frame.v
Pmm.v
PmmProps.v
PmmSpec.v
Paging.v
PagingProps.v
Arch.v
PageFault.v
Tlb.v
Cpu.v
Kernel.v
DoubleFault.v
Boot.v
TlbFault.v
Heap.v
TlbHeap.v
Bios.v
Loader.v
Image.v
Power.v
Tests.v
