(* ===== verification/Prelude.v ===== *)
(** * Kernel-V: a verification development

    Kernel-V is a small x86 kernel in C with a BIOS boot loader.  The loader reads
    the kernel image from the disk, leaves the BIOS's memory map in low memory
    and jumps to [_start]; [kernel_main] then starts the console, fills the
    descriptor tables, parses the memory map, starts the physical memory manager,
    turns paging on, maps a stack high in the address space and switches to it.
    From then on page faults in the kernel heap are repaired on demand.  This
    library models the loader and all of the C and assembly code under
    [src/kernel], states what makes each part correct, and follows the whole way
    from power-on to the end of the run.

    ** How the code is modelled

    The machine ([Machine.v]) is a byte-addressed physical memory, the control
    registers, [esp], [ebp], the interrupt flag, and a trace of the instructions
    whose effect lies outside memory: port writes, TLB flushes, [lidt], [lgdt],
    [ltr], [cli], [sti].  Every access of C code goes through [resolve], the page
    walk of the processor, so a bad address is a page fault of the model.  The
    statics of the C files are one record each in [kstate] ([State.v]); a C
    function is a state transformer [M A] that returns ([Ok]), ends in the [hlt]
    loop ([Halted]), faults ([Fault]) or does something C or the processor leaves
    undefined ([Undef]: an array overrun, a bad format, a loop without end; a
    reset, with the state the processor shuts down in).  [wp] is total correctness for it: no property is of the form "if it
    returns".  Integers are [Z], and wrap-around is written out where the code
    has it.

    ** The files and what they model

    - [Prelude]: integers of fixed width, division and bit lemmas, lists, C
      strings, the tactics [zify_mod] and [zlen_lia].
    - [RingBuf], [Format], [Printk]: [lib/printk.c].  The circular log, the
      formatter, and [printk] with its levels.  The log refines "the last 1023
      bytes", the formatter refines [render], a function on the directives of the
      format, and [wp_printk] is what all other parts use.  [Console]: which
      states and computations are the same to whoever looks at log and screen.
    - [Vga]: [drivers/vga/vga.c].  The video memory refines a terminal with
      wrapping and scrolling; the hardware cursor follows the software one.
    - [Panik]: [lib/panik.c] and [assert.h], in both modes.
    - [MemoryMap]: [memory/memory_map.c].
    - [Descriptors], [Arch]: [idt.c], [gdt.c], [tss.c] and their stubs; the tables
      are read the way the processor reads them, and [ltr] marks the task it
      loads as busy.
    - [Frame]: what an operation may change, as preorders on states.
    - [Pmm], [PmmProps]: [memory/pmm.c].  The class [FrameAllocator] states what
      the pager relies on; [pmm_allocator] is its instance.  [PmmSpec]: an
      abstract pool of free and owned frames that [pmm.c] refines, call by call.
    - [Paging], [PagingProps]: [memory/paging.c], for any [FrameAllocator].
      [Tlb]: the same with a cache of translations that fills and drops entries
      at any moment; [TlbFault]: stub, handler and delivery of a page fault with
      that cache; [TlbHeap]: the programs of [Heap], their accesses translated by
      it, as a step relation.
    - [PageFault]: [memory/page_fault.c] and the entry of
      [isr_page_fault.asm], for any [FrameAllocator].
    - [Cpu]: the exit of [isr_page_fault.asm], [double_fault_handler.asm], and how
      the processor delivers a page fault, resumes the interrupted code, or
      escalates to a double fault and a reset.  [retry] is an instruction under
      these rules, [device_request] a request from outside, which waits while
      interrupts are off.
    - [Kernel]: [main/kernel.c]: the boot sequence, the high stack, the overflow
      test.  The argument [cpu] of the functions that touch unmapped memory says
      what happens to an access that faults.
    - [DoubleFault]: the breadcrumbs of the double-fault handler and the check for
      them at the next boot.
    - [Boot]: the run of [kernel_main] from the state the loader leaves.
    - [Heap]: programs that use the demand-paged heap.
    - [Bios]: what the loader asks of the BIOS (drives, memory map, screen), and
      bytes and descriptors as they lie in memory.
    - [Loader]: [bootloader/stage1.asm] and [stage2.asm], data and code, for any
      BIOS: the boot sector and its partition table, the disk reads, the messages,
      the memory map, and the switch to protected mode through the descriptor
      table that was loaded with the second stage.
    - [Image]: [linker/kernel.ld] and the disk images of the two Makefiles.
    - [Power]: loader, kernel, shutdown and reset as one state machine.
    - [Tests]: [tests/test_panik.c], [tests/test_printk.c], and the block of
      [kernel.c] that runs them.

    ** The theorems

    The whole run: [disk_image_boots], [power_on_comes_up] and
    [kernel_setup_comes_up] take the machine from the built disk to a kernel that
    is up, for every memory map within the bounds of [memory_ok] - at most 1.75 GB,
    no overlapping regions, none that ends above 0xFFFFF000; [kernel_main_resets]
    follows it to its end, and [machine_boots_forever] around the loop of resets,
    with what each phase has done.  Faults: [page_fault_resumes]
    executes the faulting instruction again with the interrupted context intact,
    and [heap_is_memory] concludes that programs cannot tell the demand-paged
    heap from a flat memory, nor by the TLB: [heap_through_tlb] says that every run
    ends in the flat memory's result whatever the cache does.  Refinement: the log, the formatter, the terminal
    and the memory manager implement their abstract specifications for all
    inputs, and what clients hold of the manager is never given out twice.
    Function: allocation takes the lowest free frame, reservations hold, mapping
    a page changes one page of the 32-bit address space, through the TLB as well
    ([tlb_never_stale]), a message may be printed in pieces, the boot code's stack
    has fifteen different frames and a guard page, the loader's map is the
    BIOS's.  Errors: panics and unhandled faults halt with interrupts disabled and
    their report in the log and on the screen,
    and each error of the loader stops it with its own message
    ([loader_stops_with_message]).
    Deviations: a last group shows where the code does not do what it means to
    do, each as a theorem with its exact condition: [stack_overflow_resets] (the
    busy task), [enabling_interrupts_resets] (the question in [kernel.c]),
    [kernel_tail_not_loaded], [boot_img_read_error], [percent_u_signed_digits], [trailing_percent_reads_past_end],
    [pmm_free_frame_unchecked], [frames_above_total_lost],
    [pmm_init_truncates_high_regions], [free_region_loop_diverges], [paging_map_page_faults_above_4mb],
    [guard_page_no_double_fault], [page_fault_frame_misread].

    ** Bounds and fuel

    Loops over a counter are [for_], by recursion on the number of turns.  The
    loops over addresses count in [uint32_t] and need not end; [addr_loop] has
    [ADDR_FUEL], 2^20 + 1, one more than the pages of the address space: with an
    end of at most 0xFFFFF000 it is enough ([wp_addr_loop]), and above that
    [free_region_loop_diverges] says which regions run out of any fuel.  Digit loops are
    bounded by the size of their arrays, 12 and 20, as in the code.  The format
    loop consumes a character per turn and gets the length of the format.
    [test_stack_overflow] has no end in the source; 128 calls are enough to reach
    the guard page.  The loader's E820 loop gets one turn more than the BIOS has
    entries.  The frame that the compiler gives [test_stack_overflow] is a
    parameter between 512 and 4092 bytes.

    ** What is not modelled

    Instruction fetch.  The TLB in the files other than [Tlb], [TlbFault] and
    [TlbHeap]: there a translation is always walked and flushes are recorded, which
    [tlb_never_stale] and [heap_through_tlb] justify for mappings above 4 MB.  The
    stack use of C functions other than [test_stack_overflow]: the boot stack below [0x9FB00] and the calls of a
    handler take no memory in the model, so [memory_ok] keeps the bitmap away
    from the one - what happens on a machine with more memory is not followed -
    and [stack_ready] asks for the words of the exception frame only.  The task switch to an available task: [gdt_init] leaves none.  The
    A20 gate, the memory and stack the BIOS uses for itself, and [stage2_copy.asm],
    an older copy of [stage2.asm] that no rule of the Makefiles uses.  The runs of
    nasm, gcc and ld, and with them the translation of C to the bytes of the image:
    [Image] says where those bytes go, and the kernel that runs is the C code.  The addresses of single
    symbols are a record, and the theorems hold for all values the hypotheses
    admit.  That the statics start as zero is part of [boot_ok]: nothing in the
    code clears them, but the sectors behind the kernel on the built disk do
    ([disk_image_boots]).  The targets that start an emulator or a debugger;
    [makefile_debug] builds its disk by the rule of the [Makefile]. *)

From Stdlib Require Import ZArith Lia Ascii String.
From stdpp Require Import base gmap list strings.

#[global] Open Scope Z_scope.

(** ** Machine integers

    A C integer is a [Z]; the width of its type is written out where the
    code stores or converts it.  Signed overflow is undefined in C: where the
    formatter's input can cause it ([INT_MIN] negated, a field width that is no
    [int]) the model fails with [Overflow]; the counters of panics and of tests,
    which start at 0, are written with the target's wrap-around, [s32]. *)

Definition u8 (z : Z) : Z := z mod 2 ^ 8.
Definition u16 (z : Z) : Z := z mod 2 ^ 16.
Definition u32 (z : Z) : Z := z mod 2 ^ 32.
Definition s32 (z : Z) : Z := (z + 2 ^ 31) mod 2 ^ 32 - 2 ^ 31.

#[global] Arguments u8 _ : simpl never.
#[global] Arguments u16 _ : simpl never.
#[global] Arguments u32 _ : simpl never.
#[global] Arguments s32 _ : simpl never.

(** [zify_mod] decides linear goals in which [/] and [mod] by constants, and
    the wrap-around functions above, appear. *)
Ltac zify_mod :=
  unfold u8, u16, u32, s32 in *; Z.div_mod_to_equations; lia.

Lemma u8_range z : 0 <= u8 z < 256.
Proof. zify_mod. Qed.

Lemma u16_range z : 0 <= u16 z < 65536.
Proof. zify_mod. Qed.

Lemma u32_range z : 0 <= u32 z < 4294967296.
Proof. zify_mod. Qed.

Lemma s32_range z : -2147483648 <= s32 z < 2147483648.
Proof. zify_mod. Qed.

Lemma u8_small z : 0 <= z < 256 → u8 z = z.
Proof. intros; apply Z.mod_small; lia. Qed.

Lemma u16_small z : 0 <= z < 65536 → u16 z = z.
Proof. intros; apply Z.mod_small; lia. Qed.

Lemma u32_small z : 0 <= z < 4294967296 → u32 z = z.
Proof. intros; apply Z.mod_small; lia. Qed.

Lemma s32_small z : -2147483648 <= z < 2147483648 → s32 z = z.
Proof. intros; unfold s32; rewrite Z.mod_small; lia. Qed.

Lemma s32_u32 z : s32 (u32 z) = s32 z.
Proof. unfold s32, u32. rewrite Zplus_mod_idemp_l. done. Qed.

Lemma u32_s32 z : u32 (s32 z) = u32 z.
Proof.
  unfold s32, u32. rewrite Zminus_mod_idemp_l. f_equal. lia.
Qed.

Lemma u32_add_l a b : u32 (u32 a + b) = u32 (a + b).
Proof. apply Zplus_mod_idemp_l. Qed.

(** ** Bit masks as arithmetic *)

Lemma land_ones_mod z k : 0 <= k → Z.land z (2 ^ k - 1) = z mod 2 ^ k.
Proof.
  intros. rewrite <- Z.land_ones by done. f_equal. rewrite Z.ones_equiv. lia.
Qed.

Lemma land_fff z : Z.land z 0xFFF = z mod 4096.
Proof. exact (land_ones_mod z 12 ltac:(lia)). Qed.

Lemma land_3ff z : Z.land z 0x3FF = z mod 1024.
Proof. exact (land_ones_mod z 10 ltac:(lia)). Qed.

Lemma land_ff z : Z.land z 0xFF = z mod 256.
Proof. exact (land_ones_mod z 8 ltac:(lia)). Qed.

Lemma land_ffff z : Z.land z 0xFFFF = z mod 65536.
Proof. exact (land_ones_mod z 16 ltac:(lia)). Qed.

(** The page mask [0xFFFFF000] clears the page offset of a 32-bit word. *)
Lemma land_page_mask z : 0 <= z < 4294967296 → Z.land z 0xFFFFF000 = z / 4096 * 4096.
Proof.
  intros Hz. change 0xFFFFF000 with (Z.shiftl (Z.ones 20) 12).
  change 4096 with (2 ^ 12).
  rewrite <- Z.shiftl_mul_pow2, <- Z.shiftr_div_pow2 by lia.
  apply Z.bits_inj'. intros n Hn.
  rewrite Z.land_spec, !Z.shiftl_spec by done.
  destruct (Z.ltb_spec n 12).
  { rewrite !(Z.testbit_neg_r _ (n - 12)) by lia. by rewrite andb_false_r. }
  rewrite Z.shiftr_spec by lia. replace (n - 12 + 12) with n by lia.
  destruct (Z.ltb_spec n 32).
  { rewrite Z.ones_spec_low by lia. by rewrite andb_true_r. }
  rewrite Z.ones_spec_high by lia. rewrite andb_false_r. symmetry.
  rewrite <- (Z.mod_small z (2 ^ 32)) by lia. apply Z.mod_pow2_bits_high; lia.
Qed.

(** [a | b] is [a + b] when [a] has no bit below [k] and [b] no bit from [k] on. *)
Lemma lor_disjoint a b k :
  0 <= k → a mod 2 ^ k = 0 → 0 <= b < 2 ^ k → Z.lor a b = a + b.
Proof.
  intros Hk Ha Hb. assert (Z.land a b = 0) as Hab.
  { apply Z.bits_inj'; intros n Hn. rewrite Z.land_spec, Z.bits_0.
    destruct (Z.ltb_spec n k).
    - by rewrite <- (Z.mod_pow2_bits_low a k n), Ha, Z.bits_0 by lia.
    - rewrite <- (Z.mod_small b (2 ^ k)), Z.mod_pow2_bits_high by lia.
      apply andb_false_r. }
  rewrite <- Z.lxor_lor by done. symmetry. by apply Z.add_nocarry_lxor.
Qed.

Lemma lor_page a b : a mod 4096 = 0 → 0 <= b < 4096 → Z.lor a b = a + b.
Proof. intros. by apply (lor_disjoint a b 12). Qed.

(** ** Lists *)

(** [zrange lo n] is [lo, lo+1, ..., lo+n-1]. *)
Fixpoint zrange (lo : Z) (n : nat) : list Z :=
  match n with
  | O => []
  | S n => lo :: zrange (lo + 1) n
  end.

Lemma length_zrange lo n : length (zrange lo n) = n.
Proof. revert lo. induction n; intros; simpl; auto. Qed.

Lemma lookup_zrange lo n i : (i < n)%nat → zrange lo n !! i = Some (lo + Z.of_nat i).
Proof.
  revert lo i. induction n as [|n IH]; intros lo i Hi; [lia|].
  destruct i as [|i]; simpl; [f_equal; lia|].
  rewrite IH by lia. f_equal. lia.
Qed.

Lemma elem_of_zrange lo n x : x ∈ zrange lo n ↔ lo <= x < lo + Z.of_nat n.
Proof.
  revert lo. induction n as [|n IH]; intros lo; simpl.
  { rewrite elem_of_nil. lia. }
  rewrite elem_of_cons, IH. lia.
Qed.

Lemma zrange_app lo n m :
  zrange lo (n + m) = zrange lo n ++ zrange (lo + Z.of_nat n) m.
Proof.
  revert lo. induction n as [|n IH]; intros lo; simpl.
  { f_equal. lia. }
  rewrite IH. do 3 f_equal. lia.
Qed.

Lemma NoDup_zrange lo n : NoDup (zrange lo n).
Proof.
  revert lo. induction n as [|n IH]; intros lo; simpl; constructor; [|done].
  rewrite elem_of_zrange. lia.
Qed.

(** The length of a list as a [Z]. *)
Definition zlen {A} (l : list A) : Z := Z.of_nat (length l).

Lemma zlen_nonneg {A} (l : list A) : 0 <= zlen l.
Proof. unfold zlen. lia. Qed.

Lemma zlen_app {A} (l k : list A) : zlen (l ++ k) = zlen l + zlen k.
Proof. unfold zlen. rewrite length_app. lia. Qed.

Lemma zlen_cons {A} x (l : list A) : zlen (x :: l) = 1 + zlen l.
Proof. unfold zlen. simpl. lia. Qed.

Lemma zlen_nil {A} : zlen (@nil A) = 0.
Proof. done. Qed.

Lemma zlen_insert {A} i x (l : list A) : zlen (<[i := x]> l) = zlen l.
Proof. unfold zlen. by rewrite length_insert. Qed.

Create Rewrite HintDb zlen.
#[export] Hint Rewrite @zlen_app @zlen_cons @zlen_nil @zlen_insert : zlen.
#[export] Hint Resolve zlen_nonneg : core.

(** Linear goals about lengths of concatenations. *)
Ltac zlen_lia := autorewrite with zlen in *; lia.

(** [ztake n l] is the first [n] elements of [l] (none when [n <= 0]). *)
Definition ztake {A} (n : Z) (l : list A) : list A := take (Z.to_nat n) l.

Lemma ztake_ge {A} n (l : list A) : zlen l <= n → ztake n l = l.
Proof. intros. apply take_ge. unfold zlen in *. lia. Qed.

Lemma zlen_ztake {A} n (l : list A) : 0 <= n → zlen (ztake n l) = Z.min n (zlen l).
Proof. intros. unfold zlen, ztake. rewrite length_take. lia. Qed.

(** The last [n] elements of a list. *)
Definition lastn {A} (n : nat) (l : list A) : list A := drop (length l - n) l.

Lemma lastn_short {A} n (l : list A) : (length l <= n)%nat → lastn n l = l.
Proof. intros. unfold lastn. replace (length l - n)%nat with O by lia. done. Qed.

Lemma length_lastn {A} n (l : list A) : length (lastn n l) = min n (length l).
Proof. unfold lastn. rewrite length_drop. lia. Qed.

Lemma lastn_lastn_app {A} n (l k : list A) : lastn n (lastn n l ++ k) = lastn n (l ++ k).
Proof.
  unfold lastn at 1 3. rewrite !length_app, length_lastn.
  destruct (decide (length l <= n)%nat).
  { rewrite lastn_short by done. f_equal. lia. }
  unfold lastn. rewrite !drop_app. rewrite drop_drop, length_drop.
  f_equal; [|f_equal; lia]. f_equal. lia.
Qed.

(** [filter] looks at the elements of the list only. *)
Lemma filter_ext_in {A} (P Q : A → Prop) `{!∀ x, Decision (P x), !∀ x, Decision (Q x)} (l : list A) :
  (∀ x, x ∈ l → P x ↔ Q x) → filter P l = filter Q l.
Proof.
  induction l as [|a l IH]; intros HPQ; [done|]. rewrite !filter_cons.
  rewrite IH by (intros; apply HPQ; by constructor).
  apply decide_ext, HPQ. by constructor.
Qed.

Lemma filter_none {A} (P : A → Prop) `{!∀ x, Decision (P x)} (l : list A) :
  (∀ x, x ∈ l → ¬ P x) → filter P l = [].
Proof.
  induction l as [|a l IH]; intros HP; [done|].
  rewrite filter_cons_False by (apply HP; by constructor).
  apply IH. intros. apply HP. by constructor.
Qed.

(** ** C strings

    A string in memory is a list of bytes; as a C string it ends at its first
    NUL.  [C] reads a string literal the way the compiler does: [\n] and the
    three-digit octal escape [\001] of [KERN_SOH] are one byte. *)

Fixpoint c_str (l : list Z) : list Z :=
  match l with
  | [] => []
  | c :: l => if c =? 0 then [] else c :: c_str l
  end.

Lemma c_str_nonzero l : Forall (λ c, c ≠ 0) (c_str l).
Proof.
  induction l as [|c l IH]; simpl; [constructor|].
  destruct (Z.eqb_spec c 0); constructor; auto.
Qed.

Lemma c_str_id l : Forall (λ c, c ≠ 0) l → c_str l = l.
Proof.
  induction 1 as [|c l Hc _ IH]; simpl; [done|].
  destruct (Z.eqb_spec c 0); [done|]. by rewrite IH.
Qed.

Lemma c_str_app l k : Forall (λ c, c ≠ 0) l → c_str (l ++ k) = l ++ c_str k.
Proof.
  induction 1 as [|c l Hc _ IH]; [done|]; cbn [app c_str].
  destruct (Z.eqb_spec c 0); [done|]. by rewrite IH.
Qed.

Lemma c_str_app_nul l k : Forall (λ c, c ≠ 0) l → c_str (l ++ 0 :: k) = l.
Proof.
  induction 1 as [|c l Hc _ IH]; simpl; [done|].
  destruct (Z.eqb_spec c 0); [done|]. by rewrite IH.
Qed.

Definition ascii_Z (a : ascii) : Z := Z.of_N (N_of_ascii a).

Fixpoint C (s : string) : list Z :=
  match s with
  | EmptyString => []
  | String "\" (String "n" s) => 10 :: C s
  | String "\" (String "0" (String "0" (String "1" s))) => 1 :: C s
  | String a s => ascii_Z a :: C s
  end.

(** The code of a character constant. *)
Definition ch (s : string) : Z := default 0 (head (C s)).

#[global] Arguments C _ : simpl never.
#[global] Arguments ch _ : simpl never.
#[global] Arguments ztake {A} _ _ : simpl never.
#[global] Arguments zlen {A} _ : simpl never.
