(* ===== verification/RingBuf.v ===== *)
(** * The kernel log: the circular buffer of [kernel/lib/printk.c]

    The statics [log_buffer], [rb_head] and [rb_tail] and the two functions
    that write them.  The abstract log is a list that keeps its last
    [LOG_BUF_SIZE - 1] bytes; [contents] reads it out of the buffer, oldest
    byte first, and every write refines an append to it. *)

From Stdlib Require Import ZArith Lia String.
From stdpp Require Import base gmap list.
From S2P Require Import Prelude.

Definition LOG_BUF_SIZE : Z := 1024.
#[global] Arguments LOG_BUF_SIZE : simpl never.

Record ringbuf := RingBuf {
  log_buffer : list Z;
  rb_head : Z;   (* position of the next byte to be written *)
  rb_tail : Z;   (* position of the oldest byte *)
}.

(** The statics as the loader leaves them: zeroed. *)
Definition ringbuf_zero : ringbuf :=
  RingBuf (replicate (Z.to_nat LOG_BUF_SIZE) 0) 0 0.

Definition ringbuf_putc (rb : ringbuf) (c : Z) : ringbuf :=
  let buf := <[Z.to_nat (rb_head rb) := c]> (log_buffer rb) in
  let head := (rb_head rb + 1) mod LOG_BUF_SIZE in
  let tail :=
    if head =? rb_tail rb then (rb_tail rb + 1) mod LOG_BUF_SIZE else rb_tail rb in
  RingBuf buf head tail.

(** [str[i]] for [i < str_len]; reading past the array's end is [None]. *)
Fixpoint ringbuf_write_loop (n : nat) (str : list Z) (rb : ringbuf) : option ringbuf :=
  match n, str with
  | O, _ => Some rb
  | S n, c :: str => ringbuf_write_loop n str (ringbuf_putc rb c)
  | S _, [] => None
  end.

Definition ringbuf_write (str : list Z) (str_len : Z) (rb : ringbuf) : option ringbuf :=
  ringbuf_write_loop (Z.to_nat str_len) str rb.

(** [printk_init] empties the buffer by resetting both positions. *)
Definition ringbuf_reset (rb : ringbuf) : ringbuf := RingBuf (log_buffer rb) 0 0.

#[local] Ltac rb_simpl := unfold ringbuf_putc; cbn [log_buffer rb_head rb_tail].

(** ** The abstract log *)

Definition rb_count (rb : ringbuf) : Z := (rb_head rb - rb_tail rb) mod LOG_BUF_SIZE.

#[local] Ltac rb_arith := unfold rb_count, LOG_BUF_SIZE in *; zify_mod.

Definition rb_at (rb : ringbuf) (k : Z) : Z :=
  log_buffer rb !!! Z.to_nat ((rb_tail rb + k) mod LOG_BUF_SIZE).

Definition contents (rb : ringbuf) : list Z :=
  rb_at rb <$> zrange 0 (Z.to_nat (rb_count rb)).

Definition log_capacity : nat := Z.to_nat (LOG_BUF_SIZE - 1).

Record ringbuf_wf (rb : ringbuf) : Prop := {
  wf_buffer : length (log_buffer rb) = Z.to_nat LOG_BUF_SIZE;
  wf_head : 0 <= rb_head rb < LOG_BUF_SIZE;
  wf_tail : 0 <= rb_tail rb < LOG_BUF_SIZE;
}.

Lemma ringbuf_zero_wf : ringbuf_wf ringbuf_zero.
Proof. split; [apply length_replicate|done..]. Qed.

Lemma ringbuf_reset_wf rb : ringbuf_wf rb → ringbuf_wf (ringbuf_reset rb).
Proof. intros [? ? ?]. split; simpl; unfold LOG_BUF_SIZE in *; [done|lia..]. Qed.

Lemma ringbuf_putc_wf rb c : ringbuf_wf rb → ringbuf_wf (ringbuf_putc rb c).
Proof.
  intros [Hl Hh Ht]. split; rb_simpl.
  - by rewrite length_insert.
  - rb_arith.
  - destruct (_ =? _); [rb_arith|done].
Qed.

Section putc.
Context (rb : ringbuf) (c : Z) (Hwf : ringbuf_wf rb).

(** Bytes other than the one at [rb_head] survive. *)
Lemma putc_at_other t k :
  (t + k) mod LOG_BUF_SIZE ≠ rb_head rb →
  log_buffer (ringbuf_putc rb c) !!! Z.to_nat ((t + k) mod LOG_BUF_SIZE)
  = log_buffer rb !!! Z.to_nat ((t + k) mod LOG_BUF_SIZE).
Proof.
  destruct Hwf. intros Hne. rb_simpl. unfold LOG_BUF_SIZE in *.
  apply list_lookup_total_insert_ne. zify_mod.
Qed.

Lemma putc_at_head :
  log_buffer (ringbuf_putc rb c) !!! Z.to_nat (rb_head rb) = c.
Proof.
  destruct Hwf. rb_simpl. unfold LOG_BUF_SIZE in *.
  apply list_lookup_total_insert_eq. lia.
Qed.

Lemma contents_putc_room :
  rb_count rb < LOG_BUF_SIZE - 1 →
  contents (ringbuf_putc rb c) = contents rb ++ [c].
Proof.
  destruct Hwf as [Hl Hh Ht]. intros Hn.
  assert (rb_tail (ringbuf_putc rb c) = rb_tail rb) as Htl.
  { rb_simpl. destruct (Z.eqb_spec ((rb_head rb + 1) mod LOG_BUF_SIZE) (rb_tail rb));
      [|done]. rb_arith. }
  assert (rb_count (ringbuf_putc rb c) = rb_count rb + 1) as Hc.
  { unfold rb_count in *. rewrite Htl. rb_simpl. rb_arith. }
  assert (0 <= rb_count rb) by (rb_arith).
  unfold contents. rewrite Hc, Z2Nat.inj_add by lia.
  rewrite zrange_app, fmap_app. f_equal.
  - apply list_fmap_ext. intros i k Hk.
    apply list_elem_of_lookup_2, elem_of_zrange in Hk.
    unfold rb_at. rewrite Htl. apply putc_at_other.
    rb_arith.
  - simpl zrange. cbn [fmap list_fmap]. f_equal. unfold rb_at. rewrite Htl.
    etrans; [|exact putc_at_head]. do 2 f_equal. rb_arith.
Qed.

Lemma contents_putc_full :
  rb_count rb = LOG_BUF_SIZE - 1 →
  contents (ringbuf_putc rb c) = drop 1 (contents rb) ++ [c].
Proof.
  destruct Hwf as [Hl Hh Ht]. intros Hn.
  assert (rb_tail (ringbuf_putc rb c) = (rb_tail rb + 1) mod LOG_BUF_SIZE) as Htl.
  { rb_simpl. destruct (Z.eqb_spec ((rb_head rb + 1) mod LOG_BUF_SIZE) (rb_tail rb));
      [done|]. rb_arith. }
  assert (rb_count (ringbuf_putc rb c) = LOG_BUF_SIZE - 1) as Hc.
  { unfold rb_count in *. rewrite Htl. rb_simpl. rb_arith. }
  unfold contents. rewrite Hc, Hn.
  change (Z.to_nat (LOG_BUF_SIZE - 1)) with (1022 + 1)%nat at 1.
  change (Z.to_nat (LOG_BUF_SIZE - 1)) with (1 + 1022)%nat.
  rewrite !zrange_app, !fmap_app. f_equal.
  - rewrite drop_app_length' by done.
    apply list_eq. intros i. rewrite !list_lookup_fmap.
    destruct (decide (i < 1022)%nat).
    2: { rewrite !lookup_ge_None_2; [done|rewrite length_zrange; lia..]. }
    rewrite !lookup_zrange by done. simpl. f_equal. unfold rb_at. rewrite Htl.
    rewrite Zplus_mod_idemp_l, putc_at_other.
    + do 3 f_equal. lia.
    + rb_arith.
  - simpl zrange. cbn [fmap list_fmap]. f_equal. unfold rb_at. rewrite Htl.
    etrans; [|exact putc_at_head]. do 2 f_equal. rb_arith.
Qed.
End putc.

Lemma length_contents rb : length (contents rb) = Z.to_nat (rb_count rb).
Proof. unfold contents. by rewrite length_fmap, length_zrange. Qed.

Lemma rb_count_bound rb : 0 <= rb_count rb <= LOG_BUF_SIZE - 1.
Proof. rb_arith. Qed.

Lemma contents_putc rb c :
  ringbuf_wf rb →
  contents (ringbuf_putc rb c) = lastn log_capacity (contents rb ++ [c]).
Proof.
  intros Hwf. pose proof (rb_count_bound rb). pose proof (length_contents rb) as Hlen.
  assert (log_capacity = Z.to_nat (LOG_BUF_SIZE - 1)) as Hcap by done.
  destruct (decide (rb_count rb = LOG_BUF_SIZE - 1)) as [Hf|].
  - rewrite contents_putc_full by done. unfold lastn.
    rewrite length_app, Hlen, Hf, Hcap, drop_app_le; simpl length.
    + f_equal.
    + rewrite Hlen, Hf. unfold LOG_BUF_SIZE. lia.
  - rewrite contents_putc_room by (done || lia).
    rewrite lastn_short; [done|]. rewrite length_app, Hlen, Hcap. simpl. lia.
Qed.

Lemma ringbuf_write_loop_spec n str rb :
  ringbuf_wf rb → (n <= length str)%nat →
  ∃ rb', ringbuf_write_loop n str rb = Some rb' ∧ ringbuf_wf rb' ∧
    contents rb' = lastn log_capacity (contents rb ++ take n str).
Proof.
  revert str rb. induction n as [|n IH]; intros str rb Hwf Hn; simpl.
  { exists rb. split_and!; [done..|]. rewrite app_nil_r, lastn_short; [done|].
    rewrite length_contents. pose proof (rb_count_bound rb). unfold log_capacity. lia. }
  destruct str as [|c str]; simpl in Hn; [lia|].
  destruct (IH str (ringbuf_putc rb c)) as (rb' & -> & ? & Hc);
    [by apply ringbuf_putc_wf|lia|].
  exists rb'. split_and!; [done..|].
  rewrite Hc, contents_putc, lastn_lastn_app by done. by rewrite <- app_assoc.
Qed.

(** The call never reads past the array it is given, and never fails, when
    the length is at most the array's. *)
Lemma ringbuf_write_ok str n rb :
  ringbuf_wf rb → n <= zlen str →
  ∃ rb', ringbuf_write str n rb = Some rb' ∧ ringbuf_wf rb' ∧
    contents rb' = lastn log_capacity (contents rb ++ ztake n str).
Proof. intros ? Hn. apply ringbuf_write_loop_spec; [done|]. unfold zlen in Hn. lia. Qed.

Lemma contents_reset rb : contents (ringbuf_reset rb) = [].
Proof. done. Qed.

(** A sequence of whole-string writes, in order. *)
Fixpoint ringbuf_writes (strs : list (list Z)) (rb : ringbuf) : option ringbuf :=
  match strs with
  | [] => Some rb
  | str :: strs => rb ← ringbuf_write str (zlen str) rb; ringbuf_writes strs rb
  end.

(** C16: the circular log refines an append-only log that keeps its last 1023
    bytes.  Any sequence of writes into a well-formed buffer succeeds, keeps it
    well-formed, and leaves in it exactly the last 1023 bytes of the old
    contents followed by everything written, in order: nothing is lost before
    the buffer is full, and afterwards only the oldest bytes are. *)
Theorem ringbuf_writes_refine_log strs rb :
  ringbuf_wf rb →
  ∃ rb', ringbuf_writes strs rb = Some rb' ∧ ringbuf_wf rb' ∧
    contents rb' = lastn log_capacity (contents rb ++ concat strs).
Proof.
  revert rb. induction strs as [|str strs IH]; intros rb Hwf; simpl.
  { exists rb. rewrite app_nil_r, lastn_short; [done|].
    rewrite length_contents. pose proof (rb_count_bound rb). unfold log_capacity. lia. }
  destruct (ringbuf_write_ok str (zlen str) rb) as (rb1 & -> & Hwf1 & Hc1); [done..|].
  simpl. destruct (IH rb1 Hwf1) as (rb2 & -> & Hwf2 & Hc2).
  exists rb2. split_and!; [done..|].
  rewrite Hc2, Hc1, lastn_lastn_app, ztake_ge by done. by rewrite <- app_assoc.
Qed.

Lemma ringbuf_writes_refine_log_witness :
  ∃ rb', ringbuf_writes [C "boot\n"; C "[PMM] ok\n"] ringbuf_zero = Some rb' ∧
    ringbuf_wf rb' ∧
    contents rb' = lastn log_capacity
      (contents ringbuf_zero ++ concat [C "boot\n"; C "[PMM] ok\n"]).
Proof.
  apply (ringbuf_writes_refine_log [C "boot\n"; C "[PMM] ok\n"] ringbuf_zero).
  exact ringbuf_zero_wf.
Defined.
