(* ===== verification/Format.v ===== *)
(** * The formatter: [my_vsnprintf] of [kernel/lib/printk.c]

    The buffer [buf .. end] is modelled by the bytes stored in it so far: [p -
    buf] is their number and the guard [p < end] compares it with [size - 1].
    A [va_list] is the list of the 32-bit slots the caller pushed, a slot being
    a word or a pointer to a string.  The second half gives the reference
    semantics: a format is parsed into directives and each directive is
    rendered without any buffer. *)

From Stdlib Require Import ZArith Lia String.
From stdpp Require Import base gmap list.
From S2P Require Import Prelude.

(** ** Variadic arguments and results *)

Inductive arg :=
  | AWord (w : Z)                    (* an int, unsigned or pointer value *)
  | AStr (s : option (list Z)).      (* a char pointer; [None] is NULL *)

Inductive fmt_error :=
  | BadArg     (* [va_arg] past the arguments or of the wrong kind *)
  | PastEnd    (* the format pointer moved past its terminator *)
  | NoRoom     (* a store outside the buffer *)
  | Overflow   (* signed arithmetic outside [int], which C leaves undefined *)
  | OutOfFuel.

Inductive fres (A : Type) :=
  | FOk (a : A)
  | FErr (e : fmt_error).
Arguments FOk {A} a.
Arguments FErr {A} e.

#[global] Instance fres_ret : MRet fres := @FOk.
#[global] Instance fres_bind : MBind fres := λ A B f r,
  match r with FOk a => f a | FErr e => FErr e end.

Definition va_word (args : list arg) : fres (Z * list arg) :=
  match args with
  | AWord w :: args => FOk (w, args)
  | _ => FErr BadArg
  end.

Definition va_str (args : list arg) : fres (option (list Z) * list arg) :=
  match args with
  | AStr s :: args => FOk (s, args)
  | _ => FErr BadArg
  end.

(** ** Stores into the buffer: [lim] is [end - buf], [out] is [buf .. p] *)

(** [if (p < end) *p++ = c] *)
Definition put_char (lim c : Z) (out : list Z) : list Z :=
  if zlen out <? lim then out ++ [c] else out.

(** [while (to_pad_width-- > 0 && p < end) *p++ = pad_char] *)
Fixpoint put_pad (lim : Z) (to_pad_width : nat) (pad_char : Z) (out : list Z) : list Z :=
  match to_pad_width with
  | O => out
  | S n => if zlen out <? lim then put_pad lim n pad_char (out ++ [pad_char]) else out
  end.

(** The string-copy loop, and the reversing loops, whose
    [str] is the digit array read backwards. *)
Fixpoint put_bytes (lim : Z) (str : list Z) (out : list Z) : list Z :=
  match str with
  | [] => out
  | c :: str => if zlen out <? lim then put_bytes lim str (out ++ [c]) else out
  end.

(** ** Digit loops: [n] is [sizeof(tmp)]; the result is [tmp[0 .. tmplen-1]],
    least significant digit first *)

Definition digit_char (digit : Z) : Z :=
  if digit <? 10 then u8 (ch "0" + digit) else u8 (ch "a" + digit - 10).

(** [do { tmp[tmplen++] = digit of num % base; num /= base; }
     while (num && tmplen < sizeof(tmp))], on an unsigned [num]. *)
Fixpoint digits_unsigned (n : nat) (base num : Z) : list Z :=
  match n with
  | O => []
  | S n =>
      digit_char (num mod base) ::
      (let num := num / base in if num =? 0 then [] else digits_unsigned n base num)
  end.

(** The same loop on a signed [num]: C's [%] and [/] truncate towards zero. *)
Fixpoint digits_signed (n : nat) (num : Z) : list Z :=
  match n with
  | O => []
  | S n =>
      u8 (ch "0" + Z.rem num 10) ::
      (let num := Z.quot num 10 in if num =? 0 then [] else digits_signed n num)
  end.

(** ** The conversions, one per [case] of the [switch] *)

Definition conv_s (lim pad_width pad_char : Z) (args : list arg) (out : list Z)
    : fres (list arg * list Z) :=
  '(str, args) ← va_str args;
  let str := c_str (default (C "(null)") str) in
  let str_len := zlen str in
  let to_pad_width := if pad_width <? str_len then 0 else pad_width - str_len in
  let out := put_pad lim (Z.to_nat to_pad_width) pad_char out in
  FOk (args, put_bytes lim str out).

Definition conv_c (lim pad_width pad_char : Z) (args : list arg) (out : list Z)
    : fres (list arg * list Z) :=
  '(w, args) ← va_word args;
  let c := u8 w in
  let to_pad_width := Z.max 0 (s32 (pad_width - 1)) in
  let out := put_pad lim (Z.to_nat to_pad_width) pad_char out in
  FOk (args, put_char lim c out).

(** Padding, then the digit array reversed: the tail shared by [%d], [%u], [%x]. *)
Definition put_number (lim pad_width pad_char : Z) (tmp out : list Z) : list Z :=
  let to_pad_width := Z.max 0 (s32 (pad_width - zlen tmp)) in
  let out := put_pad lim (Z.to_nat to_pad_width) pad_char out in
  put_bytes lim (reverse tmp) out.

Definition INT_MIN : Z := - 2 ^ 31.

Definition conv_d (lim pad_width pad_char : Z) (args : list arg) (out : list Z)
    : fres (list arg * list Z) :=
  '(w, args) ← va_word args;
  let num := s32 w in
  if num =? INT_MIN then FErr Overflow else   (* [-num] *)
  let is_negative := num <? 0 in
  let val := u32 (if is_negative then - num else num) in
  let tmp := digits_unsigned 12 10 val in
  let tmp := if is_negative && (zlen tmp <? 12) then tmp ++ [ch "-"] else tmp in
  FOk (args, put_number lim pad_width pad_char tmp out).

Definition conv_u (lim pad_width pad_char : Z) (args : list arg) (out : list Z)
    : fres (list arg * list Z) :=
  '(w, args) ← va_word args;
  let num := s32 w in
  FOk (args, put_number lim pad_width pad_char (digits_signed 12 num) out).

Definition conv_x (lim pad_width pad_char : Z) (args : list arg) (out : list Z)
    : fres (list arg * list Z) :=
  '(w, args) ← va_word args;
  let num := u32 w in
  let tmp := if num =? 0 then [ch "0"] else digits_unsigned 12 16 num in
  FOk (args, put_number lim pad_width pad_char tmp out).

Definition conv_p (lim : Z) (args : list arg) (out : list Z)
    : fres (list arg * list Z) :=
  '(w, args) ← va_word args;
  let out := if zlen out <? lim - 1 then out ++ [ch "0"; ch "x"] else out in
  let num := u32 w in
  let tmp := if num =? 0 then [ch "0"] else digits_unsigned 20 16 num in
  FOk (args, put_bytes lim (reverse tmp) out).

(** The [switch] on the specifier; at the format's end it is the terminator. *)
Definition conv (lim pad_width pad_char spec : Z) (args : list arg) (out : list Z)
    : fres (list arg * list Z) :=
  if spec =? ch "s" then conv_s lim pad_width pad_char args out
  else if spec =? ch "c" then conv_c lim pad_width pad_char args out
  else if spec =? ch "d" then conv_d lim pad_width pad_char args out
  else if spec =? ch "u" then conv_u lim pad_width pad_char args out
  else if spec =? ch "x" then conv_x lim pad_width pad_char args out
  else if spec =? ch "p" then conv_p lim args out
  else if spec =? ch "%" then FOk (args, put_char lim (ch "%") out)
  else FOk (args, put_char lim spec out).

(** ** The format loop *)

(** A leading [0] selects zero padding and is consumed. *)
Definition read_pad_char (fmt : list Z) : Z * list Z :=
  match fmt with
  | c :: rest => if c =? ch "0" then (ch "0", rest) else (ch " ", fmt)
  | [] => (ch " ", [])
  end.

Definition is_digit (c : Z) : bool := (ch "0" <=? c) && (c <=? ch "9").

Fixpoint read_pad_width (pad_width : Z) (fmt : list Z) : fres (Z * list Z) :=
  match fmt with
  | c :: rest =>
      if is_digit c then
        let pad_width := pad_width * 10 + (c - ch "0") in
        if pad_width <? 2 ^ 31 then read_pad_width pad_width rest else FErr Overflow
      else FOk (pad_width, fmt)
  | [] => FOk (pad_width, [])
  end.

(** The [while] loop over the format, one unit of fuel per turn. *)
Fixpoint vsnprintf_loop (fuel : nat) (lim : Z) (fmt : list Z) (args : list arg)
    (out : list Z) : fres (list Z) :=
  match fuel with
  | O => FErr OutOfFuel
  | S fuel =>
      match fmt with
      | [] => FOk out
      | c :: rest =>
          if zlen out <? lim then
            if c =? ch "%" then
              let '(pad_char, fmt) := read_pad_char rest in
              '(pad_width, fmt) ← read_pad_width 0 fmt;
              '(args, out) ← conv lim pad_width pad_char (default 0 (head fmt)) args out;
              match fmt with
              | [] => FErr PastEnd
              | _ :: fmt => vsnprintf_loop fuel lim fmt args out
              end
            else vsnprintf_loop fuel lim rest args (put_char lim c out)
          else FOk out
      end
  end.

(** The bytes stored before the final [*p = '\0']; the code returns their number. *)
Definition my_vsnprintf (size : Z) (fmt : list Z) (args : list arg) : fres (list Z) :=
  let fmt := c_str fmt in
  out ← vsnprintf_loop (S (length fmt)) (size - 1) fmt args [];
  if zlen out <? size then FOk out else FErr NoRoom.

Example fmt_ex1 : my_vsnprintf 1024 (C "x=%05d|%s|%x%%") [AWord (u32 (-42)); AStr None; AWord 48879]
  = FOk (C "x=00-42|(null)|beef%").
Proof. vm_compute. reflexivity. Qed.

Example fmt_ex2 : my_vsnprintf 8 (C "0x%08x") [AWord 0xBEEF] = FOk (C "0x0000b").
Proof. vm_compute. reflexivity. Qed.

(** ** Stores as truncated appends *)

Lemma put_bytes_spec lim str out :
  zlen out <= lim → put_bytes lim str out = ztake lim (out ++ str).
Proof.
  revert out. induction str as [|c str IH]; intros out Hout; simpl.
  { by rewrite app_nil_r, ztake_ge. }
  destruct (Z.ltb_spec (zlen out) lim).
  - rewrite IH by zlen_lia. by rewrite <- app_assoc.
  - unfold ztake, zlen in *. by rewrite take_app_length' by lia.
Qed.

Lemma put_pad_spec lim n c out :
  zlen out <= lim → put_pad lim n c out = ztake lim (out ++ replicate n c).
Proof.
  intros. rewrite <- put_bytes_spec by done.
  revert out H. induction n as [|n IH]; intros out Hout; simpl; [done|].
  destruct (Z.ltb_spec (zlen out) lim); [|done].
  apply IH. zlen_lia.
Qed.

Lemma put_char_spec lim c out :
  zlen out <= lim → put_char lim c out = ztake lim (out ++ [c]).
Proof. apply (put_bytes_spec lim [c]). Qed.

Lemma zlen_ztake_le {A} lim (l : list A) : 0 <= lim → zlen (ztake lim l) <= lim.
Proof. intros. rewrite zlen_ztake by done. lia. Qed.

(** Appending to a truncation and truncating again is truncating once. *)
Lemma ztake_ztake_app {A} lim (l k : list A) :
  0 <= lim → ztake lim (ztake lim l ++ k) = ztake lim (l ++ k).
Proof.
  intros. unfold ztake. set (n := Z.to_nat lim).
  rewrite !take_app, take_take, length_take. f_equal; [by rewrite Nat.min_id|].
  destruct (decide (n <= length l)%nat).
  - rewrite Nat.min_l by done. by replace (n - n)%nat with (n - length l)%nat by lia.
  - by rewrite Nat.min_r by lia.
Qed.

Lemma put_number_spec lim w pad tmp out :
  0 <= lim → zlen out <= lim →
  put_number lim w pad tmp out
  = ztake lim (out ++ replicate (Z.to_nat (s32 (w - zlen tmp))) pad ++ reverse tmp).
Proof.
  intros. unfold put_number.
  rewrite put_bytes_spec, put_pad_spec by (rewrite ?put_pad_spec by done; auto using zlen_ztake_le).
  rewrite ztake_ztake_app by done. rewrite <- app_assoc.
  by rewrite Z2Nat.inj_max, Nat.max_0_l.
Qed.

(** ** Numerals *)

Definition digit_value (c : Z) : Z := if c <? 58 then c - 48 else c - 87.

(** The value of a digit string, most significant digit first. *)
Definition digits_value (base : Z) (l : list Z) : Z :=
  fold_left (λ n c, n * base + digit_value c) l 0.

(** [l] is the numeral of [n]: its digits are digits of the base, their value
    is [n], and it has no leading zero unless it is the single digit 0. *)
Definition numeral (base n : Z) (l : list Z) : Prop :=
  l ≠ [] ∧ Forall (λ c, 0 <= digit_value c < base ∧ digit_char (digit_value c) = c) l ∧
  digits_value base l = n ∧ (head l = Some 48 → l = [48]).

(** Most significant digit first; 32 digits are enough for a 32-bit word. *)
Definition num_str (base n : Z) : list Z := reverse (digits_unsigned 32 base n).

Lemma digit_value_char d : 0 <= d < 16 → digit_value (digit_char d) = d.
Proof.
  intros. unfold digit_value, digit_char.
  destruct (Z.ltb_spec d 10); change (ch "0") with 48; change (ch "a") with 97;
    rewrite u8_small by lia; case_match; lia.
Qed.

Lemma digits_value_snoc base l c :
  digits_value base (l ++ [c]) = digits_value base l * base + digit_value c.
Proof. unfold digits_value. by rewrite fold_left_app. Qed.

(** More room than digits makes no difference. *)
Lemma digits_unsigned_room n m base num :
  2 <= base → 0 <= num < base ^ Z.of_nat n → (n <= m)%nat → (0 < n)%nat →
  digits_unsigned m base num = digits_unsigned n base num.
Proof.
  intros Hb. revert m num. induction n as [|n IH]; intros m num Hnum Hm Hn; [lia|].
  destruct m as [|m]; [lia|]. simpl. f_equal.
  destruct (Z.eqb_spec (num / base) 0); [done|].
  assert (0 <= num / base < base ^ Z.of_nat n).
  { split; [apply Z.div_pos; lia|]. apply Z.div_lt_upper_bound; [lia|].
    rewrite <- Z.pow_succ_r, <- Nat2Z.inj_succ by lia. lia. }
  apply IH; [done|lia|]. destruct n; [simpl in *; lia|lia].
Qed.

Lemma num_str_numeral base n :
  2 <= base <= 16 → 0 <= n < 2 ^ 32 → numeral base n (num_str base n).
Proof.
  intros Hb Hn. unfold num_str.
  assert (n < base ^ Z.of_nat 32).
  { eapply Z.lt_le_trans; [apply Hn|]. apply Z.pow_le_mono_l. lia. }
  assert (0 <= n) as H0 by lia. clear Hn. revert n H H0.
  generalize 31%nat as k. induction k as [|k IH]; intros n Hn H0.
  all: assert (0 <= n mod base < base) by (apply Z.mod_pos_bound; lia).
  all: cbn [digits_unsigned]; destruct (Z.eqb_spec (n / base) 0) as [Hz|Hz].
  2: { exfalso. apply Hz, Z.div_small. simpl in Hn. lia. }
  1,2: assert (n mod base = n) as Hn' by
    (pose proof (Z.div_mod n base ltac:(lia)) as E; rewrite Hz in E; lia).
  1,2: rewrite Hn' in *.
  1,2: unfold numeral; rewrite reverse_singleton; unfold digits_value; simpl;
    rewrite Forall_singleton, digit_value_char by lia;
    split_and!; first [done|lia|congruence].
  - assert (0 <= n / base) by (apply Z.div_pos; lia).
    destruct (IH (n / base)) as (Hne & Hd & Hv & Hh); [|done|].
    { apply Z.div_lt_upper_bound; [lia|].
      rewrite <- Z.pow_succ_r, <- Nat2Z.inj_succ by lia. done. }
    rewrite reverse_cons. set (l := reverse _) in *. clearbody l.
    unfold numeral. split_and!.
    + by destruct l.
    + apply Forall_app_2; [done|]. rewrite Forall_singleton, digit_value_char by lia.
      split; [lia|done].
    + rewrite digits_value_snoc, Hv, digit_value_char by lia.
      pose proof (Z.div_mod n base). lia.
    + destruct l as [|c l]; [done|]. simpl in *. intros [= ->].
      specialize (Hh eq_refl). injection Hh as ->.
      unfold digits_value, digit_value in Hv. simpl in Hv. lia.
Qed.

(** A numeral is determined by the number: [numeral] is a specification. *)
Lemma digits_value_bound base l :
  2 <= base → Forall (λ c, 0 <= digit_value c < base) l →
  0 <= digits_value base l < base ^ zlen l.
Proof.
  intros Hb. induction l as [|c l IH] using rev_ind; intros Hl; [done|].
  apply Forall_app in Hl as [Hl Hc]. rewrite Forall_singleton in Hc. specialize (IH Hl).
  rewrite digits_value_snoc, zlen_app. change (zlen [c]) with 1.
  rewrite Z.pow_add_r, Z.pow_1_r by first [apply zlen_nonneg|lia]. nia.
Qed.

Lemma digits_value_zero base l c :
  2 <= base → Forall (λ c, 0 <= digit_value c < base) (c :: l) →
  digits_value base (c :: l) = 0 → digit_value c = 0.
Proof.
  intros Hb Hl Hv. revert Hv. induction l as [|d l IH] using rev_ind.
  { unfold digits_value. simpl. lia. }
  rewrite app_comm_cons in Hl. apply Forall_app in Hl as [Hl Hd].
  rewrite Forall_singleton in Hd.
  rewrite app_comm_cons, digits_value_snoc.
  pose proof (digits_value_bound base (c :: l) Hb Hl). intros. apply IH; [done|nia].
Qed.

Lemma numeral_unique base n l1 l2 :
  2 <= base → numeral base n l1 → numeral base n l2 → l1 = l2.
Proof.
  intros Hb (Hne1 & Hd1 & Hv1 & Hh1). revert n l2 Hv1.
  induction l1 as [|c1 l1 IH] using rev_ind; [done|].
  intros n l2 Hv1 (Hne2 & Hd2 & Hv2 & Hh2). clear Hne1.
  destruct l2 as [|c2 l2 _] using rev_ind; [done|].
  rewrite Forall_app, Forall_singleton in Hd1. destruct Hd1 as [Hd1 [Hc1 Ec1]].
  rewrite Forall_app, Forall_singleton in Hd2. destruct Hd2 as [Hd2 [Hc2 Ec2]].
  rewrite digits_value_snoc in Hv1, Hv2.
  assert (∀ l, Forall (λ c, 0 <= digit_value c < base ∧ digit_char (digit_value c) = c) l →
    Forall (λ c, 0 <= digit_value c < base) l) as Himp.
  { intros l Hl. eapply Forall_impl; [exact Hl|]. by intros ? [? _]. }
  destruct (Z.div_mod_unique base (digits_value base l1) (digits_value base l2)
    (digit_value c1) (digit_value c2)) as [Ev E12]; [by left..|lia|].
  assert (c1 = c2) as -> by congruence. f_equal.
  assert (∀ l, (head (l ++ [c2]) = Some 48 → l ++ [c2] = [48]) → l ≠ [] →
    Forall (λ c, 0 <= digit_value c < base ∧ digit_char (digit_value c) = c) l →
    digits_value base l ≠ 0) as Hnz.
  { intros [|a l] Hh Hne Hl Hz; [done|]. apply Himp in Hl as Hl'.
    apply (digits_value_zero base l a Hb Hl') in Hz.
    apply Forall_cons in Hl as [[_ Ha] _]. rewrite Hz in Ha.
    change (digit_char 0) with 48 in Ha.
    specialize (Hh ltac:(simpl; congruence)). by destruct l. }
  destruct (decide (l1 = [])) as [->|Hn1], (decide (l2 = [])) as [->|Hn2]; [done|..].
  - destruct (Hnz l2 Hh2 Hn2 Hd2). by rewrite <- Ev.
  - destruct (Hnz l1 Hh1 Hn1 Hd1). by rewrite Ev.
  - apply (IH Hn1) with (n := digits_value base l1); [done| |done|].
    + intros Hh. destruct l1 as [|a l1]; [done|]. specialize (Hh1 Hh). by destruct l1.
    + split_and!; [done..|]. intros Hh.
      destruct l2 as [|a l2]; [done|]. specialize (Hh2 Hh). by destruct l2.
Qed.

(** ** Reference semantics: directives *)

Inductive directive :=
  | Lit (c : Z)
  | Conv (pad_char pad_width spec : Z).

(** A format is well-formed when every [%] is followed by a specifier and every
    width fits an [int]. *)
Fixpoint parse_fmt (fuel : nat) (fmt : list Z) : option (list directive) :=
  match fuel, fmt with
  | _, [] => Some []
  | O, _ => None
  | S fuel, c :: rest =>
      if c =? ch "%" then
        let '(pad_char, fmt) := read_pad_char rest in
        match read_pad_width 0 fmt with
        | FOk (w, spec :: fmt) => cons (Conv pad_char w spec) <$> parse_fmt fuel fmt
        | _ => None
        end
      else cons (Lit c) <$> parse_fmt fuel rest
  end.

Definition directives (fmt : list Z) : option (list directive) :=
  parse_fmt (S (length (c_str fmt))) (c_str fmt).

Definition padded (pad_char w : Z) (body : list Z) : list Z :=
  replicate (Z.to_nat (w - zlen body)) pad_char ++ body.

(** The text of [%d]: the sign and the numeral of the absolute value. *)
Definition dec_str (w : Z) : list Z :=
  if s32 w <? 0 then ch "-" :: num_str 10 (- s32 w) else num_str 10 (s32 w).

(** The text of [%u]: the numeral of the unsigned value. *)
Definition udec_str (w : Z) : list Z := num_str 10 (u32 w).

Definition hex_str (w : Z) : list Z := num_str 16 (u32 w).
#[global] Arguments num_str _ _ : simpl never.
#[global] Arguments hex_str _ : simpl never.

(** What one directive contributes, and the arguments it leaves. *)
Definition render_one (d : directive) (args : list arg) : option (list Z * list arg) :=
  match d with
  | Lit c => Some ([c], args)
  | Conv pad w spec =>
      if spec =? ch "s" then
        match args with
        | AStr s :: args => Some (padded pad w (c_str (default (C "(null)") s)), args)
        | _ => None
        end
      else if spec =? ch "c" then
        match args with AWord a :: args => Some (padded pad w [u8 a], args) | _ => None end
      else if spec =? ch "d" then
        match args with AWord a :: args => Some (padded pad w (dec_str a), args) | _ => None end
      else if spec =? ch "u" then
        match args with AWord a :: args => Some (padded pad w (udec_str a), args) | _ => None end
      else if spec =? ch "x" then
        match args with AWord a :: args => Some (padded pad w (hex_str a), args) | _ => None end
      else if spec =? ch "p" then
        match args with AWord a :: args => Some (C "0x" ++ hex_str a, args) | _ => None end
      else if spec =? ch "%" then Some ([ch "%"], args)
      else Some ([spec], args)
  end.

Fixpoint render (ds : list directive) (args : list arg) : option (list Z) :=
  match ds with
  | [] => Some []
  | d :: ds =>
      '(txt, args) ← render_one d args;
      rest ← render ds args;
      Some (txt ++ rest)
  end.

(** The values the conversions are right for.  [%d] negates its argument, which
    overflows for one value; [%u] reads its argument as a signed [int]
    ([percent_u_signed_digits] says what it prints from 2^31 on). *)
Definition value_ok (d : directive) (args : list arg) : bool :=
  match d, args with
  | Conv _ _ spec, AWord a :: _ =>
      if spec =? ch "d" then negb (s32 a =? INT_MIN)
      else if spec =? ch "u" then u32 a <? 2 ^ 31
      else true
  | _, _ => true
  end.

Fixpoint printable (ds : list directive) (args : list arg) : bool :=
  match ds with
  | [] => true
  | d :: ds => value_ok d args &&
      match render_one d args with Some (_, args) => printable ds args | None => false end
  end.

(** [%p] is the one conversion whose truncation is not a prefix of its text. *)
Definition is_pointer (d : directive) : bool :=
  match d with Conv _ _ spec => spec =? ch "p" | Lit _ => false end.

(** ** The conversions meet the reference *)

Lemma digits_unsigned_length n base num : (length (digits_unsigned n base num) <= n)%nat.
Proof.
  revert num. induction n as [|n IH]; intros num; simpl; [lia|].
  case_match; simpl; [lia|]. specialize (IH (num / base)). lia.
Qed.

Lemma digits_unsigned_num_str n base num :
  2 <= base → 0 <= num < base ^ Z.of_nat n → (0 < n <= 32)%nat →
  reverse (digits_unsigned n base num) = num_str base num.
Proof.
  intros. unfold num_str. f_equal. symmetry. apply digits_unsigned_room; lia.
Qed.

Lemma digits_signed_nonneg n num :
  0 <= num → digits_signed n num = digits_unsigned n 10 num.
Proof.
  revert num. induction n as [|n IH]; intros num Hn; simpl; [done|].
  rewrite Z.rem_mod_nonneg, Z.quot_div_nonneg by lia.
  rewrite IH by (apply Z.div_pos; lia). f_equal. unfold digit_char.
  destruct (Z.ltb_spec (num mod 10) 10); [done|]. zify_mod.
Qed.

(** The negative side of the signed loop: each digit [d] is written [48 - d]. *)
Lemma digits_signed_neg n num :
  0 <= num → digits_signed n (- num) = (λ c, 96 - c) <$> digits_unsigned n 10 num.
Proof.
  revert num. induction n as [|n IH]; intros num Hn; simpl; [done|].
  rewrite Z.rem_opp_l, Z.quot_opp_l, Z.rem_mod_nonneg, Z.quot_div_nonneg by lia.
  f_equal.
  - unfold digit_char. change (ch "0") with 48.
    destruct (Z.ltb_spec (num mod 10) 10); [|zify_mod].
    rewrite !u8_small by zify_mod. lia.
  - assert (0 <= num / 10) by (apply Z.div_pos; lia).
    destruct (Z.eqb_spec (num / 10) 0), (Z.eqb_spec (- (num / 10)) 0); try lia; [done|].
    by apply IH.
Qed.

Lemma put_number_padded lim w pad tmp txt out :
  0 <= lim → zlen out <= lim → 0 <= w < 2 ^ 31 → (length tmp <= 20)%nat →
  reverse tmp = txt →
  put_number lim w pad tmp out = ztake lim (out ++ padded pad w txt).
Proof.
  intros ? ? Hw Hl <-. rewrite put_number_spec by done. unfold padded.
  assert (zlen (reverse tmp) = zlen tmp) as -> by (unfold zlen; by rewrite length_reverse).
  by rewrite s32_small by (unfold zlen; lia).
Qed.

Lemma dec_digits w :
  let num := s32 w in
  let tmp := digits_unsigned 12 10 (u32 (if num <? 0 then - num else num)) in
  (reverse (if (num <? 0) && (zlen tmp <? 12) then tmp ++ [ch "-"] else tmp) = dec_str w) ∧
  (length tmp <= 10)%nat.
Proof.
  unfold dec_str. pose proof (s32_range w). cbn zeta. set (num := s32 w) in *.
  assert (∀ n, 0 <= n <= 2147483648 →
    digits_unsigned 12 10 (u32 n) = digits_unsigned 10 10 n) as Hroom.
  { intros n Hn. rewrite u32_small by lia. apply digits_unsigned_room; lia. }
  pose proof (digits_unsigned_length 10 10) as Hlen.
  destruct (Z.ltb_spec num 0); rewrite Hroom by lia; (split; [|apply Hlen]).
  - assert ((zlen (digits_unsigned 10 10 (- num)) <? 12) = true) as ->.
    { specialize (Hlen (- num)). unfold zlen. lia. }
    cbn [andb]. rewrite reverse_app. cbn [app]. f_equal.
    apply digits_unsigned_num_str; lia.
  - apply digits_unsigned_num_str; lia.
Qed.

(** What [%u] prints for any word: from 2^31 on C's remainder is negative, and
    the digit [d] of the absolute value comes out as the character of code
    [48 - d]. *)
Definition signed_digits_str (w : Z) : list Z :=
  if s32 w <? 0 then (λ c, 96 - c) <$> num_str 10 (- s32 w) else num_str 10 (s32 w).

Lemma signed_digits w :
  reverse (digits_signed 12 (s32 w)) = signed_digits_str w ∧
  (length (digits_signed 12 (s32 w)) <= 12)%nat.
Proof.
  unfold signed_digits_str. pose proof (s32_range w). set (num := s32 w) in *.
  destruct (Z.ltb_spec num 0).
  - pose proof (digits_signed_neg 12 (- num) ltac:(lia)) as E.
    rewrite Z.opp_involutive in E. rewrite E, length_fmap.
    split; [|apply digits_unsigned_length].
    rewrite <- fmap_reverse. f_equal. apply digits_unsigned_num_str; lia.
  - rewrite !digits_signed_nonneg by done.
    split; [apply digits_unsigned_num_str; lia|apply digits_unsigned_length].
Qed.

(** Below 2^31 that is the reference text. *)
Lemma signed_digits_small w : u32 w < 2 ^ 31 → signed_digits_str w = udec_str w.
Proof.
  intros Hw. unfold signed_digits_str, udec_str. pose proof (u32_range w).
  assert (s32 w = u32 w) as -> by (rewrite <- s32_u32; apply s32_small; lia).
  by destruct (Z.ltb_spec (u32 w) 0); [lia|].
Qed.

Lemma hex_digits n w :
  (8 <= n <= 20)%nat →
  let num := u32 w in
  let tmp := if num =? 0 then [ch "0"] else digits_unsigned n 16 num in
  reverse tmp = hex_str w ∧ (length tmp <= n)%nat.
Proof.
  intros Hn. cbn zeta. unfold hex_str. pose proof (u32_range w).
  destruct (Z.eqb_spec (u32 w) 0) as [->|]; [split; [done|simpl; lia]|].
  split; [|apply digits_unsigned_length].
  apply digits_unsigned_num_str; [lia| |lia].
  split; [lia|]. eapply Z.lt_le_trans with (16 ^ 8); [lia|].
  apply Z.pow_le_mono_r; lia.
Qed.

Lemma num_str_pos base n :
  2 <= base <= 16 → 0 <= n < 2 ^ 32 → 0 < zlen (num_str base n).
Proof.
  intros Hb Hn. destruct (num_str_numeral base n Hb Hn) as (Hne & _).
  destruct (num_str base n); [done|]. rewrite zlen_cons. pose proof (zlen_nonneg l). lia.
Qed.

Lemma zlen_reverse {A} (l : list A) : zlen (reverse l) = zlen l.
Proof. unfold zlen. by rewrite length_reverse. Qed.

Section conversions.
Context (lim w pad : Z) (args args' : list arg) (out txt : list Z).
Context (Hw : 0 <= w < 2 ^ 31) (Hlim : 0 <= lim) (Hout : zlen out <= lim).

Lemma conv_s_render s :
  args = AStr s :: args' →
  conv_s lim w pad args out
  = FOk (args', ztake lim (out ++ padded pad w (c_str (default (C "(null)") s)))).
Proof.
  intros ->. unfold conv_s. cbn. set (str := c_str _). f_equal. f_equal.
  rewrite put_bytes_spec, put_pad_spec by (rewrite ?put_pad_spec by done; auto using zlen_ztake_le).
  rewrite ztake_ztake_app, <- app_assoc by done. unfold padded. do 4 f_equal.
  case_match; lia.
Qed.

Lemma conv_c_render a :
  args = AWord a :: args' →
  conv_c lim w pad args out = FOk (args', ztake lim (out ++ padded pad w [u8 a])).
Proof.
  intros ->. unfold conv_c. cbn -[s32 u8]. f_equal. f_equal.
  rewrite put_char_spec, put_pad_spec by (rewrite ?put_pad_spec by done; auto using zlen_ztake_le).
  rewrite ztake_ztake_app, <- app_assoc by done. unfold padded. do 4 f_equal.
  rewrite s32_small by lia. change (zlen [u8 a]) with 1. lia.
Qed.

Lemma conv_d_render a :
  args = AWord a :: args' → s32 a ≠ INT_MIN →
  conv_d lim w pad args out = FOk (args', ztake lim (out ++ padded pad w (dec_str a))).
Proof.
  intros -> Ha. unfold conv_d. cbn -[s32 u32 digits_unsigned INT_MIN].
  destruct (Z.eqb_spec (s32 a) INT_MIN); [done|]. f_equal. f_equal.
  destruct (dec_digits a) as [Hr Hl]. apply put_number_padded; [done..| |done].
  cbn zeta in Hl. destruct (_ && _); [rewrite length_app; cbn [length]|]; lia.
Qed.

Lemma conv_u_text a :
  args = AWord a :: args' →
  conv_u lim w pad args out = FOk (args', ztake lim (out ++ padded pad w (signed_digits_str a))).
Proof.
  intros ->. unfold conv_u. cbn -[s32 u32 digits_signed]. f_equal. f_equal.
  destruct (signed_digits a) as [Hr Hl]. apply put_number_padded; [done..|lia|done].
Qed.

Lemma conv_x_render a :
  args = AWord a :: args' →
  conv_x lim w pad args out = FOk (args', ztake lim (out ++ padded pad w (hex_str a))).
Proof.
  intros ->. unfold conv_x. cbn -[s32 u32 digits_unsigned]. f_equal. f_equal.
  destruct (hex_digits 12 a ltac:(lia)) as [Hr Hl]. cbn zeta in Hr, Hl.
  apply put_number_padded; [done..|lia|done].
Qed.

Lemma conv_p_render a :
  args = AWord a :: args' →
  zlen (out ++ C "0x" ++ hex_str a) <= lim →
  conv_p lim args out = FOk (args', ztake lim (out ++ C "0x" ++ hex_str a)).
Proof.
  intros -> Hfit. unfold conv_p. cbn -[s32 u32 digits_unsigned].
  destruct (hex_digits 20 a ltac:(lia)) as [Hr Hl]. cbn zeta in *. rewrite Hr.
  change (C "0x") with [ch "0"; ch "x"] in *.
  pose proof (num_str_pos 16 (u32 a) ltac:(lia) (u32_range a)) as Hpos.
  fold (hex_str a) in Hpos.
  assert ((zlen out <? lim - 1) = true) as ->.
  { autorewrite with zlen in Hfit. lia. }
  rewrite put_bytes_spec, <- app_assoc; [done|]. autorewrite with zlen in *. lia.
Qed.
End conversions.

(** Close a goal that compares a specifier with the characters of the switch. *)
#[local] Ltac spec_cases spec :=
  repeat match goal with
  | |- context [spec =? ?c] => destruct (Z.eqb_spec spec c); [subst spec|]
  end.

Lemma conv_render lim w pad spec args args' out txt :
  0 <= w < 2 ^ 31 → 0 <= lim → zlen out <= lim →
  render_one (Conv pad w spec) args = Some (txt, args') →
  value_ok (Conv pad w spec) args = true →
  spec ≠ ch "p" ∨ zlen (out ++ txt) <= lim →
  conv lim w pad spec args out = FOk (args', ztake lim (out ++ txt)).
Proof.
  intros Hw Hlim Hout Hr Hv Hp. unfold conv. cbn [render_one] in Hr.
  destruct (Z.eqb_spec spec (ch "s")).
  { destruct args as [|[|s] args]; simplify_eq. by apply conv_s_render. }
  destruct (Z.eqb_spec spec (ch "c")).
  { destruct args as [|[a|] args]; simplify_eq. by apply conv_c_render. }
  destruct (Z.eqb_spec spec (ch "d")).
  { destruct args as [|[a|] args]; simplify_eq. apply conv_d_render; [done..|].
    by destruct (Z.eqb_spec (s32 a) INT_MIN) as [E|]; [cbn in Hv; rewrite E in Hv|]. }
  destruct (Z.eqb_spec spec (ch "u")).
  { destruct args as [|[a|] args]; simplify_eq. cbn in Hv. apply Z.ltb_lt in Hv.
    rewrite <- signed_digits_small by done. by apply conv_u_text. }
  destruct (Z.eqb_spec spec (ch "x")).
  { destruct args as [|[a|] args]; simplify_eq. by apply conv_x_render. }
  destruct (Z.eqb_spec spec (ch "p")).
  { destruct args as [|[a|] args]; simplify_eq.
    apply conv_p_render; [done..|]. by destruct Hp. }
  destruct (Z.eqb_spec spec (ch "%")); simplify_eq; by rewrite put_char_spec.
Qed.

Lemma is_digit_range c : is_digit c = true → 0 <= c - ch "0" <= 9.
Proof.
  unfold is_digit. change (ch "0") with 48. change (ch "9") with 57.
  intros [? ?]%andb_prop. lia.
Qed.

Lemma read_pad_width_spec w fmt w' rest :
  0 <= w < 2 ^ 31 → read_pad_width w fmt = FOk (w', rest) →
  0 <= w' < 2 ^ 31 ∧ (length rest <= length fmt)%nat.
Proof.
  revert w. induction fmt as [|c fmt IH]; intros w Hw; simpl.
  { by intros [= <- <-]. }
  destruct (is_digit c) eqn:Hc; [|by intros [= <- <-]].
  apply is_digit_range in Hc. destruct (Z.ltb_spec (w * 10 + (c - ch "0")) (2 ^ 31)); [|done].
  intros Hp. apply IH in Hp as [??]; [|lia]. split; [done|lia].
Qed.

Lemma read_pad_char_shorter fmt : (length (read_pad_char fmt).2 <= length fmt)%nat.
Proof. destruct fmt as [|c fmt]; simpl; [done|]. case_match; simpl; lia. Qed.

(** One turn of the loop on a directive, and the whole loop, against the
    reference.  Once the buffer is full the loop stops, and the rest of the
    text is what the truncation drops. *)
Lemma ztake_full {A} lim (l k : list A) : zlen l = lim → ztake lim (l ++ k) = l.
Proof. unfold zlen, ztake. intros <-. rewrite Nat2Z.id. apply take_app_length. Qed.

Lemma render_cons d ds args txt :
  render (d :: ds) args = Some txt →
  ∃ t1 args' t2, render_one d args = Some (t1, args') ∧ render ds args' = Some t2 ∧
    txt = t1 ++ t2.
Proof.
  cbn [render]. destruct (render_one d args) as [[t1 args']|]; [|done]. cbn.
  destruct (render ds args') as [t2|] eqn:?; [|done]. cbn. intros [= <-]. eauto 6.
Qed.

(** Whether the buffer or the absence of [%p] makes truncation a prefix. *)
Definition prefix_truncates (lim : Z) (ds : list directive) (txt : list Z) : Prop :=
  forallb (λ d, negb (is_pointer d)) ds = true ∨ zlen txt <= lim.

Lemma prefix_truncates_tail lim d ds out t1 t2 :
  0 <= lim → prefix_truncates lim (d :: ds) ((out ++ t1) ++ t2) →
  prefix_truncates lim ds (ztake lim (out ++ t1) ++ t2).
Proof.
  intros Hlim [[_ Hp]%andb_prop|Hfit]; [by left|right].
  rewrite ztake_ge; [done|]. pose proof (zlen_nonneg t2). zlen_lia.
Qed.

Lemma prefix_truncates_head lim pad w spec ds out t1 t2 :
  prefix_truncates lim (Conv pad w spec :: ds) ((out ++ t1) ++ t2) →
  spec ≠ ch "p" ∨ zlen (out ++ t1) <= lim.
Proof.
  intros [Hp|Hfit].
  - left. intros ->. cbn in Hp. by rewrite Z.eqb_refl in Hp.
  - right. pose proof (zlen_nonneg t2). zlen_lia.
Qed.

Lemma vsnprintf_loop_render fuel lim fmt args out ds txt :
  0 <= lim → zlen out <= lim → (length fmt < fuel)%nat →
  parse_fmt fuel fmt = Some ds → render ds args = Some txt → printable ds args = true →
  prefix_truncates lim ds (out ++ txt) →
  vsnprintf_loop fuel lim fmt args out = FOk (ztake lim (out ++ txt)).
Proof.
  intros Hlim. revert fmt args out ds txt.
  induction fuel as [|fuel IH]; intros fmt args out ds txt Hout Hfuel Hparse Hrender Hv Hp; [lia|].
  destruct fmt as [|c rest]; simpl in Hparse.
  { simplify_eq. simpl in Hrender. simplify_eq. cbn. by rewrite app_nil_r, ztake_ge. }
  cbn [vsnprintf_loop]. destruct (Z.ltb_spec (zlen out) lim) as [Hroom|].
  2: { rewrite ztake_full by lia. done. }
  destruct (Z.eqb_spec c (ch "%")) as [Hc|Hc].
  - pose proof (read_pad_char_shorter rest) as Hs1.
    destruct (read_pad_char rest) as [pad fmt1]. cbn [snd] in Hs1.
    destruct (read_pad_width 0 fmt1) as [[w [|spec fmt3]]|] eqn:Hw; [done| |done].
    apply read_pad_width_spec in Hw as [Hw Hs2]; [|lia].
    apply fmap_Some in Hparse as (ds' & Hds & ->).
    apply render_cons in Hrender as (t1 & args' & t2 & Hone & Hr2 & ->).
    cbn [printable] in Hv. rewrite Hone in Hv. apply andb_prop in Hv as [Hv1 Hv2].
    rewrite app_assoc in *. cbn [mbind fres_bind]. change (default 0 (head (spec :: fmt3))) with spec.
    rewrite (conv_render lim w pad spec args args' out t1);
      [|done..|by eapply prefix_truncates_head].
    cbn [mbind fres_bind]. rewrite (IH fmt3 args' _ ds' t2); [by rewrite ztake_ztake_app|..]; try done.
    + by apply zlen_ztake_le.
    + simpl in *. lia.
    + by eapply prefix_truncates_tail.
  - apply fmap_Some in Hparse as (ds' & Hds & ->).
    apply render_cons in Hrender as (t1 & args' & t2 & [= <- <-] & Hr2 & ->).
    rewrite app_assoc in *. rewrite put_char_spec by lia.
    rewrite (IH rest args _ ds' t2); [by rewrite ztake_ztake_app|..]; try done.
    + by apply zlen_ztake_le.
    + simpl in *. lia.
    + by eapply prefix_truncates_tail.
Qed.

Lemma my_vsnprintf_render size fmt args ds txt :
  1 <= size → directives fmt = Some ds → render ds args = Some txt → printable ds args = true →
  prefix_truncates (size - 1) ds txt →
  my_vsnprintf size fmt args = FOk (ztake (size - 1) txt).
Proof.
  intros Hs Hd Hr Hv Hp. unfold my_vsnprintf.
  rewrite (vsnprintf_loop_render _ _ _ _ [] ds txt); try done; [|zlen_lia..].
  pose proof (zlen_ztake_le (size - 1) txt ltac:(lia)). cbn.
  by destruct (Z.ltb_spec (zlen (ztake (size - 1) txt)) size); [|lia].
Qed.

(** ** Memory safety: the stores stay inside the buffer *)

Lemma put_bytes_bound lim str out : zlen out <= lim → zlen (put_bytes lim str out) <= lim.
Proof.
  intros. rewrite put_bytes_spec by done. apply zlen_ztake_le.
  pose proof (zlen_nonneg out). lia.
Qed.

Lemma put_pad_bound lim n c out : zlen out <= lim → zlen (put_pad lim n c out) <= lim.
Proof.
  intros. rewrite put_pad_spec, <- put_bytes_spec by done. by apply put_bytes_bound.
Qed.

Lemma put_char_bound lim c out : zlen out <= lim → zlen (put_char lim c out) <= lim.
Proof. apply (put_bytes_bound lim [c]). Qed.

Lemma put_number_bound lim w pad tmp out :
  zlen out <= lim → zlen (put_number lim w pad tmp out) <= lim.
Proof. intros. by apply put_bytes_bound, put_pad_bound. Qed.

Create HintDb fmt.
#[export] Hint Resolve put_bytes_bound put_pad_bound put_char_bound put_number_bound : fmt.

(** ** Overflow: where the code leaves the range of [int] *)

(** A number in the format that is no [int]. *)
Definition wide_number (fmt : list Z) : Prop :=
  ∃ a l b, fmt = a ++ l ++ b ∧ Forall (λ c, is_digit c = true) l ∧ 2 ^ 31 <= digits_value 10 l.

(** The value that cannot be negated. *)
Definition int_min_among (args : list arg) : Prop := ∃ w, AWord w ∈ args ∧ s32 w = INT_MIN.

Lemma wide_number_app a b : wide_number b → wide_number (a ++ b).
Proof.
  intros (x & l & y & -> & Hl). exists (a ++ x), l, y. by rewrite <- app_assoc.
Qed.

Lemma is_digit_value c : is_digit c = true → digit_value c = c - ch "0".
Proof.
  intros Hc%is_digit_range. unfold digit_value. change (ch "0") with 48 in *.
  by destruct (Z.ltb_spec c 58); [|lia].
Qed.

(** Reading a number fails for that reason only. *)
Lemma read_pad_width_result w pre fmt :
  Forall (λ c, is_digit c = true) pre → digits_value 10 pre = w →
  match read_pad_width w fmt with
  | FOk (_, rest) => ∃ l, fmt = l ++ rest
  | FErr e => e = Overflow ∧ wide_number (pre ++ fmt)
  end.
Proof.
  revert w pre. induction fmt as [|c fmt IH]; intros w pre Hpre Hw; simpl; [by exists []|].
  destruct (is_digit c) eqn:Hc; [|by exists []].
  assert (Forall (λ c, is_digit c = true) (pre ++ [c])) as Hpre'.
  { apply Forall_app_2; [done|]. by rewrite Forall_singleton. }
  assert (digits_value 10 (pre ++ [c]) = w * 10 + (c - ch "0")) as Hw'.
  { by rewrite digits_value_snoc, Hw, is_digit_value. }
  destruct (Z.ltb_spec (w * 10 + (c - ch "0")) (2 ^ 31)).
  - specialize (IH _ (pre ++ [c]) Hpre' Hw'). destruct (read_pad_width _ _) as [[w' rest]|e].
    + destruct IH as [l ->]. by exists (c :: l).
    + by rewrite <- app_assoc in IH.
  - split; [done|]. exists [], (pre ++ [c]), fmt. rewrite <- app_assoc. split_and!; [done..|lia].
Qed.

(** A result that keeps the bound or failed on its arguments. *)
Definition bounded (lim : Z) (args : list arg) (r : fres (list arg * list Z)) : Prop :=
  match r with
  | FOk (args', out) => zlen out <= lim ∧ ∃ used, args = used ++ args'
  | FErr e => e = BadArg ∨ e = Overflow ∧ int_min_among args
  end.

Lemma conv_bounded lim w pad spec args out :
  zlen out <= lim → bounded lim args (conv lim w pad spec args out).
Proof.
  intros Hout. unfold conv, conv_s, conv_c, conv_d, conv_u, conv_x, conv_p.
  repeat case_match; destruct args as [|[a|s] args];
    cbn -[INT_MIN s32 u32 Z.sub digits_unsigned]; try (by left); try (split; [|by exists []]);
    try (split; [|by eexists [_]]); auto with fmt.
  - destruct (Z.eqb_spec (s32 a) INT_MIN).
    + right. split; [done|]. exists a. split; [by left|done].
    + split; [auto with fmt|by eexists [_]].
  - apply put_bytes_bound. repeat case_match; zlen_lia.
Qed.

(** The errors of a run. *)
Definition run_error (fmt : list Z) (args : list arg) (e : fmt_error) : Prop :=
  e = BadArg ∨ e = PastEnd ∨ e = Overflow ∧ (int_min_among args ∨ wide_number fmt).

Lemma run_error_app a fmt b args e : run_error fmt args e → run_error (a ++ fmt) (b ++ args) e.
Proof.
  intros [?|[?|[? [(w & Hw & ?)|?]]]]; [by left|by right; left|right; right; split; [done|]..].
  - left. exists w. split; [|done]. apply elem_of_app. by right.
  - right. by apply wide_number_app.
Qed.

Lemma read_pad_char_suffix fmt : ∃ a, fmt = a ++ (read_pad_char fmt).2.
Proof. destruct fmt as [|c fmt]; [by exists []|]. simpl. case_match; [by exists [c]|by exists []]. Qed.

Lemma vsnprintf_loop_safe fuel lim fmt args out :
  zlen out <= lim → (length fmt < fuel)%nat →
  match vsnprintf_loop fuel lim fmt args out with
  | FOk out => zlen out <= lim
  | FErr e => run_error fmt args e
  end.
Proof.
  revert fmt args out. induction fuel as [|fuel IH]; intros fmt args out Hout Hfuel; [lia|].
  destruct fmt as [|c rest]; cbn [vsnprintf_loop]; [done|].
  destruct (zlen out <? lim); [|done].
  destruct (c =? ch "%").
  2: { specialize (IH rest args (put_char lim c out)).
       destruct (vsnprintf_loop _ _ _ _ _); [|apply (run_error_app [c] _ [])]; apply IH;
         auto with fmt; simpl in *; lia. }
  destruct (read_pad_char_suffix rest) as [a Ea]. destruct (read_pad_char rest) as [pad fmt1].
  cbn [snd] in Ea. subst rest. pose proof (read_pad_width_result 0 [] fmt1 ltac:(done) eq_refl) as Hr.
  destruct (read_pad_width 0 fmt1) as [[w fmt2]|e]; cbn [mbind fres_bind].
  2: { destruct Hr as [-> Hwide]. right; right. split; [done|]. right. by apply (wide_number_app (c :: a)). }
  destruct Hr as [l ->].
  pose proof (conv_bounded lim w pad (default 0 (head fmt2)) args out Hout) as Hb.
  destruct (conv _ _ _ _ _ _) as [[args' out']|e]; cbn [bounded] in Hb; cbn [mbind fres_bind].
  2: { destruct Hb as [?|[? ?]]; [by left|right; right]. split; [done|by left]. }
  destruct Hb as [Hout' [used ->]]. destruct fmt2 as [|spec fmt3]; [by right; left|].
  specialize (IH fmt3 args' out' Hout').
  replace (c :: a ++ l ++ spec :: fmt3) with ((c :: a ++ l ++ [spec]) ++ fmt3) in *
    by (cbn; by rewrite <- !app_assoc).
  rewrite length_app in Hfuel. cbn [length] in Hfuel.
  destruct (vsnprintf_loop _ _ _ _ _); [|apply run_error_app]; apply IH; lia.
Qed.

(** ** Typing of formats, the check [__attribute__((format(printf,1,2)))] asks for *)

Inductive kind := KWord | KStr.

#[global] Instance kind_eq_dec : EqDecision kind.
Proof. solve_decision. Defined.

Definition arg_kind (a : arg) : kind :=
  match a with AWord _ => KWord | AStr _ => KStr end.

(** The argument a specifier consumes. *)
Definition spec_kind (spec : Z) : option kind :=
  if spec =? ch "s" then Some KStr
  else if bool_decide (spec ∈ [ch "c"; ch "d"; ch "u"; ch "x"; ch "p"]) then Some KWord
  else None.

(** An argument of that kind, and not the one [%d] cannot negate. *)
Definition accepts (spec : Z) (k : kind) (a : arg) : bool :=
  bool_decide (k = arg_kind a) &&
  match a with AWord w => negb ((spec =? ch "d") && (s32 w =? INT_MIN)) | AStr _ => true end.

Fixpoint typed (ds : list directive) (args : list arg) : bool :=
  match ds with
  | [] => true
  | Lit _ :: ds => typed ds args
  | Conv _ _ spec :: ds =>
      match spec_kind spec, args with
      | None, _ => typed ds args
      | Some k, a :: args => accepts spec k a && typed ds args
      | Some _, [] => false
      end
  end.

Definition format_ok (fmt : list Z) (args : list arg) : bool :=
  match directives fmt with Some ds => typed ds args | None => false end.

Lemma conv_typed lim w pad spec args out :
  match spec_kind spec with
  | None => ∃ out', conv lim w pad spec args out = FOk (args, out')
  | Some k => ∀ a args', args = a :: args' → accepts spec k a = true →
      ∃ out', conv lim w pad spec args out = FOk (args', out')
  end.
Proof.
  unfold spec_kind, conv, accepts. destruct (Z.eqb_spec spec (ch "s")).
  { intros [a|s] args' -> Ha; [done|]. by eexists. }
  case_bool_decide as Hin.
  - rewrite !elem_of_cons, elem_of_nil in Hin. intros [a|s] args' -> Ha; [|done]. cbn [andb] in Ha.
    destruct (Z.eqb_spec spec (ch "c")); [by eexists|].
    destruct (Z.eqb_spec spec (ch "d")).
    { unfold conv_d. cbn -[s32 u32 digits_unsigned INT_MIN].
      destruct (s32 a =? INT_MIN); [done|by eexists]. }
    destruct (Z.eqb_spec spec (ch "u")); [by eexists|].
    destruct (Z.eqb_spec spec (ch "x")); [by eexists|].
    destruct (Z.eqb_spec spec (ch "p")); [by eexists|]. tauto.
  - repeat case_match; rewrite ?Z.eqb_eq in *; subst; try (by eexists);
      destruct Hin; rewrite !elem_of_cons; tauto.
Qed.

Lemma vsnprintf_loop_typed fuel lim fmt args out ds :
  (length fmt < fuel)%nat → parse_fmt fuel fmt = Some ds → typed ds args = true →
  ∃ out', vsnprintf_loop fuel lim fmt args out = FOk out'.
Proof.
  revert fmt args out ds. induction fuel as [|fuel IH]; intros fmt args out ds Hfuel Hp Ht; [lia|].
  destruct fmt as [|c rest]; cbn [vsnprintf_loop]; [by eexists|].
  destruct (zlen out <? lim); [|by eexists]. cbn [parse_fmt] in Hp.
  destruct (c =? ch "%").
  2: { apply fmap_Some in Hp as (ds' & Hds & ->).
       apply (IH _ _ _ ds'); [simpl in *; lia|done..]. }
  pose proof (read_pad_char_shorter rest) as Hs1.
  destruct (read_pad_char rest) as [pad fmt1]. cbn [snd] in Hs1.
  destruct (read_pad_width 0 fmt1) as [[w [|spec fmt3]]|] eqn:Hw; [done| |done].
  apply read_pad_width_spec in Hw as [_ Hs2]; [|lia]. cbn [mbind fres_bind].
  apply fmap_Some in Hp as (ds' & Hds & ->).
  change (default 0 (head (spec :: fmt3))) with spec.
  pose proof (conv_typed lim w pad spec args out) as Hc. cbn [typed] in Ht.
  destruct (spec_kind spec) as [k|].
  - destruct args as [|a args]; [done|]. apply andb_prop in Ht as [Hk Ht].
    destruct (Hc a args eq_refl Hk) as [out' ->].
    apply (IH _ _ _ ds'); [simpl in *; lia|done..].
  - destruct Hc as [out' ->]. apply (IH _ _ _ ds'); [simpl in *; lia|done..].
Qed.

Lemma my_vsnprintf_typed size fmt args :
  1 <= size → format_ok fmt args = true →
  ∃ out, my_vsnprintf size fmt args = FOk out ∧ zlen out < size.
Proof.
  intros Hs Hok. unfold format_ok, directives in Hok.
  destruct (parse_fmt _ _) as [ds|] eqn:Hd; [|done]. unfold my_vsnprintf.
  destruct (vsnprintf_loop_typed _ (size - 1) (c_str fmt) args [] ds (Nat.lt_succ_diag_r _) Hd Hok)
    as [out E].
  pose proof (vsnprintf_loop_safe (S (length (c_str fmt))) (size - 1) (c_str fmt) args []) as Hsafe.
  rewrite E in *. specialize (Hsafe ltac:(zlen_lia) ltac:(lia)).
  exists out. cbn. by destruct (Z.ltb_spec (zlen out) size); [split|lia].
Qed.

(** A format that is one conversion. *)
Lemma my_vsnprintf_one size spec args :
  2 <= size → spec = ch "d" ∨ spec = ch "u" →
  my_vsnprintf size [ch "%"; spec] args =
    ('(_, out) ← conv (size - 1) 0 (ch " ") spec args [];
     if zlen out <? size then FOk out else FErr NoRoom).
Proof.
  intros Hs Hspec. unfold my_vsnprintf.
  assert (c_str [ch "%"; spec] = [ch "%"; spec]) as -> by (by destruct Hspec as [-> | ->]).
  cbn [length]. set (n := 2%nat). cbn [vsnprintf_loop].
  assert ((zlen (@nil Z) <? size - 1) = true) as -> by (apply Z.ltb_lt; rewrite zlen_nil; lia).
  rewrite Z.eqb_refl.
  assert (read_pad_char [spec] = (ch " ", [spec])) as -> by (by destruct Hspec as [-> | ->]).
  assert (read_pad_width 0 [spec] = FOk (0, [spec])) as -> by (by destruct Hspec as [-> | ->]).
  cbn [mbind fres_bind head default]. change (default 0 (Some spec)) with spec.
  by destruct (conv _ _ _ _ _ _) as [[? ?]|].
Qed.

(** ** The properties of the formatter *)

(** C13: [my_vsnprintf] computes the reference text of its format, cut to the
    [size - 1] bytes the buffer has room for: for every well-formed format and
    matching arguments the stored bytes are the first [size - 1] of the rendered
    directives.  Three things are asked for: no [%d] gets [INT_MIN], every [%u]
    gets a value below 2^31, and the format has no [%p] or the whole text fits (a
    cut [%p] drops its [0x] and keeps digits, see [pointer_truncation]). *)
Theorem my_vsnprintf_refines_render size fmt args ds txt :
  1 <= size → directives fmt = Some ds → render ds args = Some txt → printable ds args = true →
  prefix_truncates (size - 1) ds txt →
  my_vsnprintf size fmt args = FOk (ztake (size - 1) txt).
Proof. apply my_vsnprintf_render. Qed.

Lemma my_vsnprintf_refines_render_witness :
  my_vsnprintf 16 (C "[%u] at %08x, %s") [AWord 7; AWord 0xB8000; AStr (Some (C "vga"))]
  = FOk (ztake 15 (C "[7] at 000b8000, vga")).
Proof.
  eapply (my_vsnprintf_refines_render 16); [lia|reflexivity| |reflexivity|left; reflexivity].
  vm_compute. reflexivity.
Defined.

Example pointer_truncation :
  my_vsnprintf 3 (C "@%p") [AWord 0xDEAD] = FOk (C "@d").
Proof. reflexivity. Qed.

(** C28: memory safety and termination for arbitrary input.  With a buffer of at
    least one byte, whatever the format and the arguments, the format loop ends
    within one turn per format byte, and every store, the final NUL included,
    is inside the buffer; the only failures are a missing or wrong argument, a
    format pointer that runs past its terminator, and signed overflow, which
    needs [INT_MIN] among the arguments or a number in the format that is no
    [int]. *)
Theorem my_vsnprintf_memory_safe size fmt args :
  1 <= size →
  match my_vsnprintf size fmt args with
  | FOk out => zlen out <= size - 1
  | FErr e => e = BadArg ∨ e = PastEnd ∨
      e = Overflow ∧ (int_min_among args ∨ wide_number (c_str fmt))
  end.
Proof.
  intros Hs. unfold my_vsnprintf.
  pose proof (vsnprintf_loop_safe (S (length (c_str fmt))) (size - 1) (c_str fmt) args []
    ltac:(zlen_lia) ltac:(lia)) as Hsafe.
  destruct (vsnprintf_loop _ _ _ _ _) as [out|e]; cbn; [|exact Hsafe].
  destruct (Z.ltb_spec (zlen out) size); lia.
Qed.

Lemma my_vsnprintf_memory_safe_witness :
  match my_vsnprintf 4 (C "%s%") [AStr (Some (C "ab"))] with
  | FOk out => zlen out <= 4 - 1
  | FErr e => e = BadArg ∨ e = PastEnd ∨
      e = Overflow ∧ (int_min_among [AStr (Some (C "ab"))] ∨ wide_number (c_str (C "%s%")))
  end.
Proof. apply (my_vsnprintf_memory_safe 4 (C "%s%")). lia. Defined.

(** C29: well-typed formats do not go wrong.  When the format parses, its widths
    are [int]s, its specifiers match the kinds of the arguments, which is what the
    [format] attribute of [printk] and [panik] asks the compiler to check, and no
    [%d] gets [INT_MIN], formatting succeeds without undefined behaviour for every
    other value of the arguments and every buffer; and [%d] of [INT_MIN] does not. *)
Theorem my_vsnprintf_type_safe size fmt args :
  1 <= size →
  (format_ok fmt args = true → ∃ out, my_vsnprintf size fmt args = FOk out ∧ zlen out < size) ∧
  (2 <= size → ∀ w, s32 w = INT_MIN → my_vsnprintf size (C "%d") [AWord w] = FErr Overflow).
Proof.
  intros Hs. split; [by apply my_vsnprintf_typed|]. intros Hs2 w Hw.
  change (C "%d") with [ch "%"; ch "d"]. rewrite my_vsnprintf_one by (done || by left).
  unfold conv. cbn -[s32 INT_MIN u32]. by rewrite Hw.
Qed.

Lemma my_vsnprintf_type_safe_witness :
  (format_ok (C "Page fault: CR2=0x%x EIP=0x%x (%s)") [AWord 0xDEADBEEF; AWord 0x12345678; AStr None]
     = true →
   ∃ out, my_vsnprintf 256 (C "Page fault: CR2=0x%x EIP=0x%x (%s)")
    [AWord 0xDEADBEEF; AWord 0x12345678; AStr None] = FOk out ∧ zlen out < 256) ∧
  (2 <= 256 → ∀ w, s32 w = INT_MIN → my_vsnprintf 256 (C "%d") [AWord w] = FErr Overflow) ∧
  format_ok (C "Page fault: CR2=0x%x EIP=0x%x (%s)") [AWord 0xDEADBEEF; AWord 0x12345678; AStr None]
    = true.
Proof.
  destruct (my_vsnprintf_type_safe 256 (C "Page fault: CR2=0x%x EIP=0x%x (%s)")
    [AWord 0xDEADBEEF; AWord 0x12345678; AStr None]) as [H1 H2]; [lia|].
  split; [exact H1|split; [exact H2|vm_compute; reflexivity]].
Defined.

Lemma zlen_num_str base n k :
  2 <= base → 0 <= n < base ^ Z.of_nat k → (0 < k <= 32)%nat → zlen (num_str base n) <= Z.of_nat k.
Proof.
  intros. rewrite <- (digits_unsigned_num_str k), zlen_reverse by done.
  pose proof (digits_unsigned_length k base n). unfold zlen. lia.
Qed.

Lemma zlen_dec_str w : zlen (dec_str w) <= 11.
Proof.
  unfold dec_str. pose proof (s32_range w).
  assert (∀ n, 0 <= n <= 2 ^ 31 → zlen (num_str 10 n) <= 10) as Hl.
  { intros. apply (zlen_num_str 10 _ 10); lia. }
  case_match; rewrite ?zlen_cons; [specialize (Hl (- s32 w))|specialize (Hl (s32 w))]; lia.
Qed.

Lemma zlen_hex_str w : zlen (hex_str w) <= 8.
Proof. pose proof (u32_range w). apply (zlen_num_str 16 _ 8); lia. Qed.

Lemma padded_none pad body : padded pad 0 body = body.
Proof.
  unfold padded. pose proof (zlen_nonneg body).
  by replace (Z.to_nat (0 - zlen body)) with O by lia.
Qed.

(** A conversion without padding, when its whole text fits. *)
Lemma print_one size spec w txt :
  spec ∈ [ch "d"; ch "u"; ch "x"] → 12 <= size → zlen txt <= 11 →
  render_one (Conv (ch " ") 0 spec) [AWord w] = Some (padded (ch " ") 0 txt, []) →
  value_ok (Conv (ch " ") 0 spec) [AWord w] = true →
  my_vsnprintf size [ch "%"; spec] [AWord w] = FOk txt.
Proof.
  intros Hspec Hs Hl Hr Hv. rewrite (my_vsnprintf_render size _ _ [Conv (ch " ") 0 spec] txt).
  - by rewrite ztake_ge by lia.
  - lia.
  - rewrite !elem_of_cons, elem_of_nil in Hspec. by destruct Hspec as [-> |[-> |[-> |[]]]].
  - cbn [render]. rewrite Hr. cbn. by rewrite padded_none, app_nil_r.
  - cbn [printable]. by rewrite Hv, Hr.
  - right. lia.
Qed.

(** C32: [%d], [%u] and [%x] print numerals.  For every 32-bit word, [%x] prints
    the canonical hexadecimal numeral of its unsigned value; [%u] the canonical
    decimal numeral of it, when it is below 2^31; and [%d] the canonical decimal
    numeral of its signed value, a minus sign and the numeral of the absolute
    value when it is negative, unless it is [INT_MIN]. *)
Theorem number_conversions_print_numerals size w :
  12 <= size →
  (s32 w ≠ INT_MIN → ∃ l, my_vsnprintf size (C "%d") [AWord w]
     = FOk (if s32 w <? 0 then ch "-" :: l else l) ∧ numeral 10 (Z.abs (s32 w)) l) ∧
  (u32 w < 2 ^ 31 → ∃ l, my_vsnprintf size (C "%u") [AWord w] = FOk l ∧ numeral 10 (u32 w) l) ∧
  (∃ l, my_vsnprintf size (C "%x") [AWord w] = FOk l ∧ numeral 16 (u32 w) l).
Proof.
  intros Hs. pose proof (s32_range w). pose proof (u32_range w). split_and!.
  - intros Hw. exists (num_str 10 (Z.abs (s32 w))). split; [|apply num_str_numeral; lia].
    change (C "%d") with [ch "%"; ch "d"]. rewrite (print_one size _ w (dec_str w)); try done.
    + unfold dec_str. destruct (Z.ltb_spec (s32 w) 0); [by rewrite Z.abs_neq by lia|by rewrite Z.abs_eq].
    + by left.
    + apply zlen_dec_str.
    + cbn -[s32 INT_MIN]. by destruct (Z.eqb_spec (s32 w) INT_MIN).
  - intros Hw. exists (num_str 10 (u32 w)). split; [|apply num_str_numeral; lia].
    change (C "%u") with [ch "%"; ch "u"]. apply print_one; try done.
    + by right; left.
    + pose proof (zlen_num_str 10 (u32 w) 10). lia.
    + cbn -[u32]. by apply Z.ltb_lt.
  - exists (hex_str w). split; [|apply num_str_numeral; lia].
    change (C "%x") with [ch "%"; ch "x"]. apply print_one; try done.
    + by right; right; left.
    + pose proof (zlen_hex_str w). lia.
Qed.

Lemma number_conversions_print_numerals_witness :
  (s32 (2 ^ 31 - 1) ≠ INT_MIN → ∃ l, my_vsnprintf 12 (C "%d") [AWord (2 ^ 31 - 1)]
     = FOk (if s32 (2 ^ 31 - 1) <? 0 then ch "-" :: l else l) ∧
       numeral 10 (Z.abs (s32 (2 ^ 31 - 1))) l) ∧
  (u32 (2 ^ 31 - 1) < 2 ^ 31 → ∃ l, my_vsnprintf 12 (C "%u") [AWord (2 ^ 31 - 1)] = FOk l ∧
     numeral 10 (u32 (2 ^ 31 - 1)) l) ∧
  (∃ l, my_vsnprintf 12 (C "%x") [AWord (2 ^ 31 - 1)] = FOk l ∧ numeral 16 (u32 (2 ^ 31 - 1)) l) ∧
  s32 (2 ^ 31 - 1) ≠ INT_MIN ∧ u32 (2 ^ 31 - 1) < 2 ^ 31.
Proof.
  destruct (number_conversions_print_numerals 12 (2 ^ 31 - 1)) as (H1 & H2 & H3); [lia|].
  split; [exact H1|split; [exact H2|split; [exact H3|split; [discriminate|reflexivity]]]].
Defined.

(** [%u] is wrong from 2^31 on.  There the argument is negative as the [int] it is
    read into, and what is printed is the numeral of [2^32 - w] with every digit
    [d] replaced by the character of code [48 - d], which is no numeral of [w]. *)
Theorem percent_u_signed_digits size w :
  12 <= size → 2 ^ 31 <= w < 2 ^ 32 →
  ∃ l, numeral 10 (2 ^ 32 - w) l ∧
    my_vsnprintf size (C "%u") [AWord w] = FOk ((λ c, 96 - c) <$> l) ∧
    ¬ numeral 10 w ((λ c, 96 - c) <$> l).
Proof.
  intros Hs Hw. assert (s32 w = w - 2 ^ 32) as Es by zify_mod.
  pose proof (num_str_numeral 10 (2 ^ 32 - w) ltac:(lia) ltac:(lia)) as Hn.
  pose proof (zlen_num_str 10 (2 ^ 32 - w) 10 ltac:(lia) ltac:(lia) ltac:(lia)) as Hlen.
  exists (num_str 10 (2 ^ 32 - w)). split_and!; [done|..].
  - assert (signed_digits_str w = (λ c, 96 - c) <$> num_str 10 (2 ^ 32 - w)) as Et.
    { unfold signed_digits_str. rewrite Es. destruct (Z.ltb_spec (w - 2 ^ 32) 0); [|lia].
      do 2 f_equal. lia. }
    change (C "%u") with [ch "%"; ch "u"]. rewrite my_vsnprintf_one by (lia || by right).
    change (conv (size - 1) 0 (ch " ") (ch "u")) with (conv_u (size - 1) 0 (ch " ")).
    rewrite (conv_u_text (size - 1) 0 (ch " ") [AWord w] [] []) with (a := w); [|lia|lia|rewrite zlen_nil; lia|done].
    cbn [mbind fres_bind app]. rewrite padded_none, Et.
    assert (zlen ((λ c, 96 - c) <$> num_str 10 (2 ^ 32 - w)) <= 10) as Hl by (unfold zlen in *; by rewrite length_fmap).
    rewrite ztake_ge by lia. by destruct (Z.ltb_spec (zlen ((λ c, 96 - c) <$> num_str 10 (2 ^ 32 - w))) size); [|lia].
  - destruct Hn as (Hne & Hd & _ & Hz).
    destruct (num_str 10 (2 ^ 32 - w)) as [|c l] eqn:E; [done|].
    intros (_ & Hd' & _). rewrite fmap_cons, Forall_cons in Hd'.
    destruct Hd' as [[[Hc _] _] _]. apply Forall_cons in Hd as [[Hc' Ec] _].
    unfold digit_value in Hc, Hc', Ec. revert Ec. unfold digit_char.
    change (ch "0") with 48. change (ch "a") with 97.
    destruct (Z.ltb_spec c 58), (Z.ltb_spec (96 - c) 58); try lia.
    intros _. assert (c = 48) as -> by lia. specialize (Hz eq_refl).
    pose proof (num_str_numeral 10 (2 ^ 32 - w) ltac:(lia) ltac:(lia)) as (_ & _ & Hv & _).
    rewrite E, Hz in Hv. unfold digits_value, digit_value in Hv. simpl in Hv. lia.
Qed.

Lemma percent_u_signed_digits_witness :
  ∃ l, numeral 10 (2 ^ 32 - 0xFFFFFFFF) l ∧
    my_vsnprintf 12 (C "%u") [AWord 0xFFFFFFFF] = FOk ((λ c, 96 - c) <$> l) ∧
    ¬ numeral 10 0xFFFFFFFF ((λ c, 96 - c) <$> l).
Proof. apply (percent_u_signed_digits 12 0xFFFFFFFF); lia. Defined.

Lemma read_pad_width_app w fmt w' c rest g :
  read_pad_width w fmt = FOk (w', c :: rest) →
  read_pad_width w (fmt ++ g) = FOk (w', (c :: rest) ++ g).
Proof.
  revert w. induction fmt as [|a fmt IH]; intros w; simpl; [done|].
  destruct (is_digit a); [|by intros [= <- <- <-]].
  destruct (Z.ltb_spec (w * 10 + (a - ch "0")) (2 ^ 31)); [|done]. by apply IH.
Qed.

Lemma read_pad_char_app fmt g :
  fmt ≠ [] → read_pad_char (fmt ++ g) = ((read_pad_char fmt).1, (read_pad_char fmt).2 ++ g).
Proof. destruct fmt as [|c fmt]; [done|]. intros _. simpl. by destruct (c =? ch "0"). Qed.

Lemma vsnprintf_loop_trailing fuel lim fmt args out ds txt :
  zlen (out ++ txt) < lim → (length fmt < fuel)%nat →
  parse_fmt fuel fmt = Some ds → render ds args = Some txt → printable ds args = true →
  vsnprintf_loop (S fuel) lim (fmt ++ [ch "%"]) args out = FErr PastEnd.
Proof.
  revert fmt args out ds txt.
  induction fuel as [|fuel IH]; intros fmt args out ds txt Hfit Hfuel Hparse Hrender Hv; [lia|].
  assert (zlen out < lim) as Hout by (pose proof (zlen_nonneg txt); zlen_lia).
  apply Z.ltb_lt in Hout as Eout.
  destruct fmt as [|c rest].
  { cbn [vsnprintf_loop app]. by rewrite Eout. }
  cbn [app]. remember (S fuel) as fuel' eqn:Ef. cbn [vsnprintf_loop]. rewrite Eout. subst fuel'.
  cbn [parse_fmt] in Hparse. destruct (Z.eqb_spec c (ch "%")) as [Hc|Hc].
  - pose proof (read_pad_char_shorter rest) as Hs1.
    destruct (decide (rest = [])) as [->|Hne]; [done|].
    rewrite read_pad_char_app by done.
    destruct (read_pad_char rest) as [pad fmt1]. cbn [fst snd] in *.
    destruct (read_pad_width 0 fmt1) as [[w [|spec fmt3]]|] eqn:Hw; [done| |done].
    rewrite (read_pad_width_app 0 fmt1 w spec fmt3) by done.
    apply read_pad_width_spec in Hw as [Hw Hs2]; [|lia].
    apply fmap_Some in Hparse as (ds' & Hds & ->).
    apply render_cons in Hrender as (t1 & args' & t2 & Hone & Hr2 & ->).
    cbn [printable] in Hv. rewrite Hone in Hv. apply andb_prop in Hv as [Hv1 Hv2].
    pose proof (zlen_nonneg t2). pose proof (zlen_nonneg out). cbn [app mbind fres_bind].
    change (default 0 (head (spec :: fmt3 ++ [ch "%"]))) with spec.
    rewrite (conv_render lim w pad spec args args' out t1); [|done|zlen_lia..|done|done|right; zlen_lia].
    cbn [mbind fres_bind]. apply (IH fmt3 args' _ ds' t2); [|simpl in *; lia|done..].
    rewrite ztake_ge by zlen_lia. zlen_lia.
  - apply fmap_Some in Hparse as (ds' & Hds & ->).
    apply render_cons in Hrender as (t1 & args' & t2 & [= <- <-] & Hr2 & ->).
    unfold put_char. rewrite Eout.
    apply (IH rest args _ ds' t2); [zlen_lia|simpl in *; lia|done..].
Qed.

(** A format that ends in a bare [%] makes the format pointer run past its
    terminator: the [switch] takes the NUL for a specifier, copies it, and the
    next turn reads beyond the string.  For every well-formed format whose text
    leaves room in the buffer, adding a final [%] turns success into that error. *)
Theorem trailing_percent_reads_past_end size fmt args ds txt :
  Forall (λ c, c ≠ 0) fmt → directives fmt = Some ds → render ds args = Some txt →
  printable ds args = true → zlen txt < size - 1 →
  my_vsnprintf size fmt args = FOk txt ∧
  my_vsnprintf size (fmt ++ [ch "%"]) args = FErr PastEnd.
Proof.
  intros Hnz Hd Hr Hv Hfit. pose proof (zlen_nonneg txt). split.
  - rewrite (my_vsnprintf_render size fmt args ds txt); [by rewrite ztake_ge by lia|lia|done..|].
    right. lia.
  - unfold my_vsnprintf, directives in *. rewrite c_str_app by done.
    rewrite c_str_id in Hd by done. change (c_str [ch "%"]) with [ch "%"].
    rewrite length_app, Nat.add_comm. cbn [length Nat.add].
    by rewrite (vsnprintf_loop_trailing _ _ fmt args [] ds txt); [|cbn; lia|lia|done..].
Qed.

Lemma trailing_percent_reads_past_end_witness :
  my_vsnprintf 64 (C "100") [] = FOk (C "100") ∧
  my_vsnprintf 64 (C "100" ++ [ch "%"]) [] = FErr PastEnd.
Proof.
  apply (trailing_percent_reads_past_end 64 (C "100") [] [Lit 49; Lit 48; Lit 48]).
  - repeat constructor; discriminate.
  - reflexivity.
  - reflexivity.
  - reflexivity.
  - reflexivity.
Defined.
