(* ===== verification/Descriptors.v ===== *)
(** * Descriptor tables: the data of [idt.c], [gdt.c] and [tss.c]

    The packed structures of [idt.h], [gdt.h] and [tss.h], the field
    arithmetic that fills them, and how the processor (and the kernel's own
    [debug_gdt_entry]) reads them back.  The functions that also print or load
    a register are in [Arch.v]. *)

From Stdlib Require Import ZArith Lia.
From stdpp Require Import base gmap list.
From S2P Require Import Prelude.

(** ** Interrupt gates *)

Definition IDT_ENTRIES : Z := 256.

Record idt_entry := IdtEntry {
  base_low : Z;    (* uint16_t *)
  sel : Z;         (* uint16_t *)
  always0 : Z;     (* uint8_t *)
  flags : Z;       (* uint8_t *)
  base_high : Z;   (* uint16_t *)
}.

#[global] Instance idt_entry_eq_dec : EqDecision idt_entry.
Proof. solve_decision. Defined.

Record idt_ptr_t := IdtPtr { idt_limit : Z; idt_base : Z }.

Definition idt_entry_zero : idt_entry := IdtEntry 0 0 0 0 0.

(** The entry [idt_set_gate] stores. *)
Definition gate_entry (base sel flags : Z) : idt_entry :=
  IdtEntry (Z.land base 0xFFFF) sel 0 flags (Z.land (Z.shiftr base 16) 0xFFFF).

(** The entry [set_task_gate] stores. *)
Definition task_gate_entry (sel : Z) : idt_entry := IdtEntry 0 sel 0 0x85 0.

(** What the processor takes from a gate: the handler's offset, and the present
    bit, the privilege level and the type of the flags byte. *)
Definition gate_offset (e : idt_entry) : Z := Z.lor (Z.shiftl (base_high e) 16) (base_low e).
Definition gate_present (e : idt_entry) : bool := Z.testbit (flags e) 7.
Definition gate_dpl (e : idt_entry) : Z := Z.land (Z.shiftr (flags e) 5) 3.
Definition gate_type (e : idt_entry) : Z := Z.land (flags e) 0x0F.

Lemma split_high_low v : 0 <= v < 2 ^ 32 →
  Z.lor (Z.shiftl (Z.land (Z.shiftr v 16) 0xFFFF) 16) (Z.land v 0xFFFF) = v.
Proof.
  intros Hv. rewrite !land_ffff, Z.shiftr_div_pow2, Z.shiftl_mul_pow2 by lia.
  rewrite (lor_disjoint _ _ 16); [zify_mod|lia|zify_mod|zify_mod].
Qed.

Lemma gate_entry_offset base sel flags :
  0 <= base < 2 ^ 32 → gate_offset (gate_entry base sel flags) = base.
Proof. apply split_high_low. Qed.

(** ** Segment descriptors *)

Record gdt_entry := GdtEntry {
  limit_low : Z;      (* uint16_t *)
  gbase_low : Z;      (* uint16_t *)
  gbase_middle : Z;   (* uint8_t *)
  access : Z;         (* uint8_t *)
  granularity : Z;    (* uint8_t *)
  gbase_high : Z;     (* uint8_t *)
}.

#[global] Instance gdt_entry_eq_dec : EqDecision gdt_entry.
Proof. solve_decision. Defined.

Record gdt_ptr := GdtPtr { gdt_limit : Z; gdt_base : Z }.

Definition gdt_entry_zero : gdt_entry := GdtEntry 0 0 0 0 0 0.

Definition GDT_ENTRIES : Z := 4.

(** The entry [set_gdt_entry] stores. *)
Definition make_gdt_entry (base limit access gran : Z) : gdt_entry :=
  GdtEntry (Z.land limit 0xFFFF) (Z.land base 0xFFFF) (Z.land (Z.shiftr base 16) 0xFF)
    access
    (Z.lor (Z.land (Z.shiftr limit 16) 0x0F) (Z.land gran 0xF0))
    (Z.land (Z.shiftr base 24) 0xFF).

(** The base and limit [debug_gdt_entry] prints. *)
Definition gdt_entry_base (e : gdt_entry) : Z :=
  Z.lor (Z.lor (Z.shiftl (gbase_high e) 24) (Z.shiftl (gbase_middle e) 16)) (gbase_low e).
Definition gdt_entry_limit (e : gdt_entry) : Z :=
  Z.lor (Z.shiftl (Z.land (granularity e) 0x0F) 16) (limit_low e).

(** The last byte offset the processor allows: the limit counts pages when
    the granularity flag is set. *)
Definition gdt_entry_last (e : gdt_entry) : Z :=
  if Z.testbit (granularity e) 7 then gdt_entry_limit e * 4096 + 4095 else gdt_entry_limit e.

Lemma make_gdt_entry_base base limit access gran :
  0 <= base < 2 ^ 32 → gdt_entry_base (make_gdt_entry base limit access gran) = base.
Proof.
  intros Hb. unfold gdt_entry_base. cbn [gbase_high gbase_middle gbase_low make_gdt_entry].
  rewrite !land_ff, land_ffff, !Z.shiftr_div_pow2, !Z.shiftl_mul_pow2 by lia.
  rewrite (lor_disjoint _ (base / 2 ^ 16 mod 256 * 2 ^ 16) 24) by zify_mod.
  rewrite (lor_disjoint _ _ 16) by zify_mod. zify_mod.
Qed.

(** The granularity byte keeps the limit's high bits apart from the flags. *)
Lemma granularity_split limit gran :
  Z.land (Z.lor (Z.land (Z.shiftr limit 16) 0x0F) (Z.land gran 0xF0)) 0x0F
  = Z.land (Z.shiftr limit 16) 0x0F.
Proof.
  rewrite Z.land_lor_distr_l, <- !Z.land_assoc.
  change (Z.land 0xF0 0x0F) with 0. change (Z.land 0x0F 0x0F) with 0x0F.
  by rewrite Z.land_0_r, Z.lor_0_r.
Qed.

Lemma make_gdt_entry_limit base limit access gran :
  0 <= limit < 2 ^ 20 → gdt_entry_limit (make_gdt_entry base limit access gran) = limit.
Proof.
  intros Hl. unfold gdt_entry_limit. cbn [limit_low granularity make_gdt_entry].
  rewrite granularity_split, land_ffff, Z.shiftr_div_pow2, Z.shiftl_mul_pow2 by lia.
  change 0x0F with (2 ^ 4 - 1). rewrite land_ones_mod by lia.
  rewrite (lor_disjoint _ _ 16) by zify_mod. zify_mod.
Qed.

(** [ltr] sets the busy bit of the descriptor it loads. *)
Definition set_busy (e : gdt_entry) : gdt_entry :=
  GdtEntry (limit_low e) (gbase_low e) (gbase_middle e) (Z.lor (access e) 2) (granularity e)
    (gbase_high e).

(** A task can be entered when its descriptor is present and of the type of an
    available 32-bit task state segment. *)
Definition tss_available (e : gdt_entry) : bool :=
  Z.testbit (access e) 7 && (Z.land (access e) 0x1F =? 9).

Lemma set_busy_base e : gdt_entry_base (set_busy e) = gdt_entry_base e.
Proof. done. Qed.

(** ** The double-fault task state segment *)

Record tss_entry := TssEntry {
  prev_tss : Z; esp0 : Z; ss0 : Z; esp1 : Z; ss1 : Z; esp2 : Z; ss2 : Z;
  tss_cr3 : Z; tss_eip : Z; tss_eflags : Z;
  tss_eax : Z; tss_ecx : Z; tss_edx : Z; tss_ebx : Z;
  tss_esp : Z; tss_ebp : Z; tss_esi : Z; tss_edi : Z;
  tss_es : Z; tss_cs : Z; tss_ss : Z; tss_ds : Z; tss_fs : Z; tss_gs : Z;
  tss_ldt : Z; tss_trap : Z; tss_iomap_base : Z;
}.

(** [sizeof(struct tss_entry)]: 25 words and two half-words, packed. *)
Definition sizeof_tss : Z := 25 * 4 + 2 * 2.

Definition tss_zero : tss_entry :=
  TssEntry 0 0 0 0 0 0 0 0 0 0 0 0 0 0 0 0 0 0 0 0 0 0 0 0 0 0 0.

Definition set_tss_cr3 (v : Z) (t : tss_entry) : tss_entry :=
  TssEntry (prev_tss t) (esp0 t) (ss0 t) (esp1 t) (ss1 t) (esp2 t) (ss2 t)
    v (tss_eip t) (tss_eflags t) (tss_eax t) (tss_ecx t) (tss_edx t) (tss_ebx t)
    (tss_esp t) (tss_ebp t) (tss_esi t) (tss_edi t)
    (tss_es t) (tss_cs t) (tss_ss t) (tss_ds t) (tss_fs t) (tss_gs t)
    (tss_ldt t) (tss_trap t) (tss_iomap_base t).

(** The contents [init_tss] leaves: everything zero but the entry state of the
    double-fault task. *)
Definition tss_init (stack_top eip cr3 : Z) : tss_entry :=
  TssEntry 0 0 0 0 0 0 0
    cr3 eip 0x202 0 0 0 0
    stack_top 0 0 0
    0x10 0x08 0x10 0x10 0x10 0x10
    0 0 0.
