(* ===== verification/Machine.v ===== *)
(** * The machine: physical memory, control registers and the paging unit

    What the C code and its inline assembly run on.  Physical memory is a map
    from addresses to bytes, little-endian; an access to a linear address goes
    through the two-level page tables when [CR0.PG] is set, the walk the
    comments of [kernel/memory/paging.c] describe.  The kernel runs in ring 0
    with [CR0.WP] and [CR4.PSE] clear (nothing under [kernel/] sets them), so
    only the present bits decide whether an access faults.  An
    access always sees the tables in memory, and an [invlpg] is recorded as an
    event; [Tlb] adds the translation cache. *)

From Stdlib Require Import ZArith Lia.
From stdpp Require Import base gmap list.
From S2P Require Import Prelude.

(** ** Physical memory *)

Abbreviation memory := (gmap Z Z).

Definition rd8 (m : memory) (a : Z) : Z := u8 (default 0 (m !! a)).
Definition wr8 (m : memory) (a v : Z) : memory := <[a := u8 v]> m.

Definition rd16 (m : memory) (a : Z) : Z := rd8 m a + 2 ^ 8 * rd8 m (a + 1).

Definition wr16 (m : memory) (a v : Z) : memory :=
  wr8 (wr8 m a v) (a + 1) (Z.shiftr v 8).

Definition rd32 (m : memory) (a : Z) : Z :=
  rd8 m a + 2 ^ 8 * rd8 m (a + 1) + 2 ^ 16 * rd8 m (a + 2) + 2 ^ 24 * rd8 m (a + 3).

Definition wr32 (m : memory) (a v : Z) : memory :=
  wr8 (wr8 (wr8 (wr8 m a v) (a + 1) (Z.shiftr v 8)) (a + 2) (Z.shiftr v 16))
    (a + 3) (Z.shiftr v 24).

Definition rd64 (m : memory) (a : Z) : Z := rd32 m a + 2 ^ 32 * rd32 m (a + 4).

#[global] Arguments rd64 _ _ : simpl never.
#[global] Arguments rd8 _ _ : simpl never.
#[global] Arguments wr8 _ _ _ : simpl never.
#[global] Arguments rd16 _ _ : simpl never.
#[global] Arguments wr16 _ _ _ : simpl never.
#[global] Arguments rd32 _ _ : simpl never.
#[global] Arguments wr32 _ _ _ : simpl never.

Lemma rd8_range m a : 0 <= rd8 m a < 256.
Proof. apply u8_range. Qed.

Lemma rd8_wr8_eq m a v : rd8 (wr8 m a v) a = u8 v.
Proof. unfold rd8, wr8. rewrite lookup_insert_eq. simpl. zify_mod. Qed.

Lemma rd8_wr8_ne m a b v : a ≠ b → rd8 (wr8 m a v) b = rd8 m b.
Proof. intros. unfold rd8, wr8. by rewrite lookup_insert_ne. Qed.

Lemma rd32_range m a : 0 <= rd32 m a < 2 ^ 32.
Proof.
  unfold rd32. pose proof (rd8_range m a). pose proof (rd8_range m (a + 1)).
  pose proof (rd8_range m (a + 2)). pose proof (rd8_range m (a + 3)). lia.
Qed.

Lemma rd8_wr16_ne m a b v : b < a ∨ a + 2 <= b → rd8 (wr16 m a v) b = rd8 m b.
Proof. intros. unfold wr16. rewrite !rd8_wr8_ne; [done|lia..]. Qed.

Lemma rd8_wr32_ne m a b v : b < a ∨ a + 4 <= b → rd8 (wr32 m a v) b = rd8 m b.
Proof. intros. unfold wr32. rewrite !rd8_wr8_ne; [done|lia..]. Qed.

Lemma rd16_wr16_eq m a v : rd16 (wr16 m a v) a = u16 v.
Proof.
  unfold rd16, wr16. rewrite rd8_wr8_ne, !rd8_wr8_eq by lia.
  rewrite Z.shiftr_div_pow2 by lia. zify_mod.
Qed.

Lemma bytes_of_word v :
  v mod 2 ^ 8 + 2 ^ 8 * (v / 2 ^ 8 mod 2 ^ 8) + 2 ^ 16 * (v / 2 ^ 16 mod 2 ^ 8)
    + 2 ^ 24 * (v / 2 ^ 24 mod 2 ^ 8) = v mod 2 ^ 32.
Proof. Z.div_mod_to_equations. lia. Qed.

Lemma rd32_wr32_eq m a v : rd32 (wr32 m a v) a = u32 v.
Proof.
  unfold rd32, wr32.
  rewrite !rd8_wr8_eq, (rd8_wr8_ne _ _ a), (rd8_wr8_ne _ _ a), (rd8_wr8_ne _ _ a), rd8_wr8_eq by lia.
  rewrite (rd8_wr8_ne _ _ (a + 1)), (rd8_wr8_ne _ _ (a + 1)), rd8_wr8_eq by lia.
  rewrite (rd8_wr8_ne _ _ (a + 2)), rd8_wr8_eq by lia.
  rewrite !Z.shiftr_div_pow2 by lia. apply bytes_of_word.
Qed.

(** A word read depends on its four bytes only. *)
Lemma rd32_agree m m' a :
  (∀ b, a <= b < a + 4 → rd8 m' b = rd8 m b) → rd32 m' a = rd32 m a.
Proof. intros Heq. unfold rd32. rewrite !Heq by lia. done. Qed.

Lemma rd64_agree m m' a :
  (∀ b, a <= b < a + 8 → rd8 m' b = rd8 m b) → rd64 m' a = rd64 m a.
Proof.
  intros Heq. unfold rd64.
  rewrite (rd32_agree m m' a), (rd32_agree m m' (a + 4)) by (intros; apply Heq; lia). done.
Qed.

Lemma rd64_range m a : 0 <= rd64 m a < 2 ^ 64.
Proof. unfold rd64. pose proof (rd32_range m a). pose proof (rd32_range m (a + 4)). lia. Qed.

Lemma rd16_agree m m' a :
  (∀ b, a <= b < a + 2 → rd8 m' b = rd8 m b) → rd16 m' a = rd16 m a.
Proof. intros Heq. unfold rd16. rewrite !Heq by lia. done. Qed.

Lemma rd32_wr32_ne m a b v : b + 4 <= a ∨ a + 4 <= b → rd32 (wr32 m a v) b = rd32 m b.
Proof. intros. apply rd32_agree. intros. apply rd8_wr32_ne. lia. Qed.

Lemma rd32_wr8_ne m a b v : a < b ∨ b + 4 <= a → rd32 (wr8 m a v) b = rd32 m b.
Proof. intros. apply rd32_agree. intros. apply rd8_wr8_ne. lia. Qed.

(** ** The processor state the kernel touches *)

Inductive event :=
  | Outb (port val : Z)
  | Invlpg (va : Z)
  | Cli
  | Sti
  | Lgdt (ptr : Z)
  | Lidt (ptr : Z)
  | Ltr (sel : Z).

Record machine := Machine {
  mem : memory;
  cr0 : Z;
  cr2 : Z;
  cr3 : Z;
  esp : Z;
  ebp : Z;
  iflag : bool;            (* EFLAGS.IF *)
  events : list event;     (* newest first *)
}.

Definition set_mem (f : memory → memory) (h : machine) : machine :=
  Machine (f (mem h)) (cr0 h) (cr2 h) (cr3 h) (esp h) (ebp h) (iflag h) (events h).
Definition set_cr0 (v : Z) (h : machine) : machine :=
  Machine (mem h) v (cr2 h) (cr3 h) (esp h) (ebp h) (iflag h) (events h).
Definition set_cr2 (v : Z) (h : machine) : machine :=
  Machine (mem h) (cr0 h) v (cr3 h) (esp h) (ebp h) (iflag h) (events h).
Definition set_cr3 (v : Z) (h : machine) : machine :=
  Machine (mem h) (cr0 h) (cr2 h) v (esp h) (ebp h) (iflag h) (events h).
Definition set_esp (v : Z) (h : machine) : machine :=
  Machine (mem h) (cr0 h) (cr2 h) (cr3 h) v (ebp h) (iflag h) (events h).
Definition set_ebp (v : Z) (h : machine) : machine :=
  Machine (mem h) (cr0 h) (cr2 h) (cr3 h) (esp h) v (iflag h) (events h).
Definition set_iflag (b : bool) (h : machine) : machine :=
  Machine (mem h) (cr0 h) (cr2 h) (cr3 h) (esp h) (ebp h) b (events h).
Definition push_event (e : event) (h : machine) : machine :=
  Machine (mem h) (cr0 h) (cr2 h) (cr3 h) (esp h) (ebp h) (iflag h) (e :: events h).

(** ** Address translation *)

Definition pd_index (va : Z) : Z := Z.shiftr va 22.
Definition pt_index (va : Z) : Z := Z.land (Z.shiftr va 12) 0x3FF.

(** The address of the page-directory entry, and of the page-table entry in a
    table, that the walk for [va] reads. *)
Definition pde_addr (dir va : Z) : Z := Z.land dir 0xFFFFF000 + 4 * pd_index va.
Definition pte_addr (pde va : Z) : Z := Z.land pde 0xFFFFF000 + 4 * pt_index va.

Definition page_walk (m : memory) (dir va : Z) : option Z :=
  let pde := rd32 m (pde_addr dir va) in
  if Z.testbit pde 0 then
    let pte := rd32 m (pte_addr pde va) in
    if Z.testbit pte 0 then Some (Z.land pte 0xFFFFF000 + Z.land va 0xFFF) else None
  else None.

Definition paging_on (h : machine) : bool := Z.testbit (cr0 h) 31.

(** The physical address behind a linear one; [None] is a page fault. *)
Definition resolve (h : machine) (va : Z) : option Z :=
  if paging_on h then page_walk (mem h) (cr3 h) va else Some va.

#[global] Arguments page_walk _ _ _ : simpl never.
#[global] Arguments resolve _ _ : simpl never.

Lemma pd_index_div va : pd_index va = va / 2 ^ 22.
Proof. apply Z.shiftr_div_pow2. lia. Qed.

Lemma pt_index_div va : pt_index va = va / 2 ^ 12 mod 1024.
Proof. unfold pt_index. by rewrite land_3ff, Z.shiftr_div_pow2 by lia. Qed.

Lemma pd_index_range va : 0 <= va < 2 ^ 32 → 0 <= pd_index va < 1024.
Proof. intros. rewrite pd_index_div. zify_mod. Qed.

Lemma pt_index_range va : 0 <= pt_index va < 1024.
Proof. rewrite pt_index_div. zify_mod. Qed.

(** The walk reads two words. *)
Lemma page_walk_agree m m' dir va :
  rd32 m' (pde_addr dir va) = rd32 m (pde_addr dir va) →
  rd32 m' (pte_addr (rd32 m (pde_addr dir va)) va)
    = rd32 m (pte_addr (rd32 m (pde_addr dir va)) va) →
  page_walk m' dir va = page_walk m dir va.
Proof. unfold page_walk. intros -> ->. done. Qed.

(** ** The low identity mapping

    The first four megabytes are reachable at their own addresses: before
    [paging_init] because paging is off, after it through the directory at
    [0x80000] and the table at [0x81000].  Every pointer constant of the
    kernel (video memory, bitmap, page tables, E820 map) lies there. *)

Definition LOW_END : Z := 0x400000.

Definition low_tables (m : memory) : Prop :=
  rd32 m 0x80000 = 0x81003 ∧
  ∀ i, 0 <= i < 1024 → rd32 m (0x81000 + 4 * i) = i * 4096 + 7.

Definition low_mapped (h : machine) : Prop :=
  paging_on h = false ∨ (cr3 h = 0x80000 ∧ low_tables (mem h)).

Lemma low_mapped_resolve h va :
  low_mapped h → 0 <= va < LOW_END → resolve h va = Some va.
Proof.
  intros Hlow Hva. unfold resolve, LOW_END in *.
  destruct Hlow as [->|[Hcr3 [Hd Ht]]]; [done|]. destruct (paging_on h); [|done].
  assert (pde_addr (cr3 h) va = 0x80000) as Hp.
  { unfold pde_addr. rewrite Hcr3, pd_index_div.
    change (Z.land 0x80000 0xFFFFF000) with 0x80000. zify_mod. }
  assert (pte_addr 0x81003 va = 0x81000 + 4 * (va / 4096)) as Hq.
  { unfold pte_addr. rewrite pt_index_div.
    change (Z.land 0x81003 0xFFFFF000) with 0x81000. change (2 ^ 12) with 4096. zify_mod. }
  unfold page_walk. rewrite Hp, Hd, Hq, Ht by zify_mod.
  change (Z.testbit 0x81003 0) with true. cbn iota.
  assert (Z.testbit (va / 4096 * 4096 + 7) 0 = true) as ->.
  { rewrite Z.bit0_odd, Z.odd_add, Z.odd_mul. by rewrite andb_false_r. }
  rewrite land_page_mask, land_fff by zify_mod. f_equal. zify_mod.
Qed.

(** Memory that the low mapping depends on: the directory's first entry and
    the first table. *)
Definition low_table_byte (a : Z) : Prop :=
  0x80000 <= a < 0x80004 ∨ 0x81000 <= a < 0x82000.

Lemma low_tables_agree m m' :
  (∀ a, low_table_byte a → rd8 m' a = rd8 m a) → low_tables m → low_tables m'.
Proof.
  intros Heq [Hd Ht]. split.
  - rewrite <- Hd. apply rd32_agree. intros. apply Heq. left. lia.
  - intros i Hi. rewrite <- (Ht i Hi). apply rd32_agree. intros. apply Heq. right. lia.
Qed.

Lemma low_mapped_agree h h' :
  cr0 h' = cr0 h → cr3 h' = cr3 h →
  (∀ a, low_table_byte a → rd8 (mem h') a = rd8 (mem h) a) →
  low_mapped h → low_mapped h'.
Proof.
  intros E0 E3 Hm [Hoff|[Hcr3 Ht]].
  - left. unfold paging_on in *. by rewrite E0.
  - right. split; [congruence|]. by eapply low_tables_agree.
Qed.
