(* ===== verification/State.v ===== *)
(** * The kernel state and the monad the kernel runs in

    The statics of every C file, one record per file, beside the machine.  A
    kernel function is a state transformer that ends by returning, by halting
    the processor, by a page fault, or in behaviour C leaves undefined.  [wp]
    is total correctness: the function returns in a state that satisfies the
    first postcondition or halts in one that satisfies the second. *)

From Stdlib Require Import ZArith Lia.
From stdpp Require Import base gmap list.
From S2P Require Import Prelude RingBuf Descriptors Machine.

(** ** Statics *)

(** [kernel/drivers/vga/vga.c] *)
Record vga_vars := VgaVars { cursor_row : Z; cursor_col : Z }.

(** [kernel/lib/panik.c], with the [panik_state_t] of [panik.h] *)
Inductive panik_mode_t := PANIK_MODE_NORMAL | PANIK_MODE_TEST.

#[global] Instance panik_mode_eq_dec : EqDecision panik_mode_t.
Proof. solve_decision. Defined.

Record panik_vars := PanikVars {
  current_panik_mode : panik_mode_t;
  panik_called : Z;
  last_panik_msg : list Z;    (* char[256] *)
  panik_call_count : Z;
}.

(** [kernel/memory/memory_map.c] *)
Record memory_region_t := Region { r_base : Z; r_length : Z; r_type : Z }.

#[global] Instance region_eq_dec : EqDecision memory_region_t.
Proof. solve_decision. Defined.

Record memmap_vars := MemmapVars {
  usable_memory_region_count : Z;    (* uint16_t *)
  usable_memory_region : list memory_region_t;    (* [MAX_MEMORY_REGIONS] of them *)
}.

(** [kernel/memory/pmm.c] *)
Record pmm_vars := PmmVars {
  frame_bitmap : Z;       (* uint8_t pointer *)
  total_frames : Z;
  used_frames : Z;
  max_frame_idx : Z;
}.

(** [idt.c], [gdt.c] and [tss.c] *)
Record desc_vars := DescVars {
  idt : list idt_entry;
  idt_ptr : idt_ptr_t;
  gdt : list gdt_entry;
  gdtp : gdt_ptr;
  tss_df : tss_entry;
  double_fault_stack : list Z;
}.

(** The addresses the linker gives to the symbols whose addresses the code takes. *)
Record symbols := Symbols {
  sym_kernel_start : Z;
  sym_kernel_end : Z;
  sym_idt : Z;
  sym_idt_ptr : Z;
  sym_gdt : Z;
  sym_gdtp : Z;
  sym_tss_df : Z;
  sym_double_fault_stack : Z;
  sym_isr_page_fault : Z;
  sym_double_fault_handler : Z;
}.

Record kstate := KState {
  hw : machine;
  vga : vga_vars;
  log : ringbuf;
  panic : panik_vars;
  memmap : memmap_vars;
  pmm : pmm_vars;
  desc : desc_vars;
  syms : symbols;
}.

Definition on_hw (f : machine → machine) (s : kstate) : kstate :=
  KState (f (hw s)) (vga s) (log s) (panic s) (memmap s) (pmm s) (desc s) (syms s).
Definition set_vga (v : vga_vars) (s : kstate) : kstate :=
  KState (hw s) v (log s) (panic s) (memmap s) (pmm s) (desc s) (syms s).
Definition set_log (v : ringbuf) (s : kstate) : kstate :=
  KState (hw s) (vga s) v (panic s) (memmap s) (pmm s) (desc s) (syms s).
Definition set_panic (v : panik_vars) (s : kstate) : kstate :=
  KState (hw s) (vga s) (log s) v (memmap s) (pmm s) (desc s) (syms s).
Definition set_memmap (v : memmap_vars) (s : kstate) : kstate :=
  KState (hw s) (vga s) (log s) (panic s) v (pmm s) (desc s) (syms s).
Definition set_pmm (v : pmm_vars) (s : kstate) : kstate :=
  KState (hw s) (vga s) (log s) (panic s) (memmap s) v (desc s) (syms s).
Definition set_desc (v : desc_vars) (s : kstate) : kstate :=
  KState (hw s) (vga s) (log s) (panic s) (memmap s) (pmm s) v (syms s).

(** ** The monad *)

Inductive ub :=
  | UbFormat          (* [my_vsnprintf] failed: see [fmt_error] *)
  | UbIndex           (* an access outside an array *)
  | UbDiverge         (* the loop did not end within its fuel *)
  | UbReset (s : kstate)  (* a third fault: the processor shuts down in [s] and the machine resets *)
  | UbCpu.            (* processor behaviour outside the model *)

Inductive outcome (A : Type) :=
  | Ok (a : A) (s : kstate)
  | Halted (s : kstate)             (* the [hlt] loop, interrupts disabled *)
  | Fault (va : Z) (s : kstate)     (* page fault, the address in CR2 *)
  | Undef (u : ub).
Arguments Ok {A} a s.
Arguments Halted {A} s.
Arguments Fault {A} va s.
Arguments Undef {A} u.

Definition M (A : Type) : Type := kstate → outcome A.

#[global] Instance M_ret : MRet M := λ A a s, Ok a s.
#[global] Instance M_bind : MBind M := λ A B f m s,
  match m s with
  | Ok a s => f a s
  | Halted s => Halted s
  | Fault va s => Fault va s
  | Undef u => Undef u
  end.

Definition gets {A} (f : kstate → A) : M A := λ s, Ok (f s) s.
Definition modify (f : kstate → kstate) : M unit := λ s, Ok tt (f s).
Definition halt {A} : M A := λ s, Halted s.
Definition undef {A} (u : ub) : M A := λ _, Undef u.
Definition reset {A} : M A := λ s, Undef (UbReset s).

(** [for (i = lo; i < lo + n; i++) body(i)] *)
Fixpoint for_ (n : nat) (i : Z) (body : Z → M unit) : M unit :=
  match n with
  | O => mret tt
  | S n => body i;; for_ n (i + 1) body
  end.

(** ** Memory accesses of C code

    An access is translated once, at its first byte: the only unaligned ones of
    the kernel are in the identity mapping. *)

Definition access {A} (va : Z) (k : Z → kstate → outcome A) : M A := λ s,
  match resolve (hw s) va with
  | Some pa => k pa s
  | None => Fault va (on_hw (set_cr2 va) s)
  end.

Definition load8 (va : Z) : M Z := access va (λ pa s, Ok (rd8 (mem (hw s)) pa) s).
Definition load16 (va : Z) : M Z := access va (λ pa s, Ok (rd16 (mem (hw s)) pa) s).
Definition load32 (va : Z) : M Z := access va (λ pa s, Ok (rd32 (mem (hw s)) pa) s).

Definition upd_mem (f : memory → memory) (s : kstate) : kstate := on_hw (set_mem f) s.

Definition store8 (va v : Z) : M unit :=
  access va (λ pa s, Ok tt (upd_mem (λ m, wr8 m pa v) s)).
Definition store16 (va v : Z) : M unit :=
  access va (λ pa s, Ok tt (upd_mem (λ m, wr16 m pa v) s)).
Definition store32 (va v : Z) : M unit :=
  access va (λ pa s, Ok tt (upd_mem (λ m, wr32 m pa v) s)).

(** A 64-bit field is read as two words. *)
Definition load64 (va : Z) : M Z :=
  lo ← load32 va;
  hi ← load32 (va + 4);
  mret (lo + 2 ^ 32 * hi).

(** Inline assembly. *)
Definition emit (e : event) : M unit := modify (on_hw (push_event e)).
Definition sti : M unit := modify (λ s, on_hw (push_event Sti) (on_hw (set_iflag true) s)).
Definition cli : M unit := modify (λ s, on_hw (push_event Cli) (on_hw (set_iflag false) s)).

(** ** Total correctness *)

Definition wp {A} (m : M A) (Q : A → kstate → Prop) (H : kstate → Prop) (s : kstate) : Prop :=
  match m s with
  | Ok a s => Q a s
  | Halted s => H s
  | Fault _ _ | Undef _ => False
  end.

(** No halting. *)
Definition no_halt : kstate → Prop := λ _, False.

Section wp.
Context {A : Type}.
Implicit Types (Q : A → kstate → Prop) (H : kstate → Prop) (s : kstate).

Lemma wp_ret (a : A) Q H s : Q a s → wp (mret a) Q H s.
Proof. done. Qed.

Lemma wp_bind {B} (m : M B) (f : B → M A) Q H s :
  wp m (λ b s, wp (f b) Q H s) H s → wp (m ≫= f) Q H s.
Proof. unfold wp, mbind, M_bind. by destruct (m s). Qed.

Lemma wp_mono (m : M A) Q Q' H H' s :
  wp m Q H s → (∀ a s, Q a s → Q' a s) → (∀ s, H s → H' s) → wp m Q' H' s.
Proof. unfold wp. destruct (m s); naive_solver. Qed.

Lemma wp_post (m : M A) Q Q' H s :
  wp m Q H s → (∀ a s, Q a s → Q' a s) → wp m Q' H s.
Proof. intros. eapply wp_mono; eauto. Qed.

Lemma wp_halts (m : M A) Q H s : wp m Q no_halt s → wp m Q H s.
Proof. intros. eapply wp_mono; [done..|]. by intros ? []. Qed.

Lemma wp_and (m : M A) Q Q' H s :
  wp m Q H s → wp m Q' H s → wp m (λ a s, Q a s ∧ Q' a s) H s.
Proof. unfold wp. destruct (m s); naive_solver. Qed.

Lemma wp_gets (f : kstate → A) Q H s : Q (f s) s → wp (gets f) Q H s.
Proof. done. Qed.

Lemma wp_ok (m : M A) a s' Q H s : m s = Ok a s' → Q a s' → wp m Q H s.
Proof. unfold wp. by intros ->. Qed.

(** A total-correctness fact is the run itself. *)
Lemma wp_run (m : M A) Q s : wp m Q no_halt s → ∃ a s', m s = Ok a s' ∧ Q a s'.
Proof. unfold wp. destruct (m s); [eauto|done..]. Qed.
End wp.

Lemma wp_modify f (Q : unit → kstate → Prop) H s : Q tt (f s) → wp (modify f) Q H s.
Proof. done. Qed.

Lemma wp_for n i body (I : Z → kstate → Prop) (Q : unit → kstate → Prop) H s :
  I i s →
  (∀ j s, i <= j < i + Z.of_nat n → I j s → wp (body j) (λ _ s, I (j + 1) s) H s) →
  (∀ s, I (i + Z.of_nat n) s → Q tt s) →
  wp (for_ n i body) Q H s.
Proof.
  revert i s. induction n as [|n IH]; intros i s Hi Hbody HQ; simpl.
  { apply HQ. by replace (i + Z.of_nat 0) with i by lia. }
  apply wp_bind. eapply wp_post; [apply Hbody; [lia|done]|].
  intros [] s' Hs'. apply IH; [done| |].
  - intros j s2 Hj. apply Hbody. lia.
  - intros s2 Hs2. apply HQ. by replace (i + Z.of_nat (S n)) with (i + 1 + Z.of_nat n) by lia.
Qed.

(** A fault in the first turn of a loop is the loop's. *)
Lemma for_fault n i body s va s' : body i s = Fault va s' → for_ (S n) i body s = Fault va s'.
Proof. intros E. simpl. unfold mbind, M_bind. by rewrite E. Qed.

Lemma wp_access {A} va pa k (Q : A → kstate → Prop) H s :
  resolve (hw s) va = Some pa → wp (k pa) Q H s → wp (access va k) Q H s.
Proof. unfold wp, access. by intros ->. Qed.

Lemma wp_load8 va pa (Q : Z → kstate → Prop) H s :
  resolve (hw s) va = Some pa → Q (rd8 (mem (hw s)) pa) s → wp (load8 va) Q H s.
Proof. unfold wp, load8, access. by intros ->. Qed.

Lemma wp_load16 va pa (Q : Z → kstate → Prop) H s :
  resolve (hw s) va = Some pa → Q (rd16 (mem (hw s)) pa) s → wp (load16 va) Q H s.
Proof. unfold wp, load16, access. by intros ->. Qed.

Lemma wp_load32 va pa (Q : Z → kstate → Prop) H s :
  resolve (hw s) va = Some pa → Q (rd32 (mem (hw s)) pa) s → wp (load32 va) Q H s.
Proof. unfold wp, load32, access. by intros ->. Qed.

Lemma wp_store8 va pa v (Q : unit → kstate → Prop) H s :
  resolve (hw s) va = Some pa → Q tt (upd_mem (λ m, wr8 m pa v) s) → wp (store8 va v) Q H s.
Proof. unfold wp, store8, access. by intros ->. Qed.

Lemma wp_store16 va pa v (Q : unit → kstate → Prop) H s :
  resolve (hw s) va = Some pa → Q tt (upd_mem (λ m, wr16 m pa v) s) → wp (store16 va v) Q H s.
Proof. unfold wp, store16, access. by intros ->. Qed.

Lemma wp_store32 va pa v (Q : unit → kstate → Prop) H s :
  resolve (hw s) va = Some pa → Q tt (upd_mem (λ m, wr32 m pa v) s) → wp (store32 va v) Q H s.
Proof. unfold wp, store32, access. by intros ->. Qed.

(** Accesses inside the low identity mapping. *)
Section low.
Context (s : kstate) (va : Z).
Context (Hlow : low_mapped (hw s)) (Hva : 0 <= va < LOW_END).
Implicit Types (H : kstate → Prop).

Lemma wp_load8_low (Q : Z → kstate → Prop) H :
  Q (rd8 (mem (hw s)) va) s → wp (load8 va) Q H s.
Proof using Hlow Hva. apply wp_load8. by apply low_mapped_resolve. Qed.

Lemma wp_load16_low (Q : Z → kstate → Prop) H :
  Q (rd16 (mem (hw s)) va) s → wp (load16 va) Q H s.
Proof using Hlow Hva. apply wp_load16. by apply low_mapped_resolve. Qed.

Lemma wp_load32_low (Q : Z → kstate → Prop) H :
  Q (rd32 (mem (hw s)) va) s → wp (load32 va) Q H s.
Proof using Hlow Hva. apply wp_load32. by apply low_mapped_resolve. Qed.

Lemma wp_load64_low (Q : Z → kstate → Prop) H :
  va + 4 < LOW_END → Q (rd64 (mem (hw s)) va) s → wp (load64 va) Q H s.
Proof using Hlow Hva.
  intros ? HQ. apply wp_bind, wp_load32_low, wp_bind.
  eapply wp_load32; [apply low_mapped_resolve; [done|lia]|done].
Qed.

Lemma wp_store8_low v (Q : unit → kstate → Prop) H :
  Q tt (upd_mem (λ m, wr8 m va v) s) → wp (store8 va v) Q H s.
Proof using Hlow Hva. apply wp_store8. by apply low_mapped_resolve. Qed.

Lemma wp_store16_low v (Q : unit → kstate → Prop) H :
  Q tt (upd_mem (λ m, wr16 m va v) s) → wp (store16 va v) Q H s.
Proof using Hlow Hva. apply wp_store16. by apply low_mapped_resolve. Qed.

Lemma wp_store32_low v (Q : unit → kstate → Prop) H :
  Q tt (upd_mem (λ m, wr32 m va v) s) → wp (store32 va v) Q H s.
Proof using Hlow Hva. apply wp_store32. by apply low_mapped_resolve. Qed.
End low.

(** One step through a bind, a read of the state or an update of it. *)
Ltac wp_step :=
  lazymatch goal with
  | |- wp (mbind _ _) _ _ _ => apply wp_bind
  | |- wp (mret _) _ _ _ => apply wp_ret
  | |- wp (gets _) _ _ _ => apply wp_gets
  | |- wp (modify _) _ _ _ => apply wp_modify
  | |- wp (emit _) _ _ _ => apply wp_modify
  | |- wp cli _ _ _ => apply wp_modify
  | |- wp sti _ _ _ => apply wp_modify
  end.
Ltac wp_steps := repeat (wp_step; cbv beta).

(** Continue with the postcondition of a lemma about the first call. *)
Ltac wp_call H := eapply wp_post; [apply H|cbv beta].
