(* ===== verification/Vga.v ===== *)
(** * The text console: [kernel/drivers/vga/vga.c]

    The driver writes character and attribute bytes into video memory at
    [0xB8000] and moves the hardware cursor through two I/O ports.  The
    abstract console is a terminal: 25 rows of 80 cells and a cursor.  The
    second half shows that the byte-level loops implement it and write nothing
    outside the 4000 bytes of the screen. *)

From Stdlib Require Import ZArith Lia String.
From stdpp Require Import base gmap list.
From S2P Require Import Prelude RingBuf Descriptors Machine State.

Definition VGA_ADDRESS : Z := 0xb8000.
Definition VGA_WIDTH : Z := 80.
Definition VGA_HEIGHT : Z := 25.
Definition VGA_SIZE : Z := VGA_WIDTH * VGA_HEIGHT * 2.
Definition VGA_CTRL_PORT : Z := 0x3d4.
Definition VGA_DATA_PORT : Z := 0x3d5.

(** [enum vga_color] *)
Definition VGA_BLACK : Z := 0.
Definition VGA_BLUE : Z := 1.
Definition VGA_GREEN : Z := 2.
Definition VGA_CYAN : Z := 3.
Definition VGA_RED : Z := 4.
Definition VGA_MAGENTA : Z := 5.
Definition VGA_BROWN : Z := 6.
Definition VGA_LIGHT_GREY : Z := 7.
Definition VGA_DARK_GREY : Z := 8.
Definition VGA_LIGHT_BLUE : Z := 9.
Definition VGA_LIGHT_GREEN : Z := 10.
Definition VGA_LIGHT_CYAN : Z := 11.
Definition VGA_LIGHT_RED : Z := 12.
Definition VGA_LIGHT_MAGENTA : Z := 13.
Definition VGA_YELLOW : Z := 14.
Definition VGA_WHITE : Z := 15.

Definition VGA_COLOR (bg fg : Z) : Z := Z.lor (Z.shiftl bg 4) (Z.land fg 0x0f).
Definition WHITE_ON_BLACK : Z := VGA_COLOR VGA_BLACK VGA_WHITE.
Definition RED_ON_WHITE : Z := VGA_COLOR VGA_WHITE VGA_RED.
Definition BLUE_ON_YELLOW : Z := VGA_COLOR VGA_YELLOW VGA_BLUE.
Definition GREEN_ON_BLACK : Z := VGA_COLOR VGA_BLACK VGA_GREEN.
Definition YELLOW_ON_BLACK : Z := VGA_COLOR VGA_BLACK VGA_YELLOW.

(** ** The driver *)

Definition outb (port val : Z) : M unit := emit (Outb port val).

Definition vga_move_cursor : M unit :=
  v ← gets vga;
  let current_pos := cursor_row v * VGA_WIDTH + cursor_col v in
  outb VGA_CTRL_PORT 0x0f;;
  outb VGA_DATA_PORT (u8 (Z.land current_pos 0xff));;
  outb VGA_CTRL_PORT 0x0e;;
  outb VGA_DATA_PORT (u8 (Z.land (Z.shiftr current_pos 8) 0xff)).

Definition set_cursor (row col : Z) : M unit := modify (set_vga (VgaVars row col)).

Definition vga_clear_screen : M unit :=
  for_ (Z.to_nat (VGA_WIDTH * VGA_HEIGHT)) 0 (λ i,
    store8 (VGA_ADDRESS + i * 2) 32;;
    store8 (VGA_ADDRESS + (i * 2 + 1)) WHITE_ON_BLACK);;
  set_cursor 0 0;;
  vga_move_cursor.

Definition vga_init : M unit :=
  set_cursor 0 0;;
  vga_clear_screen;;
  vga_move_cursor.

Definition vga_set_cursor_position (row col : Z) : M unit :=
  if (0 <=? row) && (row <? VGA_HEIGHT) && (0 <=? col) && (col <? VGA_WIDTH)
  then set_cursor row col;; vga_move_cursor
  else mret tt.

(** What the two out-parameters receive when they are not NULL. *)
Definition vga_get_cursor_position : M (Z * Z) :=
  v ← gets vga; mret (cursor_row v, cursor_col v).

Definition vga_put_char (c color : Z) : M unit :=
  v ← gets vga;
  let offset := 2 * (cursor_row v * VGA_WIDTH + cursor_col v) in
  store8 (VGA_ADDRESS + offset) c;;
  store8 (VGA_ADDRESS + (offset + 1)) color.

Definition vga_scroll_up : M unit :=
  for_ (Z.to_nat (VGA_HEIGHT - 1)) 1 (λ row,
    for_ (Z.to_nat VGA_WIDTH) 0 (λ col,
      let src_offset := 2 * (row * VGA_WIDTH + col) in
      let dst_offset := 2 * ((row - 1) * VGA_WIDTH + col) in
      c ← load8 (VGA_ADDRESS + src_offset);
      store8 (VGA_ADDRESS + dst_offset) c;;
      a ← load8 (VGA_ADDRESS + (src_offset + 1));
      store8 (VGA_ADDRESS + (dst_offset + 1)) a));;
  for_ (Z.to_nat VGA_WIDTH) 0 (λ col,
    let offset := 2 * ((VGA_HEIGHT - 1) * VGA_WIDTH + col) in
    store8 (VGA_ADDRESS + offset) 32;;
    store8 (VGA_ADDRESS + (offset + 1)) WHITE_ON_BLACK).

(** One character of [vga_print_string], the body of its [while]. *)
Definition vga_print_char (color c : Z) : M unit :=
  (if c =? 10 then
     v ← gets vga; set_cursor (cursor_row v + 1) 0
   else
     vga_put_char c color;;
     v ← gets vga;
     if VGA_WIDTH <=? cursor_col v + 1
     then set_cursor (cursor_row v + 1) 0
     else set_cursor (cursor_row v) (cursor_col v + 1));;
  v ← gets vga;
  (if VGA_HEIGHT <=? cursor_row v
   then vga_scroll_up;; set_cursor (VGA_HEIGHT - 1) 0
   else mret tt);;
  vga_move_cursor.

Fixpoint vga_print_loop (str : list Z) (color : Z) : M unit :=
  match str with
  | [] => mret tt
  | c :: str => vga_print_char color c;; vga_print_loop str color
  end.

Definition vga_print_string (str : list Z) (color : Z) : M unit :=
  vga_print_loop (c_str str) color.

(** ** The terminal *)

Abbreviation cell_t := (Z * Z)%type.

Record term := Term { t_cells : list cell_t; t_row : Z; t_col : Z }.

Definition blank : cell_t := (32, 0x0f).

Definition term_scroll (cells : list cell_t) : list cell_t :=
  drop 80 cells ++ replicate 80 blank.

Definition term_wrap (t : term) : term :=
  if t_row t <? 25 then t else Term (term_scroll (t_cells t)) 24 0.

Definition term_putc (color : Z) (t : term) (c : Z) : term :=
  term_wrap
    (if c =? 10 then Term (t_cells t) (t_row t + 1) 0
     else
       let cells := <[Z.to_nat (t_row t * 80 + t_col t) := (u8 c, u8 color)]> (t_cells t) in
       if t_col t <? 79 then Term cells (t_row t) (t_col t + 1)
       else Term cells (t_row t + 1) 0).

Definition term_print (color : Z) (t : term) (str : list Z) : term :=
  foldl (term_putc color) t str.

(** The terminal in a kernel state. *)
Definition cell (m : memory) (i : Z) : cell_t :=
  (rd8 m (VGA_ADDRESS + 2 * i), rd8 m (VGA_ADDRESS + 2 * i + 1)).

Definition screen (m : memory) : list cell_t := cell m <$> zrange 0 (Z.to_nat 2000).

Definition term_of (s : kstate) : term :=
  Term (screen (mem (hw s))) (cursor_row (vga s)) (cursor_col (vga s)).

(** ** What console output may change *)

Definition in_screen (a : Z) : Prop := VGA_ADDRESS <= a < VGA_ADDRESS + VGA_SIZE.

#[global] Instance in_screen_dec a : Decision (in_screen a).
Proof. unfold in_screen. apply _. Defined.

(** Memory that differs on the screen only. *)
Definition screen_only (m m' : memory) : Prop := ∀ a, ¬ in_screen a → rd8 m' a = rd8 m a.

Definition is_outb (e : event) : Prop :=
  match e with Outb _ _ => True | _ => False end.

(** Everything but the screen, the cursor, the log and the trace of port writes. *)
Record console_frame (s s' : kstate) : Prop := {
  cf_mem : screen_only (mem (hw s)) (mem (hw s'));
  cf_cr0 : cr0 (hw s') = cr0 (hw s);
  cf_cr2 : cr2 (hw s') = cr2 (hw s);
  cf_cr3 : cr3 (hw s') = cr3 (hw s);
  cf_esp : esp (hw s') = esp (hw s);
  cf_ebp : ebp (hw s') = ebp (hw s);
  cf_iflag : iflag (hw s') = iflag (hw s);
  cf_events : ∃ l, events (hw s') = l ++ events (hw s) ∧ Forall is_outb l;
  cf_panic : panic s' = panic s;
  cf_memmap : memmap s' = memmap s;
  cf_pmm : pmm s' = pmm s;
  cf_desc : desc s' = desc s;
  cf_syms : syms s' = syms s;
}.

#[global] Instance screen_only_preorder : PreOrder screen_only.
Proof. split; [done|]. intros m1 m2 m3 H12 H23 a Ha. by rewrite H23, H12. Qed.

#[global] Instance console_frame_preorder : PreOrder console_frame.
Proof.
  split.
  - intros s. split; try done. by exists [].
  - intros s1 s2 s3 H12 H23. destruct H12, H23. split; try congruence.
    + by etrans.
    + destruct cf_events0 as (l1 & E1 & ?), cf_events1 as (l2 & E2 & ?).
      exists (l2 ++ l1). rewrite E2, E1, <- app_assoc. split; [done|]. by apply Forall_app_2.
Qed.

(** A console change commutes with an update of another component's statics. *)
Lemma console_frame_memmap v s s' :
  console_frame s s' → console_frame (set_memmap v s) (set_memmap v s').
Proof. by intros []. Qed.

Lemma console_frame_pmm v s s' :
  console_frame s s' → console_frame (set_pmm v s) (set_pmm v s').
Proof. by intros []. Qed.

Lemma console_frame_desc v s s' :
  console_frame s s' → console_frame (set_desc v s) (set_desc v s').
Proof. by intros []. Qed.

(** The invariant console output relies on and keeps. *)
Record console_ok (s : kstate) : Prop := {
  co_log : ringbuf_wf (log s);
  co_row : 0 <= cursor_row (vga s) < VGA_HEIGHT;
  co_col : 0 <= cursor_col (vga s) < VGA_WIDTH;
  co_low : low_mapped (hw s);
}.

Lemma in_screen_not_table a : low_table_byte a → ¬ in_screen a.
Proof. unfold low_table_byte, in_screen, VGA_ADDRESS, VGA_SIZE, VGA_WIDTH, VGA_HEIGHT. lia. Qed.

Lemma console_frame_low s s' : console_frame s s' → low_mapped (hw s) → low_mapped (hw s').
Proof.
  intros [Hm ? ? ? ? ? ? ? ? ? ? ? ?]. apply low_mapped_agree; [done..|].
  intros a Ha. by apply Hm, in_screen_not_table.
Qed.

Lemma console_frame_rd32 s s' a :
  console_frame s s' → a + 4 <= VGA_ADDRESS ∨ VGA_ADDRESS + VGA_SIZE <= a →
  rd32 (mem (hw s')) a = rd32 (mem (hw s)) a.
Proof.
  intros Hf Ha. apply rd32_agree. intros b Hb. apply (cf_mem _ _ Hf). unfold in_screen. lia.
Qed.

(** ** Memory updates of the driver *)

Lemma screen_lookup m i :
  screen m !! i = if decide (Z.of_nat i < 2000) then Some (cell m (Z.of_nat i)) else None.
Proof.
  unfold screen. rewrite list_lookup_fmap. case_decide.
  - by rewrite lookup_zrange by lia.
  - rewrite lookup_ge_None_2; [done|]. rewrite length_zrange. lia.
Qed.

Lemma length_screen m : length (screen m) = Z.to_nat 2000.
Proof. unfold screen. by rewrite length_fmap, length_zrange. Qed.

Lemma screen_ext m cells :
  length cells = Z.to_nat 2000 →
  (∀ j, 0 <= j < 2000 → cells !! Z.to_nat j = Some (cell m j)) → screen m = cells.
Proof.
  intros Hl Hc. apply list_eq. intros i. rewrite screen_lookup. case_decide.
  - by rewrite <- (Hc (Z.of_nat i)), Nat2Z.id by lia.
  - symmetry. apply lookup_ge_None_2. lia.
Qed.

Lemma screen_scrolled m m' :
  (∀ j, 0 <= j < 2000 → cell m j = if decide (j < 1920) then cell m' (j + 80) else blank) →
  screen m = term_scroll (screen m').
Proof.
  intros Hc. apply screen_ext.
  { unfold term_scroll. rewrite length_app, length_drop, length_screen, length_replicate. lia. }
  intros j Hj. rewrite Hc by done. unfold term_scroll. case_decide.
  - rewrite lookup_app_l by (rewrite length_drop, length_screen; lia).
    rewrite lookup_drop, screen_lookup. case_decide; [|lia]. do 2 f_equal. lia.
  - rewrite lookup_app_r by (rewrite length_drop, length_screen; lia).
    rewrite lookup_replicate_2; [done|]. rewrite length_drop, length_screen. lia.
Qed.

#[local] Ltac vga_lia :=
  unfold in_screen, LOW_END, VGA_ADDRESS, VGA_SIZE, VGA_WIDTH, VGA_HEIGHT in *; lia.

(** The state [s] with memory [m]. *)
Definition with_mem (s : kstate) (m : memory) : kstate := upd_mem (λ _, m) s.

Lemma with_mem_id s : with_mem s (mem (hw s)) = s.
Proof. by destruct s as [[] ? ? ? ? ? ? ?]. Qed.

Definition put_cell (m : memory) (i c a : Z) : memory :=
  wr8 (wr8 m (VGA_ADDRESS + 2 * i) c) (VGA_ADDRESS + (2 * i + 1)) a.

Lemma cell_put_cell m i j c a :
  cell (put_cell m i c a) j = if decide (i = j) then (u8 c, u8 a) else cell m j.
Proof.
  unfold cell, put_cell. case_decide as Hij.
  - subst j. f_equal.
    + rewrite rd8_wr8_ne, rd8_wr8_eq by lia. done.
    + replace (VGA_ADDRESS + 2 * i + 1) with (VGA_ADDRESS + (2 * i + 1)) by lia.
      by rewrite rd8_wr8_eq.
  - by rewrite !rd8_wr8_ne by lia.
Qed.

Lemma put_cell_screen_only m m' i c a :
  screen_only m m' → 0 <= i < 2000 → screen_only m (put_cell m' i c a).
Proof.
  intros Hm Hi b Hb. unfold put_cell. rewrite !rd8_wr8_ne by vga_lia. by apply Hm.
Qed.

Lemma low_mapped_with_mem s m :
  low_mapped (hw s) → screen_only (mem (hw s)) m → low_mapped (hw (with_mem s m)).
Proof.
  intros Hl Hm. apply (low_mapped_agree (hw s)); [done..| |done].
  intros a Ha. by apply Hm, in_screen_not_table.
Qed.

Lemma with_mem_frame s m : screen_only (mem (hw s)) m → console_frame s (with_mem s m).
Proof. intros Hm. split; try done. by exists []. Qed.

Section cells.
Context (s : kstate) (m : memory).
Context (Hlow : low_mapped (hw s)) (Hm : screen_only (mem (hw s)) m).

Lemma resolve_screen m' off :
  screen_only (mem (hw s)) m' → 0 <= off < VGA_SIZE →
  resolve (hw (with_mem s m')) (VGA_ADDRESS + off) = Some (VGA_ADDRESS + off).
Proof.
  intros. apply low_mapped_resolve; [by apply low_mapped_with_mem|vga_lia].
Qed.

Lemma wp_put_cell i c a (Q : unit → kstate → Prop) H :
  0 <= i < 2000 → Q tt (with_mem s (put_cell m i c a)) →
  wp (store8 (VGA_ADDRESS + 2 * i) c;; store8 (VGA_ADDRESS + (2 * i + 1)) a) Q H (with_mem s m).
Proof.
  intros Hi HQ. apply wp_bind. eapply wp_store8; [apply resolve_screen; [done|vga_lia]|].
  eapply wp_store8; [|exact HQ]. apply resolve_screen; [|vga_lia].
  intros b Hb. rewrite rd8_wr8_ne by vga_lia. by apply Hm.
Qed.

Lemma wp_copy_cell i j (Q : unit → kstate → Prop) H :
  0 <= i < 2000 → 0 <= j < 2000 →
  Q tt (with_mem s (put_cell m i (cell m j).1 (cell m j).2)) →
  wp (c ← load8 (VGA_ADDRESS + 2 * j);
      store8 (VGA_ADDRESS + 2 * i) c;;
      a ← load8 (VGA_ADDRESS + (2 * j + 1));
      store8 (VGA_ADDRESS + (2 * i + 1)) a) Q H (with_mem s m).
Proof.
  intros Hi Hj HQ. set (m1 := wr8 m (VGA_ADDRESS + 2 * i) (cell m j).1).
  assert (screen_only (mem (hw s)) m1) as Hm1.
  { intros b Hb. unfold m1. rewrite rd8_wr8_ne by vga_lia. by apply Hm. }
  apply wp_bind. eapply wp_load8; [apply resolve_screen; [done|vga_lia]|].
  apply wp_bind. eapply wp_store8; [apply resolve_screen; [done|vga_lia]|].
  apply wp_bind. apply (wp_load8 _ (VGA_ADDRESS + (2 * j + 1)) _ _ (with_mem s m1));
    [apply resolve_screen; [done|vga_lia]|].
  eapply (wp_store8 _ _ _ _ _ (with_mem s m1)); [apply resolve_screen; [done|vga_lia]|].
  change (mem (hw (with_mem s m1))) with m1.
  replace (rd8 m1 (VGA_ADDRESS + (2 * j + 1))) with (cell m j).2; [exact HQ|].
  unfold m1. rewrite rd8_wr8_ne by lia. simpl. f_equal. lia.
Qed.
End cells.

(** A loop over cells: after [k] turns the cells are those of [F k]. *)
Definition cells_inv (s : kstate) (F : Z → Z → cell_t) (k : Z) (s' : kstate) : Prop :=
  ∃ m, s' = with_mem s m ∧ screen_only (mem (hw s)) m ∧
    ∀ j, 0 <= j < 2000 → cell m j = F k j.

Lemma cells_inv_start s (F : Z → Z → cell_t) k :
  (∀ j, 0 <= j < 2000 → cell (mem (hw s)) j = F k j) → cells_inv s F k s.
Proof.
  intros. exists (mem (hw s)). by rewrite with_mem_id.
Qed.

(** Storing one cell moves the invariant from [F k] to [F' k']. *)
Lemma cells_inv_put s (F F' : Z → Z → cell_t) k k' m i c a :
  screen_only (mem (hw s)) m → (∀ j, 0 <= j < 2000 → cell m j = F k j) →
  0 <= i < 2000 →
  (∀ j, 0 <= j < 2000 → F' k' j = if decide (i = j) then (u8 c, u8 a) else F k j) →
  cells_inv s F' k' (with_mem s (put_cell m i c a)).
Proof.
  intros Hm Hc Hi HF. exists (put_cell m i c a). split_and!; [done| |].
  - by apply put_cell_screen_only.
  - intros j Hj. rewrite cell_put_cell, HF, Hc by done. done.
Qed.

Lemma u8_cell m j : (u8 (cell m j).1, u8 (cell m j).2) = cell m j.
Proof. unfold cell. simpl. by rewrite !u8_small by apply rd8_range. Qed.

Definition scroll_cells (m : memory) (k j : Z) : cell_t :=
  if decide (j < k) then cell m (j + 80) else cell m j.

Definition clear_cells (F : Z → cell_t) (lo k j : Z) : cell_t :=
  if decide (lo <= j < lo + k) then blank else F j.

(** Clearing [n] cells from [lo] on, the loop of the last line and of the screen. *)
Lemma wp_clear_cells s (F : Z → cell_t) lo n (addr : Z → Z * Z) (Q : unit → kstate → Prop) H :
  low_mapped (hw s) → 0 <= lo → lo + Z.of_nat n <= 2000 →
  (∀ i, addr i = (VGA_ADDRESS + 2 * (lo + i), VGA_ADDRESS + (2 * (lo + i) + 1))) →
  ∀ s', cells_inv s (λ _ : Z, F) 0 s' →
  (∀ s', cells_inv s (λ _ : Z, clear_cells F lo (Z.of_nat n)) 0 s' → Q tt s') →
  wp (for_ n 0 (λ i, store8 (addr i).1 32;; store8 (addr i).2 WHITE_ON_BLACK)) Q H s'.
Proof.
  intros Hlow Hlo Hn Haddr s' Hs' HQ.
  apply (wp_for _ _ _ (cells_inv s (clear_cells F lo))).
  - destruct Hs' as (m & -> & Hm & Hc). exists m. split_and!; [done..|].
    intros j Hj. rewrite Hc by done. unfold clear_cells. case_decide; [lia|done].
  - intros i st Hi (m & -> & Hm & Hc). rewrite Haddr. apply wp_put_cell; [done..|lia|].
    eapply cells_inv_put; [done..|lia|]. intros j Hj. unfold clear_cells.
    repeat case_decide; try lia; done.
  - intros st (m & -> & Hm & Hc). apply HQ. by exists m.
Qed.

Lemma wp_vga_scroll_up s (Q : unit → kstate → Prop) H :
  low_mapped (hw s) →
  (∀ m, screen_only (mem (hw s)) m → screen m = term_scroll (screen (mem (hw s))) →
     Q tt (with_mem s m)) →
  wp vga_scroll_up Q H s.
Proof.
  intros Hlow HQ. set (m0 := mem (hw s)).
  set (F := scroll_cells m0).
  apply wp_bind.
  apply (wp_for _ _ _ (λ row, cells_inv s F ((row - 1) * 80))).
  { apply cells_inv_start. intros j Hj. unfold F, scroll_cells. by case_decide; [lia|]. }
  { intros row st Hrow Hst. cbv beta.
    apply (wp_for _ _ _ (λ col, cells_inv s F ((row - 1) * 80 + col))).
    - by replace ((row - 1) * 80 + 0) with ((row - 1) * 80) by lia.
    - intros col st' Hcol (m & -> & Hm & Hc).
      change (Z.of_nat (Z.to_nat (VGA_HEIGHT - 1))) with 24 in Hrow.
      change (Z.of_nat (Z.to_nat VGA_WIDTH)) with 80 in Hcol.
      apply (wp_copy_cell s m Hlow Hm ((row - 1) * 80 + col) (row * 80 + col)); [lia..|].
      eapply cells_inv_put; [done..|lia|]. intros j Hj. rewrite u8_cell, Hc by lia.
      unfold F, scroll_cells. repeat case_decide; subst; try lia; f_equal; lia.
    - intros st' Hst'. change (Z.of_nat (Z.to_nat VGA_WIDTH)) with 80 in Hst'.
      by replace ((row + 1 - 1) * 80) with ((row - 1) * 80 + (0 + 80)) by lia. }
  intros st Hst. change (_ * 80) with 1920 in Hst.
  apply (wp_clear_cells s (F 1920) 1920 _
    (λ col, (VGA_ADDRESS + 2 * (1920 + col), VGA_ADDRESS + (2 * (1920 + col) + 1))));
    [done|lia|done|done| |].
  - destruct Hst as (m & -> & Hm & Hc). exists m. done.
  - intros st' (m & -> & Hm & Hc). apply HQ; [done|].
    apply screen_scrolled. intros j Hj. rewrite Hc by done.
    change (Z.of_nat (Z.to_nat VGA_WIDTH)) with 80. unfold clear_cells, F, scroll_cells.
    repeat case_decide; try lia; done.
Qed.

(** ** The hardware cursor *)

(** The CRT controller behind the two ports: the index register selects which
    half of the cursor location a data write sets. *)
Definition crtc_step (e : event) (r : Z * Z * Z) : Z * Z * Z :=
  let '(idx, hi, lo) := r in
  match e with
  | Outb port val =>
      if port =? VGA_CTRL_PORT then (val, hi, lo)
      else if port =? VGA_DATA_PORT then
        if idx =? 0x0e then (idx, val, lo)
        else if idx =? 0x0f then (idx, hi, val) else r
      else r
  | _ => r
  end.

Definition hw_cursor (evs : list event) : Z :=
  let '(_, hi, lo) := foldr crtc_step (0, 0, 0) evs in hi * 256 + lo.

Definition cursor_synced (s : kstate) : Prop :=
  hw_cursor (events (hw s)) = cursor_row (vga s) * VGA_WIDTH + cursor_col (vga s).

Definition cursor_events (pos : Z) : list event :=
  [Outb VGA_DATA_PORT (u8 (Z.land (Z.shiftr pos 8) 0xff)); Outb VGA_CTRL_PORT 0x0e;
   Outb VGA_DATA_PORT (u8 (Z.land pos 0xff)); Outb VGA_CTRL_PORT 0x0f].

Lemma hw_cursor_events pos evs :
  0 <= pos < 65536 → hw_cursor (cursor_events pos ++ evs) = pos.
Proof.
  intros Hp. unfold hw_cursor, cursor_events. rewrite foldr_app.
  destruct (foldr crtc_step _ evs) as [[idx hi] lo]. cbn.
  rewrite !land_ff, Z.shiftr_div_pow2 by lia. zify_mod.
Qed.

(** What the driver's updates keep. *)
Lemma console_ok_with_mem s m :
  console_ok s → screen_only (mem (hw s)) m → console_ok (with_mem s m).
Proof. intros [? ? ? ?] Hm. split; [done..|]. by apply low_mapped_with_mem. Qed.

Lemma console_ok_cursor s row col :
  ringbuf_wf (log s) → low_mapped (hw s) →
  0 <= row < VGA_HEIGHT → 0 <= col < VGA_WIDTH → console_ok (set_vga (VgaVars row col) s).
Proof. by split. Qed.

Lemma set_vga_frame v s : console_frame s (set_vga v s).
Proof. split; try done. by exists []. Qed.

(** [vga_move_cursor] ends every driver call: it only adds port writes and
    leaves the hardware cursor at the software one. *)
Lemma wp_vga_move_cursor s (Q : unit → kstate → Prop) H :
  console_ok s →
  (∀ s', console_ok s' → console_frame s s' → log s' = log s → vga s' = vga s →
     mem (hw s') = mem (hw s) → cursor_synced s' → Q tt s') →
  wp vga_move_cursor Q H s.
Proof.
  intros [Hl Hr Hc Hlow] HQ. unfold vga_move_cursor, outb. wp_steps.
  apply HQ; try done.
  - split; try done. eexists (cursor_events _). split; [done|]. by repeat constructor.
  - apply (hw_cursor_events (cursor_row (vga s) * VGA_WIDTH + cursor_col (vga s))). vga_lia.
Qed.

Lemma wp_vga_put_char c color s (Q : unit → kstate → Prop) H :
  console_ok s →
  (∀ m, screen_only (mem (hw s)) m →
     screen m = <[Z.to_nat (cursor_row (vga s) * 80 + cursor_col (vga s)) := (u8 c, u8 color)]>
       (screen (mem (hw s))) →
     Q tt (with_mem s m)) →
  wp (vga_put_char c color) Q H s.
Proof.
  intros [Hl Hr Hc Hlow] HQ. unfold vga_put_char. wp_step. wp_step. cbv zeta.
  set (i := cursor_row (vga s) * VGA_WIDTH + cursor_col (vga s)).
  assert (0 <= i < 2000) as Hi by (unfold i; vga_lia).
  rewrite <- (with_mem_id s) at 1. apply wp_put_cell; [done..|].
  apply HQ; [by apply put_cell_screen_only|].
  apply screen_ext; [by rewrite length_insert, length_screen|].
  intros j Hj. change 80 with VGA_WIDTH. fold i.
  rewrite list_lookup_insert, screen_lookup, length_screen, cell_put_cell.
  repeat case_decide; try lia; [done|by rewrite Z2Nat.id by lia].
Qed.

(** One character: the terminal steps, and nothing but the console changes. *)
Definition console_post (s : kstate) (t : term) (s' : kstate) : Prop :=
  console_ok s' ∧ console_frame s s' ∧ log s' = log s ∧ term_of s' = t.

Lemma console_post_trans s1 s2 s3 t t' :
  console_post s1 t s2 → console_post s2 t' s3 → console_post s1 t' s3.
Proof.
  intros (_ & F1 & L1 & _) (Hok & F2 & L2 & ?). split_and!; [done|by etrans|congruence|done].
Qed.

Lemma wp_vga_print_char color c s :
  console_ok s →
  wp (vga_print_char color c)
    (λ _ s', console_post s (term_putc color (term_of s) c) s' ∧ cursor_synced s') no_halt s.
Proof.
  intros Hok. pose proof Hok as [Hl Hr Hc Hlow]. unfold vga_print_char. apply wp_bind.
  set (t1 := if c =? 10 then _ else _ : M unit).
  (* after the character, before scrolling *)
  assert (wp t1 (λ _ s1, ∃ m row col, s1 = set_vga (VgaVars row col) (with_mem s m) ∧
      screen_only (mem (hw s)) m ∧ 0 <= row <= VGA_HEIGHT ∧ 0 <= col < VGA_WIDTH ∧
      term_putc color (term_of s) c = term_wrap (Term (screen m) row col)) no_halt s) as H1.
  { unfold t1, term_putc. destruct (c =? 10).
    - unfold set_cursor. wp_steps. exists (mem (hw s)), (cursor_row (vga s) + 1), 0.
      rewrite with_mem_id. split_and!; try done; vga_lia.
    - apply wp_bind, wp_vga_put_char; [done|]. intros m Hm Hs. unfold set_cursor. wp_step. wp_step.
      cbn [t_row t_col t_cells term_of]. rewrite <- Hs.
      change (vga (with_mem s m)) with (vga s).
      destruct (Z.leb_spec VGA_WIDTH (cursor_col (vga s) + 1)),
        (Z.ltb_spec (cursor_col (vga s)) 79); try vga_lia; wp_steps.
      + exists m, (cursor_row (vga s) + 1), 0. split_and!; try done; vga_lia.
      + exists m, (cursor_row (vga s)), (cursor_col (vga s) + 1). split_and!; try done; vga_lia. }
  wp_call H1. intros _ s1 (m & row & col & -> & Hm & Hrow & Hcol & ->). wp_step. wp_step.
  cbn [vga set_vga cursor_row]. unfold term_wrap. cbn [t_row t_cells].
  pose proof (with_mem_frame s m Hm) as Fm.
  pose proof (low_mapped_with_mem s m Hlow Hm) as Hlm.
  apply wp_bind.
  destruct (Z.leb_spec VGA_HEIGHT row), (Z.ltb_spec row 25); try vga_lia.
  - apply wp_bind, wp_vga_scroll_up; [done|]. intros m2 Hm2 Hs2.
    unfold set_cursor. wp_steps. apply wp_vga_move_cursor.
    { apply console_ok_cursor; [done| |vga_lia..].
      apply (low_mapped_with_mem (set_vga _ (with_mem s m))); done. }
    intros s' ? F' ? Hv Hmem ?. split; [|done]. split_and!; [done| |done|].
    + etrans; [exact Fm|]. etrans; [apply set_vga_frame|].
      etrans; [by apply with_mem_frame|]. etrans; [apply set_vga_frame|]. done.
    + unfold term_of. rewrite Hv, Hmem. simpl. by rewrite Hs2.
  - wp_steps. apply wp_vga_move_cursor.
    { apply console_ok_cursor; [done..|vga_lia|done]. }
    intros s' ? F' ? Hv Hmem ?. split; [|done]. split_and!; [done| |done|].
    + etrans; [exact Fm|]. etrans; [apply set_vga_frame|]. done.
    + unfold term_of. by rewrite Hv, Hmem.
Qed.

Lemma wp_vga_print_loop str color s :
  console_ok s →
  wp (vga_print_loop str color)
    (λ _ s', console_post s (term_print color (term_of s) str) s' ∧
       (str ≠ [] ∨ cursor_synced s → cursor_synced s')) no_halt s.
Proof.
  revert s. induction str as [|c str IH]; intros s Hok; cbn [vga_print_loop].
  { wp_step. split; [by split_and!|]. by intros [|]. }
  apply wp_bind. wp_call (wp_vga_print_char color c s Hok). intros [] s1 [Hp1 Hs1].
  wp_call (IH s1 (proj1 Hp1)). intros [] s2 [Hp2 Hs2]. split; [|auto].
  eapply console_post_trans; [exact Hp1|]. destruct Hp1 as (_ & _ & _ & Et).
  unfold term_print. cbn [foldl]. rewrite <- Et. exact Hp2.
Qed.

Lemma wp_vga_print_string str color s :
  console_ok s →
  wp (vga_print_string str color)
    (λ _ s', console_post s (term_print color (term_of s) (c_str str)) s' ∧
       (c_str str ≠ [] ∨ cursor_synced s → cursor_synced s')) no_halt s.
Proof. apply wp_vga_print_loop. Qed.

(** ** Clearing and initialising *)

Definition term_init : term := Term (replicate (Z.to_nat 2000) blank) 0 0.

(** What clearing needs: it sets the cursor, so the old one may be anything. *)
Record clear_ok (s : kstate) : Prop := {
  cl_log : ringbuf_wf (log s);
  cl_low : low_mapped (hw s);
}.

Lemma wp_vga_clear_screen s :
  clear_ok s →
  wp vga_clear_screen (λ _ s', console_post s term_init s' ∧ cursor_synced s') no_halt s.
Proof.
  intros [Hl Hlow]. unfold vga_clear_screen. apply wp_bind.
  apply (wp_for _ _ _ (cells_inv s (clear_cells (cell (mem (hw s))) 0))).
  - apply cells_inv_start. intros j Hj. unfold clear_cells. by case_decide; [lia|].
  - intros i st Hi (m & -> & Hm & Hc).
    change (Z.of_nat (Z.to_nat (VGA_WIDTH * VGA_HEIGHT))) with 2000 in Hi.
    rewrite (Z.mul_comm i 2). apply wp_put_cell; [done..|lia|].
    eapply cells_inv_put; [done..|lia|]. intros j Hj. unfold clear_cells.
    repeat case_decide; try lia; done.
  - intros st (m & -> & Hm & Hc). unfold set_cursor. wp_steps. apply wp_vga_move_cursor.
    { apply console_ok_cursor; [done|by apply low_mapped_with_mem|vga_lia..]. }
    intros s' ? F' ? Hv Hmem ?. split; [|done]. split_and!; [done| |done|].
    + etrans; [by apply with_mem_frame|]. etrans; [apply set_vga_frame|]. done.
    + unfold term_of. rewrite Hv, Hmem. unfold term_init.
      cbn [vga set_vga cursor_row cursor_col]. f_equal.
      apply screen_ext; [apply length_replicate|]. intros j Hj. rewrite Hc by done.
      change (Z.of_nat _) with 2000. unfold clear_cells. case_decide; [|lia].
      apply lookup_replicate_2. lia.
Qed.

Lemma wp_vga_init s :
  clear_ok s →
  wp vga_init (λ _ s', console_post s term_init s' ∧ cursor_synced s') no_halt s.
Proof.
  intros [Hl Hlow]. unfold vga_init. apply wp_bind. unfold set_cursor. wp_step.
  apply wp_bind. wp_call (wp_vga_clear_screen (set_vga (VgaVars 0 0) s)); [by split|].
  intros [] s1 [(Hok1 & F1 & L1 & T1) _]. apply wp_vga_move_cursor; [done|].
  intros s2 ? F2 L2 V2 M2 ?. split; [|done]. split_and!; [done| |by rewrite L2, L1|].
  - etrans; [apply set_vga_frame|]. by etrans.
  - rewrite <- T1. unfold term_of. by rewrite V2, M2.
Qed.

(** A state from which the console works: zeroed memory, paging off. *)
Definition symbols_zero : symbols := Symbols 0 0 0 0 0 0 0 0 0 0.

Definition boot_state (m : memory) (sy : symbols) : kstate :=
  KState (Machine m 1 0 0 0 0 false []) (VgaVars 0 0) ringbuf_zero
    (PanikVars PANIK_MODE_NORMAL 0 (replicate 256 0) 0)
    (MemmapVars 0 (replicate 32 (Region 0 0 0))) (PmmVars 0 0 0 0)
    (DescVars (replicate 256 idt_entry_zero) (IdtPtr 0 0) (replicate 4 gdt_entry_zero)
       (GdtPtr 0 0) tss_zero (replicate (Z.to_nat 4096) 0)) sy.

Lemma boot_state_console m sy : console_ok (boot_state m sy).
Proof. split; [apply ringbuf_zero_wf|by vm_compute..|]. by left. Qed.

(** ** The properties of the driver *)

(** C15: printing a string implements the terminal.  From any state where the
    cursor is on the screen and low memory is mapped, [vga_print_string] returns
    without a fault; the 25 by 80 cells and the cursor are then those of the
    terminal after the same characters (wrapping at column 80, scrolling by a
    row at the bottom), the invariant holds again, and no byte outside the 4000
    bytes of video memory, no register and no other static has changed. *)
Theorem vga_print_string_refines_terminal str color s :
  console_ok s →
  ∃ s', vga_print_string str color s = Ok tt s' ∧
    term_of s' = term_print color (term_of s) (c_str str) ∧
    console_ok s' ∧ console_frame s s' ∧ log s' = log s.
Proof.
  intros Hok. destruct (wp_run _ _ _ (wp_vga_print_string str color s Hok))
    as ([] & s' & E & (? & ? & ? & ?) & _). by exists s'.
Qed.

Lemma vga_print_string_refines_terminal_witness :
  ∃ s', vga_print_string (C "Kernel-V\n") WHITE_ON_BLACK (boot_state ∅ symbols_zero) = Ok tt s' ∧
    term_of s' = term_print WHITE_ON_BLACK (term_of (boot_state ∅ symbols_zero))
                   (c_str (C "Kernel-V\n")) ∧
    console_ok s' ∧ console_frame (boot_state ∅ symbols_zero) s' ∧
    log s' = log (boot_state ∅ symbols_zero).
Proof. apply vga_print_string_refines_terminal, boot_state_console. Defined.

(** The hardware cursor follows the software one.  After printing at least
    one character, or after [vga_init], replaying the port writes through the
    controller's registers gives exactly [cursor_row * 80 + cursor_col]. *)
Theorem vga_hardware_cursor_follows str color s :
  console_ok s →
  (c_str str ≠ [] → ∃ s', vga_print_string str color s = Ok tt s' ∧ cursor_synced s') ∧
  (∃ s', vga_init s = Ok tt s' ∧ cursor_synced s' ∧ term_of s' = term_init).
Proof.
  intros Hok. split.
  - intros Hne. destruct (wp_run _ _ _ (wp_vga_print_string str color s Hok))
      as ([] & s' & E & _ & Hs). exists s'. auto.
  - destruct Hok. destruct (wp_run _ _ _ (wp_vga_init s ltac:(by split)))
      as ([] & s' & E & (? & ? & ? & ?) & ?). by exists s'.
Qed.

Lemma vga_hardware_cursor_follows_witness :
  (c_str (C "ok") ≠ [] →
   ∃ s', vga_print_string (C "ok") WHITE_ON_BLACK (boot_state ∅ symbols_zero) = Ok tt s' ∧
     cursor_synced s') ∧
  (∃ s', vga_init (boot_state ∅ symbols_zero) = Ok tt s' ∧ cursor_synced s' ∧
     term_of s' = term_init).
Proof. apply vga_hardware_cursor_follows, boot_state_console. Defined.
