(* ===== verification/Printk.v ===== *)
(** * Kernel messages: [printk] of [kernel/lib/printk.c]

    [printk] formats into a local buffer, appends the text to the circular log
    and prints it on the console, after a coloured prefix when the format
    starts with a log level.  The lemmas at the end are what every other
    component uses: a well-typed [printk] returns, and changes nothing but the
    log, the screen and the cursor. *)

From Stdlib Require Import ZArith Lia String.
From stdpp Require Import base gmap list.
From S2P Require Import Prelude RingBuf Format Descriptors Machine State Vga.

Record loglevel := Loglevel { level_char : Z; level_name : list Z; level_color : Z }.

Definition loglevels : list loglevel := [
  Loglevel (ch "0") (C "EMERG") (VGA_COLOR VGA_RED VGA_WHITE);
  Loglevel (ch "1") (C "ALERT") (VGA_COLOR VGA_BLACK VGA_LIGHT_RED);
  Loglevel (ch "2") (C "CRIT") (VGA_COLOR VGA_BLACK VGA_LIGHT_MAGENTA);
  Loglevel (ch "3") (C "ERR") (VGA_COLOR VGA_BLACK VGA_RED);
  Loglevel (ch "4") (C "WARN") (VGA_COLOR VGA_BLACK VGA_YELLOW);
  Loglevel (ch "5") (C "NOTICE") (VGA_COLOR VGA_BLACK VGA_LIGHT_CYAN);
  Loglevel (ch "6") (C "INFO") (VGA_COLOR VGA_BLACK VGA_WHITE);
  Loglevel (ch "7") (C "DEBUG") (VGA_COLOR VGA_BLACK VGA_DARK_GREY)
].

Definition num_loglevels : Z := zlen loglevels.

(** The loop of [find_loglevel] from index [i] on. *)
Fixpoint find_loglevel_from (i : Z) (levels : list loglevel) (c : Z) : Z :=
  match levels with
  | [] => -1
  | l :: levels => if level_char l =? c then i else find_loglevel_from (i + 1) levels c
  end.

Definition find_loglevel (c : Z) : Z := find_loglevel_from 0 loglevels c.

Definition printk_init : M unit :=
  modify (λ s, set_log (ringbuf_reset (log s)) s);;
  vga_init.

(** [ringbuf_write] on the kernel's log. *)
Definition log_write (str : list Z) (str_len : Z) : M unit := λ s,
  match ringbuf_write str str_len (log s) with
  | Some rb => Ok tt (set_log rb s)
  | None => Undef UbIndex
  end.

(** The array [my_vsnprintf] leaves: the stored bytes and the terminator. *)
Definition format_to (size : Z) (fmt : list Z) (args : list arg) : M (list Z) :=
  match my_vsnprintf size fmt args with
  | FOk out => mret out
  | FErr _ => undef UbFormat
  end.

Definition vprintk (fmt : list Z) (args : list arg) : M Z :=
  out ← format_to LOG_BUF_SIZE fmt args;
  let tmp := out ++ [0] in
  let len := zlen out in
  log_write tmp len;;
  vga_print_string tmp WHITE_ON_BLACK;;
  mret len.

(** [fmt[i]] of a C string. *)
Definition str_at (str : list Z) (i : nat) : Z := default 0 (c_str str !! i).

Definition printk (fmt : list Z) (args : list arg) : M Z :=
  let has_level :=
    (str_at fmt 0 =? 1) && (ch "0" <=? str_at fmt 1) && (str_at fmt 1 <=? ch "7") in
  let actual_fmt := if has_level then drop 2 fmt else fmt in
  let log_level_idx := if has_level then find_loglevel (str_at fmt 1) else -1 in
  prefix_len ←
    (if negb (log_level_idx =? -1) then
       match loglevels !! Z.to_nat log_level_idx with
       | Some l =>
           let level_prefix := [ch "["] ++ level_name l ++ [ch "]"; ch " "] in
           let prefix_len := zlen level_prefix in
           log_write (level_prefix ++ [0]) prefix_len;;
           vga_print_string (level_prefix ++ [0]) (level_color l);;
           mret prefix_len
       | None => undef UbIndex
       end
     else mret 0);
  msg_len ← vprintk actual_fmt args;
  mret (prefix_len + msg_len).

(** The [pr_*] macros paste the level in front of the format. *)
Definition KERN_SOH : list Z := C "\001".
Definition KERN_EMERG : list Z := KERN_SOH ++ C "0".
Definition KERN_ALERT : list Z := KERN_SOH ++ C "1".
Definition KERN_CRIT : list Z := KERN_SOH ++ C "2".
Definition KERN_ERR : list Z := KERN_SOH ++ C "3".
Definition KERN_WARNING : list Z := KERN_SOH ++ C "4".
Definition KERN_NOTICE : list Z := KERN_SOH ++ C "5".
Definition KERN_INFO : list Z := KERN_SOH ++ C "6".
Definition KERN_DEBUG : list Z := KERN_SOH ++ C "7".

Definition pr_emerg (fmt : list Z) (args : list arg) : M Z := printk (KERN_EMERG ++ fmt) args.
Definition pr_alert (fmt : list Z) (args : list arg) : M Z := printk (KERN_ALERT ++ fmt) args.
Definition pr_crit (fmt : list Z) (args : list arg) : M Z := printk (KERN_CRIT ++ fmt) args.
Definition pr_err (fmt : list Z) (args : list arg) : M Z := printk (KERN_ERR ++ fmt) args.
Definition pr_warning (fmt : list Z) (args : list arg) : M Z := printk (KERN_WARNING ++ fmt) args.
Definition pr_notice (fmt : list Z) (args : list arg) : M Z := printk (KERN_NOTICE ++ fmt) args.
Definition pr_info (fmt : list Z) (args : list arg) : M Z := printk (KERN_INFO ++ fmt) args.
Definition pr_debug (fmt : list Z) (args : list arg) : M Z := printk (KERN_DEBUG ++ fmt) args.

(** ** What [printk] promises *)

(** The level in front of a format, as the macros put it there. *)
Definition split_level (fmt : list Z) : option loglevel * list Z :=
  match fmt with
  | a :: d :: rest =>
      if (a =? 1) && (48 <=? d) && (d <=? 55)
      then (loglevels !! Z.to_nat (d - 48), rest) else (None, fmt)
  | _ => (None, fmt)
  end.

Definition prefix_text (l : option loglevel) : list Z :=
  match l with Some l => C "[" ++ level_name l ++ C "] " | None => [] end.

(** The terminal after the prefix in its colour and the text in white. *)
Definition term_message (t : term) (l : option loglevel) (txt : list Z) : term :=
  let t := match l with Some lv => term_print (level_color lv) t (c_str (prefix_text l)) | None => t end in
  term_print WHITE_ON_BLACK t (c_str txt).

Lemma set_log_frame rb s : console_frame s (set_log rb s).
Proof. split; try done. by exists []. Qed.

(** The log and the terminal after output from [s]. *)
Definition message_post (s : kstate) (logged : list Z) (t : term) (s' : kstate) : Prop :=
  console_ok s' ∧ console_frame s s' ∧
  contents (log s') = lastn log_capacity (contents (log s) ++ logged) ∧ term_of s' = t.

(** One buffer to the log and to the screen, the step both halves of [printk]
    do before they continue with [k]. *)
Lemma wp_log_and_print {A} str color (k : M A) s (Q : A → kstate → Prop) H :
  console_ok s →
  (∀ s', message_post s str (term_print color (term_of s) (c_str str)) s' → wp k Q H s') →
  wp (log_write (str ++ [0]) (zlen str);; vga_print_string (str ++ [0]) color;; k) Q H s.
Proof.
  intros [Hl Hr Hc Hlow] HQ. apply wp_bind.
  destruct (ringbuf_write_ok (str ++ [0]) (zlen str) (log s)) as (rb & Hw & Hwf & Hrb);
    [done|zlen_lia|].
  unfold wp at 1, log_write. rewrite Hw. apply wp_bind, wp_halts.
  wp_call (wp_vga_print_string (str ++ [0]) color (set_log rb s)); [by split|].
  intros [] s' [(Hok & F & L & T) _]. apply HQ. split_and!; [done| | |].
  - etrans; [apply set_log_frame|done].
  - rewrite L. cbn [log set_log]. rewrite Hrb. do 2 f_equal.
    unfold ztake, zlen. rewrite Nat2Z.id. apply take_app_length.
  - rewrite T. assert (c_str (str ++ [0]) = c_str str) as ->; [|done].
    clear. induction str as [|c str IH]; [done|]. simpl. by rewrite IH.
Qed.

Lemma wp_vprintk fmt args out s (Q : Z → kstate → Prop) H :
  console_ok s → my_vsnprintf LOG_BUF_SIZE fmt args = FOk out →
  (∀ s', message_post s out (term_print WHITE_ON_BLACK (term_of s) (c_str out)) s' →
     Q (zlen out) s') →
  wp (vprintk fmt args) Q H s.
Proof.
  intros Hok Hf HQ. unfold vprintk, format_to. rewrite Hf. wp_step. wp_step. cbv zeta.
  by apply wp_log_and_print.
Qed.

Lemma find_loglevel_digit d :
  48 <= d <= 55 → find_loglevel d = d - 48 ∧ is_Some (loglevels !! Z.to_nat (d - 48)).
Proof.
  intros Hd. assert (d ∈ zrange 48 8) as Hin by (apply elem_of_zrange; simpl; lia).
  simpl in Hin. repeat (apply elem_of_cons in Hin as [->|Hin]; [by split; [|eexists]|]).
  by apply elem_of_nil in Hin.
Qed.

(** The code's test for a level is the specification's. *)
Lemma split_level_code fmt :
  match split_level fmt with
  | (Some l, rest) => ∃ d, fmt = 1 :: d :: rest ∧ 48 <= d <= 55 ∧
      loglevels !! Z.to_nat (d - 48) = Some l
  | (None, rest) => rest = fmt ∧
      ((str_at fmt 0 =? 1) && (ch "0" <=? str_at fmt 1) && (str_at fmt 1 <=? ch "7")) = false
  end.
Proof.
  unfold split_level, str_at. change (ch "0") with 48. change (ch "7") with 55.
  destruct fmt as [|a [|d rest]]; [done| |].
  { split; [done|]. cbn [c_str]. destruct (Z.eqb_spec a 0) as [->|]; [done|].
    cbn. by rewrite andb_false_r. }
  cbn [c_str]. destruct ((a =? 1) && (48 <=? d) && (d <=? 55)) eqn:Hd.
  - apply andb_prop in Hd as [[->%Z.eqb_eq ?]%andb_prop ?].
    destruct (find_loglevel_digit d ltac:(lia)) as [_ [l Hl]]. rewrite Hl.
    exists d. split_and!; [done|lia..|done].
  - split; [done|]. destruct (Z.eqb_spec a 0) as [->|]; [done|].
    cbn. destruct (Z.eqb_spec d 0) as [->|]; cbn; [by rewrite andb_false_r|exact Hd].
Qed.

Lemma message_post_trans s1 s2 s3 l1 l2 t1 t2 :
  message_post s1 l1 t1 s2 → message_post s2 l2 t2 s3 → message_post s1 (l1 ++ l2) t2 s3.
Proof.
  intros (_ & F1 & L1 & _) (Hok & F2 & L2 & ?). split_and!; [done|by etrans| |done].
  by rewrite L2, L1, lastn_lastn_app, <- app_assoc.
Qed.

Lemma message_post_refl s : console_ok s → message_post s [] (term_of s) s.
Proof.
  intros Hok. split_and!; [done..| |done]. rewrite app_nil_r, lastn_short; [done|].
  rewrite length_contents. pose proof (rb_count_bound (log s)). unfold log_capacity. lia.
Qed.

Lemma str_at_level d rest :
  48 <= d <= 55 →
  (str_at (1 :: d :: rest) 0 =? 1) && (ch "0" <=? str_at (1 :: d :: rest) 1) &&
    (str_at (1 :: d :: rest) 1 <=? ch "7") = true ∧
  str_at (1 :: d :: rest) 1 = d.
Proof.
  intros Hd. unfold str_at. change (ch "0") with 48. change (ch "7") with 55.
  cbn [c_str]. destruct (Z.eqb_spec d 0); [lia|]. cbn.
  destruct (Z.leb_spec 48 d), (Z.leb_spec d 55); done || lia.
Qed.

(** The whole of [printk] on a format whose text is [out]. *)
Lemma wp_printk_text fmt args l body out s (Q : Z → kstate → Prop) H :
  split_level fmt = (l, body) →
  console_ok s → my_vsnprintf LOG_BUF_SIZE body args = FOk out →
  (∀ s', message_post s (prefix_text l ++ out) (term_message (term_of s) l out) s' →
     Q (zlen (prefix_text l) + zlen out) s') →
  wp (printk fmt args) Q H s.
Proof.
  pose proof (split_level_code fmt) as Hsplit.
  intros E Hok Hf HQ. rewrite E in Hsplit. unfold printk. cbv zeta.
  destruct l as [l|].
  - destruct Hsplit as (d & -> & Hd & Hl).
    destruct (str_at_level d body Hd) as [-> ->].
    cbn [drop].
    destruct (find_loglevel_digit d Hd) as [-> _].
    destruct (Z.eqb_spec (d - 48) (-1)); [lia|]. cbn [negb]. rewrite Hl.
    apply wp_bind, wp_log_and_print; [done|]. intros s1 Hs1. wp_step. wp_step.
    apply (wp_vprintk body args out); [apply Hs1|done|]. intros s2 Hs2. wp_step.
    apply HQ. destruct Hs1 as (? & ? & ? & T1). rewrite T1 in Hs2.
    eapply message_post_trans; [by split_and!|exact Hs2].
  - destruct Hsplit as [-> ->]. change (Z.eqb (-1) (-1)) with true. cbn [negb]. wp_step. wp_step. wp_step.
    apply (wp_vprintk fmt args out); [done..|]. intros s1 Hs1. wp_step. by apply HQ.
Qed.

(** Since [s0], the text [txt] has been written, to the log and to the screen. *)
Definition wrote (s0 : kstate) (txt : list Z) (s : kstate) : Prop :=
  message_post s0 txt (term_print WHITE_ON_BLACK (term_of s0) txt) s.

Lemma wrote_nothing s : console_ok s → wrote s [] s.
Proof. apply message_post_refl. Qed.

Lemma wp_printk_wrote fmt args out s0 txt s (Q : Z → kstate → Prop) H :
  wrote s0 txt s → split_level fmt = (None, fmt) → c_str out = out →
  my_vsnprintf LOG_BUF_SIZE fmt args = FOk out →
  (∀ n s', wrote s0 (txt ++ out) s' → Q n s') → wp (printk fmt args) Q H s.
Proof.
  intros Hs El Eout Ef HQ. apply (wp_printk_text _ _ _ _ _ _ _ _ El (proj1 Hs) Ef).
  intros s' Hs'. apply HQ. unfold wrote, term_print. rewrite foldl_app.
  eapply message_post_trans; [exact Hs|]. pose proof Hs as (_ & _ & _ & T).
  cbn [prefix_text app] in Hs'. unfold term_message in Hs'. rewrite Eout, T in Hs'. exact Hs'.
Qed.

(** What a caller needs: a well-typed message returns and leaves everything but
    the console alone. *)
Definition message_ok (fmt : list Z) (args : list arg) : bool :=
  format_ok (split_level fmt).2 args.

Lemma wp_printk fmt args s (Q : Z → kstate → Prop) H :
  console_ok s → message_ok fmt args = true →
  (∀ n s', console_ok s' → console_frame s s' → Q n s') →
  wp (printk fmt args) Q H s.
Proof.
  unfold message_ok. destruct (split_level fmt) as [l body] eqn:E. intros Hok Ht HQ.
  destruct (my_vsnprintf_typed LOG_BUF_SIZE body args) as (out & Hf & _); [done..|].
  eapply wp_printk_text; [done..|]. intros s' (Hok' & F & _ & _). by apply HQ.
Qed.

Lemma wp_printk_init s (Q : unit → kstate → Prop) H :
  ringbuf_wf (log s) → low_mapped (hw s) →
  (∀ s', console_ok s' → console_frame s s' → contents (log s') = [] →
     term_of s' = term_init → Q tt s') →
  wp printk_init Q H s.
Proof.
  intros Hl Hlow HQ. unfold printk_init. apply wp_bind. wp_step. apply wp_halts.
  wp_call (wp_vga_init (set_log (ringbuf_reset (log s)) s)).
  { split; [by apply ringbuf_reset_wf|done]. }
  intros [] s' [(Hok & F & L & T) _]. apply HQ; [done| | |done].
  - etrans; [apply set_log_frame|done].
  - rewrite L. apply contents_reset.
Qed.

(** ** The properties of [printk] *)

(** C17: [printk] logs and shows exactly its message.  From any state where the
    console works, for every format (with or without a log level in front)
    whose text is [out], [printk] returns the length of prefix and text; the log
    is the old one followed by prefix and text, cut to its last 1023 bytes; the
    terminal shows the prefix in the level's colour and then the text, up to
    its first NUL, in white; and nothing else has changed. *)
Theorem printk_logs_and_shows fmt args l body out s :
  split_level fmt = (l, body) →
  console_ok s → my_vsnprintf LOG_BUF_SIZE body args = FOk out →
  ∃ s', printk fmt args s = Ok (zlen (prefix_text l) + zlen out) s' ∧
    contents (log s') = lastn log_capacity (contents (log s) ++ prefix_text l ++ out) ∧
    term_of s' = term_message (term_of s) l out ∧
    console_ok s' ∧ console_frame s s'.
Proof.
  intros Hl Hok Hf.
  destruct (wp_run (printk fmt args) (λ n s', n = zlen (prefix_text l) + zlen out ∧
    message_post s (prefix_text l ++ out) (term_message (term_of s) l out) s') s)
    as (n & s' & -> & -> & ? & ? & ? & ?).
  - by eapply wp_printk_text.
  - by exists s'.
Qed.

Lemma printk_logs_and_shows_witness :
  ∃ s', printk (KERN_ERR ++ C "%s at %x\n") [AStr (Some (C "fault")); AWord 0xDEADBEEF]
          (boot_state ∅ symbols_zero)
        = Ok (zlen (prefix_text (Some (Loglevel (ch "3") (C "ERR") (VGA_COLOR VGA_BLACK VGA_RED))))
              + zlen (C "fault at deadbeef\n")) s' ∧
    contents (log s') = lastn log_capacity (contents (log (boot_state ∅ symbols_zero)) ++
      prefix_text (Some (Loglevel (ch "3") (C "ERR") (VGA_COLOR VGA_BLACK VGA_RED))) ++
      C "fault at deadbeef\n") ∧
    term_of s' = term_message (term_of (boot_state ∅ symbols_zero))
      (Some (Loglevel (ch "3") (C "ERR") (VGA_COLOR VGA_BLACK VGA_RED))) (C "fault at deadbeef\n") ∧
    console_ok s' ∧ console_frame (boot_state ∅ symbols_zero) s'.
Proof.
  apply (printk_logs_and_shows _ _ _ (C "%s at %x\n")).
  - reflexivity.
  - apply boot_state_console.
  - reflexivity.
Defined.

(** Well-typed messages are safe to print from anywhere.  Whenever the
    console works and the specifiers of the format match the kinds of the
    arguments, [printk] returns: no fault, no undefined behaviour, whatever the
    values.  Afterwards the console still works, and memory outside the screen,
    the registers and every other static are as before. *)
Theorem printk_safe fmt args s :
  console_ok s → message_ok fmt args = true →
  ∃ n s', printk fmt args s = Ok n s' ∧ console_ok s' ∧ console_frame s s'.
Proof.
  intros Hok Ht.
  apply (wp_run _ (λ _ s', console_ok s' ∧ console_frame s s')). by apply wp_printk.
Qed.

Lemma printk_safe_witness :
  ∃ n s', printk (C "[PMM] Reserved bitmap: 0x%u - 0x%u (%u bytes)\n")
      [AWord 0x90000; AWord 0x91000; AWord 4096] (boot_state ∅ symbols_zero) = Ok n s' ∧
    console_ok s' ∧ console_frame (boot_state ∅ symbols_zero) s'.
Proof. apply printk_safe; [apply boot_state_console|reflexivity]. Defined.

(** The log levels.  The eight levels are found by their digit and by no
    other character, so that the level a [pr_] macro pastes in front of its
    format is the one whose name [printk] prints. *)
Theorem find_loglevel_correct c :
  (48 <= c <= 55 → find_loglevel c = c - 48 ∧
     ∃ l, loglevels !! Z.to_nat (find_loglevel c) = Some l ∧ level_char l = c) ∧
  (¬ 48 <= c <= 55 → find_loglevel c = -1).
Proof.
  split; intros Hc.
  - assert (c ∈ zrange 48 8) as Hin by (apply elem_of_zrange; simpl; lia).
    simpl in Hin. repeat (apply elem_of_cons in Hin as [->|Hin]; [by split; [|eexists]|]).
    by apply elem_of_nil in Hin.
  - unfold find_loglevel, loglevels, find_loglevel_from. cbn [level_char].
    repeat match goal with
    | |- context [?a =? c] =>
        destruct (Z.eqb_spec a c) as [E|_]; [vm_compute in E; subst c; lia|]
    end. done.
Qed.

Lemma find_loglevel_correct_witness :
  (48 <= 52 <= 55 → find_loglevel 52 = 52 - 48 ∧
     ∃ l, loglevels !! Z.to_nat (find_loglevel 52) = Some l ∧ level_char l = 52) ∧
  (¬ 48 <= 52 <= 55 → find_loglevel 52 = -1).
Proof. apply (find_loglevel_correct 52). Defined.
