(* ===== verification/Console.v ===== *)
(** * Equivalence at the console

    Where the circular buffer keeps its bytes and how often the cursor registers
    were written is no matter to what follows.  Two states are alike when they
    agree on everything but that; two computations are equivalent when from alike
    states they end alike, in the same way and with the same value.  [printk]
    respects the equivalence, and a message may be printed in pieces. *)

From Stdlib Require Import ZArith Lia String.
From stdpp Require Import base gmap list.
From S2P Require Import Prelude RingBuf Format Descriptors Machine State Vga Printk.

#[global] Instance is_outb_dec e : Decision (is_outb e).
Proof. destruct e; simpl; apply _. Defined.

(** What the processor did besides port writes. *)
Definition config_events (s : kstate) : list event := filter (λ e, ¬ is_outb e) (events (hw s)).

(** The registers and the statics of the components other than the console. *)
Definition rest_of (s : kstate) :=
  (cr0 (hw s), cr2 (hw s), cr3 (hw s), esp (hw s), ebp (hw s), iflag (hw s), config_events s,
   panic s, memmap s, pmm s, desc s, syms s).

Record alike (s s' : kstate) : Prop := {
  al_mem : ∀ a, rd8 (mem (hw s')) a = rd8 (mem (hw s)) a;
  al_vga : vga s' = vga s;
  al_log : contents (log s') = contents (log s);
  al_rest : rest_of s' = rest_of s;
}.

#[global] Instance alike_equivalence : Equivalence alike.
Proof.
  split.
  - by intros s.
  - intros s s' []. by split.
  - intros s1 s2 s3 [M12 ? ? ?] [M23 ? ? ?]. split; [|congruence..].
    intros a. by rewrite M23, M12.
Qed.

#[global] Instance term_of_alike : Proper (alike ==> (=)) term_of.
Proof.
  intros s s' [Hm Hv _ _]. unfold term_of. rewrite Hv. f_equal. apply list_fmap_ext.
  intros _ j _. unfold cell. by rewrite !Hm.
Qed.

(** The screen and the rest of memory make all of it. *)
Lemma screen_bytes m m' a : screen m' = screen m → in_screen a → rd8 m' a = rd8 m a.
Proof.
  intros E Ha. unfold in_screen, VGA_ADDRESS, VGA_SIZE, VGA_WIDTH, VGA_HEIGHT in Ha.
  set (j := (a - 0xb8000) / 2).
  assert (0 <= j < 2000) as Hj by (unfold j; clear -Ha; zify_mod).
  assert (cell m' j = cell m j) as Ec.
  { pose proof (screen_lookup m (Z.to_nat j)) as L. pose proof (screen_lookup m' (Z.to_nat j)) as L'.
    rewrite E, L in L'. rewrite !Z2Nat.id, !decide_True in L' by lia. congruence. }
  unfold cell, VGA_ADDRESS in Ec. injection Ec as E0 E1.
  destruct (decide ((a - 0xb8000) mod 2 = 0)) as [H0|H1].
  - replace a with (0xb8000 + 2 * j) by (unfold j; clear -H0; zify_mod). done.
  - replace a with (0xb8000 + 2 * j + 1) by (unfold j; clear -H1; zify_mod). done.
Qed.

Lemma config_events_outb l s s' :
  events (hw s') = l ++ events (hw s) → Forall is_outb l → config_events s' = config_events s.
Proof.
  unfold config_events. intros -> Hl. rewrite filter_app.
  assert (filter (λ e, ¬ is_outb e) l = []) as ->; [|done].
  induction Hl as [|e l He _ IH]; [done|]. by rewrite filter_cons_False by tauto.
Qed.

(** The same output from alike states leaves alike states. *)
Lemma message_alike s s' l t s1 s1' :
  alike s s' → message_post s l t s1 → message_post s' l t s1' → alike s1 s1'.
Proof.
  intros [Hm Hv Hl Hr] (_ & F & L & T) (_ & F' & L' & T').
  assert (term_of s1' = term_of s1) as Ht by congruence.
  assert (screen (mem (hw s1')) = screen (mem (hw s1))) as Hs by exact (f_equal t_cells Ht).
  assert (cursor_row (vga s1') = cursor_row (vga s1)) as Hrow by exact (f_equal t_row Ht).
  assert (cursor_col (vga s1') = cursor_col (vga s1)) as Hcol by exact (f_equal t_col Ht).
  clear T T' Ht. split.
  - intros a. destruct (decide (in_screen a)) as [Ha|Ha]; [by apply screen_bytes|].
    by rewrite (cf_mem _ _ F'), (cf_mem _ _ F), Hm.
  - destruct (vga s1), (vga s1'). simpl in *. congruence.
  - congruence.
  - destruct (cf_events _ _ F) as (k & Ek & Hk), (cf_events _ _ F') as (k' & Ek' & Hk').
    pose proof (config_events_outb _ _ _ Ek Hk) as C1. pose proof (config_events_outb _ _ _ Ek' Hk') as C2.
    unfold rest_of in *. destruct F, F'. congruence.
Qed.

(** ** Computations *)

Definition ends_alike {A} (o o' : outcome A) : Prop :=
  match o, o' with
  | Ok a s, Ok a' s' => a' = a ∧ console_ok s ∧ console_ok s' ∧ alike s s'
  | Halted s, Halted s' => alike s s'
  | Fault va s, Fault va' s' => va' = va ∧ alike s s'
  | Undef u, Undef u' => u' = u
  | _, _ => False
  end.

(** A partial equivalence: related to itself is what keeps the console working
    and does not look at what alike states may differ in. *)
#[global] Instance M_equiv {A} : Equiv (M A) := λ m m',
  ∀ s s', console_ok s → console_ok s' → alike s s' → ends_alike (m s) (m' s').

#[global] Instance M_symmetric {A} : @Symmetric (M A) (≡).
Proof.
  intros m m' Hm s s' Hs Hs' Ha. specialize (Hm s' s Hs' Hs (symmetry Ha)).
  destruct (m s'), (m' s); simpl in *; try done.
  - destruct Hm as (-> & ? & ? & ?). by split_and!.
  - destruct Hm as [-> ?]. by split.
Qed.

#[global] Instance M_transitive {A} : @Transitive (M A) (≡).
Proof.
  intros m1 m2 m3 H12 H23 s s' Hs Hs' Ha.
  specialize (H12 s s' Hs Hs' Ha). specialize (H23 s' s' Hs' Hs' (reflexivity s')).
  destruct (m1 s), (m2 s'), (m3 s'); simpl in *; try done.
  - destruct H12 as (-> & ? & ? & ?), H23 as (-> & ? & ? & ?). split_and!; try done. by etrans.
  - by etrans.
  - destruct H12 as [-> ?], H23 as [-> ?]. split; [done|]. by etrans.
  - congruence.
Qed.

#[global] Instance mret_proper {A} : Proper ((=) ==> (≡)) (mret (M:=M) (A:=A)).
Proof. intros a _ <- s s' ???. by split_and!. Qed.

#[global] Instance mbind_proper {A B} :
  Proper (pointwise_relation A (≡) ==> (≡) ==> (≡)) (mbind (M:=M) (A:=A) (B:=B)).
Proof.
  intros f f' Hf m m' Hm s s' Hs Hs' Ha. specialize (Hm s s' Hs Hs' Ha).
  unfold mbind, M_bind. destruct (m s), (m' s'); simpl in *; try done.
  destruct Hm as (-> & Hs1 & Hs1' & Ha1). by apply Hf.
Qed.

(** From the output of both sides. *)
Lemma equiv_messages {A} (m m' : M A) (v : A) l (t : term → term) :
  (∀ s, console_ok s → wp m (λ n s', n = v ∧ message_post s l (t (term_of s)) s') no_halt s) →
  (∀ s, console_ok s → wp m' (λ n s', n = v ∧ message_post s l (t (term_of s)) s') no_halt s) →
  m ≡ m'.
Proof.
  intros H H' s s' Hs Hs' Ha. specialize (H s Hs). specialize (H' s' Hs').
  apply wp_run in H as (a & s1 & -> & -> & P). apply wp_run in H' as (a' & s1' & -> & -> & P').
  rewrite (term_of_alike s s' Ha) in P. split_and!; [done|apply P|apply P'|].
  by apply (message_alike s s' l (t (term_of s'))).
Qed.

#[global] Instance printk_proper fmt args :
  message_ok fmt args = true → Proper (≡) (printk fmt args).
Proof.
  unfold message_ok. destruct (split_level fmt) as [l body] eqn:E. intros Ht.
  destruct (my_vsnprintf_typed LOG_BUF_SIZE body args) as (out & Hf & _); [done..|].
  apply (equiv_messages _ _ (zlen (prefix_text l) + zlen out) (prefix_text l ++ out)
    (λ t, term_message t l out)); intros s Hs; by eapply wp_printk_text.
Qed.

Lemma term_message_app t l out1 out2 :
  Forall (λ c, c ≠ 0) out1 →
  term_message (term_message t l out1) None out2 = term_message t l (out1 ++ out2).
Proof.
  intros H1. unfold term_message. rewrite c_str_app, (c_str_id out1) by done. unfold term_print.
  by rewrite foldl_app.
Qed.

(** C18: A message may be printed in pieces.  If the text of one format is the
    text of another followed by that of a third, and the log level stands on the
    whole and on the first piece, then printing the pieces one after the other is
    equivalent to printing the whole: the same log, the same screen and cursor,
    the same total length, and nothing else changed, from any two states that
    agree on these. *)
Theorem printk_in_pieces fmt args fmt1 args1 fmt2 args2 l body body1 out1 out2 :
  split_level fmt = (l, body) → split_level fmt1 = (l, body1) → split_level fmt2 = (None, fmt2) →
  my_vsnprintf LOG_BUF_SIZE body args = FOk (out1 ++ out2) →
  my_vsnprintf LOG_BUF_SIZE body1 args1 = FOk out1 →
  my_vsnprintf LOG_BUF_SIZE fmt2 args2 = FOk out2 → Forall (λ c, c ≠ 0) out1 →
  printk fmt args ≡ (n1 ← printk fmt1 args1; n2 ← printk fmt2 args2; mret (n1 + n2)).
Proof.
  intros E E1 E2 Hf Hf1 Hf2 Hnz.
  apply (equiv_messages _ _ (zlen (prefix_text l) + zlen (out1 ++ out2)) (prefix_text l ++ out1 ++ out2)
    (λ t, term_message t l (out1 ++ out2))); intros s Hs; [by eapply wp_printk_text|].
  apply wp_bind. eapply wp_printk_text; [exact E1|done|exact Hf1|]. intros s1 P1.
  apply wp_bind. eapply wp_printk_text; [exact E2|apply P1|exact Hf2|]. intros s2 P2. wp_step.
  split; [unfold zlen; rewrite length_app; simpl; lia|].
  destruct P1 as (? & ? & ? & T1). rewrite T1, term_message_app in P2 by done.
  rewrite app_assoc. eapply message_post_trans; [|exact P2]. by split_and!.
Qed.

(** A message with a level, in the middle of other output that uses its length. *)
Lemma printk_in_pieces_witness :
  (printk (C "[PF] ") [];;
   n ← printk (KERN_ERR ++ C "%s at %x\n") [AStr (Some (C "fault")); AWord 0xDEADBEEF];
   printk (C "%u bytes\n") [AWord n]) ≡
  (printk (C "[PF] ") [];;
   n ← (n1 ← printk (KERN_ERR ++ C "%s at ") [AStr (Some (C "fault"))];
        n2 ← printk (C "%x\n") [AWord 0xDEADBEEF];
        mret (n1 + n2));
   printk (C "%u bytes\n") [AWord n]).
Proof.
  apply mbind_proper; [|by apply printk_proper]. intros _.
  apply mbind_proper; [intros n; by apply printk_proper|].
  apply (printk_in_pieces _ _ _ _ _ _ (Some (Loglevel (ch "3") (C "ERR") (VGA_COLOR VGA_BLACK VGA_RED)))
    (C "%s at %x\n") (C "%s at ") (C "fault at ") (C "deadbeef\n")).
  all: try reflexivity. apply (bool_decide_unpack _). vm_compute. exact I.
Defined.
