(* ===== verification/Panik.v ===== *)
(** * Kernel panic: [kernel/lib/panik.c] and the macros of [assert.h]

    [panik] records the call in the panic state, formats the message into its
    256-byte buffer, and then either prints it and returns (test mode) or
    disables interrupts, logs and shows it and halts (normal mode). *)

From Stdlib Require Import ZArith Lia String.
From stdpp Require Import base gmap list.
From S2P Require Import Prelude RingBuf Format Descriptors Machine State Vga Printk.

(** [sizeof(panik_state.last_panik_msg)] *)
Definition PANIK_MSG_SIZE : Z := 256.

Definition upd_panic (f : panik_vars → panik_vars) : M unit :=
  modify (λ s, set_panic (f (panic s)) s).

Definition set_panik_mode (mode : panik_mode_t) : M unit :=
  upd_panic (λ p, PanikVars mode (panik_called p) (last_panik_msg p) (panik_call_count p)).

Definition get_panik_mode : M panik_mode_t := gets (λ s, current_panik_mode (panic s)).

(** The caller gets a pointer to the static; here it gets its value. *)
Definition get_panik_state : M panik_vars := gets panic.

Definition reset_panik_state : M unit :=
  upd_panic (λ p, PanikVars (current_panik_mode p) 0 (<[0%nat := 0]> (last_panik_msg p)) 0).

(** The two updates of the state at the head of [panik]; the message and its
    terminator overwrite the front of the buffer. *)
Definition panik_count (p : panik_vars) : panik_vars :=
  PanikVars (current_panik_mode p) 1 (last_panik_msg p) (s32 (panik_call_count p + 1)).

Definition panik_store (out : list Z) (p : panik_vars) : panik_vars :=
  PanikVars (current_panik_mode p) (panik_called p)
    (out ++ 0 :: drop (S (length out)) (last_panik_msg p)) (panik_call_count p).

Definition panik (fmt : list Z) (args : list arg) : M unit :=
  upd_panic panik_count;;
  out ← format_to PANIK_MSG_SIZE fmt args;
  upd_panic (panik_store out);;
  let len := zlen out in
  p ← gets panic;
  if decide (current_panik_mode p = PANIK_MODE_TEST) then
    pr_emerg (C "[TEST PANIK] %s\n") [AStr (Some (last_panik_msg p))];;
    mret tt
  else
    cli;;
    log_write (C "[PANIK] ") 8;;
    log_write (last_panik_msg p) len;;
    log_write (C "\n") 1;;
    vga_print_string (C "[PANIC] ") (VGA_COLOR VGA_RED VGA_WHITE);;
    vga_print_string (last_panik_msg p) (VGA_COLOR VGA_BLACK VGA_LIGHT_RED);;
    vga_print_string (C "\n") WHITE_ON_BLACK;;
    vga_print_string (C "System halted. Press reset to restart.\n")
      (VGA_COLOR VGA_BLACK VGA_YELLOW);;
    halt.

(** The macros of [assert.h]; the expression's text, [__FILE__], [__LINE__] and
    [__func__] are arguments. *)
Definition KASSERT (expr : bool) (text file : list Z) (line : Z) (func : list Z) : M unit :=
  if negb expr then
    panik (C "Assertion Failed: %s %s:%d in %s()\n")
      [AStr (Some text); AStr (Some file); AWord line; AStr (Some func)]
  else mret tt.

Definition BUG (file : list Z) (line : Z) (func : list Z) : M unit :=
  panik (C "BUG at %s:%d in %s()\n") [AStr (Some file); AWord line; AStr (Some func)].

Definition BUG_ON (condition : bool) (file : list Z) (line : Z) (func : list Z) : M unit :=
  if condition then BUG file line func else mret tt.

(** ** What a panic leaves *)

(** The panic state after a call whose message is [out]. *)
Definition panik_after (out : list Z) (p : panik_vars) : panik_vars :=
  panik_store out (panik_count p).

(** The terminal after a fatal message. *)
Definition term_panik (t : term) (msg : list Z) : term :=
  let t := term_print (VGA_COLOR VGA_RED VGA_WHITE) t (C "[PANIC] ") in
  let t := term_print (VGA_COLOR VGA_BLACK VGA_LIGHT_RED) t msg in
  let t := term_print WHITE_ON_BLACK t (C "\n") in
  term_print (VGA_COLOR VGA_BLACK VGA_YELLOW) t (C "System halted. Press reset to restart.\n").

(** The state a panic prints from: message recorded, interrupts disabled. *)
Definition panik_entry (out : list Z) (s : kstate) : kstate :=
  on_hw (push_event Cli) (on_hw (set_iflag false) (set_panic (panik_after out (panic s)) s)).

Lemma c_str_app_out out rest : c_str (out ++ 0 :: rest) = c_str out.
Proof. induction out as [|c out IH]; simpl; [done|]. by rewrite IH. Qed.

Lemma panik_after_msg out p : c_str (last_panik_msg (panik_after out p)) = c_str out.
Proof. apply c_str_app_out. Qed.

Lemma panik_after_size out p :
  zlen out < PANIK_MSG_SIZE → zlen (last_panik_msg p) = PANIK_MSG_SIZE →
  zlen (last_panik_msg (panik_after out p)) = PANIK_MSG_SIZE.
Proof.
  unfold zlen, PANIK_MSG_SIZE. intros Ho Hp. simpl.
  rewrite length_app. simpl. rewrite length_drop. lia.
Qed.

Lemma set_panic_console p s : console_ok s → console_ok (set_panic p s).
Proof. by intros [? ? ? ?]. Qed.

Lemma panik_entry_console out s : console_ok s → console_ok (panik_entry out s).
Proof. by intros [? ? ? ?]. Qed.

(** One write to the log or to the screen, before the rest [k] of the panic. *)
Lemma wp_log_then {A} str n (k : M A) s0 l t s (Q : A → kstate → Prop) H :
  message_post s0 l t s → n <= zlen str →
  (∀ s', message_post s0 (l ++ ztake n str) t s' → wp k Q H s') →
  wp (log_write str n;; k) Q H s.
Proof.
  intros Hs Hn HQ. apply wp_bind. pose proof Hs as ([Hl Hr Hc Hlow] & _ & _ & Ht).
  destruct (ringbuf_write_ok str n (log s)) as (rb & Hw & Hwf & Hrb); [done..|].
  unfold wp at 1, log_write. rewrite Hw. apply HQ. eapply message_post_trans; [exact Hs|].
  split_and!; [by split|apply set_log_frame|exact Hrb|exact Ht].
Qed.

Lemma wp_show_then {A} str color (k : M A) s0 l t s (Q : A → kstate → Prop) H :
  message_post s0 l t s →
  (∀ s', message_post s0 l (term_print color t (c_str str)) s' → wp k Q H s') →
  wp (vga_print_string str color;; k) Q H s.
Proof.
  intros Hs HQ. apply wp_bind, wp_halts. destruct Hs as (Hok & F & L & T).
  wp_call (wp_vga_print_string str color s Hok). intros [] s' [(Hok' & F' & L' & T') _].
  apply HQ. split_and!; [done|by etrans|by rewrite L'|by rewrite T', T].
Qed.

(** The start of both modes: count, format, store. *)
Lemma wp_panik_head (k : list Z → panik_vars → M unit) fmt args out s (Q : unit → kstate → Prop) H :
  my_vsnprintf PANIK_MSG_SIZE fmt args = FOk out →
  wp (k out (panik_after out (panic s))) Q H (set_panic (panik_after out (panic s)) s) →
  wp (upd_panic panik_count;; out ← format_to PANIK_MSG_SIZE fmt args;
      upd_panic (panik_store out);; p ← gets panic; k out p) Q H s.
Proof. intros Hf Hk. unfold upd_panic, format_to. wp_steps. rewrite Hf. by wp_steps. Qed.

Lemma wp_panik_normal fmt args out s (Q : unit → kstate → Prop) (H : kstate → Prop) :
  console_ok s → current_panik_mode (panic s) = PANIK_MODE_NORMAL →
  my_vsnprintf PANIK_MSG_SIZE fmt args = FOk out →
  (∀ s', message_post (panik_entry out s) (C "[PANIK] " ++ out ++ C "\n")
           (term_panik (term_of s) (c_str out)) s' → H s') →
  wp (panik fmt args) Q H s.
Proof.
  intros Hok Hmode Hf HH. unfold panik. apply (wp_panik_head (λ out p, _) _ _ out); [done|].
  destruct (decide _) as [E|_]; [simpl in E; congruence|]. apply wp_bind, wp_modify.
  pose proof (message_post_refl _ (panik_entry_console out s Hok)) as Hs.
  set (msg := last_panik_msg _).
  eapply wp_log_then; [exact Hs|done|]. intros s1 H1.
  eapply wp_log_then; [exact H1| |].
  { unfold msg, panik_after, panik_store. simpl. rewrite zlen_app, zlen_cons.
    pose proof (zlen_nonneg (drop (S (length out)) (last_panik_msg (panic s)))). lia. }
  intros s2 H2. eapply wp_log_then; [exact H2|done|]. intros s3 H3.
  do 4 (eapply wp_show_then; [eassumption|]; clear dependent s3; intros s3 H3).
  apply HH. clear HH.
  replace (ztake (zlen out) msg) with out in H3.
  2: { unfold msg, panik_after, panik_store, ztake, zlen. simpl. by rewrite Nat2Z.id, take_app_length. }
  rewrite <- !app_assoc in H3. unfold msg in H3. rewrite panik_after_msg in H3. exact H3.
Qed.

(** The line test mode prints. *)
Definition test_panik_text (out : list Z) : list Z := C "[TEST PANIK] " ++ c_str out ++ C "\n".

Lemma format_test_panik msg out :
  c_str msg = c_str out → zlen out < PANIK_MSG_SIZE →
  my_vsnprintf LOG_BUF_SIZE (C "[TEST PANIK] %s\n") [AStr (Some msg)] = FOk (test_panik_text out).
Proof.
  intros Hm Ho.
  rewrite (my_vsnprintf_render LOG_BUF_SIZE _ _
    ((Lit <$> C "[TEST PANIK] ") ++ [Conv (ch " ") 0 (ch "s"); Lit 10]) (test_panik_text out)).
  - rewrite ztake_ge; [done|]. unfold test_panik_text.
    assert (zlen (c_str out) <= zlen out).
    { clear. unfold zlen. induction out as [|c out IH]; simpl; [lia|].
      destruct (c =? 0); simpl; lia. }
    unfold PANIK_MSG_SIZE, LOG_BUF_SIZE in *. rewrite !zlen_app.
    change (zlen (C "[TEST PANIK] ")) with 13. change (zlen (C "\n")) with 1. lia.
  - done.
  - reflexivity.
  - transitivity (Some (C "[TEST PANIK] " ++ padded (ch " ") 0 (c_str msg) ++ C "\n")); [reflexivity|].
    by rewrite padded_none, Hm.
  - reflexivity.
  - left. reflexivity.
Qed.

Lemma wp_panik_test fmt args out s (Q : unit → kstate → Prop) H :
  console_ok s → current_panik_mode (panic s) = PANIK_MODE_TEST →
  my_vsnprintf PANIK_MSG_SIZE fmt args = FOk out → zlen out < PANIK_MSG_SIZE →
  (∀ s', message_post (set_panic (panik_after out (panic s)) s)
           (C "[EMERG] " ++ test_panik_text out)
           (term_message (term_of s) (loglevels !! 0%nat) (test_panik_text out)) s' → Q tt s') →
  wp (panik fmt args) Q H s.
Proof.
  intros Hok Hmode Hf Ho HQ. unfold panik. apply (wp_panik_head (λ out p, _) _ _ out); [done|].
  destruct (decide _) as [_|E]; [|simpl in E; congruence]. wp_step.
  eapply (wp_printk_text _ _ (loglevels !! 0%nat) (C "[TEST PANIK] %s\n"));
    [reflexivity|by apply set_panic_console|by apply format_test_panik; [apply panik_after_msg|]|].
  intros s' Hs'. wp_step. by apply HQ.
Qed.

(** What callers need in normal mode: a well-typed panic halts with interrupts
    disabled, and has touched nothing but the console and the panic state. *)
Record halted_state (s s' : kstate) : Prop := {
  ht_iflag : iflag (hw s') = false;
  ht_called : panik_called (panic s') = 1;
  ht_mem : screen_only (mem (hw s)) (mem (hw s'));
  ht_pmm : pmm s' = pmm s;
}.

Lemma wp_panik_halts fmt args s (Q : unit → kstate → Prop) (H : kstate → Prop) :
  console_ok s → current_panik_mode (panic s) = PANIK_MODE_NORMAL →
  format_ok fmt args = true →
  (∀ s', halted_state s s' → H s') → wp (panik fmt args) Q H s.
Proof.
  intros Hok Hmode Ht HH.
  destruct (my_vsnprintf_typed PANIK_MSG_SIZE fmt args) as (out & Hf & _); [done..|].
  apply (wp_panik_normal _ _ out); [done..|]. intros s' (_ & F & _ & _). apply HH.
  destruct F. split; [done| |done..]. by rewrite cf_panic.
Qed.

(** ** The properties of [panik] *)

(** C19: a panic in normal mode stops the machine and tells why.  Whenever the
    console works and the message formats to [out] in the 256-byte buffer,
    [panik] halts, with interrupts disabled, the call recorded and counted, and
    the message kept as a C string in the panic state; the log ends with
    "[PANIK] ", the message and a newline, the screen shows the message in
    light red between its banner and the halt notice, and nothing else has
    changed. *)
Theorem panik_normal_halts fmt args out s :
  console_ok s → current_panik_mode (panic s) = PANIK_MODE_NORMAL →
  my_vsnprintf PANIK_MSG_SIZE fmt args = FOk out →
  ∃ s', panik fmt args s = Halted s' ∧ iflag (hw s') = false ∧
    panik_called (panic s') = 1 ∧ c_str (last_panik_msg (panic s')) = c_str out ∧
    panik_call_count (panic s') = s32 (panik_call_count (panic s) + 1) ∧
    contents (log s') =
      lastn log_capacity (contents (log s) ++ C "[PANIK] " ++ out ++ C "\n") ∧
    term_of s' = term_panik (term_of s) (c_str out) ∧
    console_frame (panik_entry out s) s'.
Proof.
  intros Hok Hmode Hf.
  assert (wp (panik fmt args) (λ _ _, False) (λ s', message_post (panik_entry out s)
    (C "[PANIK] " ++ out ++ C "\n") (term_panik (term_of s) (c_str out)) s') s) as Hwp.
  { by apply (wp_panik_normal _ _ out). }
  unfold wp in Hwp. destruct (panik fmt args s) as [| s' | |]; try done.
  destruct Hwp as (_ & F & L & T). exists s'. pose proof (panik_after_msg out (panic s)) as Hmsg.
  destruct F as [? ? ? ? ? ? ? ? E ? ? ? ?] eqn:EF. rewrite E. by split_and!.
Qed.

Lemma panik_normal_halts_witness :
  ∃ s', panik (C "Unable to mount root fs on unknown-block(%d,%d)") [AWord 8; AWord 1]
          (boot_state ∅ symbols_zero) = Halted s' ∧ iflag (hw s') = false ∧
    panik_called (panic s') = 1 ∧
    c_str (last_panik_msg (panic s')) =
      c_str (C "Unable to mount root fs on unknown-block(8,1)") ∧
    panik_call_count (panic s') = s32 (0 + 1) ∧
    contents (log s') = lastn log_capacity (contents ringbuf_zero ++ C "[PANIK] " ++
      C "Unable to mount root fs on unknown-block(8,1)" ++ C "\n") ∧
    term_of s' = term_panik (term_of (boot_state ∅ symbols_zero))
      (c_str (C "Unable to mount root fs on unknown-block(8,1)")) ∧
    console_frame (panik_entry (C "Unable to mount root fs on unknown-block(8,1)")
      (boot_state ∅ symbols_zero)) s'.
Proof.
  apply (panik_normal_halts (C "Unable to mount root fs on unknown-block(%d,%d)")
    [AWord 8; AWord 1] _ (boot_state ∅ symbols_zero)).
  - apply boot_state_console.
  - reflexivity.
  - reflexivity.
Defined.

(** Test mode reports and returns.  Whenever the console works and the
    message formats to [out], [panik] in test mode returns, with the call
    recorded and counted and the message kept as a C string, after printing it
    once as an emergency line; interrupts and everything else are as before. *)
Theorem panik_test_mode_returns fmt args out s :
  console_ok s → current_panik_mode (panic s) = PANIK_MODE_TEST →
  my_vsnprintf PANIK_MSG_SIZE fmt args = FOk out → zlen out < PANIK_MSG_SIZE →
  ∃ s', panik fmt args s = Ok tt s' ∧ panic s' = panik_after out (panic s) ∧
    c_str (last_panik_msg (panic s')) = c_str out ∧
    contents (log s') =
      lastn log_capacity (contents (log s) ++ C "[EMERG] " ++ test_panik_text out) ∧
    term_of s' = term_message (term_of s) (loglevels !! 0%nat) (test_panik_text out) ∧
    console_ok s' ∧ console_frame (set_panic (panik_after out (panic s)) s) s'.
Proof.
  intros Hok Hmode Hf Ho.
  destruct (wp_run (panik fmt args) (λ _ s',
    message_post (set_panic (panik_after out (panic s)) s)
      (C "[EMERG] " ++ test_panik_text out)
      (term_message (term_of s) (loglevels !! 0%nat) (test_panik_text out)) s') s)
    as ([] & s' & E & ? & F & L & T).
  - by apply (wp_panik_test _ _ out).
  - exists s'. pose proof (cf_panic _ _ F) as Ep. split_and!; [done..| |done|done|done|done].
    rewrite Ep. apply panik_after_msg.
Qed.

(** The state a test runs in: the kernel just booted, in test mode. *)
Definition test_state : kstate :=
  set_panic (PanikVars PANIK_MODE_TEST 0 (replicate 256 0) 0) (boot_state ∅ symbols_zero).

Lemma test_state_console : console_ok test_state.
Proof. apply set_panic_console, boot_state_console. Qed.

Lemma panik_test_mode_returns_witness :
  ∃ s', panik (C "BUG at %s:%d") [AStr (Some (C "vga.c")); AWord 42] test_state = Ok tt s' ∧
    panic s' = panik_after (C "BUG at vga.c:42") (panic test_state) ∧
    c_str (last_panik_msg (panic s')) = c_str (C "BUG at vga.c:42") ∧
    contents (log s') = lastn log_capacity (contents (log test_state) ++ C "[EMERG] " ++
      test_panik_text (C "BUG at vga.c:42")) ∧
    term_of s' = term_message (term_of test_state) (loglevels !! 0%nat)
      (test_panik_text (C "BUG at vga.c:42")) ∧
    console_ok s' ∧
    console_frame (set_panic (panik_after (C "BUG at vga.c:42") (panic test_state)) test_state) s'.
Proof.
  apply (panik_test_mode_returns (C "BUG at %s:%d") [AStr (Some (C "vga.c")); AWord 42]
    (C "BUG at vga.c:42") test_state).
  - apply test_state_console.
  - reflexivity.
  - reflexivity.
  - reflexivity.
Defined.

(** The text of a failed assertion. *)
Definition assertion_text (text file : list Z) (line : Z) (func : list Z) : list Z :=
  C "Assertion Failed: " ++ text ++ C " " ++ file ++ C ":" ++ dec_str line ++ C " in " ++
  func ++ C "()\n".

Definition nul_free (l : list Z) : Prop := Forall (λ c, c ≠ 0) l.

Lemma format_assertion text file line func :
  nul_free text → nul_free file → nul_free func → s32 line ≠ INT_MIN →
  my_vsnprintf PANIK_MSG_SIZE (C "Assertion Failed: %s %s:%d in %s()\n")
    [AStr (Some text); AStr (Some file); AWord line; AStr (Some func)]
  = FOk (ztake 255 (assertion_text text file line func)).
Proof.
  intros Ht Hf Hn Hl. apply (my_vsnprintf_render PANIK_MSG_SIZE _ _
    ((Lit <$> C "Assertion Failed: ") ++ Conv (ch " ") 0 (ch "s") :: Lit 32 ::
     Conv (ch " ") 0 (ch "s") :: Lit 58 :: Conv (ch " ") 0 (ch "d") ::
     (Lit <$> C " in ") ++ Conv (ch " ") 0 (ch "s") :: (Lit <$> C "()\n"))); [done|done| | |by left].
  - transitivity (Some (C "Assertion Failed: " ++ padded (ch " ") 0 (c_str text) ++ C " " ++
      padded (ch " ") 0 (c_str file) ++ C ":" ++ padded (ch " ") 0 (dec_str line) ++ C " in " ++
      padded (ch " ") 0 (c_str func) ++ C "()\n")); [reflexivity|].
    by rewrite !padded_none, !c_str_id.
  - transitivity (negb (s32 line =? INT_MIN) && true); [reflexivity|].
    by destruct (Z.eqb_spec (s32 line) INT_MIN).
Qed.

(** An assertion is checked.  In normal mode [KASSERT] of a true
    expression does nothing, and of a false one halts with interrupts disabled
    and the message naming the expression, the file, the line and the function,
    cut to 255 bytes; for every expression text, file, line and function. *)
Theorem kassert_checks expr text file line func s :
  console_ok s → current_panik_mode (panic s) = PANIK_MODE_NORMAL →
  nul_free text → nul_free file → nul_free func → s32 line ≠ INT_MIN →
  if expr : bool then KASSERT expr text file line func s = Ok tt s
  else ∃ s', KASSERT expr text file line func s = Halted s' ∧ iflag (hw s') = false ∧
    contents (log s') = lastn log_capacity (contents (log s) ++ C "[PANIK] " ++
      ztake 255 (assertion_text text file line func) ++ C "\n").
Proof.
  intros Hok Hmode Ht Hf Hn Hl. destruct expr; [done|].
  assert (wp (KASSERT false text file line func) (λ _ _, False) (λ s', iflag (hw s') = false ∧
    contents (log s') = lastn log_capacity (contents (log s) ++ C "[PANIK] " ++
      ztake 255 (assertion_text text file line func) ++ C "\n")) s) as Hwp.
  { eapply wp_panik_normal; [done..|by apply format_assertion|].
    intros s' (_ & F & L & _). split; [apply (cf_iflag _ _ F)|exact L]. }
  unfold wp in Hwp. destruct (KASSERT _ _ _ _ _ s) as [| s' | |]; try done. by exists s'.
Qed.

Lemma kassert_checks_witness :
  ∃ s', KASSERT false (C "2 + 2 == 5") (C "test_panik.c") 99 (C "test_assert_failures")
          (boot_state ∅ symbols_zero) = Halted s' ∧ iflag (hw s') = false ∧
    contents (log s') = lastn log_capacity (contents ringbuf_zero ++ C "[PANIK] " ++
      ztake 255 (assertion_text (C "2 + 2 == 5") (C "test_panik.c") 99
        (C "test_assert_failures")) ++ C "\n").
Proof.
  apply (kassert_checks false (C "2 + 2 == 5") (C "test_panik.c") 99 (C "test_assert_failures")
    (boot_state ∅ symbols_zero)).
  - apply boot_state_console.
  - reflexivity.
  - apply (bool_decide_unpack _). reflexivity.
  - apply (bool_decide_unpack _). reflexivity.
  - apply (bool_decide_unpack _). reflexivity.
  - discriminate.
Defined.
