(* ===== verification/MemoryMap.v ===== *)
(** * The BIOS memory map: [kernel/memory/memory_map.c]

    The bootloader leaves the E820 entries at [0x5000] and their number at
    [0x2004].  [parse_and_print_e820_map] prints each one and stores the
    available ones in [usable_memory_region], which the physical memory manager
    reads. *)

From Stdlib Require Import ZArith Lia String.
From stdpp Require Import base gmap list.
From S2P Require Import Prelude RingBuf Format Descriptors Machine State Vga Printk.

Definition E820_TYPE_AVAILABLE : Z := 1.
Definition E820_TYPE_RESERVED : Z := 2.
Definition E820_TYPE_ACPI_RECLAIMABLE : Z := 3.
Definition E820_TYPE_ACPI_NVS : Z := 4.
Definition E820_TYPE_UNUSABLE : Z := 5.

Definition E820_MAP_ADDRESS : Z := 0x5000.
Definition E820_MAP_COUNT_PTR : Z := 0x2004.
Definition MAX_MEMORY_REGIONS : Z := 32.

(** [sizeof(e820_entry_t)], packed, and the addresses of an entry's fields. *)
Definition sizeof_e820_entry : Z := 24.
Definition e820_base_addr (i : Z) : Z := E820_MAP_ADDRESS + sizeof_e820_entry * i.
Definition e820_length_addr (i : Z) : Z := e820_base_addr i + 8.
Definition e820_type_addr (i : Z) : Z := e820_base_addr i + 16.

Definition region_type_to_string (type : Z) : list Z :=
  if type =? E820_TYPE_AVAILABLE then C "Available"
  else if type =? E820_TYPE_RESERVED then C "Reserved"
  else if type =? E820_TYPE_ACPI_RECLAIMABLE then C "ACPI Reclaimable"
  else if type =? E820_TYPE_ACPI_NVS then C "ACPI NVS"
  else if type =? E820_TYPE_UNUSABLE then C "Unusable"
  else C "Unknown".

(** [usable_memory_region[n] = r] and [usable_memory_region_count++] *)
Definition store_region (r : memory_region_t) : M unit :=
  v ← gets memmap;
  let n := usable_memory_region_count v in
  if n <? zlen (usable_memory_region v) then
    modify (set_memmap (MemmapVars (u16 (n + 1))
                          (<[Z.to_nat n := r]> (usable_memory_region v))))
  else undef UbIndex.

(** One iteration of the loop. *)
Definition parse_entry (i : Z) : M unit :=
  type ← load32 (e820_type_addr i);
  let current_region_type := region_type_to_string type in
  base ← load64 (e820_base_addr i);
  length ← load64 (e820_length_addr i);
  printk (C "[%u] Base: 0x%08x%08x, Length: 0x%08x%08x, Type: %s\n")
    [AWord i; AWord (u32 (Z.shiftr base 32)); AWord (u32 (Z.land base 0xFFFFFFFF));
     AWord (u32 (Z.shiftr length 32)); AWord (u32 (Z.land length 0xFFFFFFFF));
     AStr (Some current_region_type)];;
  type ← load32 (e820_type_addr i);
  v ← gets memmap;
  if (type =? E820_TYPE_AVAILABLE) && (usable_memory_region_count v <? MAX_MEMORY_REGIONS) then
    base ← load64 (e820_base_addr i);
    length ← load64 (e820_length_addr i);
    store_region (Region base length type)
  else mret tt.

Definition parse_and_print_e820_map : M unit :=
  count ← load16 E820_MAP_COUNT_PTR;
  printk (C "\n[MEMORY MAP] BIOS provided %u entries:\n") [AWord count];;
  for_ (Z.to_nat count) 0 parse_entry;;
  v ← gets memmap;
  printk (C "\n[MEMORY MAP] Usable memory regions count: %u\n")
    [AWord (usable_memory_region_count v)];;
  mret tt.

(** ** The map as data *)

Definition e820_entry (m : memory) (i : Z) : memory_region_t :=
  Region (rd64 m (e820_base_addr i)) (rd64 m (e820_length_addr i)) (rd32 m (e820_type_addr i)).

Definition e820_map (m : memory) : list memory_region_t :=
  e820_entry m <$> zrange 0 (Z.to_nat (rd16 m E820_MAP_COUNT_PTR)).

Definition available (r : memory_region_t) : bool := r_type r =? E820_TYPE_AVAILABLE.

(** The stored regions. *)
Definition regions (v : memmap_vars) : list memory_region_t :=
  take (Z.to_nat (usable_memory_region_count v)) (usable_memory_region v).

Record memmap_wf (v : memmap_vars) : Prop := {
  mm_size : zlen (usable_memory_region v) = MAX_MEMORY_REGIONS;
  mm_count : 0 <= usable_memory_region_count v <= MAX_MEMORY_REGIONS;
}.

(** The regions after entry [r]. *)
Definition add_region (rs : list memory_region_t) (r : memory_region_t) : list memory_region_t :=
  if available r && (zlen rs <? MAX_MEMORY_REGIONS) then rs ++ [r] else rs.

Lemma zlen_regions v : memmap_wf v → zlen (regions v) = usable_memory_region_count v.
Proof. intros [Hs Hc]. unfold zlen, regions in *. rewrite length_take. lia. Qed.

(** In one pass: the available entries, as many as there is room for. *)
Lemma foldl_add_region es rs :
  zlen rs <= MAX_MEMORY_REGIONS →
  foldl add_region rs es
  = rs ++ ztake (MAX_MEMORY_REGIONS - zlen rs) (filter (λ r, available r = true) es).
Proof.
  revert rs. induction es as [|e es IH]; intros rs Hrs; simpl.
  { rewrite filter_nil. unfold ztake. by rewrite take_nil, app_nil_r. }
  unfold add_region at 2. rewrite filter_cons.
  destruct (available e) eqn:E; simpl; [|by apply IH].
  destruct (Z.ltb_spec (zlen rs) MAX_MEMORY_REGIONS).
  - rewrite IH by zlen_lia. rewrite <- app_assoc. simpl. do 2 f_equal. unfold ztake.
    replace (Z.to_nat (MAX_MEMORY_REGIONS - zlen rs))
      with (S (Z.to_nat (MAX_MEMORY_REGIONS - zlen (rs ++ [e])))) by zlen_lia. done.
  - rewrite IH by done. unfold ztake.
    replace (Z.to_nat (MAX_MEMORY_REGIONS - zlen rs)) with O by lia. done.
Qed.

(** The map fits below the screen: no message printed while it is parsed can
    change it. *)
Definition e820_below_screen (m : memory) : Prop :=
  e820_base_addr (rd16 m E820_MAP_COUNT_PTR) <= VGA_ADDRESS.

#[local] Ltac e820_lia :=
  unfold e820_below_screen, e820_type_addr, e820_length_addr, e820_base_addr, in_screen,
    E820_MAP_COUNT_PTR, E820_MAP_ADDRESS, sizeof_e820_entry, LOW_END, VGA_ADDRESS in *; lia.

Lemma e820_entry_agree m m' i :
  screen_only m m' → 0 <= i → e820_base_addr (i + 1) <= VGA_ADDRESS →
  e820_entry m' i = e820_entry m i.
Proof.
  intros Hm Hi Hend. unfold e820_entry.
  f_equal; [apply rd64_agree|apply rd64_agree|apply rd32_agree];
    intros b Hb; apply Hm; e820_lia.
Qed.

(** Storing a region appends it. *)
Lemma wp_store_region r s (Q : unit → kstate → Prop) H :
  memmap_wf (memmap s) → usable_memory_region_count (memmap s) < MAX_MEMORY_REGIONS →
  (∀ v, memmap_wf v → regions v = regions (memmap s) ++ [r] → Q tt (set_memmap v s)) →
  wp (store_region r) Q H s.
Proof.
  intros [Hs Hc] Hlt HQ. unfold store_region. wp_steps. rewrite Hs.
  destruct (Z.ltb_spec (usable_memory_region_count (memmap s)) MAX_MEMORY_REGIONS); [|lia].
  wp_step. unfold MAX_MEMORY_REGIONS in *. apply HQ.
  - split; cbn; [|rewrite u16_small by lia; unfold MAX_MEMORY_REGIONS; lia].
    unfold zlen in *. by rewrite length_insert.
  - unfold regions. cbn. rewrite u16_small by lia. unfold zlen in Hs.
    rewrite Z2Nat.inj_add by lia. change (Z.to_nat 1) with 1%nat.
    rewrite Nat.add_1_r.
    rewrite (take_S_r _ _ r) by (apply list_lookup_insert_eq; lia).
    by rewrite take_insert_ge.
Qed.

(** The loop invariant: [v] holds the entries below [i], and nothing but the
    console and this component has changed since [s0]. *)
Definition parse_inv (s0 : kstate) (i : Z) (s : kstate) : Prop :=
  ∃ v, memmap_wf v ∧ console_ok s ∧ console_frame (set_memmap v s0) s ∧
    regions v = foldl add_region (regions (memmap s0))
      (e820_entry (mem (hw s0)) <$> zrange 0 (Z.to_nat i)).

Lemma set_memmap_same s : set_memmap (memmap s) s = s.
Proof. by destruct s. Qed.

Lemma parse_inv_start s : console_ok s → memmap_wf (memmap s) → parse_inv s 0 s.
Proof. intros. exists (memmap s). by rewrite set_memmap_same. Qed.

Lemma wp_parse_entry s0 i s :
  parse_inv s0 i s → 0 <= i → e820_base_addr (i + 1) <= VGA_ADDRESS →
  wp (parse_entry i) (λ _ s', parse_inv s0 (i + 1) s') no_halt s.
Proof.
  intros (v & Hv & Hok & F & Hr) Hi Hend. unfold parse_entry.
  pose proof (co_low _ Hok) as Hlow.
  apply wp_bind, wp_load32_low; [done|e820_lia|].
  apply wp_bind, wp_load64_low; [done|e820_lia..|].
  apply wp_bind, wp_load64_low; [done|e820_lia..|].
  apply wp_bind, wp_printk; [done|reflexivity|]. intros _ s1 Hok1 F1.
  assert (console_frame (set_memmap v s0) s1) as F01 by (by etrans).
  pose proof (co_low _ Hok1) as Hlow1.
  pose proof (e820_entry_agree (mem (hw s0)) (mem (hw s1)) i (cf_mem _ _ F01) Hi Hend) as He.
  assert (memmap s1 = v) as Hmm by apply (cf_memmap _ _ F01).
  apply wp_bind, wp_load32_low; [done|e820_lia|]. wp_steps. rewrite Hmm.
  assert (foldl add_region (regions (memmap s0))
      (e820_entry (mem (hw s0)) <$> zrange 0 (Z.to_nat (i + 1)))
    = add_region (regions v) (e820_entry (mem (hw s1)) i)) as Hnext.
  { rewrite He, Hr. replace (Z.to_nat (i + 1)) with (Z.to_nat i + 1)%nat by lia.
    rewrite zrange_app, fmap_app, foldl_app. simpl. do 2 f_equal. lia. }
  unfold parse_inv. rewrite Hnext. unfold add_region, available. rewrite zlen_regions by done.
  cbn [r_type e820_entry].
  destruct (_ && _) eqn:E; [|by exists v].
  apply andb_prop in E as [_ E%Z.ltb_lt]. rewrite <- Hmm in Hv, E.
  apply wp_bind, wp_load64_low; [done|e820_lia..|].
  apply wp_bind, wp_load64_low; [done|e820_lia..|].
  apply wp_store_region; [done..|]. intros v' Hv' Hr'. exists v'.
  split_and!; [done|by destruct Hok1| |by rewrite Hr', Hmm].
  exact (console_frame_memmap v' _ _ F01).
Qed.

Lemma wp_parse_e820 s (Q : unit → kstate → Prop) H :
  console_ok s → memmap_wf (memmap s) → e820_below_screen (mem (hw s)) →
  (∀ v s', memmap_wf v → console_ok s' → console_frame (set_memmap v s) s' →
     regions v = foldl add_region (regions (memmap s)) (e820_map (mem (hw s))) → Q tt s') →
  wp parse_and_print_e820_map Q H s.
Proof.
  intros Hok Hv Hend HQ. apply wp_halts. unfold parse_and_print_e820_map.
  apply wp_bind, wp_load16_low; [by destruct Hok|e820_lia|].
  set (count := rd16 _ _). assert (0 <= count) as Hcount.
  { unfold count, rd16. pose proof (rd8_range (mem (hw s)) E820_MAP_COUNT_PTR).
    pose proof (rd8_range (mem (hw s)) (E820_MAP_COUNT_PTR + 1)). lia. }
  apply wp_bind, wp_printk; [done|reflexivity|]. intros _ s1 Hok1 F1.
  apply wp_bind, (wp_for _ _ _ (parse_inv s)).
  - exists (memmap s). rewrite set_memmap_same. by split_and!.
  - intros i s2 Hi Hs2. apply wp_parse_entry; [done|lia|].
    unfold e820_below_screen in Hend. fold count in Hend. e820_lia.
  - intros s2 (v & Hv2 & Hok2 & F2 & Hr2). wp_steps.
    apply wp_printk; [done|reflexivity|]. intros _ s3 Hok3 F3. wp_step.
    apply (HQ v); [done..|by etrans|]. rewrite Hr2. unfold e820_map. fold count.
    by replace (Z.to_nat (0 + Z.of_nat (Z.to_nat count))) with (Z.to_nat count) by lia.
Qed.

(** ** The properties of the parser *)

(** C26: parsing keeps exactly the available regions.  From any state where the
    console works and the BIOS map ends below video memory, the parser returns
    without a fault; the stored regions are the old ones followed by the
    available entries of the map in order (64-bit bases and lengths intact), as
    many as fit in 32 slots, the count never exceeds the array, and nothing but
    these statics and the console has changed. *)
Theorem parse_keeps_available_regions s :
  console_ok s → memmap_wf (memmap s) → e820_below_screen (mem (hw s)) →
  ∃ v s', parse_and_print_e820_map s = Ok tt s' ∧ memmap s' = v ∧ memmap_wf v ∧
    regions v = regions (memmap s) ++
      ztake (MAX_MEMORY_REGIONS - zlen (regions (memmap s)))
        (filter (λ r, available r = true) (e820_map (mem (hw s)))) ∧
    console_ok s' ∧ console_frame (set_memmap v s) s'.
Proof.
  intros Hok Hv Hend.
  destruct (wp_run parse_and_print_e820_map (λ _ s', ∃ v, memmap_wf v ∧ console_ok s' ∧
    console_frame (set_memmap v s) s' ∧
    regions v = foldl add_region (regions (memmap s)) (e820_map (mem (hw s)))) s)
    as ([] & s' & E & v & Hv' & Hok' & F & Hr).
  { apply wp_parse_e820; [done..|]. intros v s' ????. by exists v. }
  exists v, s'. split_and!; [done|apply (cf_memmap _ _ F)|done| |done|done].
  rewrite Hr. apply foldl_add_region. rewrite zlen_regions by done. apply Hv.
Qed.

(** Memory with a map of the given entries. *)
Definition wr64 (m : memory) (a v : Z) : memory := wr32 (wr32 m a v) (a + 4) (Z.shiftr v 32).

Definition put_e820_entry (m : memory) (i : Z) (r : memory_region_t) : memory :=
  wr32 (wr64 (wr64 m (e820_base_addr i) (r_base r)) (e820_length_addr i) (r_length r))
    (e820_type_addr i) (r_type r).

Fixpoint put_e820_entries (m : memory) (i : Z) (rs : list memory_region_t) : memory :=
  match rs with
  | [] => wr16 m E820_MAP_COUNT_PTR i
  | r :: rs => put_e820_entries (put_e820_entry m i r) (i + 1) rs
  end.

(** The map of the boot log in [docs/phase3_plan.md]: a machine with 128 MB. *)
Definition boot_e820 : memory := put_e820_entries ∅ 0
  [Region 0 0x9FC00 1; Region 0x9FC00 0x400 2; Region 0xF0000 0x10000 2;
   Region 0x100000 0x7EE0000 1; Region 0x7FE0000 0x20000 2; Region 0xFFFC0000 0x40000 2].

Lemma parse_keeps_available_regions_witness :
  ∃ v s', parse_and_print_e820_map (boot_state boot_e820 symbols_zero) = Ok tt s' ∧
    memmap s' = v ∧ memmap_wf v ∧
    regions v = regions (MemmapVars 0 (replicate 32 (Region 0 0 0))) ++
      ztake (MAX_MEMORY_REGIONS - 0) (filter (λ r, available r = true) (e820_map boot_e820)) ∧
    console_ok s' ∧ console_frame (set_memmap v (boot_state boot_e820 symbols_zero)) s'.
Proof.
  apply (parse_keeps_available_regions (boot_state boot_e820 symbols_zero)).
  - apply boot_state_console.
  - split; vm_compute; split; discriminate || reflexivity.
  - vm_compute. discriminate.
Defined.

Example boot_e820_available :
  filter (λ r, available r = true) (e820_map boot_e820)
  = [Region 0 0x9FC00 1; Region 0x100000 0x7EE0000 1].
Proof. vm_compute. reflexivity. Qed.
