(* ===== verification/Frame.v ===== *)
(** * What an operation may change

    [console_frame] describes printing; memory management also writes its
    bitmap and its tables.  [kframe R] allows changes to the bytes in [R], to
    the console, to the statics of [pmm.c], and port writes and TLB flushes. *)

From Stdlib Require Import ZArith Lia.
From stdpp Require Import base gmap list.
From S2P Require Import Prelude RingBuf Descriptors Machine State Vga.

(** Events that do not change the processor's configuration. *)
Definition quiet (e : event) : Prop :=
  match e with Outb _ _ | Invlpg _ => True | _ => False end.

Record kframe (R : Z → Prop) (s s' : kstate) : Prop := {
  kf_mem : ∀ a, ¬ R a → rd8 (mem (hw s')) a = rd8 (mem (hw s)) a;
  kf_cr0 : cr0 (hw s') = cr0 (hw s);
  kf_cr2 : cr2 (hw s') = cr2 (hw s);
  kf_cr3 : cr3 (hw s') = cr3 (hw s);
  kf_esp : esp (hw s') = esp (hw s);
  kf_ebp : ebp (hw s') = ebp (hw s);
  kf_iflag : iflag (hw s') = iflag (hw s);
  kf_events : ∃ l, events (hw s') = l ++ events (hw s) ∧ Forall quiet l;
  kf_panic : panic s' = panic s;
  kf_memmap : memmap s' = memmap s;
  kf_desc : desc s' = desc s;
  kf_syms : syms s' = syms s;
}.

#[global] Instance kframe_preorder R : PreOrder (kframe R).
Proof.
  split.
  - intros s. split; try done. by exists [].
  - intros s1 s2 s3 H12 H23. destruct H12, H23. split; try congruence.
    + intros a Ha. by rewrite kf_mem1, kf_mem0.
    + destruct kf_events0 as (l1 & E1 & ?), kf_events1 as (l2 & E2 & ?).
      exists (l2 ++ l1). rewrite E2, E1, <- app_assoc. split; [done|]. by apply Forall_app_2.
Qed.

(** The part of it that translation depends on. *)
Record same_but (R : Z → Prop) (s s' : kstate) : Prop := {
  sb_mem : ∀ a, ¬ R a → rd8 (mem (hw s')) a = rd8 (mem (hw s)) a;
  sb_cr0 : cr0 (hw s') = cr0 (hw s);
  sb_cr3 : cr3 (hw s') = cr3 (hw s);
}.

#[global] Instance same_but_preorder R : PreOrder (same_but R).
Proof.
  split; [by split|]. intros s1 s2 s3 [M1 ? ?] [M2 ? ?]. split; try congruence.
  intros a Ha. by rewrite M2, M1.
Qed.

Lemma kframe_same R s s' : kframe R s s' → same_but R s s'.
Proof. by intros []. Qed.

Lemma same_but_mono (R R' : Z → Prop) s s' :
  (∀ a, R a → R' a) → same_but R s s' → same_but R' s s'.
Proof. intros HR []. split; try done. intros a Ha. apply sb_mem0. auto. Qed.

Lemma kframe_mono (R R' : Z → Prop) s s' :
  (∀ a, R a → R' a) → kframe R s s' → kframe R' s s'.
Proof. intros HR []. split; try done. intros a Ha. apply kf_mem0. auto. Qed.

Lemma console_kframe (R : Z → Prop) s s' :
  (∀ a, in_screen a → R a) → console_frame s s' → kframe R s s'.
Proof.
  intros HR []. split; try done.
  - intros a Ha. apply cf_mem. auto.
  - destruct cf_events as (l & El & Hl). exists l. split; [done|].
    eapply Forall_impl; [exact Hl|]. by intros [].
Qed.

(** A store inside [R], and updates of the statics of [pmm.c]. *)
Lemma kframe_upd_mem (R : Z → Prop) f s :
  (∀ a, ¬ R a → rd8 (f (mem (hw s))) a = rd8 (mem (hw s)) a) → kframe R s (upd_mem f s).
Proof. intros Hf. split; try done. by exists []. Qed.

Lemma kframe_set_pmm R v s : kframe R s (set_pmm v s).
Proof. split; try done. by exists []. Qed.

(** The console survives a change that spares the low tables. *)
Lemma kframe_low R s s' :
  kframe R s s' → (∀ a, low_table_byte a → ¬ R a) → low_mapped (hw s) → low_mapped (hw s').
Proof.
  intros [] HR. apply low_mapped_agree; [done..|]. intros a Ha. by apply kf_mem0, HR.
Qed.

Lemma kframe_rd32 R s s' a :
  kframe R s s' → (∀ b, a <= b < a + 4 → ¬ R b) → rd32 (mem (hw s')) a = rd32 (mem (hw s)) a.
Proof. intros [] HR. apply rd32_agree. intros b Hb. by apply kf_mem0, HR. Qed.
