(* ===== verification/Pmm.v ===== *)
(** * The physical memory manager: [kernel/memory/pmm.c]

    One bit per 4 KB frame, set when the frame is used, in a bitmap at
    [0x90000].  [used_bit] reads the bitmap as a function from frames to
    booleans; the set of free frames is the abstract state, and every operation
    is an update of it.  The last section packs what the pager relies on into
    the interface [FrameAllocator]. *)

From Stdlib Require Import ZArith Lia String.
From stdpp Require Import base gmap list.
From S2P Require Import Prelude RingBuf Format Descriptors Machine State Vga Printk MemoryMap Frame.

Definition PAGE_SIZE : Z := 4096.

(** [enum reserved_memory_type_t] *)
Definition RESERVED_TYPE_INIT : Z := 7.
Definition RESERVED_TYPE_BIOS : Z := 1.
Definition RESERVED_TYPE_IVT : Z := 2.
Definition RESERVED_TYPE_VGA : Z := 4.
Definition RESERVED_TYPE_KERNEL : Z := 8.
Definition RESERVED_TYPE_BITMAP : Z := 16.
Definition RESERVED_TYPE_PAGE_TABLE : Z := 32.

(** From [paging.h] *)
Definition PAGE_DIR_START_ADDR : Z := 0x80000.
Definition PAGE_TABLE_START_ADDR : Z := 0x81000.
Definition PAGE_ENTRIES : Z := 1024.

Definition FRAME_INDEX (addr : Z) : Z := addr / PAGE_SIZE.

Definition bitmap_addr (idx : Z) : M Z :=
  v ← gets pmm; mret (frame_bitmap v + idx / 8).

Definition BITMAP_SET (idx : Z) : M unit :=
  a ← bitmap_addr idx;
  b ← load8 a;
  store8 a (Z.lor b (Z.shiftl 1 (idx mod 8))).

Definition BITMAP_CLEAR (idx : Z) : M unit :=
  a ← bitmap_addr idx;
  b ← load8 a;
  store8 a (Z.land b (Z.lnot (Z.shiftl 1 (idx mod 8)))).

Definition BITMAP_GET (idx : Z) : M bool :=
  a ← bitmap_addr idx;
  b ← load8 a;
  mret (negb (Z.land b (Z.shiftl 1 (idx mod 8)) =? 0)).

Definition upd_pmm (f : pmm_vars → pmm_vars) : M unit :=
  modify (λ s, set_pmm (f (pmm s)) s).

Definition set_total_frames (n : Z) (v : pmm_vars) : pmm_vars :=
  PmmVars (frame_bitmap v) n (used_frames v) (max_frame_idx v).
Definition set_used_frames (n : Z) (v : pmm_vars) : pmm_vars :=
  PmmVars (frame_bitmap v) (total_frames v) n (max_frame_idx v).
Definition set_max_frame_idx (n : Z) (v : pmm_vars) : pmm_vars :=
  PmmVars (frame_bitmap v) (total_frames v) (used_frames v) n.
Definition set_frame_bitmap (a : Z) (v : pmm_vars) : pmm_vars :=
  PmmVars a (total_frames v) (used_frames v) (max_frame_idx v).

(** [for (addr = addr; addr < end; addr += PAGE_SIZE) body], [addr] a [uint32_t]:
    with [end > 0xFFFFF000] the counter can wrap around and the loop need not
    end, so it has fuel; more than [2^20] turns mean that it does not. *)
Fixpoint addr_loop (fuel : nat) (addr end_ : Z) (body : Z → M unit) : M unit :=
  match fuel with
  | O => undef UbDiverge
  | S fuel =>
      if addr <? end_ then body addr;; addr_loop fuel (u32 (addr + PAGE_SIZE)) end_ body
      else mret tt
  end.

Definition ADDR_FUEL : nat := Z.to_nat (2 ^ 20 + 1).

(** [usable_memory_region[i]], its two fields converted to [uint32_t]. *)
Definition usable_region (i : Z) : M (Z * Z) :=
  v ← gets memmap;
  match usable_memory_region v !! Z.to_nat i with
  | Some r => mret (u32 (r_base r), u32 (r_length r))
  | None => undef UbIndex
  end.

(** The body of the loop of step 1. *)
Definition raise_max_frame_idx (i : Z) : M unit :=
  '(region_base, region_length) ← usable_region i;
  let region_end := u32 (region_base + region_length) in
  let current_frame_idx := FRAME_INDEX region_end in
  v ← gets pmm;
  if max_frame_idx v <? current_frame_idx
  then upd_pmm (set_max_frame_idx current_frame_idx) else mret tt.

(** The bodies of the two nested loops of step 4. *)
Definition free_region_frame (addr : Z) : M unit :=
  let frame_index := FRAME_INDEX addr in
  v ← gets pmm;
  if frame_index <? max_frame_idx v then
    BITMAP_CLEAR frame_index;;
    upd_pmm (λ v, set_total_frames (u32 (total_frames v + 1)) v)
  else mret tt.

Definition free_region (i : Z) : M unit :=
  '(region_base, region_length) ← usable_region i;
  addr_loop ADDR_FUEL region_base (u32 (region_base + region_length)) free_region_frame.

Definition pmm_init : M unit :=
  upd_pmm (set_total_frames 0);;
  upd_pmm (set_used_frames 0);;
  (* Step 1 *)
  n ← gets (λ s, usable_memory_region_count (memmap s));
  for_ (Z.to_nat n) 0 raise_max_frame_idx;;
  (* Steps 2 and 3 *)
  upd_pmm (set_frame_bitmap 0x90000);;
  v ← gets pmm;
  let max_frame_bitmap_idx := u32 (max_frame_idx v / 8 + 1) in
  for_ (Z.to_nat max_frame_bitmap_idx) 0 (λ frame,
    v ← gets pmm; store8 (frame_bitmap v + frame) 0xFF);;
  (* Step 4 *)
  n ← gets (λ s, usable_memory_region_count (memmap s));
  for_ (Z.to_nat n) 0 free_region;;
  upd_pmm (set_used_frames 0);;
  v ← gets pmm;
  printk (C "[PMM] Total Usable Frames: %u\n") [AWord (total_frames v)];;
  mret tt.

Definition incr_used : M unit := upd_pmm (λ v, set_used_frames (u32 (used_frames v + 1)) v).

Definition pmm_set_frame_bitmap (start_address end_address : Z) : M unit :=
  let start := Z.land start_address (Z.lnot (PAGE_SIZE - 1)) in
  let end_ := Z.land (u32 (end_address + PAGE_SIZE - 1)) (Z.lnot (PAGE_SIZE - 1)) in
  addr_loop ADDR_FUEL start end_ (λ addr,
    let frame_index := FRAME_INDEX addr in
    used ← BITMAP_GET frame_index;
    if negb used then BITMAP_SET frame_index;; incr_used else mret tt).

(** [x & mask] as a C condition. *)
Definition flag (x mask : Z) : bool := negb (Z.land x mask =? 0).

Definition pmm_reserve_memory_region (reserved_type : Z) : M unit :=
  (if flag reserved_type RESERVED_TYPE_INIT || flag reserved_type RESERVED_TYPE_BIOS
      || flag reserved_type RESERVED_TYPE_IVT || flag reserved_type RESERVED_TYPE_VGA then
     pmm_set_frame_bitmap 0x0 0x100000;;
     printk (C "[PMM] Reserved kernel range: 0x%u - 0x%u\n") [AWord 0; AWord 100000];;
     mret tt
   else mret tt);;
  (if flag reserved_type RESERVED_TYPE_KERNEL then
     kernel_memory_start ← gets (λ s, sym_kernel_start (syms s));
     kernel_memory_end ← gets (λ s, sym_kernel_end (syms s));
     pmm_set_frame_bitmap kernel_memory_start kernel_memory_end;;
     printk (C "[PMM] Reserved kernel range: 0x%u - 0x%u\n")
       [AWord kernel_memory_start; AWord kernel_memory_end];;
     mret tt
   else mret tt);;
  (if flag reserved_type RESERVED_TYPE_BITMAP then
     v ← gets pmm;
     let bitmap_bytes := u32 (max_frame_idx v / 8 + 1) in
     let bitmap_start := frame_bitmap v in
     let bitmap_end := u32 (bitmap_start + bitmap_bytes) in
     pmm_set_frame_bitmap bitmap_start bitmap_end;;
     printk (C "[PMM] Reserved bitmap: 0x%u - 0x%u (%u bytes)\n")
       [AWord bitmap_start; AWord bitmap_end; AWord bitmap_bytes];;
     mret tt
   else mret tt);;
  (if flag reserved_type RESERVED_TYPE_PAGE_TABLE then
     let page_dir_start := PAGE_DIR_START_ADDR in
     let page_dir_end := page_dir_start + PAGE_ENTRIES * 4 in
     pmm_set_frame_bitmap page_dir_start page_dir_end;;
     printk (C "[PMM] Page Directory: 0x%u - 0x%u (%u bytes)\n")
       [AWord page_dir_start; AWord page_dir_end; AWord (page_dir_end - page_dir_start)];;
     let page_table_start := PAGE_TABLE_START_ADDR in
     let page_table_end := page_table_start + PAGE_ENTRIES * 4 in
     pmm_set_frame_bitmap page_table_start page_table_end;;
     printk (C "[PMM] Page Table: 0x%u - 0x%u (%u bytes)\n")
       [AWord page_table_start; AWord page_table_end; AWord (page_table_end - page_table_start)];;
     mret tt
   else mret tt);;
  v ← gets pmm;
  printk (C "[PMM] Total usable frames: %u\n") [AWord (total_frames v)];;
  v ← gets pmm;
  printk (C "[PMM] Total reserved frames: %u\n") [AWord (used_frames v)];;
  mret tt.

(** The loop of [pmm_alloc_frame] over [n] frames from [frame_idx] on; the
    frame taken, if any. *)
Fixpoint alloc_search (n : nat) (frame_idx : Z) : M (option Z) :=
  match n with
  | O => mret None
  | S n =>
      used ← BITMAP_GET frame_idx;
      if negb used then BITMAP_SET frame_idx;; incr_used;; mret (Some frame_idx)
      else alloc_search n (frame_idx + 1)
  end.

Definition pmm_alloc_frame : M Z :=
  v ← gets pmm;
  r ← alloc_search (Z.to_nat (total_frames v - 1)) 1;
  match r with
  | Some frame_idx => mret (u32 (frame_idx * PAGE_SIZE))
  | None => printk (C "[PMM] No free frames available!\n") [];; mret 0
  end.

Definition pmm_free_frame (addr : Z) : M unit :=
  let frame_idx := FRAME_INDEX (u32 addr) in
  v ← gets pmm;
  if frame_idx <? total_frames v then
    BITMAP_CLEAR frame_idx;;
    upd_pmm (λ v, set_used_frames (u32 (used_frames v - 1)) v)
  else
    printk (C "[PMM] Attempted to free an invalid frame at address: %p\n") [AWord addr];;
    mret tt.

(** ** The bitmap as a function *)

Definition BITMAP : Z := 0x90000.

(** [2^20] frames make 128 KB of bitmap. *)
Definition in_bitmap (a : Z) : Prop := BITMAP <= a < BITMAP + 2 ^ 17.

Definition bitmap_only (m m' : memory) : Prop := ∀ a, ¬ in_bitmap a → rd8 m' a = rd8 m a.

#[global] Instance bitmap_only_preorder : PreOrder bitmap_only.
Proof. split; [done|]. intros m1 m2 m3 H12 H23 a Ha. by rewrite H23, H12. Qed.

(** Is frame [i] marked used? *)
Definition bit_at (m : memory) (i : Z) : bool := Z.testbit (rd8 m (BITMAP + i / 8)) (i mod 8).

#[global] Arguments bit_at _ _ : simpl never.

Definition used_bit (s : kstate) (i : Z) : bool := bit_at (mem (hw s)) i.

#[local] Ltac pmm_lia :=
  unfold in_bitmap, BITMAP, LOW_END, PAGE_SIZE, FRAME_INDEX in *; zify_mod.

Lemma testbit_shiftl_1 k l : 0 <= k → 0 <= l → Z.testbit (Z.shiftl 1 k) l = bool_decide (k = l).
Proof.
  intros. rewrite Z.shiftl_1_l, Z.pow2_bits_eqb by done.
  destruct (Z.eqb_spec k l); case_bool_decide; done.
Qed.

Lemma land_shiftl_1 b k : 0 <= k → (Z.land b (Z.shiftl 1 k) =? 0) = negb (Z.testbit b k).
Proof.
  intros Hk. destruct (Z.testbit b k) eqn:E.
  - apply Z.eqb_neq. intros H0. apply (f_equal (λ z, Z.testbit z k)) in H0.
    rewrite Z.land_spec, E, testbit_shiftl_1, Z.bits_0 in H0 by done. by case_bool_decide.
  - apply Z.eqb_eq, Z.bits_inj'. intros n Hn. rewrite Z.land_spec, testbit_shiftl_1, Z.bits_0 by done.
    case_bool_decide; [subst; by rewrite E|by rewrite andb_false_r].
Qed.

Lemma testbit_u8 z k : 0 <= k < 8 → Z.testbit (u8 z) k = Z.testbit z k.
Proof. intros. unfold u8. apply Z.mod_pow2_bits_low. lia. Qed.

(** Rewriting the byte of frame [i] changes bit [i] and no other. *)
Lemma bit_at_wr8 m i j v (b : bool) :
  0 <= i → 0 <= j →
  (∀ k, 0 <= k < 8 → Z.testbit v k =
     if decide (k = i mod 8) then b else Z.testbit (rd8 m (BITMAP + i / 8)) k) →
  bit_at (wr8 m (BITMAP + i / 8) v) j = if decide (i = j) then b else bit_at m j.
Proof.
  intros Hi Hj Hv. unfold bit_at. destruct (decide (i / 8 = j / 8)) as [E|E].
  - rewrite <- E, rd8_wr8_eq, testbit_u8, Hv by zify_mod.
    repeat case_decide; try done; subst; pmm_lia.
  - rewrite rd8_wr8_ne by lia. case_decide; [congruence|done].
Qed.

Definition set_mask (m : memory) (i : Z) : memory :=
  wr8 m (BITMAP + i / 8) (Z.lor (rd8 m (BITMAP + i / 8)) (Z.shiftl 1 (i mod 8))).
Definition clear_mask (m : memory) (i : Z) : memory :=
  wr8 m (BITMAP + i / 8) (Z.land (rd8 m (BITMAP + i / 8)) (Z.lnot (Z.shiftl 1 (i mod 8)))).

Lemma bit_at_set m i j :
  0 <= i → 0 <= j → bit_at (set_mask m i) j = if decide (i = j) then true else bit_at m j.
Proof.
  intros Hi Hj. apply bit_at_wr8; [done..|]. intros k Hk.
  rewrite Z.lor_spec, testbit_shiftl_1 by zify_mod.
  case_bool_decide; case_decide; try lia;
    by rewrite ?orb_true_r, ?orb_false_r.
Qed.

Lemma bit_at_clear m i j :
  0 <= i → 0 <= j → bit_at (clear_mask m i) j = if decide (i = j) then false else bit_at m j.
Proof.
  intros Hi Hj. apply bit_at_wr8; [done..|]. intros k Hk.
  rewrite Z.land_spec, Z.lnot_spec, testbit_shiftl_1 by zify_mod.
  case_bool_decide; case_decide; try lia;
    by rewrite ?andb_false_r, ?andb_true_r.
Qed.

Lemma in_bitmap_index i : 0 <= i < 2 ^ 20 → in_bitmap (BITMAP + i / 8).
Proof. pmm_lia. Qed.

Lemma wr8_bitmap_only m i v : 0 <= i < 2 ^ 20 → bitmap_only m (wr8 m (BITMAP + i / 8) v).
Proof.
  intros Hi a Ha. apply rd8_wr8_ne. intros <-. by apply Ha, in_bitmap_index.
Qed.

(** ** The bitmap macros *)

(** The manager is set up: the bitmap is where [pmm_init] puts it and low
    memory is reachable. *)
Record pmm_ready (s : kstate) : Prop := {
  pr_bitmap : frame_bitmap (pmm s) = BITMAP;
  pr_used : 0 <= used_frames (pmm s) < 2 ^ 32;    (* a [uint32_t] *)
  pr_low : low_mapped (hw s);
}.

Lemma low_mapped_bitmap s m :
  low_mapped (hw s) → bitmap_only (mem (hw s)) m → low_mapped (hw (with_mem s m)).
Proof.
  intros Hl Hm. apply (low_mapped_agree (hw s)); [done..| |done].
  intros a Ha. apply Hm. unfold low_table_byte in Ha. pmm_lia.
Qed.

Section macros.
Context (i : Z) (s : kstate).
Context (Hr : pmm_ready s) (Hi : 0 <= i < 2 ^ 20).
Implicit Types (H : kstate → Prop).

Lemma bitmap_addr_low : 0 <= frame_bitmap (pmm s) + i / 8 < LOW_END.
Proof using Hr Hi. destruct Hr as [-> _ _]. pmm_lia. Qed.

Lemma wp_bitmap_get (Q : bool → kstate → Prop) H :
  Q (used_bit s i) s → wp (BITMAP_GET i) Q H s.
Proof using Hr Hi.
  intros HQ. unfold BITMAP_GET, bitmap_addr. wp_steps.
  apply wp_load8_low; [apply Hr|apply bitmap_addr_low|]. wp_step.
  rewrite land_shiftl_1, negb_involutive by zify_mod. destruct Hr as [-> _ _]. exact HQ.
Qed.

Lemma wp_bitmap_set (Q : unit → kstate → Prop) H :
  Q tt (with_mem s (set_mask (mem (hw s)) i)) → wp (BITMAP_SET i) Q H s.
Proof using Hr Hi.
  intros HQ. unfold BITMAP_SET, bitmap_addr. wp_steps.
  apply wp_load8_low; [apply Hr|apply bitmap_addr_low|].
  apply wp_store8_low; [apply Hr|apply bitmap_addr_low|]. destruct Hr as [-> _ _]. exact HQ.
Qed.

Lemma wp_bitmap_clear (Q : unit → kstate → Prop) H :
  Q tt (with_mem s (clear_mask (mem (hw s)) i)) → wp (BITMAP_CLEAR i) Q H s.
Proof using Hr Hi.
  intros HQ. unfold BITMAP_CLEAR, bitmap_addr. wp_steps.
  apply wp_load8_low; [apply Hr|apply bitmap_addr_low|].
  apply wp_store8_low; [apply Hr|apply bitmap_addr_low|]. destruct Hr as [-> _ _]. exact HQ.
Qed.
End macros.

(** ** The address loop *)

(** The number of turns. *)
Definition pages (addr end_ : Z) : Z := Z.max 0 ((end_ - addr + 4095) / 4096).

(** When the end is at most the last page of the address space the counter
    cannot wrap: the loop ends, after [pages] turns. *)
Lemma wp_addr_loop_fuel fuel k addr end_ body (I : Z → kstate → Prop)
    (Q : unit → kstate → Prop) H s :
  0 <= addr → end_ <= 0xFFFFF000 → pages addr end_ < Z.of_nat fuel →
  I k s →
  (∀ j s, 0 <= j < pages addr end_ → I (k + j) s →
     wp (body (addr + 4096 * j)) (λ _ s', I (k + j + 1) s') H s) →
  (∀ s, I (k + pages addr end_) s → Q tt s) →
  wp (addr_loop fuel addr end_ body) Q H s.
Proof.
  revert k addr s. induction fuel as [|fuel IH]; intros k addr s Ha He Hf HI Hbody HQ.
  { unfold pages in Hf. lia. }
  simpl. destruct (Z.ltb_spec addr end_).
  - assert (u32 (addr + PAGE_SIZE) = addr + 4096) as -> by (unfold PAGE_SIZE; zify_mod).
    assert (pages addr end_ = pages (addr + 4096) end_ + 1) as Hp by (unfold pages; zify_mod).
    assert (0 <= pages (addr + 4096) end_) by (unfold pages; lia).
    wp_step. eapply wp_post.
    + replace addr with (addr + 4096 * 0) by lia. apply Hbody; [lia|].
      by replace (k + 0) with k by lia.
    + intros [] s' Hs'. apply (IH (k + 1)); [lia|done|lia| | |].
      * by replace (k + 1) with (k + 0 + 1) by lia.
      * intros j s2 Hj Hs2. replace (addr + 4096 + 4096 * j) with (addr + 4096 * (j + 1)) by lia.
        eapply wp_post; [apply Hbody; [lia|]|].
        -- by replace (k + (j + 1)) with (k + 1 + j) by lia.
        -- intros [] s3. by replace (k + 1 + j + 1) with (k + (j + 1) + 1) by lia.
      * intros s2 Hs2. apply HQ. rewrite Hp.
        by replace (k + (pages (addr + 4096) end_ + 1)) with (k + 1 + pages (addr + 4096) end_) by lia.
  - wp_step. apply HQ. unfold pages. by replace (k + _) with k by zify_mod.
Qed.

Lemma wp_addr_loop addr end_ body (I : Z → kstate → Prop) (Q : unit → kstate → Prop) H s :
  0 <= addr → end_ <= 0xFFFFF000 →
  I 0 s →
  (∀ j s, 0 <= j < pages addr end_ → I j s →
     wp (body (addr + 4096 * j)) (λ _ s', I (j + 1) s') H s) →
  (∀ s, I (pages addr end_) s → Q tt s) →
  wp (addr_loop ADDR_FUEL addr end_ body) Q H s.
Proof.
  intros Ha He. apply (wp_addr_loop_fuel ADDR_FUEL 0); [done..|].
  unfold ADDR_FUEL, pages. zify_mod.
Qed.

(** ** Counting frames *)

(** The frames of a range whose bit is clear. *)
Definition clear_frames (m : memory) (lo n : Z) : list Z :=
  filter (λ i, bit_at m i = false) (zrange lo (Z.to_nat n)).

Lemma clear_frames_app m lo n k :
  0 <= n → 0 <= k → clear_frames m lo (n + k) = clear_frames m lo n ++ clear_frames m (lo + n) k.
Proof.
  intros. unfold clear_frames. rewrite Z2Nat.inj_add, zrange_app, filter_app by done.
  by rewrite Z2Nat.id.
Qed.

Lemma clear_frames_succ m lo n :
  0 <= n → clear_frames m lo (n + 1) =
    clear_frames m lo n ++ (if bit_at m (lo + n) then [] else [lo + n]).
Proof.
  intros. rewrite clear_frames_app by lia. f_equal. unfold clear_frames. simpl.
  rewrite filter_cons, filter_nil. by destruct (bit_at m (lo + n)).
Qed.

Lemma clear_frames_ext m m' lo n :
  (∀ i, lo <= i < lo + n → bit_at m' i = bit_at m i) → clear_frames m' lo n = clear_frames m lo n.
Proof.
  intros Heq. destruct (Z.le_gt_cases n 0) as [|Hn].
  { unfold clear_frames. by replace (Z.to_nat n) with O by lia. }
  apply filter_ext_in. intros i Hi%elem_of_zrange. by rewrite Heq by lia.
Qed.

Lemma clear_frames_none m lo n :
  (∀ i, lo <= i < lo + n → bit_at m i = true) → clear_frames m lo n = [].
Proof.
  intros Heq. apply filter_none. intros i Hi%elem_of_zrange. rewrite Heq; [done|].
  destruct (Z.le_gt_cases n 0); lia.
Qed.

Lemma elem_of_clear_frames m lo n i :
  i ∈ clear_frames m lo n ↔ lo <= i < lo + n ∧ bit_at m i = false.
Proof.
  unfold clear_frames. rewrite list_elem_of_filter, elem_of_zrange. split; intros []; split; try done; lia.
Qed.

(** ** The operations *)

Lemma wp_upd_pmm f s (Q : unit → kstate → Prop) H :
  Q tt (set_pmm (f (pmm s)) s) → wp (upd_pmm f) Q H s.
Proof. done. Qed.

Ltac pmm_steps :=
  repeat (first [wp_step | lazymatch goal with |- wp (upd_pmm _) _ _ _ => apply wp_upd_pmm end];
          cbv beta).

(** The state after bitmap updates: memory and the counter. *)
Definition bm_state (s : kstate) (m : memory) (used : Z) : kstate :=
  set_pmm (set_used_frames used (pmm s)) (with_mem s m).

Lemma bm_state_id s : bm_state s (mem (hw s)) (used_frames (pmm s)) = s.
Proof. by destruct s as [[] ? ? ? ? [] ? ?]. Qed.

Lemma bm_state_ready s m u :
  pmm_ready s → bitmap_only (mem (hw s)) m → pmm_ready (bm_state s m (u32 u)).
Proof.
  intros [] Hm. split; [done|apply u32_range|].
  by apply (low_mapped_bitmap (set_pmm (set_used_frames (u32 u) (pmm s)) s)).
Qed.

Lemma bm_state_console s m u :
  console_ok s → bitmap_only (mem (hw s)) m → console_ok (bm_state s m u).
Proof.
  intros [] Hm. split; [done..|].
  by apply (low_mapped_bitmap (set_pmm (set_used_frames u (pmm s)) s)).
Qed.

Lemma set_mask_only m i : 0 <= i < 2 ^ 20 → bitmap_only m (set_mask m i).
Proof. apply wr8_bitmap_only. Qed.

Lemma clear_mask_only m i : 0 <= i < 2 ^ 20 → bitmap_only m (clear_mask m i).
Proof. apply wr8_bitmap_only. Qed.

Lemma wp_mark_used i s (Q : unit → kstate → Prop) H :
  pmm_ready s → 0 <= i < 2 ^ 20 →
  Q tt (bm_state s (set_mask (mem (hw s)) i) (u32 (used_frames (pmm s) + 1))) →
  wp (BITMAP_SET i;; incr_used) Q H s.
Proof. intros. wp_step. by apply wp_bitmap_set. Qed.

(** [pmm_alloc_frame]'s loop takes the first clear frame. *)
Lemma wp_alloc_search n lo s (Q : option Z → kstate → Prop) H :
  pmm_ready s → 0 <= lo → lo + Z.of_nat n <= 2 ^ 20 →
  match clear_frames (mem (hw s)) lo (Z.of_nat n) with
  | [] => Q None s
  | i :: _ => Q (Some i) (bm_state s (set_mask (mem (hw s)) i) (u32 (used_frames (pmm s) + 1)))
  end →
  wp (alloc_search n lo) Q H s.
Proof.
  intros Hr. revert lo. induction n as [|n IH]; intros lo Hlo Hn HQ; [exact HQ|].
  simpl. wp_step. apply wp_bitmap_get; [done|lia|]. unfold used_bit.
  replace (Z.of_nat (S n)) with (1 + Z.of_nat n) in HQ by lia.
  rewrite clear_frames_app in HQ by lia. change (clear_frames (mem (hw s)) lo 1) with (clear_frames (mem (hw s)) lo (0 + 1)) in HQ.
  rewrite clear_frames_succ in HQ by lia. rewrite Z.add_0_r in HQ.
  destruct (bit_at (mem (hw s)) lo) eqn:E; cbn [negb].
  - apply IH; [lia..|exact HQ].
  - wp_step. apply wp_bitmap_set; [done|lia|]. wp_step. wp_steps. exact HQ.
Qed.

Lemma land_lnot_page z : Z.land z (Z.lnot (PAGE_SIZE - 1)) = z / 4096 * 4096.
Proof.
  rewrite <- Z.ldiff_land. change (PAGE_SIZE - 1) with (Z.ones 12).
  rewrite Z.ldiff_ones_r, Z.shiftl_mul_pow2, Z.shiftr_div_pow2 by lia. done.
Qed.

Lemma frame_index_page k j : FRAME_INDEX (k * 4096 + 4096 * j) = k + j.
Proof. unfold FRAME_INDEX, PAGE_SIZE. zify_mod. Qed.

(** The frames that [start .. end] touches. *)
Definition first_frame (start : Z) : Z := start / 4096.
Definition frame_count (start end_ : Z) : Z := Z.max 0 ((end_ + 4095) / 4096 - start / 4096).

Section set_frame_bitmap.
Context (start end_ : Z) (s : kstate).
Context (Hr : pmm_ready s) (Hstart : 0 <= start < 2 ^ 32) (Hend : 0 <= end_ <= 0xFFFFF000).

(** After [j] turns the first [j] frames are marked and the clear ones among
    them counted. *)
Definition mark_inv (j : Z) (s' : kstate) : Prop :=
  ∃ m', s' = bm_state s m' (u32 (used_frames (pmm s) +
               zlen (clear_frames (mem (hw s)) (first_frame start) j))) ∧
    bitmap_only (mem (hw s)) m' ∧
    ∀ i, 0 <= i → bit_at m' i =
      bit_at (mem (hw s)) i || bool_decide (first_frame start <= i < first_frame start + j).

Lemma mark_inv_start : mark_inv 0 s.
Proof using Hr.
  destruct Hr as [_ Hu _]. exists (mem (hw s)). split_and!; [|done|].
  - change (zlen _) with 0. rewrite Z.add_0_r, u32_small by done. by rewrite bm_state_id.
  - intros i Hi. case_bool_decide; [lia|]. by rewrite orb_false_r.
Qed.

Lemma wp_mark_step j s' :
  0 <= j → first_frame start + j < 2 ^ 20 → mark_inv j s' →
  wp (let frame_index := FRAME_INDEX (start / 4096 * 4096 + 4096 * j) in
      used ← BITMAP_GET frame_index;
      if negb used then BITMAP_SET frame_index;; incr_used else mret tt)
    (λ _ s2, mark_inv (j + 1) s2) no_halt s'.
Proof using Hr Hstart.
  intros Hj Hlt (m' & -> & Hm & Hb). unfold first_frame in *.
  rewrite frame_index_page. cbv zeta. wp_step.
  assert (0 <= start / 4096) by zify_mod.
  apply wp_bitmap_get; [by apply bm_state_ready|lia|].
  unfold used_bit. cbn. rewrite Hb by lia.
  rewrite bool_decide_eq_false_2, orb_false_r by lia.
  unfold mark_inv, first_frame. rewrite clear_frames_succ by done.
  destruct (bit_at _ _) eqn:E; cbn [negb].
  - wp_step. exists m'. rewrite app_nil_r. split_and!; [done..|].
    intros i Hi. rewrite Hb by done. destruct (decide (i = start / 4096 + j)) as [->|].
    + by rewrite E.
    + f_equal. apply bool_decide_ext. lia.
  - apply wp_mark_used; [by apply bm_state_ready|lia|].
    exists (set_mask m' (start / 4096 + j)). cbn. split_and!.
    + rewrite zlen_app. change (zlen [_]) with 1. rewrite u32_add_l. by rewrite <- Z.add_assoc.
    + etrans; [exact Hm|]. apply set_mask_only. lia.
    + intros i Hi. rewrite bit_at_set, Hb by lia. case_decide.
      * subst i. by rewrite bool_decide_eq_true_2, orb_true_r by lia.
      * f_equal. apply bool_decide_ext. lia.
Qed.

Lemma wp_pmm_set_frame_bitmap (Q : unit → kstate → Prop) H :
  (∀ s', mark_inv (frame_count start end_) s' → Q tt s') →
  wp (pmm_set_frame_bitmap start end_) Q H s.
Proof using All.
  intros HQ. unfold pmm_set_frame_bitmap. rewrite !land_lnot_page.
  assert (u32 (end_ + PAGE_SIZE - 1) = end_ + 4095) as -> by (unfold PAGE_SIZE; zify_mod).
  assert (pages (start / 4096 * 4096) ((end_ + 4095) / 4096 * 4096) = frame_count start end_) as Hp.
  { unfold pages, frame_count. zify_mod. }
  apply (wp_addr_loop _ _ _ mark_inv); rewrite ?Hp; [zify_mod|zify_mod| | |exact HQ].
  - apply mark_inv_start.
  - intros j s' Hj Hs'. apply wp_halts, wp_mark_step; [lia| |done].
    unfold frame_count, first_frame in *. zify_mod.
Qed.
End set_frame_bitmap.

(** ** The invariant of a running manager *)

(** [used_frames] and the clear bits account for every usable frame. *)
Record pmm_wf (s : kstate) : Prop := {
  pw_ready : pmm_ready s;
  pw_max : 0 <= max_frame_idx (pmm s) < 2 ^ 20;
  pw_total : 0 <= total_frames (pmm s) <= max_frame_idx (pmm s);
  pw_count : used_frames (pmm s) + zlen (clear_frames (mem (hw s)) 0 (max_frame_idx (pmm s)))
             = total_frames (pmm s);
}.

(** Marking a range takes its clear frames out of the count. *)
Lemma clear_frames_mark m m' a n k :
  0 <= a → 0 <= n → a + n <= k →
  (∀ i, 0 <= i → bit_at m' i = bit_at m i || bool_decide (a <= i < a + n)) →
  zlen (clear_frames m 0 k) = zlen (clear_frames m' 0 k) + zlen (clear_frames m a n).
Proof.
  intros Ha Hn Hk Hb. replace k with (a + (n + (k - (a + n)))) by lia.
  rewrite !(clear_frames_app _ 0), !(clear_frames_app _ (0 + a)), !zlen_app, !Z.add_0_l by lia.
  rewrite (clear_frames_ext m m' 0 a), (clear_frames_ext m m' (a + n)), (clear_frames_none m' a).
  - change (zlen (@nil Z)) with 0. lia.
  - intros i Hi. rewrite Hb, bool_decide_eq_true_2 by lia. apply orb_true_r.
  - intros i Hi. rewrite Hb, bool_decide_eq_false_2 by lia. apply orb_false_r.
  - intros i Hi. rewrite Hb, bool_decide_eq_false_2 by lia. apply orb_false_r.
Qed.

Lemma clear_frames_set m i k :
  0 <= i < k → bit_at m i = false →
  zlen (clear_frames m 0 k) = zlen (clear_frames (set_mask m i) 0 k) + 1.
Proof.
  intros Hi Hb. rewrite (clear_frames_mark m (set_mask m i) i 1 k); [|lia..|].
  - f_equal. change (clear_frames m i 1) with (clear_frames m i (0 + 1)).
    rewrite clear_frames_succ, Z.add_0_r, Hb by lia. done.
  - intros j Hj. rewrite bit_at_set by lia. case_decide.
    + subst j. by rewrite bool_decide_eq_true_2, orb_true_r by lia.
    + by rewrite bool_decide_eq_false_2, orb_false_r by lia.
Qed.

Lemma clear_frames_clear m i k :
  0 <= i < k → bit_at m i = true →
  zlen (clear_frames (clear_mask m i) 0 k) = zlen (clear_frames m 0 k) + 1.
Proof.
  intros Hi Hb. rewrite (clear_frames_set (clear_mask m i) i k); [|done|].
  - f_equal. f_equal. apply clear_frames_ext. intros j Hj.
    rewrite bit_at_set, bit_at_clear by lia. case_decide; [by subst|done].
  - rewrite bit_at_clear by lia. by case_decide.
Qed.

(** Taking the first clear frame leaves the others. *)
Lemma clear_frames_take m lo n i rest :
  0 <= lo → clear_frames m lo n = i :: rest → clear_frames (set_mask m i) lo n = rest.
Proof.
  intros Hlo Hc. assert (NoDup (i :: rest)) as [Hni Hnd]%NoDup_cons.
  { rewrite <- Hc. apply NoDup_filter, NoDup_zrange. }
  assert (i ∈ clear_frames m lo n) as [Hi _]%elem_of_clear_frames by (rewrite Hc; constructor).
  transitivity (filter (λ j, j ≠ i) (clear_frames m lo n)).
  - unfold clear_frames. rewrite list_filter_filter. apply filter_ext_in.
    intros j Hj%elem_of_zrange. rewrite bit_at_set by lia.
    case_decide; (split; [intros; split|intros []]); congruence.
  - rewrite Hc, filter_cons_False by (intros Hne; by apply Hne).
    clear -Hni. induction rest as [|j rest IH]; [done|].
    apply not_elem_of_cons in Hni as [Hij Hni].
    rewrite filter_cons_True by congruence. by rewrite IH.
Qed.

Lemma used_frames_bound s : pmm_wf s → used_frames (pmm s) <= total_frames (pmm s).
Proof.
  intros [_ _ _ Hc]. pose proof (zlen_nonneg (clear_frames (mem (hw s)) 0 (max_frame_idx (pmm s)))).
  lia.
Qed.

Lemma bm_state_wf s m u :
  pmm_wf s → bitmap_only (mem (hw s)) m → 0 <= u →
  u + zlen (clear_frames m 0 (max_frame_idx (pmm s)))
    = used_frames (pmm s) + zlen (clear_frames (mem (hw s)) 0 (max_frame_idx (pmm s))) →
  pmm_wf (bm_state s m u).
Proof.
  intros [Hr Hm Ht Hc] Hb Hu He.
  pose proof (zlen_nonneg (clear_frames m 0 (max_frame_idx (pmm s)))).
  split; cbn; [|done|done|lia]. rewrite <- (u32_small u) by lia. by apply bm_state_ready.
Qed.

Lemma alloc_wf s i :
  pmm_wf s → 0 <= i < max_frame_idx (pmm s) → used_bit s i = false →
  pmm_wf (bm_state s (set_mask (mem (hw s)) i) (used_frames (pmm s) + 1)).
Proof.
  intros Hwf Hi Hb. pose proof Hwf as [Hr Hm _ _]. destruct Hr.
  apply bm_state_wf; [done|apply set_mask_only; lia|lia|].
  rewrite (clear_frames_set (mem (hw s)) i) by done. lia.
Qed.

Lemma free_wf s i :
  pmm_wf s → 0 <= i < max_frame_idx (pmm s) → used_bit s i = true → 1 <= used_frames (pmm s) →
  pmm_wf (bm_state s (clear_mask (mem (hw s)) i) (used_frames (pmm s) - 1)).
Proof.
  intros Hwf Hi Hb Hu. pose proof Hwf as [_ Hm _ _].
  apply bm_state_wf; [done|apply clear_mask_only; lia|lia|].
  rewrite clear_frames_clear by done. lia.
Qed.

Lemma mark_wf start n s s' :
  pmm_wf s → 0 <= start → 0 <= n → first_frame start + n <= max_frame_idx (pmm s) →
  mark_inv start s n s' → pmm_wf s'.
Proof.
  intros Hwf Hs Hn Hle (m' & -> & Hm & Hb). pose proof Hwf as [[_ Hu _] Hmax Ht Hc].
  assert (0 <= first_frame start) by (unfold first_frame; zify_mod).
  pose proof (clear_frames_mark _ _ _ _ (max_frame_idx (pmm s)) ltac:(done) Hn Hle Hb) as He.
  pose proof (zlen_nonneg (clear_frames m' 0 (max_frame_idx (pmm s)))).
  pose proof (zlen_nonneg (clear_frames (mem (hw s)) (first_frame start) n)).
  rewrite u32_small by lia. apply bm_state_wf; [done..|lia|lia].
Qed.

(** ** Allocation and release, as a client sees them *)

(** [i] has just been taken: it was free, it is the lowest free frame, and
    nothing else has changed. *)
Definition took_frame (s : kstate) (i : Z) (s' : kstate) : Prop :=
  1 <= i < total_frames (pmm s) ∧ used_bit s i = false ∧
  (∀ j, 1 <= j < i → used_bit s j = true) ∧
  (∀ j, 0 <= j → used_bit s' j = bool_decide (i = j) || used_bit s j) ∧
  s' = bm_state s (set_mask (mem (hw s)) i) (used_frames (pmm s) + 1).

Definition exhausted (s : kstate) : Prop := ∀ j, 1 <= j < total_frames (pmm s) → used_bit s j = true.

Lemma clear_frames_head m lo n i rest :
  clear_frames m lo n = i :: rest →
  lo <= i < lo + n ∧ bit_at m i = false ∧ ∀ j, lo <= j < i → bit_at m j = true.
Proof.
  intros Hc. assert (i ∈ clear_frames m lo n) as [Hi Hb]%elem_of_clear_frames by (rewrite Hc; constructor).
  split_and!; [lia..|done|]. intros j Hj. apply not_false_is_true. intros Hbj.
  replace n with ((i - lo) + (n - (i - lo))) in Hc by lia. rewrite clear_frames_app in Hc by lia.
  assert (j ∈ clear_frames m lo (i - lo)) as Hin by (apply elem_of_clear_frames; split; [lia|done]).
  destruct (clear_frames m lo (i - lo)) as [|k l] eqn:E; [by apply elem_of_nil in Hin|].
  injection Hc as -> _. assert (i ∈ clear_frames m lo (i - lo)) as [? _]%elem_of_clear_frames
    by (rewrite E; constructor). lia.
Qed.

Lemma took_frame_head s i rest :
  pmm_wf s → clear_frames (mem (hw s)) 1 (total_frames (pmm s) - 1) = i :: rest →
  took_frame s i (bm_state s (set_mask (mem (hw s)) i) (used_frames (pmm s) + 1)).
Proof.
  intros Hwf Hc. destruct (clear_frames_head _ _ _ _ _ Hc) as (? & ? & ?).
  split_and!; [lia..|done|done| |done].
  intros j Hj. unfold used_bit. cbn. rewrite bit_at_set by lia.
  case_decide; case_bool_decide; done.
Qed.

Lemma wp_pmm_alloc_frame s (Q : Z → kstate → Prop) H :
  pmm_wf s → console_ok s →
  (∀ i s', took_frame s i s' → pmm_wf s' → console_ok s' → Q (4096 * i) s') →
  (∀ s', exhausted s → console_ok s' → console_frame s s' → Q 0 s') →
  wp pmm_alloc_frame Q H s.
Proof.
  intros Hwf Hok HQ HQ0. pose proof Hwf as [Hr Hmax Ht Hc].
  unfold pmm_alloc_frame. wp_step. wp_step. wp_step.
  apply wp_alloc_search; [done|lia|lia|].
  destruct (decide (total_frames (pmm s) <= 0)) as [Hz|Hz].
  - replace (Z.of_nat (Z.to_nat (total_frames (pmm s) - 1))) with 0 by lia.
    assert (clear_frames (mem (hw s)) 1 0 = []) as -> by done.
    wp_step. apply wp_printk; [done|reflexivity|]. intros _ s' ??. wp_step.
    apply HQ0; [|done..]. intros j Hj. lia.
  - rewrite Z2Nat.id by lia.
    destruct (clear_frames _ 1 _) as [|i rest] eqn:E.
    + wp_step. apply wp_printk; [done|reflexivity|]. intros _ s' ??. wp_step.
      apply HQ0; [|done..]. intros j Hj. apply not_false_is_true. intros Hb.
      assert (j ∈ clear_frames (mem (hw s)) 1 (total_frames (pmm s) - 1)) as Hin
        by (apply elem_of_clear_frames; split; [lia|done]).
      rewrite E in Hin. by apply elem_of_nil in Hin.
    + pose proof (took_frame_head s i rest Hwf E) as Htk. pose proof Htk as (Hi & Hb & _ & _ & _).
      destruct Hr. pose proof (used_frames_bound s Hwf).
      wp_step. rewrite (u32_small (used_frames (pmm s) + 1)) by lia.
      replace (u32 (i * PAGE_SIZE)) with (4096 * i) by (unfold PAGE_SIZE; zify_mod).
      apply HQ; [done|apply alloc_wf; [done|lia|done]|].
      apply bm_state_console; [done|]. apply set_mask_only. lia.
Qed.

Lemma wp_pmm_free_frame i s (Q : unit → kstate → Prop) H :
  pmm_wf s → console_ok s → 0 <= i < 2 ^ 20 →
  (i < total_frames (pmm s) →
     Q tt (bm_state s (clear_mask (mem (hw s)) i) (u32 (used_frames (pmm s) - 1)))) →
  (total_frames (pmm s) <= i → ∀ s', console_ok s' → console_frame s s' → Q tt s') →
  wp (pmm_free_frame (4096 * i)) Q H s.
Proof.
  intros Hwf Hok Hi HQ HQ0. unfold pmm_free_frame.
  replace (FRAME_INDEX (u32 (4096 * i))) with i by (unfold FRAME_INDEX, PAGE_SIZE; zify_mod).
  wp_steps. destruct (Z.ltb_spec i (total_frames (pmm s))).
  - wp_step. apply wp_bitmap_clear; [apply Hwf|done|]. pmm_steps. by apply HQ.
  - wp_step. apply wp_printk; [done|reflexivity|]. intros _ s' ??. wp_step. by apply HQ0.
Qed.

(** Messages do not disturb the manager. *)
Lemma bit_at_agree m m' i :
  (∀ a, in_bitmap a → rd8 m' a = rd8 m a) → 0 <= i < 2 ^ 20 → bit_at m' i = bit_at m i.
Proof. intros Hm Hi. unfold bit_at. rewrite Hm; [done|]. by apply in_bitmap_index. Qed.

Lemma bitmap_not_screen a : in_bitmap a → ¬ in_screen a.
Proof. unfold in_bitmap, in_screen, BITMAP, VGA_ADDRESS. lia. Qed.

Lemma console_used_bit s s' i :
  console_frame s s' → 0 <= i < 2 ^ 20 → used_bit s' i = used_bit s i.
Proof.
  intros F Hi. apply bit_at_agree; [|done]. intros a Ha. by apply (cf_mem _ _ F), bitmap_not_screen.
Qed.

Lemma console_pmm_ready s s' : console_frame s s' → pmm_ready s → pmm_ready s'.
Proof.
  intros F []. pose proof (cf_pmm _ _ F) as E.
  split; [by rewrite E..|by apply (console_frame_low s)].
Qed.

Lemma console_pmm_wf s s' : console_frame s s' → pmm_wf s → pmm_wf s'.
Proof.
  intros F [Hr Hm Ht Hc]. pose proof (cf_pmm _ _ F) as E. split; rewrite ?E; [|done..|].
  - by apply (console_pmm_ready s).
  - rewrite <- Hc. do 2 f_equal. apply clear_frames_ext. intros i Hi. apply (console_used_bit s s'); [done|lia].
Qed.

Lemma took_frame_clear s i s' :
  took_frame s i s' →
  clear_frames (mem (hw s)) 1 (total_frames (pmm s) - 1)
  = i :: clear_frames (mem (hw s')) 1 (total_frames (pmm s') - 1).
Proof.
  intros (Hi & Hb & Hlow & Hbits & ->).
  change (total_frames (pmm (bm_state _ _ _))) with (total_frames (pmm s)).
  set (s' := bm_state _ _ _) in *. unfold used_bit in *.
  replace (total_frames (pmm s) - 1) with ((i - 1) + (1 + (total_frames (pmm s) - 1 - i))) by lia.
  assert (∀ j, 0 <= j → j ≠ i → bit_at (mem (hw s')) j = bit_at (mem (hw s)) j) as Hne.
  { intros j Hj Hji. rewrite Hbits by done. by rewrite bool_decide_eq_false_2. }
  rewrite !(clear_frames_app _ 1), !(clear_frames_app _ (1 + (i - 1))) by lia.
  replace (1 + (i - 1)) with i by lia.
  rewrite (clear_frames_none (mem (hw s)) 1), (clear_frames_none (mem (hw s')) 1).
  - rewrite (clear_frames_ext (mem (hw s)) (mem (hw s')) (i + 1)).
    + change (clear_frames ?m i 1) with (clear_frames m i (0 + 1)).
      rewrite !clear_frames_succ, Z.add_0_r, Hb, Hbits, bool_decide_eq_true_2 by lia. done.
    + intros j Hj. apply Hne; lia.
  - intros j Hj. rewrite Hne by lia. apply Hlow. lia.
  - intros j Hj. apply Hlow. lia.
Qed.

(** [n] calls in a row. *)
Fixpoint alloc_frames (n : nat) : M (list Z) :=
  match n with
  | O => mret []
  | S n => p ← pmm_alloc_frame; ps ← alloc_frames n; mret (p :: ps)
  end.

(** What they return: the free frames in increasing order, then NULLs. *)
Definition free_addresses (s : kstate) : list Z :=
  (λ i, 4096 * i) <$> clear_frames (mem (hw s)) 1 (total_frames (pmm s) - 1).

Lemma exhausted_free_addresses s : exhausted s → free_addresses s = [].
Proof.
  intros He. unfold free_addresses. rewrite clear_frames_none; [done|].
  intros j Hj. apply He. lia.
Qed.

Lemma exhausted_console s s' :
  pmm_wf s → exhausted s → console_frame s s' → exhausted s'.
Proof.
  intros Hwf He F j. pose proof (cf_pmm _ _ F) as E. rewrite E. intros Hj.
  destruct Hwf. rewrite (console_used_bit s s') by (done || lia). by apply He.
Qed.

Lemma wp_alloc_frames n s :
  pmm_wf s → console_ok s →
  wp (alloc_frames n) (λ ps s', pmm_wf s' ∧ console_ok s' ∧
    ps = take n (free_addresses s ++ replicate n 0)) no_halt s.
Proof.
  revert s. induction n as [|n IH]; intros s Hwf Hok; [done|]. simpl. wp_step.
  apply wp_pmm_alloc_frame; [done..| |].
  - intros i s1 Htk Hwf1 Hok1. wp_step. wp_call (IH s1 Hwf1 Hok1).
    intros ps s2 (Hwf2 & Hok2 & ->). wp_step. split_and!; [done..|].
    unfold free_addresses. rewrite (took_frame_clear _ _ _ Htk). simpl. f_equal.
    change (take n (free_addresses s1 ++ replicate n 0)
      = take n (free_addresses s1 ++ replicate (S n) 0)).
    rewrite !take_app, !take_replicate. do 2 f_equal. lia.
  - intros s1 Hex Hok1 F1. wp_step. wp_call (IH s1 (console_pmm_wf _ _ F1 Hwf) Hok1).
    intros ps s2 (Hwf2 & Hok2 & ->). wp_step. split_and!; [done..|].
    rewrite (exhausted_free_addresses _ Hex).
    by rewrite (exhausted_free_addresses _ (exhausted_console _ _ Hwf Hex F1)).
Qed.

(** ** Initialisation *)

(** A region as [pmm_init] sees it: base and length cut to 32 bits. *)
Definition region_first (r : memory_region_t) : Z := u32 (r_base r) / 4096.
Definition region_pages (r : memory_region_t) : Z := (u32 (r_length r) + 4095) / 4096.
Definition region_end (r : memory_region_t) : Z := u32 (r_base r) + u32 (r_length r).

(** The region ends at or below the last page, so that its loop terminates. *)
Definition region_fits (r : memory_region_t) : Prop := region_end r <= 0xFFFFF000.

(** The highest frame index of the regions, and the frames below it that the
    regions visit, in the order of the loops. *)
Definition init_max (max : Z) (rs : list memory_region_t) : Z :=
  foldl (λ m r, Z.max m (region_end r / 4096)) max rs.

Definition region_frames (max : Z) (r : memory_region_t) (n : Z) : list Z :=
  filter (λ f, f < max) (zrange (region_first r) (Z.to_nat n)).

Definition visited (max : Z) (rs : list memory_region_t) : list Z :=
  concat ((λ r, region_frames max r (region_pages r)) <$> rs).

(** The state [s] with new memory and new statics of this file. *)
Definition mm_state (s : kstate) (m : memory) (v : pmm_vars) : kstate := set_pmm v (with_mem s m).

Lemma init_max_snoc max rs r :
  init_max max (rs ++ [r]) = Z.max (init_max max rs) (region_end r / 4096).
Proof. unfold init_max. by rewrite foldl_app. Qed.

Lemma init_max_bound max rs :
  0 <= max < 2 ^ 20 → Forall region_fits rs → 0 <= init_max max rs < 2 ^ 20.
Proof.
  intros Hm Hf. induction rs as [|r rs IH] using rev_ind; [done|].
  apply Forall_app in Hf as [Hf Hr]. rewrite Forall_singleton in Hr. rewrite init_max_snoc.
  specialize (IH Hf). unfold region_fits, region_end in *. zify_mod.
Qed.

Lemma visited_snoc max rs r :
  visited max (rs ++ [r]) = visited max rs ++ region_frames max r (region_pages r).
Proof. unfold visited. rewrite fmap_app, concat_app. simpl. by rewrite app_nil_r. Qed.

Lemma region_frames_succ max r j :
  0 <= j → region_frames max r (j + 1) =
    region_frames max r j ++ (if decide (region_first r + j < max) then [region_first r + j] else []).
Proof.
  intros. unfold region_frames. rewrite Z2Nat.inj_add, zrange_app, filter_app by lia.
  f_equal. simpl. rewrite filter_cons, filter_nil, Z2Nat.id by done. done.
Qed.

Lemma wp_usable_region i r s (Q : Z * Z → kstate → Prop) H :
  regions (memmap s) !! Z.to_nat i = Some r →
  Q (u32 (r_base r), u32 (r_length r)) s → wp (usable_region i) Q H s.
Proof.
  unfold regions. intros [Hl _]%lookup_take_Some HQ. unfold usable_region. wp_step. wp_step.
  rewrite Hl. by wp_step.
Qed.

(** A loop over the regions, with an invariant on the prefix done. *)
Lemma wp_for_regions body (I : list memory_region_t → kstate → Prop)
    (Q : unit → kstate → Prop) H s rs :
  memmap_wf (memmap s) → rs = regions (memmap s) →
  I [] s →
  (∀ i ds r s', rs !! Z.to_nat i = Some r → I ds s' → take (Z.to_nat i) rs = ds →
     wp (body i) (λ _ s2, I (ds ++ [r]) s2) H s') →
  (∀ s', I rs s' → Q tt s') →
  wp (for_ (Z.to_nat (usable_memory_region_count (memmap s))) 0 body) Q H s.
Proof.
  intros Hwf -> HI Hbody HQ. pose proof (zlen_regions _ Hwf) as Hlen. unfold zlen in Hlen.
  apply (wp_for _ _ _ (λ i, I (take (Z.to_nat i) (regions (memmap s))))).
  - done.
  - intros i s' Hi HIi.
    destruct (lookup_lt_is_Some_2 (regions (memmap s)) (Z.to_nat i)) as [r Hr]; [lia|].
    replace (Z.to_nat (i + 1)) with (S (Z.to_nat i)) by lia.
    rewrite (take_S_r _ _ r) by done. by apply Hbody.
  - intros s'. rewrite take_ge by lia. apply HQ.
Qed.

Section init.
Context (s : kstate).
Context (Hwf : memmap_wf (memmap s)) (Hlow : low_mapped (hw s)).
Context (Hmax : 0 <= max_frame_idx (pmm s) < 2 ^ 20).
Context (Hfit : Forall region_fits (regions (memmap s))).

Definition rs : list memory_region_t := regions (memmap s).
Definition top : Z := init_max (max_frame_idx (pmm s)) rs.

Lemma top_range : 0 <= top < 2 ^ 20.
Proof using Hmax Hfit. by apply init_max_bound. Qed.

Lemma fits i r : rs !! i = Some r → region_fits r.
Proof using Hfit. by apply Forall_lookup_1. Qed.

(** Step 1 *)
Definition max_inv (v : pmm_vars) (ds : list memory_region_t) (s' : kstate) : Prop :=
  s' = set_pmm (set_max_frame_idx (init_max (max_frame_idx (pmm s)) ds) v) s.

Lemma wp_max_step v i ds r s' :
  rs !! Z.to_nat i = Some r → max_inv v ds s' →
  wp (raise_max_frame_idx i)
    (λ _ s2, max_inv v (ds ++ [r]) s2) no_halt s'.
Proof using Hfit Hmax.
  intros Hr ->. unfold raise_max_frame_idx. wp_step. apply (wp_usable_region i r); [done|]. cbv beta iota zeta. wp_steps.
  pose proof (fits _ _ Hr) as Hf. unfold region_fits, region_end in Hf.
  unfold max_inv. rewrite init_max_snoc. unfold region_end, FRAME_INDEX, PAGE_SIZE.
  rewrite (u32_small (u32 (r_base r) + u32 (r_length r))) by zify_mod. cbn.
  destruct (Z.ltb_spec (init_max (max_frame_idx (pmm s)) ds)
    ((u32 (r_base r) + u32 (r_length r)) / 4096)).
  - unfold upd_pmm. wp_step. by rewrite Z.max_r by lia.
  - wp_step. by rewrite Z.max_l by lia.
Qed.

(** Step 3: every frame used. *)
Definition fill_inv (v : pmm_vars) (j : Z) (s' : kstate) : Prop :=
  ∃ m, s' = mm_state s m v ∧ bitmap_only (mem (hw s)) m ∧
    ∀ a, BITMAP <= a < BITMAP + j → rd8 m a = 0xFF.

Lemma mm_state_low m v : bitmap_only (mem (hw s)) m → low_mapped (hw (mm_state s m v)).
Proof using Hlow. intros. by apply low_mapped_bitmap. Qed.

Lemma wp_fill_step v j s' :
  frame_bitmap v = BITMAP → 0 <= j < 2 ^ 17 → fill_inv v j s' →
  wp (v ← gets pmm; store8 (frame_bitmap v + j) 0xFF)
    (λ _ s2, fill_inv v (j + 1) s2) no_halt s'.
Proof using Hlow Hmax.
  intros Hv Hj (m & -> & Hm & Hb). wp_steps. cbn [pmm mm_state set_pmm]. rewrite Hv.
  apply wp_store8_low; [by apply mm_state_low|pmm_lia|].
  exists (wr8 m (BITMAP + j) 0xFF). split_and!; [done| |].
  - etrans; [exact Hm|]. intros a Ha. apply rd8_wr8_ne. pmm_lia.
  - intros a Ha. destruct (decide (a = BITMAP + j)) as [->|].
    + by rewrite rd8_wr8_eq.
    + rewrite rd8_wr8_ne by done. apply Hb. lia.
Qed.

(** Step 4: the frames in [l] are clear and counted. *)
Definition init_inv (l : list Z) (s' : kstate) : Prop :=
  ∃ m, s' = mm_state s m (PmmVars BITMAP (u32 (zlen l)) 0 top) ∧ bitmap_only (mem (hw s)) m ∧
    ∀ i, 0 <= i < 8 * (top / 8 + 1) → bit_at m i = negb (bool_decide (i ∈ l)).

Lemma fill_init_inv s' :
  fill_inv (PmmVars BITMAP 0 0 top) (top / 8 + 1) s' → init_inv [] s'.
Proof using Hmax.
  intros (m & -> & Hm & Hb). exists m. split_and!; [done..|].
  intros i Hi. unfold bit_at. rewrite Hb by zify_mod.
  assert (0xFF = Z.ones 8) as -> by done. apply Z.ones_spec_low. zify_mod.
Qed.

Lemma wp_free_step l r j s' :
  region_fits r → 0 <= j < pages (u32 (r_base r)) (region_end r) →
  init_inv (l ++ region_frames top r j) s' →
  wp (free_region_frame (u32 (r_base r) + 4096 * j))
    (λ _ s2, init_inv (l ++ region_frames top r (j + 1)) s2) no_halt s'.
Proof using Hlow Hmax Hfit.
  intros Hr Hj (m & -> & Hm & Hb). pose proof top_range as Ht.
  unfold free_region_frame. cbv zeta. wp_steps.
  assert (FRAME_INDEX (u32 (r_base r) + 4096 * j) = region_first r + j) as ->.
  { unfold FRAME_INDEX, PAGE_SIZE, region_first. zify_mod. }
  rewrite region_frames_succ by lia. cbn [pmm mm_state set_pmm max_frame_idx].
  assert (0 <= region_first r) by (unfold region_first; zify_mod).
  destruct (Z.ltb_spec (region_first r + j) top); case_decide; try lia.
  - wp_step. apply wp_bitmap_clear; [|lia|].
    { split; [done|cbn; lia|by apply mm_state_low]. }
    pmm_steps. exists (clear_mask m (region_first r + j)).
    split_and!.
    + rewrite app_assoc, (zlen_app (l ++ _)). change (zlen [_]) with 1.
      by rewrite <- (u32_add_l (zlen (l ++ region_frames top r j)) 1).
    + etrans; [exact Hm|]. apply clear_mask_only. lia.
    + intros i Hi. rewrite bit_at_clear by lia. rewrite app_assoc. case_decide.
      * subst i. rewrite bool_decide_eq_true_2; [done|]. apply elem_of_app. right. by left.
      * rewrite Hb by done. f_equal. apply bool_decide_ext.
        rewrite (elem_of_app _ [_]), list_elem_of_singleton.
        split; [by left|by intros [|]].
  - wp_step. rewrite app_nil_r. by exists m.
Qed.

Lemma wp_free_region i ds r s' :
  rs !! Z.to_nat i = Some r → init_inv (visited top ds) s' →
  wp (free_region i)
    (λ _ s2, init_inv (visited top (ds ++ [r])) s2) no_halt s'.
Proof using Hlow Hmax Hfit.
  intros Hr Hs'. pose proof (fits _ _ Hr) as Hf. pose proof Hs' as (m & Em & _).
  unfold free_region. wp_step. apply (wp_usable_region i r); [by rewrite Em|]. cbv beta iota.
  fold (region_end r). rewrite (u32_small (region_end r)) by (unfold region_fits, region_end in *; zify_mod).
  rewrite visited_snoc.
  assert (pages (u32 (r_base r)) (region_end r) = region_pages r) as Hp.
  { unfold pages, region_end, region_pages. zify_mod. }
  apply (wp_addr_loop _ _ _ (λ j, init_inv (visited top ds ++ region_frames top r j))).
  - zify_mod.
  - done.
  - unfold region_frames. cbn. by rewrite app_nil_r.
  - intros j s2 Hj Hs2. by apply wp_free_step.
  - intros s2. by rewrite Hp.
Qed.
End init.

(** The frames [pmm_init] makes available: those its loops visit. *)
Definition init_frames (s : kstate) : list Z := visited (top s) (rs s).

(** What [pmm_init] needs of the statics and the memory map. *)
Record init_ok (s : kstate) : Prop := {
  io_console : console_ok s;
  io_map : memmap_wf (memmap s);
  io_max : 0 <= max_frame_idx (pmm s) < 2 ^ 20;
  io_fits : Forall region_fits (regions (memmap s));
}.

(** The state [pmm_init] leaves, before its message. *)
Record init_post (s s' : kstate) : Prop := {
  ip_pmm : pmm s' = PmmVars BITMAP (u32 (zlen (init_frames s))) 0 (top s);
  ip_bits : ∀ i, 0 <= i < 8 * (top s / 8 + 1) →
    used_bit s' i = negb (bool_decide (i ∈ init_frames s));
}.

(** Memory the manager may write: the bitmap and, for its messages, the screen. *)
Definition pmm_region (a : Z) : Prop := in_screen a ∨ in_bitmap a.

Lemma mm_state_console s m v :
  console_ok s → bitmap_only (mem (hw s)) m → console_ok (mm_state s m v).
Proof. intros [] Hm. split; [done..|]. by apply low_mapped_bitmap. Qed.

Lemma mm_state_kframe s m v : bitmap_only (mem (hw s)) m → kframe pmm_region s (mm_state s m v).
Proof.
  intros Hm. split; try done.
  - intros a Ha. apply Hm. intros ?. apply Ha. by right.
  - by exists [].
Qed.

Lemma pmm_region_console s s' : console_frame s s' → kframe pmm_region s s'.
Proof. apply console_kframe. by left. Qed.

Lemma wp_pmm_init s (Q : unit → kstate → Prop) H :
  init_ok s →
  (∀ s', init_post s s' → console_ok s' → kframe pmm_region s s' → Q tt s') →
  wp pmm_init Q H s.
Proof.
  intros [Hok Hmm Hmax Hfit] HQ. pose proof (co_low _ Hok) as Hlow.
  apply wp_halts. unfold pmm_init. pmm_steps.
  apply (wp_for_regions _ (max_inv s (PmmVars (frame_bitmap (pmm s)) 0 0 0)) _ _ _ (rs s));
    [done|done|done| |].
  { intros i ds r s' Hr Hs' _. by apply wp_max_step. }
  intros s1 ->. fold (top s). pmm_steps.
  cbn [pmm set_pmm max_frame_idx set_frame_bitmap set_max_frame_idx].
  pose proof (top_range s Hmax Hfit) as Ht.
  assert (8 * (top s / 8 + 1) <= 2 ^ 20) as Ht8 by zify_mod.
  rewrite (u32_small (top s / 8 + 1)) by zify_mod.
  apply (wp_for _ _ _ (fill_inv s (PmmVars BITMAP 0 0 (top s)))).
  { exists (mem (hw s)). split_and!; [|done|intros a Ha; lia].
    unfold mm_state. by rewrite with_mem_id. }
  { intros j s2 Hj Hs2. apply wp_fill_step; [done..|zify_mod|done]. }
  intros s2 Hs2. rewrite Z.add_0_l, Z2Nat.id in Hs2 by zify_mod.
  apply fill_init_inv in Hs2; [|done].
  pmm_steps. pose proof Hs2 as (m2 & Em2 & _).
  apply (wp_for_regions _ (λ ds, init_inv s (visited (top s) ds)) _ _ s2 (rs s));
    [by rewrite Em2|by rewrite Em2|done| |].
  { intros i ds r s' Hr Hs' _. by apply wp_free_region. }
  intros s3 (m & -> & Hm & Hb). pmm_steps.
  change (set_pmm _ _) with
    (mm_state s m (PmmVars BITMAP (u32 (zlen (visited (top s) (rs s)))) 0 (top s))).
  apply wp_printk; [by apply mm_state_console|reflexivity|]. intros _ s5 Hok5 F5. wp_step.
  apply HQ; [|done|].
  - split; [by rewrite (cf_pmm _ _ F5)|]. intros i Hi.
    rewrite (console_used_bit _ _ _ F5) by lia. by apply Hb.
  - etrans; [by apply mm_state_kframe|]. by apply pmm_region_console.
Qed.

(** Regions that share no frame: each available frame is counted once. *)
Lemma visited_below max lst i : i ∈ visited max lst → 0 <= i < max.
Proof.
  unfold visited. intros Hi. apply list_elem_of_In, in_concat in Hi as (l & Hl & Hi).
  apply list_elem_of_In, list_elem_of_fmap in Hl as (r & -> & _).
  apply list_elem_of_In in Hi. unfold region_frames in Hi.
  apply list_elem_of_filter in Hi as [? Hi%elem_of_zrange].
  assert (0 <= region_first r) by (unfold region_first; zify_mod). lia.
Qed.

Lemma init_post_wf s s' :
  init_ok s → init_post s s' → console_ok s' → NoDup (init_frames s) → pmm_wf s'.
Proof.
  intros [_ _ Hmax Hfit] [Hp Hb] Hok Hnd. pose proof (top_range s Hmax Hfit) as Ht.
  assert (clear_frames (mem (hw s')) 0 (top s) ≡ₚ init_frames s) as Hperm.
  { apply NoDup_Permutation; [apply NoDup_filter, NoDup_zrange|done|]. intros i.
    rewrite elem_of_clear_frames. split.
    - intros [Hi Hc]. unfold used_bit in Hb. rewrite Hb in Hc by zify_mod.
      by case_bool_decide.
    - intros Hin. pose proof (visited_below _ _ _ Hin). split; [lia|].
      unfold used_bit in Hb. rewrite Hb by zify_mod. by rewrite bool_decide_eq_true_2. }
  apply Permutation_length in Hperm.
  assert (zlen (init_frames s) <= top s) as Hle.
  { unfold zlen. rewrite <- Hperm. unfold clear_frames.
    pose proof (length_filter (λ i, bit_at (mem (hw s')) i = false) (zrange 0 (Z.to_nat (top s)))) as Hf.
    rewrite length_zrange in Hf. lia. }
  pose proof (zlen_nonneg (init_frames s)).
  assert (u32 (zlen (init_frames s)) = zlen (init_frames s)) as Hu by (apply u32_small; lia).
  split; rewrite ?Hp, ?Hu; cbn; [|done|lia|].
  - split; rewrite ?Hp; [done|cbn; lia|apply Hok].
  - unfold zlen in *. by rewrite Hperm.
Qed.

(** ** Reservations *)

(** A range of addresses whose frames the bitmap covers. *)
Definition range_ok (max : Z) (r : Z * Z) : Prop :=
  0 <= r.1 <= r.2 ∧ (r.2 + 4095) / 4096 <= max.

Definition in_range (i : Z) (r : Z * Z) : bool :=
  bool_decide (r.1 / 4096 <= i < (r.2 + 4095) / 4096).

(** [s'] is [s] with the frames of the ranges [l] reserved. *)
Record reserved (s : kstate) (l : list (Z * Z)) (s' : kstate) : Prop := {
  rv_wf : pmm_wf s';
  rv_console : console_ok s';
  rv_frame : kframe pmm_region s s';
  rv_total : total_frames (pmm s') = total_frames (pmm s);
  rv_max : max_frame_idx (pmm s') = max_frame_idx (pmm s);
  rv_bits : ∀ i, 0 <= i < 2 ^ 20 → used_bit s' i = used_bit s i || existsb (in_range i) l;
}.

Lemma reserved_trans s1 l1 s2 l2 s3 :
  reserved s1 l1 s2 → reserved s2 l2 s3 → reserved s1 (l1 ++ l2) s3.
Proof.
  intros [? ? ? ? ? Hb1] [? ? ? ? ? Hb2]. split; [done|done|by etrans|congruence|congruence|].
  intros i Hi. by rewrite Hb2, Hb1, existsb_app, orb_assoc.
Qed.

Lemma reserved_console s s' :
  pmm_wf s → console_ok s' → console_frame s s' → reserved s [] s'.
Proof.
  intros Hwf Hok F. pose proof (cf_pmm _ _ F) as E.
  split; rewrite ?E; [by eapply console_pmm_wf|done|by apply pmm_region_console|done|done|].
  intros i Hi. by rewrite orb_false_r, (console_used_bit _ _ _ F).
Qed.

Lemma wp_reserve_range a b s (Q : unit → kstate → Prop) H :
  pmm_wf s → console_ok s → range_ok (max_frame_idx (pmm s)) (a, b) →
  (∀ s', reserved s [(a, b)] s' → Q tt s') →
  wp (pmm_set_frame_bitmap a b) Q H s.
Proof.
  intros Hwf Hok [Hab Hb] HQ. simpl in *. pose proof Hwf as [Hr Hm Ht Hc].
  assert (frame_count a b = (b + 4095) / 4096 - a / 4096) as Hn by (unfold frame_count; zify_mod).
  apply wp_pmm_set_frame_bitmap; [done|zify_mod..|]. intros s' Hs'. apply HQ.
  assert (pmm_wf s') as Hwf'.
  { apply (mark_wf a (frame_count a b) s); [done|lia|unfold frame_count; lia| |done].
    rewrite Hn. unfold first_frame. zify_mod. }
  destruct Hs' as (m' & -> & Hmo & Hbits).
  split; [done|by apply bm_state_console| |done|done|].
  - by apply (mm_state_kframe s m' (set_used_frames _ (pmm s))).
  - intros i Hi. unfold used_bit at 1. cbn [hw bm_state set_pmm with_mem upd_mem on_hw set_mem mem].
    rewrite Hbits by lia. f_equal. cbn [existsb]. rewrite orb_false_r. unfold in_range. simpl.
    apply bool_decide_ext. rewrite Hn. unfold first_frame. lia.
Qed.

(** One block of [pmm_reserve_memory_region]: its ranges, each with a message. *)
Lemma wp_reserve_then_print {A} a b fmt args (k : M A) s0 l s (Q : A → kstate → Prop) H :
  reserved s0 l s → range_ok (max_frame_idx (pmm s0)) (a, b) → message_ok fmt args = true →
  (∀ s', reserved s0 (l ++ [(a, b)]) s' → wp k Q H s') →
  wp (pmm_set_frame_bitmap a b;; printk fmt args;; k) Q H s.
Proof.
  intros Hs Hab Hmsg Hk. wp_step. pose proof Hs as [? ? ? ? Hmax ?].
  apply wp_reserve_range; [done..|by rewrite Hmax|]. intros s1 Hs1. wp_step.
  apply wp_printk; [apply Hs1|done|]. intros _ s2 Hok2 F2. apply Hk.
  eapply reserved_trans; [exact Hs|]. rewrite <- (app_nil_r [_]).
  eapply reserved_trans; [exact Hs1|]. apply reserved_console; [apply Hs1|done..].
Qed.

(** The ranges of each kind of reservation. *)
Definition low_ranges : list (Z * Z) := [(0, 0x100000)].
Definition kernel_ranges (s : kstate) : list (Z * Z) :=
  [(sym_kernel_start (syms s), sym_kernel_end (syms s))].
Definition bitmap_ranges (s : kstate) : list (Z * Z) :=
  [(frame_bitmap (pmm s), frame_bitmap (pmm s) + (max_frame_idx (pmm s) / 8 + 1))].
Definition table_ranges : list (Z * Z) :=
  [(PAGE_DIR_START_ADDR, PAGE_DIR_START_ADDR + 4096);
   (PAGE_TABLE_START_ADDR, PAGE_TABLE_START_ADDR + 4096)].

Definition is_low (t : Z) : bool :=
  flag t RESERVED_TYPE_INIT || flag t RESERVED_TYPE_BIOS || flag t RESERVED_TYPE_IVT
    || flag t RESERVED_TYPE_VGA.

Definition reserve_ranges (t : Z) (s : kstate) : list (Z * Z) :=
  (if is_low t then low_ranges else []) ++
  (if flag t RESERVED_TYPE_KERNEL then kernel_ranges s else []) ++
  (if flag t RESERVED_TYPE_BITMAP then bitmap_ranges s else []) ++
  (if flag t RESERVED_TYPE_PAGE_TABLE then table_ranges else []).

Lemma wp_pmm_reserve t s (Q : unit → kstate → Prop) H :
  pmm_wf s → console_ok s →
  Forall (range_ok (max_frame_idx (pmm s))) (reserve_ranges t s) →
  (∀ s', reserved s (reserve_ranges t s) s' → Q tt s') →
  wp (pmm_reserve_memory_region t) Q H s.
Proof.
  intros Hwf Hok Hall HQ. unfold reserve_ranges in *.
  apply Forall_app in Hall as [Hlow Hall]. apply Forall_app in Hall as [Hker Hall].
  apply Forall_app in Hall as [Hbit Htab].
  pose proof (reserved_console s s Hwf Hok ltac:(done)) as H0.
  pose proof Hwf as [[Hbm _ _] Hmax _ _].
  unfold pmm_reserve_memory_region. fold (is_low t). wp_step.
  eapply (wp_post _ (λ _ s', reserved s (if is_low t then low_ranges else []) s')).
  { destruct (is_low t); [|by wp_step].
    apply (wp_reserve_then_print _ _ _ _ _ s []); [done|by inversion Hlow|done|].
    intros s' Hs'. by wp_step. }
  intros [] s1 H1. wp_step.
  eapply (wp_post _ (λ _ s', reserved s ((if is_low t then low_ranges else []) ++
    (if flag t RESERVED_TYPE_KERNEL then kernel_ranges s else [])) s')).
  { destruct (flag t RESERVED_TYPE_KERNEL); [|wp_step; by rewrite app_nil_r].
    do 4 wp_step. rewrite !(kf_syms _ _ _ (rv_frame _ _ _ H1)).
    eapply wp_reserve_then_print; [done|by inversion Hker|done|]. intros s' Hs'. by wp_step. }
  intros [] s2 H2. wp_step.
  eapply (wp_post _ (λ _ s', reserved s (((if is_low t then low_ranges else []) ++
    (if flag t RESERVED_TYPE_KERNEL then kernel_ranges s else [])) ++
    (if flag t RESERVED_TYPE_BITMAP then bitmap_ranges s else [])) s')).
  { destruct (flag t RESERVED_TYPE_BITMAP); [|wp_step; by rewrite app_nil_r].
    do 2 wp_step. cbv zeta. rewrite (rv_max _ _ _ H2).
    rewrite (pr_bitmap _ (pw_ready _ (rv_wf _ _ _ H2))), (u32_small (_ / 8 + 1)) by zify_mod.
    unfold bitmap_ranges in Hbit |- *. rewrite Hbm in Hbit |- *.
    rewrite u32_small by (unfold BITMAP; zify_mod).
    eapply wp_reserve_then_print; [done|by inversion Hbit|done|]. intros s' Hs'. by wp_step. }
  intros [] s3 H3. wp_step.
  eapply (wp_post _ (λ _ s', reserved s ((((if is_low t then low_ranges else []) ++
    (if flag t RESERVED_TYPE_KERNEL then kernel_ranges s else [])) ++
    (if flag t RESERVED_TYPE_BITMAP then bitmap_ranges s else [])) ++
    (if flag t RESERVED_TYPE_PAGE_TABLE then table_ranges else [])) s')).
  { destruct (flag t RESERVED_TYPE_PAGE_TABLE); [|wp_step; by rewrite app_nil_r].
    unfold table_ranges in Htab |- *. rewrite Forall_cons, Forall_singleton in Htab.
    destruct Htab as [Hdir Htab]. cbv zeta.
    eapply wp_reserve_then_print; [done|exact Hdir|done|]. intros s' Hs'.
    eapply wp_reserve_then_print; [done|exact Htab|done|]. intros s4 Hs4. wp_step.
    by rewrite <- app_assoc in Hs4. }
  intros [] s4 H4. wp_steps. apply wp_printk; [apply H4|done|]. intros _ s5 Hok5 F5.
  wp_steps. apply wp_printk; [done|done|]. intros _ s6 Hok6 F6. wp_step.
  apply HQ. rewrite !app_assoc. rewrite <- (app_nil_r (_ ++ _)).
  eapply reserved_trans; [exact H4|]. apply reserved_console; [apply H4|done|by etrans].
Qed.

(** ** What the pager relies on *)

(** A frame allocator: [fa_alloc] returns the address of the lowest free frame,
    which is free no more, or NULL when there is none.  The first megabyte is never given out, and
    the allocator's own memory lies there. *)
Class FrameAllocator := {
  fa_alloc : M Z;
  fa_inv : kstate → Prop;
  fa_free : kstate → Z → Prop;
  fa_private : Z → Prop;
  fa_private_low : ∀ a, fa_private a → 0x82000 <= a < 0xB0000;
  fa_free_high : ∀ s i, fa_inv s → fa_free s i → 256 <= i < 2 ^ 20;
  fa_stable : ∀ s s',
    fa_inv s → low_mapped (hw s') → pmm s' = pmm s →
    (∀ a, fa_private a → rd8 (mem (hw s')) a = rd8 (mem (hw s)) a) →
    fa_inv s' ∧ ∀ i, fa_free s' i ↔ fa_free s i;
  fa_alloc_spec : ∀ s (Q : Z → kstate → Prop) H,
    fa_inv s → console_ok s →
    (∀ i s', fa_free s i → (∀ j, fa_free s j → i <= j) → fa_inv s' → console_ok s' →
       kframe (λ a, in_screen a ∨ fa_private a) s s' →
       (∀ j, fa_free s' j ↔ fa_free s j ∧ j ≠ i) → Q (4096 * i) s') →
    (∀ s', (∀ j, ¬ fa_free s j) → fa_inv s' → console_ok s' →
       kframe (λ a, in_screen a ∨ fa_private a) s s' →
       (∀ j, fa_free s' j ↔ fa_free s j) → Q 0 s') →
    wp fa_alloc Q H s;
}.

(** The two ways an allocation ends. *)
Definition gave_frame `{FrameAllocator} (s : kstate) (i : Z) (s' : kstate) : Prop :=
  fa_free s i ∧ (∀ j, fa_free s j → i <= j) ∧ fa_inv s' ∧ console_ok s' ∧
  kframe (λ a, in_screen a ∨ fa_private a) s s' ∧ ∀ j, fa_free s' j ↔ fa_free s j ∧ j ≠ i.

Definition gave_null `{FrameAllocator} (s s' : kstate) : Prop :=
  (∀ j, ¬ fa_free s j) ∧ fa_inv s' ∧ console_ok s' ∧
  kframe (λ a, in_screen a ∨ fa_private a) s s' ∧ ∀ j, fa_free s' j ↔ fa_free s j.

Lemma fa_alloc_run `{FrameAllocator} s :
  fa_inv s → console_ok s →
  ∃ p s', fa_alloc s = Ok p s' ∧
    ((∃ i, p = 4096 * i ∧ gave_frame s i s') ∨ (p = 0 ∧ gave_null s s')).
Proof.
  intros Hinv Hok. apply (wp_run fa_alloc (λ p s',
    (∃ i, p = 4096 * i ∧ gave_frame s i s') ∨ (p = 0 ∧ gave_null s s'))).
  apply fa_alloc_spec; [done..| |].
  - intros i s' ??????. left. by exists i.
  - intros s' ?????. by right.
Qed.

(** The manager with its first megabyte reserved. *)
Record pmm_inv (s : kstate) : Prop := {
  pi_wf : pmm_wf s;
  pi_low : ∀ i, 0 <= i < 256 → used_bit s i = true;
}.

Definition pmm_free (s : kstate) (i : Z) : Prop :=
  1 <= i < total_frames (pmm s) ∧ used_bit s i = false.

Lemma pmm_free_high s i : pmm_inv s → pmm_free s i → 256 <= i < 2 ^ 20.
Proof.
  intros [[_ ? ? _] Hl] [Hi Hb]. split; [|lia].
  destruct (Z.le_gt_cases 256 i) as [|Hlt]; [done|]. rewrite Hl in Hb by lia. done.
Qed.

Lemma pmm_wf_agree s s' :
  pmm_wf s → low_mapped (hw s') → pmm s' = pmm s →
  (∀ a, in_bitmap a → rd8 (mem (hw s')) a = rd8 (mem (hw s)) a) → pmm_wf s'.
Proof.
  intros [[Hbm Hu _] Hmax Ht Hc] Hlow E Hm. split; rewrite ?E; [|done|done|].
  - split; rewrite ?E; done.
  - rewrite <- Hc. do 2 f_equal. apply clear_frames_ext. intros i Hi. apply bit_at_agree; [done|lia].
Qed.

#[global] Program Instance pmm_allocator : FrameAllocator := {|
  fa_alloc := pmm_alloc_frame;
  fa_inv := pmm_inv;
  fa_free := pmm_free;
  fa_private := in_bitmap;
|}.
Next Obligation. unfold in_bitmap, BITMAP. lia. Qed.
Next Obligation. apply pmm_free_high. Qed.
Next Obligation.
  intros s s' [Hwf Hl] Hlow E Hm. pose proof Hwf as [_ ? ? _].
  assert (∀ i, 0 <= i < 2 ^ 20 → used_bit s' i = used_bit s i) as Hb
    by (intros; by apply bit_at_agree).
  split; [split; [by apply (pmm_wf_agree s)|]|].
  - intros i Hi. rewrite Hb by lia. by apply Hl.
  - intros i. unfold pmm_free. rewrite E. split; intros [Hi Hc]; (split; [done|]).
    + by rewrite <- Hb by lia.
    + by rewrite Hb by lia.
Qed.
Next Obligation.
  intros s Q H [Hwf Hl] Hok HQ HQ0. pose proof Hwf as [_ ? ? _].
  apply wp_pmm_alloc_frame; [done..| |].
  - intros i s' (Hi & Hb & Hlow & Hbits & ->) Hwf' Hok'. apply HQ; [done| | |done| |].
    + intros j [Hj Hbj]. destruct (Z.le_gt_cases i j); [done|]. rewrite Hlow in Hbj by lia. done.
    + split; [done|]. intros j Hj. rewrite Hbits, Hl by lia. apply orb_true_r.
    + apply (mm_state_kframe s _ (set_used_frames _ (pmm s))), set_mask_only. lia.
    + intros j. unfold pmm_free. change (total_frames (pmm (bm_state _ _ _))) with (total_frames (pmm s)).
      split.
      * intros [Hj Hc]. rewrite Hbits in Hc by lia. apply orb_false_elim in Hc as [Hij Hc].
        apply bool_decide_eq_false in Hij. split; [by split|congruence].
      * intros [[Hj Hc] Hij]. split; [done|].
        rewrite Hbits, Hc, bool_decide_eq_false_2 by (congruence || lia). done.
  - intros s' Hex Hok' F. pose proof (cf_pmm _ _ F) as E.
    apply HQ0; [|  |done|by apply pmm_region_console|].
    + intros j [Hj Hbj]. by rewrite Hex in Hbj.
    + split; [by eapply console_pmm_wf|]. intros i Hi.
      rewrite (console_used_bit _ _ _ F) by lia. by apply Hl.
    + intros j. unfold pmm_free. rewrite E.
      split; intros [Hj Hc]; (split; [done|]); [rewrite <- Hc; symmetry|rewrite <- Hc];
        apply (console_used_bit _ _ _ F); lia.
Qed.
