(* ===== verification/PmmProps.v ===== *)
(** * The properties of the physical memory manager

    What [pmm_init] makes available, that reservation and allocation never give
    a frame out twice, that release undoes allocation, and where the code falls
    short: unchecked releases, regions at or above 4 GB, regions that end in the
    last page. *)

From Stdlib Require Import ZArith Lia String.
From stdpp Require Import base gmap list.
From S2P Require Import Prelude RingBuf Format Descriptors Machine State Vga Printk MemoryMap Frame Pmm.

(** ** A concrete machine for the examples: 264 frames below the top, the first
    256 used and the next four free *)

Definition put_bytes_at (m : memory) (a : Z) (l : list Z) : memory :=
  foldl (λ m p, wr8 m (a + p.1) p.2) m (zip (zrange 0 (length l)) l).

Definition small_bitmap : memory :=
  put_bytes_at ∅ BITMAP (replicate 32 0xFF ++ [0xF0; 0xFF]).

Definition small_pmm : pmm_vars := PmmVars BITMAP 260 256 264.

Definition small_machine : kstate := set_pmm small_pmm (boot_state small_bitmap symbols_zero).

Lemma small_machine_console : console_ok small_machine.
Proof. split; [apply ringbuf_zero_wf|by vm_compute..|]. by left. Qed.

Lemma small_machine_wf : pmm_wf small_machine.
Proof.
  split; [|cbn; lia|cbn; lia|vm_compute; reflexivity].
  split; [done|cbn; lia|by left].
Qed.

(** ** Allocation *)

(** C7: allocation takes the lowest free frame and nothing else.  From every
    well-formed state, [pmm_alloc_frame] returns.  Either it returns the address
    of a frame between 1 and [total_frames] that was free while all frames below
    it were used; exactly that bit has changed, [used_frames] is one more and
    the bookkeeping invariant holds again; the whole state is as before but for
    this counter and the one byte of the bitmap that holds the bit.  Or all those
    frames were used, it returns NULL, and only a message has been printed. *)
Theorem pmm_alloc_frame_lowest s :
  pmm_wf s → console_ok s →
  (∃ i s', pmm_alloc_frame s = Ok (4096 * i) s' ∧ 1 <= i < total_frames (pmm s) ∧
     used_bit s i = false ∧ (∀ j, 1 <= j < i → used_bit s j = true) ∧
     (∀ j, 0 <= j → used_bit s' j = bool_decide (i = j) || used_bit s j) ∧
     used_frames (pmm s') = used_frames (pmm s) + 1 ∧ pmm_wf s' ∧ console_ok s' ∧
     (∀ a, a ≠ frame_bitmap (pmm s) + i / 8 → rd8 (mem (hw s')) a = rd8 (mem (hw s)) a) ∧
     s' = set_pmm (set_used_frames (used_frames (pmm s) + 1) (pmm s))
            (on_hw (set_mem (λ _, mem (hw s'))) s)) ∨
  (∃ s', pmm_alloc_frame s = Ok 0 s' ∧
     (∀ j, 1 <= j < total_frames (pmm s) → used_bit s j = true) ∧
     pmm_wf s' ∧ console_ok s' ∧ console_frame s s').
Proof.
  intros Hwf Hok.
  destruct (wp_run pmm_alloc_frame (λ p s',
    (∃ i, p = 4096 * i ∧ took_frame s i s' ∧ pmm_wf s' ∧ console_ok s') ∨
    (p = 0 ∧ exhausted s ∧ console_ok s' ∧ console_frame s s')) s)
    as (p & s' & E & [(i & -> & (? & ? & ? & ? & ->) & ? & ?)|(-> & ? & ? & F)]).
  - apply wp_pmm_alloc_frame; [done..| |].
    + intros i s' ???. left. by exists i.
    + intros s' ???. by right.
  - left. exists i. eexists. split; [exact E|]. do 7 (split; [done|]). split; [|done].
    intros a Ha. rewrite (pr_bitmap _ (pw_ready _ Hwf)) in Ha. cbn. unfold set_mask.
    apply rd8_wr8_ne. congruence.
  - right. exists s'. pose proof (console_pmm_wf s s' F Hwf). by split_and!.
Qed.

Lemma pmm_alloc_frame_lowest_witness :
  (∃ i s', pmm_alloc_frame small_machine = Ok (4096 * i) s' ∧ 1 <= i < 260 ∧
     used_bit small_machine i = false ∧ (∀ j, 1 <= j < i → used_bit small_machine j = true) ∧
     (∀ j, 0 <= j → used_bit s' j = bool_decide (i = j) || used_bit small_machine j) ∧
     used_frames (pmm s') = 256 + 1 ∧ pmm_wf s' ∧ console_ok s' ∧
     (∀ a, a ≠ BITMAP + i / 8 → rd8 (mem (hw s')) a = rd8 (mem (hw small_machine)) a) ∧
     s' = set_pmm (set_used_frames (256 + 1) small_pmm)
            (on_hw (set_mem (λ _, mem (hw s'))) small_machine)) ∨
  (∃ s', pmm_alloc_frame small_machine = Ok 0 s' ∧
     (∀ j, 1 <= j < 260 → used_bit small_machine j = true) ∧
     pmm_wf s' ∧ console_ok s' ∧ console_frame small_machine s').
Proof.
  exact (pmm_alloc_frame_lowest small_machine small_machine_wf small_machine_console).
Defined.

(** No frame is given out twice.  Any number of successive calls of
    [pmm_alloc_frame] returns the free frames of the start state in increasing
    order, each once, and then NULL for ever; the invariant holds throughout. *)
Theorem pmm_alloc_frames_distinct n s :
  pmm_wf s → console_ok s →
  ∃ s', alloc_frames n s = Ok (take n (free_addresses s ++ replicate n 0)) s' ∧
    NoDup (free_addresses s) ∧ pmm_wf s' ∧ console_ok s'.
Proof.
  intros Hwf Hok. destruct (wp_run _ _ _ (wp_alloc_frames n s Hwf Hok)) as (ps & s' & E & ? & ? & ->).
  exists s'. split_and!; [done| |done|done].
  apply NoDup_fmap_2; [intros x y; lia|]. apply NoDup_filter, NoDup_zrange.
Qed.

Lemma pmm_alloc_frames_distinct_witness :
  ∃ s', alloc_frames 6 small_machine = Ok (take 6 (free_addresses small_machine ++ replicate 6 0)) s' ∧
    NoDup (free_addresses small_machine) ∧ pmm_wf s' ∧ console_ok s'.
Proof.
  exact (pmm_alloc_frames_distinct 6 small_machine small_machine_wf small_machine_console).
Defined.

Example small_machine_allocs :
  take 6 (free_addresses small_machine ++ replicate 6 0)
  = [0x100000; 0x101000; 0x102000; 0x103000; 0; 0].
Proof. vm_compute. reflexivity. Qed.

(** ** Release *)

(** The state after releasing the frame just taken. *)
Definition released (s : kstate) (i : Z) : kstate :=
  bm_state s (clear_mask (mem (hw s)) i) (u32 (used_frames (pmm s) - 1)).

Lemma released_bits s i s1 :
  pmm_wf s → took_frame s i s1 →
  pmm (released s1 i) = pmm s ∧ ∀ j, 0 <= j → used_bit (released s1 i) j = used_bit s j.
Proof.
  intros Hwf (Hr & Hb & _ & Hbits & Es1). pose proof Hwf as [[_ Hu _] _ _ _]. split.
  - rewrite Es1. unfold released. cbn. rewrite u32_small, Z.add_simpl_r by lia. by destruct (pmm s).
  - intros j Hj. unfold released, used_bit at 1. cbn. rewrite bit_at_clear by lia.
    case_decide; [by subst|]. change (bit_at (mem (hw s1)) j) with (used_bit s1 j).
    rewrite Hbits by done. by rewrite bool_decide_eq_false_2.
Qed.

Lemma released_wf s i s1 :
  pmm_wf s → took_frame s i s1 → pmm_wf s1 → console_ok s1 →
  pmm_wf (released s1 i) ∧ console_ok (released s1 i).
Proof.
  intros Hwf (Hr & Hb & _ & Hbits & Es1) Hwf1 Hok1. pose proof Hwf as [[_ Hu _] Hmax Ht _].
  assert (total_frames (pmm s1) = total_frames (pmm s) ∧
    max_frame_idx (pmm s1) = max_frame_idx (pmm s) ∧
    used_frames (pmm s1) = used_frames (pmm s) + 1) as (Et & Em & Eu) by by rewrite Es1.
  pose proof (used_frames_bound s1 Hwf1). unfold released. rewrite u32_small by lia. split.
  - apply free_wf; [done|lia| |lia]. rewrite Hbits by lia. by rewrite bool_decide_eq_true_2.
  - apply bm_state_console; [done|]. apply clear_mask_only. lia.
Qed.

(** Allocation is a function of the bits and of the count. *)
Lemma took_frame_same s i s1 s2 j s3 :
  took_frame s i s1 → pmm s2 = pmm s → (∀ k, 0 <= k → used_bit s2 k = used_bit s k) →
  took_frame s2 j s3 → j = i.
Proof.
  intros (Hr & Hb & Hlow & _) Hp Hbits (Hj & Hbj & Hlj & _).
  rewrite Hbits in Hbj by lia. destruct (Z.lt_trichotomy j i) as [|[|]]; [|done|].
  - rewrite Hlow in Hbj by lia. done.
  - pose proof (Hlj i ltac:(lia)) as Hc. rewrite Hbits in Hc by lia. congruence.
Qed.

(** C40: release undoes allocation.  Freeing the frame that [pmm_alloc_frame]
    just returned restores every bit of the bitmap and all the statics of the
    manager, so that the next call returns the same frame again. *)
Theorem pmm_free_undoes_alloc s i s1 :
  pmm_wf s → console_ok s → pmm_alloc_frame s = Ok (4096 * i) s1 → i ≠ 0 →
  ∃ s2, pmm_free_frame (4096 * i) s1 = Ok tt s2 ∧ pmm s2 = pmm s ∧
    (∀ j, 0 <= j → used_bit s2 j = used_bit s j) ∧ pmm_wf s2 ∧
    ∃ s3, pmm_alloc_frame s2 = Ok (4096 * i) s3.
Proof.
  intros Hwf Hok E Hi.
  assert (wp pmm_alloc_frame (λ p s', p = 4096 * i → took_frame s i s' ∧ pmm_wf s' ∧ console_ok s')
    no_halt s) as Hwp.
  { apply wp_pmm_alloc_frame; [done..| |].
    - intros j s' Htk ?? Hp. assert (j = i) as -> by lia. done.
    - intros s' _ _ _ Hp. lia. }
  unfold wp in Hwp. rewrite E in Hwp. destruct (Hwp eq_refl) as (Htk & Hwf1 & Hok1). clear Hwp E.
  destruct (released_bits s i s1 Hwf Htk) as [Hp Hbits].
  destruct (released_wf s i s1 Hwf Htk Hwf1 Hok1) as [Hwf2 Hok2].
  pose proof Htk as (Hr & Hb & _ & _ & Es1). pose proof Hwf as [_ Hmax Ht _].
  exists (released s1 i). split_and!; [|done..|].
  - destruct (wp_run (pmm_free_frame (4096 * i)) (λ _ s', s' = released s1 i) s1)
      as ([] & s' & -> & ->); [|done].
    apply wp_pmm_free_frame; [done..|lia|done|]. rewrite Es1. cbn. lia.
  - destruct (wp_run pmm_alloc_frame (λ p s', p = 4096 * i) (released s1 i))
      as (p & s3 & E3 & ->); [|by exists s3].
    apply wp_pmm_alloc_frame; [done..| |].
    + intros j s' Htk2 _ _. f_equal. by eapply took_frame_same.
    + intros s' Hex _ _. specialize (Hex i). rewrite Hp, Hbits, Hb in Hex by lia.
      by specialize (Hex Hr).
Qed.

Lemma pmm_free_undoes_alloc_witness :
  ∃ s1 s2, pmm_free_frame (4096 * 256) s1 = Ok tt s2 ∧ pmm s2 = small_pmm ∧
    (∀ j, 0 <= j → used_bit s2 j = used_bit small_machine j) ∧ pmm_wf s2 ∧
    ∃ s3, pmm_alloc_frame s2 = Ok (4096 * 256) s3.
Proof.
  destruct (pmm_alloc_frame small_machine) as [p s1| | |] eqn:E; try (vm_compute in E; discriminate).
  assert (p = 4096 * 256) as ->.
  { apply (f_equal (λ o, match o with Ok p _ => p | _ => 0 end)) in E. vm_compute in E. symmetry. exact E. }
  exists s1.
  apply (pmm_free_undoes_alloc small_machine 256 s1 small_machine_wf small_machine_console E).
  discriminate.
Defined.

(** Release is not checked.  [pmm_free_frame] does not look at the bit it
    clears: releasing a frame that is already free, or one that was reserved
    and never allocated, also returns, with [used_frames] one less (wrapping
    from 0 to 2^32 - 1).  A double release breaks the bookkeeping invariant, and
    a reserved frame becomes available. *)
Theorem pmm_free_frame_unchecked s i :
  pmm_wf s → console_ok s → 1 <= i < total_frames (pmm s) →
  ∃ s', pmm_free_frame (4096 * i) s = Ok tt s' ∧ used_bit s' i = false ∧
    used_frames (pmm s') = u32 (used_frames (pmm s) - 1) ∧
    (used_bit s i = false → ¬ pmm_wf s').
Proof.
  intros Hwf Hok Hi. pose proof Hwf as [[_ Hu _] Hmax Ht Hc].
  destruct (wp_run (pmm_free_frame (4096 * i)) (λ _ s', s' = released s i) s)
    as ([] & s' & E & ->).
  { apply wp_pmm_free_frame; [done..|lia|done|lia]. }
  exists (released s i). split_and!; [done| |done|].
  - unfold used_bit. cbn. rewrite bit_at_clear by lia. by case_decide.
  - intros Hb Hwf'. pose proof (used_frames_bound _ Hwf') as Hle. destruct Hwf' as [_ _ _ Hc'].
    unfold released in *. cbn in *.
    rewrite (clear_frames_ext (mem (hw s)) (clear_mask _ _)) in Hc'.
    + destruct (decide (used_frames (pmm s) = 0)) as [E0|].
      * rewrite E0 in Hle. change (u32 (0 - 1)) with 4294967295 in Hle. lia.
      * rewrite u32_small in Hc' by lia. lia.
    + intros j Hj. rewrite bit_at_clear by lia. case_decide; [by subst|done].
Qed.

Lemma pmm_free_frame_unchecked_witness :
  ∃ s', pmm_free_frame (4096 * 257) small_machine = Ok tt s' ∧ used_bit s' 257 = false ∧
    used_frames (pmm s') = u32 (256 - 1) ∧ (used_bit small_machine 257 = false → ¬ pmm_wf s').
Proof.
  apply (pmm_free_frame_unchecked small_machine 257 small_machine_wf small_machine_console).
  cbn. lia.
Defined.

(** ** Reservation *)

(** Marking a range is exact and idempotent.  For a range whose end leaves
    room for rounding up, [pmm_set_frame_bitmap] sets exactly the bits of the
    frames the range touches, adds to [used_frames] the number of those that
    were clear, and changes nothing else; repeating it changes nothing.  When
    the end lies in the last page the rounding wraps and nothing is marked. *)
Theorem pmm_set_frame_bitmap_exact a b s :
  pmm_ready s → 0 <= a < 2 ^ 32 →
  (0 <= b <= 0xFFFFF000 →
   ∃ s', pmm_set_frame_bitmap a b s = Ok tt s' ∧
     (∀ i, 0 <= i → used_bit s' i = used_bit s i || in_range i (a, b)) ∧
     pmm s' = set_used_frames (u32 (used_frames (pmm s) +
       zlen (clear_frames (mem (hw s)) (a / 4096) (frame_count a b)))) (pmm s) ∧
     kframe in_bitmap s s' ∧
     ∃ s'', pmm_set_frame_bitmap a b s' = Ok tt s'' ∧ pmm s'' = pmm s' ∧
       ∀ i, 0 <= i → used_bit s'' i = used_bit s' i) ∧
  (0xFFFFF000 < b < 2 ^ 32 → pmm_set_frame_bitmap a b s = Ok tt s).
Proof.
  intros Hr Ha. split.
  - intros Hb.
    assert (∀ s, pmm_ready s → ∃ s', pmm_set_frame_bitmap a b s = Ok tt s' ∧
      mark_inv a s (frame_count a b) s') as Hrun.
    { intros s0 Hr0. destruct (wp_run (pmm_set_frame_bitmap a b)
        (λ _ s', mark_inv a s0 (frame_count a b) s') s0) as ([] & s' & E & Hs').
      - by apply wp_pmm_set_frame_bitmap.
      - by exists s'. }
    assert (∀ i, 0 <= i → bool_decide (first_frame a <= i < first_frame a + frame_count a b)
      = in_range i (a, b)) as Hin.
    { intros i Hi. unfold in_range. apply bool_decide_ext. unfold first_frame, frame_count. simpl. lia. }
    destruct (Hrun s Hr) as (s' & E & Hs'). pose proof Hs' as (m' & Es' & Hm & Hbits).
    assert (pmm_ready s') as Hr' by (rewrite Es'; by apply bm_state_ready).
    destruct (Hrun s' Hr') as (s'' & E' & m'' & Es'' & Hm' & Hbits').
    assert (clear_frames (mem (hw s')) (first_frame a) (frame_count a b) = []) as Hnone.
    { apply clear_frames_none. intros i Hi. rewrite Es'. cbn.
      rewrite Hbits, bool_decide_eq_true_2 by (done || unfold first_frame in *; zify_mod).
      apply orb_true_r. }
    exists s'. split_and!; [done| | | |exists s''; split_and!; [done| |]].
    + intros i Hi. rewrite <- Hin by done. rewrite Es'. by apply Hbits.
    + by rewrite Es'.
    + rewrite Es'. split; try done. by exists [].
    + rewrite Es'', Hnone. change (zlen []) with 0. cbn. rewrite Z.add_0_r, u32_small by apply Hr'.
      by destruct (pmm s').
    + intros i Hi. rewrite Es''. unfold used_bit at 1. cbn. rewrite Hbits', Hin by done.
      unfold used_bit. rewrite Es'. cbn. rewrite Hbits, Hin by done.
      by rewrite <- orb_assoc, orb_diag.
  - intros Hb. unfold pmm_set_frame_bitmap. rewrite !land_lnot_page.
    assert (u32 (b + PAGE_SIZE - 1) / 4096 * 4096 = 0) as -> by (unfold PAGE_SIZE; zify_mod).
    destruct (wp_run (addr_loop ADDR_FUEL (a / 4096 * 4096) 0 (λ addr,
      let frame_index := FRAME_INDEX addr in
      used ← BITMAP_GET frame_index;
      if negb used then BITMAP_SET frame_index;; incr_used else mret tt)) (λ _ s', s' = s) s)
      as ([] & s' & E & ->); [|exact E].
    apply (wp_addr_loop _ _ _ (λ _ s', s' = s)); [zify_mod|lia|done| |by intros ? ->].
    unfold pages. intros j s' Hj. zify_mod.
Qed.

Lemma pmm_set_frame_bitmap_exact_witness :
  (0 <= 0x102800 <= 0xFFFFF000 →
   ∃ s', pmm_set_frame_bitmap 0x101800 0x102800 small_machine = Ok tt s' ∧
     (∀ i, 0 <= i → used_bit s' i = used_bit small_machine i || in_range i (0x101800, 0x102800)) ∧
     pmm s' = set_used_frames (u32 (256 +
       zlen (clear_frames (mem (hw small_machine)) (0x101800 / 4096)
         (frame_count 0x101800 0x102800)))) small_pmm ∧
     kframe in_bitmap small_machine s' ∧
     ∃ s'', pmm_set_frame_bitmap 0x101800 0x102800 s' = Ok tt s'' ∧ pmm s'' = pmm s' ∧
       ∀ i, 0 <= i → used_bit s'' i = used_bit s' i) ∧
  (0xFFFFF000 < 0x102800 < 2 ^ 32 → pmm_set_frame_bitmap 0x101800 0x102800 small_machine
     = Ok tt small_machine).
Proof.
  apply (pmm_set_frame_bitmap_exact 0x101800 0x102800 small_machine).
  - exact (pw_ready _ small_machine_wf).
  - lia.
Defined.

(** C25: reserved frames are never given out.  From a well-formed state whose
    bitmap covers the ranges that belong to a reservation type (the first
    megabyte, the kernel image, the bitmap, the page tables),
    [pmm_reserve_memory_region] returns with exactly their frames marked in
    addition and the invariant kept, and no address that any number of later
    calls of [pmm_alloc_frame] returns lies in a frame of these ranges. *)
Theorem pmm_reserve_protects t s n :
  pmm_wf s → console_ok s →
  Forall (range_ok (max_frame_idx (pmm s))) (reserve_ranges t s) →
  ∃ s', pmm_reserve_memory_region t s = Ok tt s' ∧ reserved s (reserve_ranges t s) s' ∧
    ∃ ps s'', alloc_frames n s' = Ok ps s'' ∧
      ∀ p, p ∈ ps → p ≠ 0 → existsb (in_range (p / 4096)) (reserve_ranges t s) = false.
Proof.
  intros Hwf Hok Hall.
  destruct (wp_run (pmm_reserve_memory_region t) (λ _ s', reserved s (reserve_ranges t s) s') s)
    as ([] & s' & E & Hs'); [by apply wp_pmm_reserve|].
  exists s'. split_and!; [done..|]. destruct Hs' as [Hwf' Hok' _ Et Em Hbits].
  destruct (wp_run _ _ _ (wp_alloc_frames n s' Hwf' Hok')) as (ps & s'' & E' & _ & _ & ->).
  eexists _, s''. split; [exact E'|]. intros p Hp Hp0.
  assert (p ∈ free_addresses s' ++ replicate n 0) as Hin by (by eapply (subseteq_take n)).
  apply elem_of_app in Hin as [Hin|Hin].
  2: { apply elem_of_replicate in Hin as [-> _]. done. }
  apply list_elem_of_fmap in Hin as (i & -> & Hi). apply elem_of_clear_frames in Hi as [Hi Hb].
  replace (4096 * i / 4096) with i by zify_mod. pose proof Hwf' as [_ ? ? _].
  change (bit_at (mem (hw s')) i) with (used_bit s' i) in Hb.
  rewrite Hbits in Hb by lia. by apply orb_false_elim in Hb as [_ Hb].
Qed.

Lemma pmm_reserve_protects_witness :
  ∃ s', pmm_reserve_memory_region RESERVED_TYPE_PAGE_TABLE small_machine = Ok tt s' ∧
    reserved small_machine (reserve_ranges RESERVED_TYPE_PAGE_TABLE small_machine) s' ∧
    ∃ ps s'', alloc_frames 3 s' = Ok ps s'' ∧
      ∀ p, p ∈ ps → p ≠ 0 →
        existsb (in_range (p / 4096)) (reserve_ranges RESERVED_TYPE_PAGE_TABLE small_machine) = false.
Proof.
  apply (pmm_reserve_protects RESERVED_TYPE_PAGE_TABLE small_machine 3 small_machine_wf
    small_machine_console).
  repeat constructor; vm_compute; discriminate.
Defined.

(** ** Initialisation *)

(** C24: initialisation makes exactly the available frames free.  Whenever the
    console works and every stored region, cut to 32 bits, ends at or below
    [0xFFFFF000], [pmm_init] returns; the bitmap lies at [0x90000], the clear
    bits below its end are exactly the frames the regions visit below the
    highest index, [total_frames] is the number of visits, nothing outside the
    bitmap and the console has changed; and when no frame is visited twice the
    bookkeeping invariant holds. *)
Theorem pmm_init_frees_available s :
  init_ok s →
  ∃ s', pmm_init s = Ok tt s' ∧
    pmm s' = PmmVars BITMAP (u32 (zlen (init_frames s))) 0 (top s) ∧
    (∀ i, 0 <= i < 8 * (top s / 8 + 1) →
       used_bit s' i = negb (bool_decide (i ∈ init_frames s))) ∧
    console_ok s' ∧ kframe pmm_region s s' ∧ (NoDup (init_frames s) → pmm_wf s').
Proof.
  intros Hio. destruct (wp_run pmm_init (λ _ s', init_post s s' ∧ console_ok s' ∧
    kframe pmm_region s s') s) as ([] & s' & E & Hp & Hok & F); [by apply wp_pmm_init|].
  exists s'. pose proof (init_post_wf s s' Hio Hp Hok). destruct Hp. by split_and!.
Qed.

(** The kernel after [parse_and_print_e820_map] on the machine of the boot log. *)
Definition boot_regions : memmap_vars :=
  MemmapVars 2 (Region 0 0x9FC00 1 :: Region 0x100000 0x7EE0000 1 :: replicate 30 (Region 0 0 0)).

Definition boot_parsed : kstate := set_memmap boot_regions (boot_state boot_e820 symbols_zero).

Lemma boot_parsed_ok : init_ok boot_parsed.
Proof.
  split; [split; [apply ringbuf_zero_wf|by vm_compute..|by left]| | |].
  - split; vm_compute; split; discriminate || reflexivity.
  - cbn. lia.
  - repeat constructor; vm_compute; discriminate.
Qed.

Lemma pmm_init_frees_available_witness :
  ∃ s', pmm_init boot_parsed = Ok tt s' ∧
    pmm s' = PmmVars BITMAP (u32 (zlen (init_frames boot_parsed))) 0 (top boot_parsed) ∧
    (∀ i, 0 <= i < 8 * (top boot_parsed / 8 + 1) →
       used_bit s' i = negb (bool_decide (i ∈ init_frames boot_parsed))) ∧
    console_ok s' ∧ kframe pmm_region boot_parsed s' ∧
    (NoDup (init_frames boot_parsed) → pmm_wf s').
Proof. exact (pmm_init_frees_available boot_parsed boot_parsed_ok). Defined.

(** The numbers of the boot log: 32640 usable frames below index 32736, so that
    96 frames are never allocated. *)
Example boot_parsed_frames :
  (zlen (init_frames boot_parsed), top boot_parsed) = (32640, 32736).
Proof. vm_compute. reflexivity. Qed.

(** Memory above 4 GB is mistaken for memory below.  The 64-bit base of a
    region is cut to 32 bits: when the only available region starts at a
    multiple of 4 GB, [pmm_init] marks the frames from 0 up to its length free,
    none of which the memory map lists. *)
Theorem pmm_init_truncates_high_regions k len s :
  init_ok s → regions (memmap s) = [Region (2 ^ 32 * k) len E820_TYPE_AVAILABLE] →
  0 <= len < 2 ^ 32 → max_frame_idx (pmm s) = 0 →
  ∃ s', pmm_init s = Ok tt s' ∧ ∀ i, 0 <= i < len / 4096 → used_bit s' i = false.
Proof.
  intros Hio Hrs Hlen Hmax.
  destruct (wp_run pmm_init (λ _ s', init_post s s') s) as ([] & s' & E & [_ Hb]);
    [by apply wp_pmm_init|].
  exists s'. split; [done|]. intros i Hi.
  assert (top s = len / 4096) as Htop.
  { unfold top, init_max, rs, region_end. rewrite Hrs, Hmax. cbn. zify_mod. }
  assert (i ∈ init_frames s) as Hin.
  { unfold init_frames, visited, rs. rewrite Hrs, Htop. simpl. rewrite app_nil_r.
    apply list_elem_of_filter. split; [lia|]. apply elem_of_zrange.
    unfold region_first, region_pages. cbn. zify_mod. }
  rewrite Hb by (rewrite Htop; zify_mod). by rewrite bool_decide_eq_true_2.
Qed.

(** A map whose only available region is one megabyte at 4 GB. *)
Definition high_machine : kstate :=
  set_memmap (MemmapVars 1 (Region (2 ^ 32 * 1) 0x100000 1 :: replicate 31 (Region 0 0 0)))
    (boot_state ∅ symbols_zero).

Lemma pmm_init_truncates_high_regions_witness :
  ∃ s', pmm_init high_machine = Ok tt s' ∧ ∀ i, 0 <= i < 0x100000 / 4096 → used_bit s' i = false.
Proof.
  apply (pmm_init_truncates_high_regions 1 0x100000 high_machine).
  - split; [split; [apply ringbuf_zero_wf|by vm_compute..|by left]| | |].
    + split; vm_compute; split; discriminate || reflexivity.
    + cbn. lia.
    + repeat constructor; vm_compute; discriminate.
  - reflexivity.
  - lia.
  - reflexivity.
Defined.

(** The body of the loop over a region always returns. *)
Lemma free_region_frame_returns addr s :
  pmm_ready s → 0 <= max_frame_idx (pmm s) < 2 ^ 20 → 0 <= addr →
  ∃ s', free_region_frame addr s = Ok tt s' ∧ pmm_ready s' ∧
    max_frame_idx (pmm s') = max_frame_idx (pmm s).
Proof.
  intros Hr Hmax Ha.
  destruct (wp_run (free_region_frame addr) (λ _ s', pmm_ready s' ∧
    max_frame_idx (pmm s') = max_frame_idx (pmm s)) s) as ([] & s' & E & ? & ?); [|by exists s'].
  unfold free_region_frame. cbv zeta. do 2 wp_step.
  destruct (Z.ltb_spec (FRAME_INDEX addr) (max_frame_idx (pmm s))).
  - assert (0 <= FRAME_INDEX addr < 2 ^ 20) as Hi by (unfold FRAME_INDEX, PAGE_SIZE in *; zify_mod).
    wp_step. apply wp_bitmap_clear; [done|done|]. pmm_steps. destruct Hr.
    split; [|done]. split; [done|done|]. by apply low_mapped_bitmap, clear_mask_only.
  - by wp_step.
Qed.

(** The address wraps around before it reaches the end. *)
Lemma free_region_wraps fuel addr end_ s :
  pmm_ready s → 0 <= max_frame_idx (pmm s) < 2 ^ 20 →
  0 <= addr < 2 ^ 32 → 0xFFFFF000 + addr mod 4096 < end_ →
  addr_loop fuel addr end_ free_region_frame s = Undef UbDiverge.
Proof.
  intros Hr Hmax Ha He. revert addr s Hr Hmax Ha He.
  induction fuel as [|fuel IH]; intros addr s Hr Hmax Ha He; [done|].
  simpl. destruct (Z.ltb_spec addr end_) as [|Hge].
  2: { exfalso. clear -Ha He Hge. zify_mod. }
  destruct (free_region_frame_returns addr s) as (s' & E & Hr' & Em); [done|done|lia|].
  unfold mbind, M_bind. rewrite E. unfold PAGE_SIZE. apply IH; [done|lia|apply u32_range|].
  assert (u32 (addr + 4096) mod 4096 = addr mod 4096) as -> by (clear; zify_mod). done.
Qed.

(** It reaches the end. *)
Lemma free_region_ends fuel addr end_ s :
  pmm_ready s → 0 <= max_frame_idx (pmm s) < 2 ^ 20 →
  0 <= addr < 2 ^ 32 → end_ <= 0xFFFFF000 + addr mod 4096 →
  pages addr end_ < Z.of_nat fuel →
  ∃ s', addr_loop fuel addr end_ free_region_frame s = Ok tt s'.
Proof.
  intros Hr Hmax Ha He Hf. revert addr s Hr Hmax Ha He Hf.
  induction fuel as [|fuel IH]; intros addr s Hr Hmax Ha He Hf; [unfold pages in Hf; lia|].
  simpl. destruct (Z.ltb_spec addr end_) as [Hlt|]; [|by exists s].
  destruct (free_region_frame_returns addr s) as (s' & E & Hr' & Em); [done|done|lia|].
  unfold mbind, M_bind. rewrite E.
  assert (addr + 4096 < 2 ^ 32) as Hno by (clear -Ha He Hlt; zify_mod).
  assert (u32 (addr + PAGE_SIZE) = addr + 4096) as -> by (apply u32_small; unfold PAGE_SIZE; lia).
  apply IH; [done|lia|lia| |].
  - assert ((addr + 4096) mod 4096 = addr mod 4096) as -> by (clear; zify_mod). done.
  - unfold pages in *. clear -Hf Hlt. zify_mod.
Qed.

(** C38: a region that ends in the last page hangs the kernel.  The loop of
    [pmm_init] over a region counts with a 32-bit address in steps of a page:
    when base plus length lies above the last address it can reach, [0xFFFFF000]
    plus the base's offset in its page, the address wraps around before it
    reaches the end and with any amount of fuel the loop is still running; for
    every other region the loop returns. *)
Theorem free_region_loop_diverges addr end_ s :
  pmm_ready s → 0 <= max_frame_idx (pmm s) < 2 ^ 20 →
  0 <= addr < 2 ^ 32 → 0 <= end_ < 2 ^ 32 →
  if decide (0xFFFFF000 + addr mod 4096 < end_)
  then ∀ fuel, addr_loop fuel addr end_ free_region_frame s = Undef UbDiverge
  else ∃ s', addr_loop ADDR_FUEL addr end_ free_region_frame s = Ok tt s'.
Proof.
  intros Hr Hmax Ha He. case_decide as Hw.
  - intros fuel. by apply free_region_wraps.
  - apply free_region_ends; [done..|lia|]. unfold ADDR_FUEL, pages. clear -Ha He. zify_mod.
Qed.

Lemma free_region_loop_diverges_witness :
  if decide (0xFFFFF000 + 0xFFFC0000 mod 4096 < 0xFFFC0000 + 0x3FFFF)
  then ∀ fuel, addr_loop fuel 0xFFFC0000 (0xFFFC0000 + 0x3FFFF) free_region_frame small_machine
         = Undef UbDiverge
  else ∃ s', addr_loop ADDR_FUEL 0xFFFC0000 (0xFFFC0000 + 0x3FFFF) free_region_frame small_machine
         = Ok tt s'.
Proof.
  apply free_region_loop_diverges.
  - exact (pw_ready _ small_machine_wf).
  - cbn. lia.
  - lia.
  - lia.
Defined.
