(* ===== verification/PmmSpec.v ===== *)
(** * The physical memory manager as its clients see it

    A pool of frames: some free, some owned by clients.  [pool_step] says what
    each operation of [pmm.c] does to the pool and what it returns, and when a
    call is a misuse.  [pmm.c] implements the pool: every sequence of calls that
    is no misuse gives the results of the pool.  What no such sequence reaches are
    the frames above the count that [pmm_init] makes. *)

From Stdlib Require Import ZArith Lia String.
From stdpp Require Import base gmap list.
From S2P Require Import Prelude RingBuf Format Descriptors Machine State Vga Printk MemoryMap Frame Pmm PmmProps.

(** ** The pool *)

Inductive pmm_op :=
  | OpAlloc
  | OpFree (addr : Z)
  | OpMark (start_address end_address : Z)
  | OpReserve (reserved_type : Z).

Record pool := Pool {
  p_free : gset Z;
  p_owned : gset Z;
  p_total : Z;
  p_max : Z;
  p_ranges : Z → list (Z * Z);
}.

(** The lowest free frame that may be given out. *)
Definition first_free (p : pool) : option Z :=
  head (filter (λ i, i ∈ p_free p) (zrange 1 (Z.to_nat (p_total p - 1)))).

Definition take_frame (i : Z) (p : pool) : pool :=
  Pool (p_free p ∖ {[ i ]}) ({[ i ]} ∪ p_owned p) (p_total p) (p_max p) (p_ranges p).

Definition give_frame (i : Z) (p : pool) : pool :=
  Pool ({[ i ]} ∪ p_free p) (p_owned p ∖ {[ i ]}) (p_total p) (p_max p) (p_ranges p).

Definition withdraw (l : list (Z * Z)) (p : pool) : pool :=
  Pool (filter (λ i, existsb (in_range i) l = false) (p_free p)) (p_owned p) (p_total p) (p_max p)
    (p_ranges p).

#[global] Instance range_ok_dec max r : Decision (range_ok max r).
Proof. unfold range_ok. apply _. Defined.

(** A call and its result; [None] where the caller frees what it does not own
    or marks what the bitmap does not cover. *)
Definition pool_step (p : pool) (o : pmm_op) : option (Z * pool) :=
  match o with
  | OpAlloc =>
      match first_free p with
      | Some i => Some (4096 * i, take_frame i p)
      | None => Some (0, p)
      end
  | OpFree a =>
      if decide (a mod 4096 = 0 ∧ a / 4096 ∈ p_owned p) then Some (0, give_frame (a / 4096) p) else None
  | OpMark a b => if decide (range_ok (p_max p) (a, b)) then Some (0, withdraw [(a, b)] p) else None
  | OpReserve t =>
      if decide (Forall (range_ok (p_max p)) (p_ranges p t)) then Some (0, withdraw (p_ranges p t) p) else None
  end.

Fixpoint pool_run (p : pool) (l : list pmm_op) : option (list Z * pool) :=
  match l with
  | [] => Some ([], p)
  | o :: l =>
      '(r, p) ← pool_step p o;
      '(rs, p) ← pool_run p l;
      Some (r :: rs, p)
  end.

(** ** The code *)

Definition pmm_call (o : pmm_op) : M Z :=
  match o with
  | OpAlloc => pmm_alloc_frame
  | OpFree a => pmm_free_frame a;; mret 0
  | OpMark a b => pmm_set_frame_bitmap a b;; mret 0
  | OpReserve t => pmm_reserve_memory_region t;; mret 0
  end.

Fixpoint pmm_calls (l : list pmm_op) : M (list Z) :=
  match l with
  | [] => mret []
  | o :: l => r ← pmm_call o; rs ← pmm_calls l; mret (r :: rs)
  end.

(** ** The relation between the two *)

Record represents (s : kstate) (p : pool) : Prop := {
  re_wf : pmm_wf s;
  re_console : console_ok s;
  re_total : p_total p = total_frames (pmm s);
  re_max : p_max p = max_frame_idx (pmm s);
  re_ranges : ∀ t, p_ranges p t = reserve_ranges t s;
  re_free : ∀ i, i ∈ p_free p ↔ 0 <= i < max_frame_idx (pmm s) ∧ used_bit s i = false;
  re_owned : ∀ i, i ∈ p_owned p → 1 <= i < total_frames (pmm s) ∧ i ∉ p_free p;
  re_count : Z.of_nat (size (p_owned p)) <= used_frames (pmm s);
}.

(** The pool of a state nobody owns a frame of yet. *)
Definition pool_of (s : kstate) : pool :=
  Pool (list_to_set (clear_frames (mem (hw s)) 0 (max_frame_idx (pmm s)))) ∅
    (total_frames (pmm s)) (max_frame_idx (pmm s)) (λ t, reserve_ranges t s).

Lemma pool_of_represents s : pmm_wf s → console_ok s → represents s (pool_of s).
Proof.
  intros Hwf Hok. split; try done.
  - intros i. cbn. by rewrite elem_of_list_to_set, elem_of_clear_frames, Z.add_0_l.
  - cbn. rewrite size_empty. apply (pr_used _ (pw_ready _ Hwf)).
Qed.

(** The head of a filtered range is its least element. *)
Lemma head_filter_zrange (P : Z → Prop) `{∀ i, Decision (P i)} lo n :
  match head (filter P (zrange lo n)) with
  | Some i => lo <= i < lo + Z.of_nat n ∧ P i ∧ ∀ j, lo <= j < i → ¬ P j
  | None => ∀ j, lo <= j < lo + Z.of_nat n → ¬ P j
  end.
Proof.
  revert lo. induction n as [|n IH]; intros lo; [simpl; intros j Hj; lia|].
  cbn [zrange]. rewrite filter_cons. case_decide as Hlo.
  - simpl. split_and!; [lia|lia|done|]. intros j Hj. lia.
  - specialize (IH (lo + 1)). destruct (head _) as [i|].
    + destruct IH as (Hi & HP & Hlow). split_and!; [lia|lia|done|]. intros j Hj.
      destruct (decide (j = lo)) as [->|]; [done|]. apply Hlow. lia.
    + intros j Hj. destruct (decide (j = lo)) as [->|]; [done|]. apply IH. lia.
Qed.

Section steps.
Context (s : kstate) (p : pool) (Hrep : represents s p).
Implicit Types (Q : Z → kstate → Prop) (P : kstate → Prop).

Lemma rep_bit i : 0 <= i < max_frame_idx (pmm s) → i ∈ p_free p ↔ used_bit s i = false.
Proof using Hrep. intros Hi. rewrite (re_free _ _ Hrep). tauto. Qed.

Lemma rep_bounds : 0 <= total_frames (pmm s) <= max_frame_idx (pmm s) ∧ max_frame_idx (pmm s) < 2 ^ 20.
Proof using Hrep. pose proof (re_wf _ _ Hrep) as [_ Hm Ht _]. lia. Qed.

Lemma rep_first_free :
  match first_free p with
  | Some i => 1 <= i < total_frames (pmm s) ∧ used_bit s i = false ∧
      ∀ j, 1 <= j < i → used_bit s j = true
  | None => exhausted s
  end.
Proof using Hrep.
  pose proof rep_bounds as Hb.
  pose proof (head_filter_zrange (λ i, i ∈ p_free p) 1 (Z.to_nat (p_total p - 1))) as Hf.
  unfold first_free. rewrite (re_total _ _ Hrep) in *. destruct (head _) as [i|].
  - destruct Hf as (Hi & Hfree & Hlow). rewrite rep_bit in Hfree by lia. split_and!; [lia|lia|done|].
    intros j Hj. apply not_false_is_true. intros Hbit. apply (Hlow j); [done|]. apply rep_bit; [lia|done].
  - intros j Hj. apply not_false_is_true. intros Hbit. apply (Hf j); [lia|]. apply rep_bit; [lia|done].
Qed.

Lemma alloc_is_first_free i s' : took_frame s i s' → first_free p = Some i.
Proof using Hrep.
  intros (Hi & Hb & Hlow & _). pose proof rep_first_free as Hf. destruct (first_free p) as [k|].
  - destruct Hf as (Hk & Hbk & Hlk). f_equal. destruct (Z.lt_trichotomy i k) as [|[|]]; [|done|].
    + rewrite Hlk in Hb by lia. discriminate.
    + rewrite Hlow in Hbk by lia. discriminate.
  - rewrite Hf in Hb by done. discriminate.
Qed.

Lemma exhausted_no_first_free : exhausted s → first_free p = None.
Proof using Hrep.
  intros Hex. pose proof rep_first_free as Hf. destruct (first_free p) as [k|]; [|done].
  destruct Hf as (Hk & Hb & _). rewrite Hex in Hb by done. discriminate.
Qed.

Lemma rep_console s' : console_ok s' → console_frame s s' → represents s' p.
Proof using Hrep.
  intros Hok F. pose proof Hrep as [Hwf _ Ht Hm Hr Hf Ho Hc]. pose proof (cf_pmm _ _ F) as Ep.
  pose proof rep_bounds as Hb. split; rewrite ?Ep; try done.
  - by apply (console_pmm_wf s).
  - intros t. rewrite Hr. unfold reserve_ranges, kernel_ranges, bitmap_ranges.
    by rewrite Ep, (cf_syms _ _ F).
  - intros i. rewrite Hf. split; intros [Hi Hbit]; (split; [done|]);
      revert Hbit; rewrite (console_used_bit s s') by (done || lia); done.
Qed.

Lemma rep_take i s' :
  took_frame s i s' → pmm_wf s' → console_ok s' → represents s' (take_frame i p).
Proof using Hrep.
  intros (Hi & Hb & _ & Hbits & Es) Hwf' Hok'. pose proof Hrep as [Hwf _ Ht Hm Hr Hf Ho Hc].
  pose proof rep_bounds as Hbd.
  assert (i ∉ p_owned p) as Hno.
  { intros Hin. destruct (Ho i Hin) as [_ Hn]. apply Hn, rep_bit; [lia|done]. }
  split; try done; try (rewrite Es; done).
  - intros j. cbn. rewrite elem_of_difference, elem_of_singleton, Hf.
    replace (max_frame_idx (pmm s')) with (max_frame_idx (pmm s)) by (by rewrite Es).
    split; intros [Hj Hbj].
    + split; [apply Hj|]. rewrite Hbits by lia. rewrite bool_decide_eq_false_2 by congruence. apply Hj.
    + rewrite Hbits in Hbj by lia. apply orb_false_elim in Hbj as [Hij%bool_decide_eq_false Hbj].
      split; [done|congruence].
  - intros j. cbn. rewrite elem_of_union, elem_of_singleton, elem_of_difference, elem_of_singleton.
    replace (total_frames (pmm s')) with (total_frames (pmm s)) by (by rewrite Es).
    intros [->|Hj]; [split; [done|tauto]|]. destruct (Ho j Hj). split; [done|tauto].
  - cbn. rewrite size_union, size_singleton by by apply disjoint_singleton_l. rewrite Es. cbn. lia.
Qed.

Lemma rep_give i :
  i ∈ p_owned p →
  represents (released s i) (give_frame i p).
Proof using Hrep.
  intros Hin. pose proof Hrep as [Hwf Hok Ht Hm Hr Hf Ho Hc]. pose proof rep_bounds as Hbd.
  destruct (Ho i Hin) as [Hi Hnf]. pose proof (pr_used _ (pw_ready _ Hwf)) as Hu.
  assert (used_bit s i = true) as Hb.
  { apply not_false_is_true. intros Hb. apply Hnf, rep_bit; [lia|done]. }
  assert (size (p_owned p) = S (size (p_owned p ∖ {[ i ]}))) as Hsz.
  { rewrite (union_difference_L {[ i ]} (p_owned p)) at 1 by by apply singleton_subseteq_l.
    rewrite size_union, size_singleton; [done|]. apply disjoint_difference_r1. done. }
  assert (∀ j, 0 <= j → used_bit (released s i) j = if decide (i = j) then false else used_bit s j) as Hbits.
  { intros j Hj. unfold released, used_bit. cbn. by rewrite bit_at_clear by lia. }
  unfold released in *. rewrite (u32_small (used_frames (pmm s) - 1)) in * by lia.
  split; try done.
  - apply free_wf; [done|lia|done|lia].
  - apply bm_state_console; [done|]. apply clear_mask_only. lia.
  - intros j. cbn [give_frame p_free]. rewrite elem_of_union, elem_of_singleton, Hf.
    split.
    + intros [->|[Hj Hbj]]; (split; [cbn; lia|]); rewrite Hbits by lia; by case_decide.
    + intros [Hj Hbj]. cbn in Hj. rewrite Hbits in Hbj by lia.
      case_decide; [by left|by right].
  - intros j. cbn. rewrite elem_of_difference, elem_of_singleton, elem_of_union, elem_of_singleton.
    intros [Hj Hne]. destruct (Ho j Hj). tauto.
  - cbn. lia.
Qed.

Lemma rep_withdraw l s' : reserved s l s' → used_frames (pmm s) <= used_frames (pmm s') →
  represents s' (withdraw l p).
Proof using Hrep.
  intros [Hwf' Hok' F Et Em Hbits] Hle. pose proof Hrep as [Hwf Hok Ht Hm Hr Hf Ho Hc].
  pose proof rep_bounds as Hbd.
  split; rewrite ?Et, ?Em; try done.
  - intros t. cbn. rewrite Hr. unfold reserve_ranges, kernel_ranges, bitmap_ranges.
    rewrite (kf_syms _ _ _ F), Em.
    by rewrite (pr_bitmap _ (pw_ready _ Hwf)), (pr_bitmap _ (pw_ready _ Hwf')).
  - intros i. cbn. rewrite elem_of_filter, Hf. split.
    + intros [Hout [Hi Hb]]. split; [done|]. by rewrite Hbits, Hb, Hout by lia.
    + intros [Hi Hb]. rewrite Hbits in Hb by lia. apply orb_false_elim in Hb. tauto.
  - intros i Hi. destruct (Ho i Hi) as [? Hn]. split; [done|]. cbn. rewrite elem_of_filter. tauto.
  - cbn. lia.
Qed.

(** Reservation only adds to the count. *)
Lemma reserved_used l s' : reserved s l s' → used_frames (pmm s) <= used_frames (pmm s').
Proof using Hrep.
  intros [Hwf' _ _ Et Em Hbits]. pose proof (re_wf _ _ Hrep) as [_ _ _ Hc]. destruct Hwf' as [_ _ _ Hc'].
  pose proof rep_bounds as Hbd. rewrite Em, Et in Hc'.
  assert (clear_frames (mem (hw s')) 0 (max_frame_idx (pmm s)) ⊆+
    clear_frames (mem (hw s)) 0 (max_frame_idx (pmm s))) as Hsub.
  { apply NoDup_submseteq; [apply NoDup_filter, NoDup_zrange|]. intros i.
    rewrite !elem_of_clear_frames. intros [Hi Hb]. split; [done|].
    change (bit_at (mem (hw s')) i) with (used_bit s' i) in Hb. rewrite Hbits in Hb by lia.
    by apply orb_false_elim in Hb as [Hb _]. }
  apply submseteq_length in Hsub. unfold zlen in *. lia.
Qed.
End steps.

(** ** Refinement *)

(** One call that is no misuse. *)
Lemma wp_pmm_call o s p r p' (Q : Z → kstate → Prop) P :
  represents s p → pool_step p o = Some (r, p') →
  (∀ s', represents s' p' → Q r s') → wp (pmm_call o) Q P s.
Proof.
  intros Hrep E HQ. pose proof Hrep as [Hwf Hok Ht Hm Hr Hf Ho Hc]. destruct o as [|a|a b|t]; cbn in *.
  - apply wp_pmm_alloc_frame; [done..| |].
    + intros i s' Htk Hwf' Hok'. rewrite (alloc_is_first_free s p Hrep i s' Htk) in E.
      injection E as <- <-. apply HQ. by apply (rep_take s).
    + intros s' Hex Hok' F. rewrite (exhausted_no_first_free s p Hrep Hex) in E.
      injection E as <- <-. apply HQ. by apply (rep_console s).
  - case_decide as Hd; [|done]. injection E as <- <-. destruct Hd as [Hal Hin].
    pose proof (Ho _ Hin) as [Hi _]. pose proof (rep_bounds s p Hrep).
    wp_step. replace a with (4096 * (a / 4096)) at 1 by (clear -Hal; zify_mod).
    apply wp_pmm_free_frame; [done..|lia| |lia].
    intros _. wp_step. apply HQ. by apply rep_give.
  - case_decide as Hd; [|done]. injection E as <- <-. wp_step.
    apply wp_reserve_range; [done..|by rewrite <- Hm|]. intros s' Hs'. wp_step.
    apply HQ. apply (rep_withdraw s); [done..|]. by eapply reserved_used.
  - case_decide as Hd; [|done]. injection E as <- <-. rewrite Hr, Hm in Hd. wp_step.
    apply wp_pmm_reserve; [done..|]. intros s' Hs'. wp_step.
    apply HQ. rewrite Hr. apply (rep_withdraw s); [done..|]. by eapply reserved_used.
Qed.

Lemma wp_pmm_calls l s p rs p' P :
  represents s p → pool_run p l = Some (rs, p') →
  wp (pmm_calls l) (λ rs' s', rs' = rs ∧ represents s' p') P s.
Proof.
  revert s p rs. induction l as [|o l IH]; intros s p rs Hrep E; cbn [pool_run pmm_calls] in *.
  { injection E as <- <-. by wp_step. }
  destruct (pool_step p o) as [[r p1]|] eqn:E1; cbn in E; [|done].
  destruct (pool_run p1 l) as [[rs1 p2]|] eqn:E2; cbn in E; [|done]. injection E as <- <-.
  wp_step. apply (wp_pmm_call o s p r p1); [done..|]. intros s1 Hrep1. wp_step.
  eapply wp_post; [by apply (IH s1 p1 rs1)|]. intros rs' s' [-> Hrep']. by wp_step.
Qed.

(** ** What clients hold *)

(** The frames given out and not yet returned, after calls and their results. *)
Fixpoint held (l : list (pmm_op * Z)) (h : list Z) : list Z :=
  match l with
  | [] => h
  | (OpAlloc, r) :: l => held l (if r =? 0 then h else r :: h)
  | (OpFree a, _) :: l => held l (filter (λ x, x ≠ a) h)
  | _ :: l => held l h
  end.

(** What is held is owned, so nothing held is free. *)
Lemma held_owned l s p rs p' h :
  represents s p → pool_run p l = Some (rs, p') → NoDup h →
  (∀ a, a ∈ h ↔ a mod 4096 = 0 ∧ a / 4096 ∈ p_owned p) →
  NoDup (held (zip l rs) h) ∧
  ∀ a, a ∈ held (zip l rs) h ↔ a mod 4096 = 0 ∧ a / 4096 ∈ p_owned p'.
Proof.
  revert s p rs h. induction l as [|o l IH]; intros s p rs h Hrep E Hnd Hh; cbn [pool_run] in *.
  { injection E as <- <-. done. }
  destruct (pool_step p o) as [[r p1]|] eqn:E1; cbn in E; [|done].
  destruct (pool_run p1 l) as [[rs1 p2]|] eqn:E2; cbn in E; [|done]. injection E as <- <-.
  destruct (wp_run (pmm_call o) (λ _ s', represents s' p1) s) as (r' & s1 & _ & Hrep1).
  { by apply (wp_pmm_call o s p r p1). }
  destruct o as [|a|a b|t]; cbn in *.
  - destruct (first_free p) as [i|] eqn:Ef; injection E1 as <- <-; [|by eapply IH].
    pose proof (rep_first_free s p Hrep) as Hi. rewrite Ef in Hi. destruct Hi as (Hi & Hb & _).
    pose proof (rep_bounds s p Hrep).
    destruct (Z.eqb_spec (4096 * i) 0) as [|_]; [lia|].
    eapply IH; [exact Hrep1|done| |].
    + apply NoDup_cons. split; [|done]. rewrite Hh. intros [_ Hin].
      replace (4096 * i / 4096) with i in Hin by (clear; zify_mod).
      destruct (re_owned _ _ Hrep i Hin) as [_ Hn]. apply Hn, (rep_bit s); [done|lia|done].
    + intros a. cbn. rewrite elem_of_cons, Hh, elem_of_union, elem_of_singleton.
      split; [intros [->|?]; [split; [clear; zify_mod|left; clear; zify_mod]|tauto]|].
      intros [Hal [<-|?]]; [left; clear -Hal; zify_mod|by right].
  - case_decide as Hd; [|done]. injection E1 as <- <-. destruct Hd as [Hal Hin].
    eapply IH; [exact Hrep1|done|by apply NoDup_filter|].
    intros x. cbn. rewrite list_elem_of_filter, Hh, elem_of_difference, elem_of_singleton.
    split; [intros (Hne & Hx & ?); split_and!; [done|done|]; clear -Hne Hx Hal; zify_mod|].
    intros (Hx & ? & Hne). split; [|done]. congruence.
  - case_decide; [|done]. injection E1 as <- <-. by eapply IH.
  - case_decide; [|done]. injection E1 as <- <-. by eapply IH.
Qed.

(** C8: the memory manager implements the pool.  For every sequence of
    allocations, releases, markings and reservations in which clients release
    only what they own and mark only what the bitmap covers, the code returns
    what the pool returns, call by call - the lowest free frame or NULL - and
    the bitmap and the counters represent the pool's frames at the end. *)
Theorem pmm_refines_pool l s p rs p' :
  represents s p → pool_run p l = Some (rs, p') →
  ∃ s', pmm_calls l s = Ok rs s' ∧ represents s' p'.
Proof.
  intros Hrep E. destruct (wp_run (pmm_calls l) _ s (wp_pmm_calls l s p rs p' _ Hrep E))
    as (rs' & s' & E' & -> & Hrep'). by exists s'.
Qed.

(** Allocation until nothing is left, with a release and a reservation between. *)
Definition some_calls : list pmm_op :=
  [OpAlloc; OpAlloc; OpFree 0x100000; OpMark 0x102000 0x102001; OpReserve RESERVED_TYPE_BITMAP;
   OpAlloc; OpAlloc; OpAlloc].

Lemma pmm_refines_pool_witness :
  ∃ p' s', pmm_calls some_calls small_machine
    = Ok [0x100000; 0x101000; 0; 0; 0; 0x100000; 0x103000; 0] s' ∧ represents s' p'.
Proof.
  destruct (pool_run (pool_of small_machine) some_calls) as [[rs p']|] eqn:E; [|vm_compute in E; discriminate].
  exists p'. apply (pmm_refines_pool some_calls small_machine (pool_of small_machine)).
  - exact (pool_of_represents _ small_machine_wf small_machine_console).
  - rewrite E. apply (f_equal (fmap fst)) in E. vm_compute in E. injection E as <-. reflexivity.
Defined.

(** C20: nothing is given out twice.  Whatever clients do within the rules of the
    pool, the frames they hold - given out and not yet released - are pairwise
    different, they are frames between 1 and [total_frames], and the bitmap has
    every one of them marked as used. *)
Theorem pmm_frames_held_once l s rs p' :
  pmm_wf s → console_ok s → pool_run (pool_of s) l = Some (rs, p') →
  ∃ s', pmm_calls l s = Ok rs s' ∧ NoDup (held (zip l rs) []) ∧
    ∀ a, a ∈ held (zip l rs) [] →
      a mod 4096 = 0 ∧ 1 <= a / 4096 < total_frames (pmm s') ∧ used_bit s' (a / 4096) = true.
Proof.
  intros Hwf Hok E. pose proof (pool_of_represents s Hwf Hok) as Hrep.
  destruct (wp_run (pmm_calls l) _ s (wp_pmm_calls l s _ rs p' _ Hrep E)) as (rs' & s' & E' & -> & Hrep').
  exists s'. destruct (held_owned l s _ rs p' [] Hrep E) as [Hnd Hheld]; [constructor| |].
  { intros a. cbn. split; [intros Ha; by apply elem_of_nil in Ha|intros [_ Ha]; by apply not_elem_of_empty in Ha]. }
  split_and!; [done..|]. intros a [Hal Hin]%Hheld. destruct (re_owned _ _ Hrep' _ Hin) as [Hi Hn].
  split_and!; [done|lia|lia|]. pose proof (rep_bounds s' p' Hrep'). apply not_false_is_true. intros Hb.
  apply Hn, (rep_bit s' p' Hrep'); [lia|done].
Qed.

Lemma pmm_frames_held_once_witness :
  ∃ rs s', pmm_calls some_calls small_machine = Ok rs s' ∧
    held (zip some_calls rs) [] = [0x103000; 0x100000; 0x101000] ∧ NoDup (held (zip some_calls rs) []) ∧
    ∀ a, a ∈ held (zip some_calls rs) [] →
      a mod 4096 = 0 ∧ 1 <= a / 4096 < total_frames (pmm s') ∧ used_bit s' (a / 4096) = true.
Proof.
  destruct (pool_run (pool_of small_machine) some_calls) as [[rs p']|] eqn:E; [|vm_compute in E; discriminate].
  destruct (pmm_frames_held_once some_calls small_machine rs p' small_machine_wf small_machine_console E)
    as (s' & E' & Hnd & Hheld).
  exists rs, s'. split_and!; [exact E'| |exact Hnd|exact Hheld].
  apply (f_equal (fmap fst)) in E. vm_compute in E. injection E as <-. reflexivity.
Defined.

(** ** Frames above the count *)

Lemma first_free_range p i : first_free p = Some i → 1 <= i < p_total p ∧ i ∈ p_free p.
Proof.
  unfold first_free. intros E.
  pose proof (head_filter_zrange (λ i, i ∈ p_free p) 1 (Z.to_nat (p_total p - 1))) as Hf.
  rewrite E in Hf. destruct Hf as (? & ? & _). split; [lia|done].
Qed.

(** The bounds never change. *)
Lemma pool_step_bounds p o r p' :
  pool_step p o = Some (r, p') → p_total p' = p_total p ∧ p_max p' = p_max p.
Proof.
  destruct o; cbn; [destruct (first_free p)|case_decide..]; intros E; try done; by injection E as <- <-.
Qed.

Lemma pool_run_bounds l p rs p' :
  pool_run p l = Some (rs, p') → p_total p' = p_total p ∧ p_max p' = p_max p.
Proof.
  revert p rs. induction l as [|o l IH]; intros p rs E; cbn [pool_run] in E.
  { by injection E as <- <-. }
  destruct (pool_step p o) as [[r p1]|] eqn:E1; cbn in E; [|done].
  destruct (pool_run p1 l) as [[rs1 p2]|] eqn:E2; cbn in E; [|done]. injection E as <- <-.
  destruct (pool_step_bounds _ _ _ _ E1) as [<- <-]. by apply (IH p1 rs1).
Qed.

(** Results are NULL or below the count. *)
Lemma pool_run_results l p rs p' :
  0 <= p_total p → pool_run p l = Some (rs, p') →
  Forall (λ r, r = 0 ∨ 4096 <= r < 4096 * p_total p) rs.
Proof.
  revert p rs. induction l as [|o l IH]; intros p rs Ht E; cbn [pool_run] in E.
  { by injection E as <- <-. }
  destruct (pool_step p o) as [[r p1]|] eqn:E1; cbn in E; [|done].
  destruct (pool_run p1 l) as [[rs1 p2]|] eqn:E2; cbn in E; [|done]. injection E as <- <-.
  pose proof (pool_step_bounds _ _ _ _ E1) as [Et _]. constructor; [|rewrite <- Et; apply (IH p1); [lia|done]].
  destruct o; cbn in E1; [destruct (first_free p) as [i|] eqn:Ef|case_decide..]; try done;
    injection E1 as <- <-; try by left.
  apply first_free_range in Ef as [? _]. right. lia.
Qed.

(** Calls that neither mark nor reserve leave such a frame free. *)
Definition alloc_or_free (o : pmm_op) : bool :=
  match o with OpAlloc | OpFree _ => true | _ => false end.

Lemma pool_run_still_free l p rs p' i :
  forallb alloc_or_free l = true → p_total p <= i → i ∈ p_free p → pool_run p l = Some (rs, p') →
  i ∈ p_free p'.
Proof.
  revert p rs. induction l as [|o l IH]; intros p rs Hl Hi Hin E; cbn [pool_run] in E.
  { by injection E as <- <-. }
  destruct (pool_step p o) as [[r p1]|] eqn:E1; cbn in E; [|done].
  destruct (pool_run p1 l) as [[rs1 p2]|] eqn:E2; cbn in E; [|done]. injection E as <- <-.
  cbn in Hl. apply andb_prop in Hl as [Ho Hl]. pose proof (pool_step_bounds _ _ _ _ E1) as [Et _].
  apply (IH p1 rs1); [done|lia| |done].
  destruct o; try done; cbn in E1.
  - destruct (first_free p) as [j|] eqn:Ef; injection E1 as <- <-; [|done].
    apply first_free_range in Ef as [? _]. cbn. rewrite elem_of_difference, elem_of_singleton. split; [done|lia].
  - case_decide; [|done]. injection E1 as <- <-. cbn. rewrite elem_of_union. by right.
Qed.

Lemma init_frames_count s :
  init_ok s → NoDup (init_frames s) → zlen (init_frames s) <= top s ∧ top s < 2 ^ 20.
Proof.
  intros [_ _ Hmax Hfit] Hnd. pose proof (top_range s Hmax Hfit) as Ht. split; [|lia].
  assert (init_frames s ⊆+ zrange 0 (Z.to_nat (top s))) as Hsub%submseteq_length.
  { apply NoDup_submseteq; [done|]. intros i Hi%visited_below. apply elem_of_zrange. lia. }
  rewrite length_zrange in Hsub. unfold zlen. lia.
Qed.

(** C39: frames above the count are lost.  [pmm_init] counts the frames that it
    makes available, but allocation and release are bounded by that count and
    not by the highest index.  Whenever no frame is visited twice: a frame [i]
    of the memory map whose index is at or above the number of frames is
    counted, and its bit is clear; but whatever clients do afterwards within the
    rules of the pool, no call returns its address, its release is refused, and
    as long as nothing is marked or reserved it is still free at the end, even
    if allocation has long returned NULL. *)
Theorem frames_above_total_lost s i :
  init_ok s → NoDup (init_frames s) → i ∈ init_frames s → zlen (init_frames s) <= i →
  ∃ s', pmm_init s = Ok tt s' ∧ total_frames (pmm s') = zlen (init_frames s) ∧ used_bit s' i = false ∧
    ∀ l rs p', pool_run (pool_of s') l = Some (rs, p') →
      ∃ s'', pmm_calls l s' = Ok rs s'' ∧ ¬ (4096 * i ∈ rs) ∧
        (∃ s3, pmm_free_frame (4096 * i) s'' = Ok tt s3 ∧ pmm s3 = pmm s'') ∧
        (forallb alloc_or_free l = true → used_bit s'' i = false).
Proof.
  intros Hio Hnd Hi Habove. destruct (init_frames_count s Hio Hnd) as [Hcount Htop].
  pose proof (visited_below _ _ _ Hi) as Hlt.
  destruct (wp_run pmm_init (λ _ s', init_post s s' ∧ console_ok s') s) as ([] & s' & E & Hp & Hok).
  { apply wp_pmm_init; [done|]. by intros. }
  pose proof (init_post_wf s s' Hio Hp Hok Hnd) as Hwf. pose proof (ip_pmm _ _ Hp) as Epmm.
  pose proof (zlen_nonneg (init_frames s)) as Hpos. rewrite u32_small in Epmm by lia.
  assert (total_frames (pmm s') = zlen (init_frames s)) as Et by (by rewrite Epmm).
  assert (max_frame_idx (pmm s') = top s) as Em by (by rewrite Epmm).
  assert (used_bit s' i = false) as Hfree.
  { destruct Hp as [_ Hb]. rewrite Hb by (clear -Hlt; zify_mod). by rewrite bool_decide_eq_true_2. }
  exists s'. split_and!; [done..|]. intros l rs p' Er.
  pose proof (pool_of_represents s' Hwf Hok) as Hrep.
  destruct (wp_run (pmm_calls l) _ s' (wp_pmm_calls l s' _ rs p' _ Hrep Er)) as (rs' & s'' & E' & -> & Hrep').
  assert (total_frames (pmm s'') <= i ∧ max_frame_idx (pmm s'') = top s) as [Ht'' Em''].
  { destruct (pool_run_bounds _ _ _ _ Er) as [E1 E2]. cbn in E1, E2.
    rewrite <- (re_total _ _ Hrep'), <- (re_max _ _ Hrep'), E1, E2. lia. }
  exists s''. split_and!; [done| | |].
  - assert (i ≠ 0) as Hi0.
    { intros ->. destruct (init_frames s); [by apply elem_of_nil in Hi|rewrite zlen_cons in Habove].
      pose proof (zlen_nonneg l0). lia. }
    pose proof (pool_run_results l (pool_of s') rs p' ltac:(cbn; lia) Er) as Hall.
    rewrite Forall_forall in Hall. intros Hin%Hall. cbn in Hin. lia.
  - destruct (wp_run (pmm_free_frame (4096 * i)) (λ _ s3, console_frame s'' s3) s'') as ([] & s3 & E3 & F).
    { apply wp_pmm_free_frame; [apply Hrep'|apply Hrep'|lia|lia|done]. }
    exists s3. split; [done|]. apply (cf_pmm _ _ F).
  - intros Hl. apply (rep_bit s'' p' Hrep'); [lia|].
    apply (pool_run_still_free l (pool_of s') rs p' i Hl); [cbn; lia| |done].
    apply (rep_bit s' _ Hrep); [lia|done].
Qed.

(** Three frames at 0 and four at 1 MB: the last four are above the count. *)
Definition holey_machine : kstate :=
  set_memmap (MemmapVars 2 (Region 0 0x3000 1 :: Region 0x100000 0x4000 1 :: replicate 30 (Region 0 0 0)))
    (boot_state ∅ symbols_zero).

Lemma frames_above_total_lost_witness :
  ∃ s', pmm_init holey_machine = Ok tt s' ∧ total_frames (pmm s') = 7 ∧ used_bit s' 257 = false ∧
    ∀ l rs p', pool_run (pool_of s') l = Some (rs, p') →
      ∃ s'', pmm_calls l s' = Ok rs s'' ∧ ¬ (4096 * 257 ∈ rs) ∧
        (∃ s3, pmm_free_frame (4096 * 257) s'' = Ok tt s3 ∧ pmm s3 = pmm s'') ∧
        (forallb alloc_or_free l = true → used_bit s'' 257 = false).
Proof.
  apply (frames_above_total_lost holey_machine 257).
  - split; [split; [apply ringbuf_zero_wf|by vm_compute..|by left]| | |].
    + split; vm_compute; split; discriminate || reflexivity.
    + cbn. lia.
    + repeat constructor; vm_compute; discriminate.
  - apply (bool_decide_unpack _). vm_compute. exact I.
  - apply (bool_decide_unpack _). vm_compute. exact I.
  - vm_compute. discriminate.
Defined.
