(* ===== verification/Paging.v ===== *)
(** * Paging: [kernel/memory/paging.c]

    A page directory at [0x80000], one table at [0x81000] that maps the first
    4 MB to themselves, and [paging_map_page], which adds a table when the
    directory entry is absent.  Tables are reached at their physical addresses,
    through the identity mapping.  The pager gets its frames from a
    [FrameAllocator]; [Pmm.pmm_allocator] is the kernel's. *)

From Stdlib Require Import ZArith Lia String.
From stdpp Require Import base gmap list.
From S2P Require Import Prelude RingBuf Format Descriptors Machine State Vga Printk Panik Frame Pmm.

Definition PAGE_PRESENT : Z := 1.
Definition PAGE_WRITE : Z := 2.
Definition PAGE_USER : Z := 4.

(** The two static pointers, never assigned. *)
Definition page_directory : Z := PAGE_DIR_START_ADDR.
Definition first_page_table : Z := PAGE_TABLE_START_ADDR.

Definition paging_init : M unit :=
  printk (C "[PAGING] Initializing Paging structures...\n") [];;
  for_ (Z.to_nat PAGE_ENTRIES) 0 (λ entry, store32 (page_directory + 4 * entry) 0x00000002);;
  for_ (Z.to_nat PAGE_ENTRIES) 0 (λ entry,
    store32 (first_page_table + 4 * entry)
      (Z.lor (Z.lor (Z.lor (entry * PAGE_SIZE) PAGE_PRESENT) PAGE_WRITE) PAGE_USER));;
  store32 (page_directory + 4 * 0) (Z.lor (Z.lor first_page_table PAGE_PRESENT) PAGE_WRITE);;
  printk (C "[PAGING] Directory at %p, Table[0] at %p\n")
    [AWord page_directory; AWord first_page_table];;
  modify (on_hw (set_cr3 page_directory));;
  cr0 ← gets (λ s, cr0 (hw s));
  let cr0 := Z.lor cr0 0x80000000 in
  modify (on_hw (set_cr0 cr0));;
  printk (C "[PAGING] Paging enabled successfully!\n") [];;
  mret tt.

(** The [if]/[else] of [paging_map_page]: the table for a directory entry. *)
Definition find_page_table `{FrameAllocator} (pdir_index : Z) : M Z :=
  pde ← load32 (page_directory + 4 * pdir_index);
  if flag pde PAGE_PRESENT then
    pde ← load32 (page_directory + 4 * pdir_index);
    mret (Z.land pde 0xFFFFF000)
  else
    page_table ← fa_alloc;
    (if page_table =? 0 then
       panik (C "Out of memory: Unable to allocate frame for new page table") []
     else mret tt);;
    for_ (Z.to_nat PAGE_ENTRIES) 0 (λ entry, store32 (page_table + 4 * entry) 0);;
    store32 (page_directory + 4 * pdir_index)
      (Z.lor (Z.lor page_table PAGE_PRESENT) PAGE_WRITE);;
    mret page_table.

Definition paging_map_page `{FrameAllocator} (virtual_addr physical_addr flags : Z) : M unit :=
  let pdir_index := Z.shiftr virtual_addr 22 in
  let ptable_index := Z.land (Z.shiftr virtual_addr 12) 0x03FF in
  page_table ← find_page_table pdir_index;
  store32 (page_table + 4 * ptable_index)
    (Z.lor (Z.land physical_addr 0xFFFFF000) (Z.land flags 0xFFF));;
  emit (Invlpg virtual_addr).

Definition debug_page_tables : M unit :=
  let page_dir := PAGE_DIR_START_ADDR in
  let page_table := PAGE_TABLE_START_ADDR in
  e ← load32 (page_dir + 4 * 0);
  printk (C "[DEBUG_PAGING] Page directory entry 0: 0x%08x\n") [AWord e];;
  let vga_page := 0xB8000 / PAGE_SIZE in
  e ← load32 (page_table + 4 * vga_page);
  printk (C "[DEBUG_PAGING] VGA memory mapping (0xB8000): Page Table Entry %d: 0x%08x\n")
    [AWord vga_page; AWord e];;
  e ← load32 (page_table + 4 * vga_page);
  (if flag e PAGE_PRESENT then
     printk (C "[DEBUG_PAGING] VGA memory is mapped and present.\n") []
   else
     printk (C "[DEBUG_PAGING] VGA memory is NOT mapped!\n") []);;
  mret tt.

(** ** Filling an array of words *)

(** Memory that differs only in [lo .. hi]. *)
Definition only_in (lo hi : Z) (m m' : memory) : Prop := ∀ a, ¬ lo <= a < hi → rd8 m' a = rd8 m a.

#[global] Instance only_in_preorder lo hi : PreOrder (only_in lo hi).
Proof. split; [done|]. intros m1 m2 m3 H12 H23 a Ha. by rewrite H23, H12. Qed.

Lemma only_in_wr32 lo hi m a v : lo <= a → a + 4 <= hi → only_in lo hi m (wr32 m a v).
Proof. intros ?? b Hb. apply rd8_wr32_ne. lia. Qed.

Lemma only_in_rd32 lo hi m m' a : only_in lo hi m m' → a + 4 <= lo ∨ hi <= a → rd32 m' a = rd32 m a.
Proof. intros Hm Ha. apply rd32_agree. intros b Hb. apply Hm. lia. Qed.

Lemma wp_fill_words base f n s (Q : unit → kstate → Prop) H :
  (∀ m e, only_in base (base + 4 * Z.of_nat n) (mem (hw s)) m → 0 <= e < Z.of_nat n →
     resolve (hw (with_mem s m)) (base + 4 * e) = Some (base + 4 * e)) →
  (∀ m, only_in base (base + 4 * Z.of_nat n) (mem (hw s)) m →
     (∀ j, 0 <= j < Z.of_nat n → rd32 m (base + 4 * j) = u32 (f j)) → Q tt (with_mem s m)) →
  wp (for_ n 0 (λ entry, store32 (base + 4 * entry) (f entry))) Q H s.
Proof.
  intros Hres HQ.
  apply (wp_for _ _ _ (λ i s', ∃ m, s' = with_mem s m ∧
    only_in base (base + 4 * Z.of_nat n) (mem (hw s)) m ∧
    ∀ j, 0 <= j < i → rd32 m (base + 4 * j) = u32 (f j))).
  - exists (mem (hw s)). rewrite with_mem_id. split_and!; [done..|]. intros. lia.
  - intros i s' Hi (m & -> & Hm & Hf). eapply wp_store32; [by apply Hres|].
    exists (wr32 m (base + 4 * i) (f i)). split_and!; [done| |].
    + etrans; [exact Hm|]. apply only_in_wr32; lia.
    + intros j Hj. destruct (decide (j = i)) as [->|].
      * by rewrite rd32_wr32_eq.
      * rewrite rd32_wr32_ne by lia. apply Hf. lia.
  - intros s' (m & -> & Hm & Hf). by apply HQ.
Qed.

(** ** The tables *)

Definition pde (s : kstate) (k : Z) : Z := rd32 (mem (hw s)) (page_directory + 4 * k).
Definition pde_present (s : kstate) (k : Z) : bool := Z.testbit (pde s k) 0.

(** The frame a table lies in. *)
Definition pde_frame (s : kstate) (k : Z) : Z := pde s k / 4096.

Definition pte (s : kstate) (va : Z) : Z :=
  rd32 (mem (hw s)) (4096 * pde_frame s (pd_index va) + 4 * pt_index va).

(** Paging is on, the first 4 MB are mapped to themselves, and the other
    tables lie in allocated frames of the first 4 MB, each in its own. *)
Record paging_wf `{FrameAllocator} (s : kstate) : Prop := {
  pg_on : paging_on (hw s) = true;
  pg_cr3 : cr3 (hw s) = page_directory;
  pg_low : low_tables (mem (hw s));
  pg_frame : ∀ k, 1 <= k < 1024 → pde_present s k = true →
    256 <= pde_frame s k < 1024 ∧ ¬ fa_free s (pde_frame s k);
  pg_inj : ∀ j k, 1 <= j < 1024 → 1 <= k < 1024 →
    pde_present s j = true → pde_present s k = true →
    pde_frame s j = pde_frame s k → j = k;
}.

#[local] Ltac pg_lia :=
  unfold page_directory, first_page_table, PAGE_DIR_START_ADDR, PAGE_TABLE_START_ADDR,
    LOW_END, in_screen, in_bitmap, BITMAP, VGA_ADDRESS, VGA_SIZE, VGA_WIDTH, VGA_HEIGHT,
    low_table_byte, PAGE_SIZE in *; lia.

Lemma rd32_page m a : Z.land (rd32 m a) 0xFFFFF000 = 4096 * (rd32 m a / 4096).
Proof. rewrite land_page_mask by apply rd32_range. lia. Qed.

(** The walk of a 32-bit address through the kernel's directory. *)
Definition walk (s : kstate) (va : Z) : option Z :=
  if pde_present s (pd_index va) then
    if Z.testbit (pte s va) 0 then Some (4096 * (pte s va / 4096) + va mod 4096) else None
  else None.

Section walk.
Context `{FrameAllocator}.

Lemma resolve_walk s va :
  paging_on (hw s) = true → cr3 (hw s) = page_directory → resolve (hw s) va = walk s va.
Proof.
  intros Hon Hcr3. unfold resolve, page_walk, walk. rewrite Hon, Hcr3.
  assert (pde_addr page_directory va = page_directory + 4 * pd_index va) as -> by done.
  unfold pde_present. destruct (Z.testbit _ 0); [|done].
  assert (pte_addr (rd32 (mem (hw s)) (page_directory + 4 * pd_index va)) va
    = 4096 * pde_frame s (pd_index va) + 4 * pt_index va) as ->.
  { unfold pte_addr. by rewrite rd32_page. }
  unfold pte at 1. destruct (Z.testbit _ 0); [|done]. by rewrite rd32_page, land_fff.
Qed.

Lemma paging_resolve s va : paging_wf s → resolve (hw s) va = walk s va.
Proof. intros [Hon Hcr3 _ _ _]. by apply resolve_walk. Qed.

(** An address that translates has a table. *)
Lemma resolve_present s va pa :
  paging_wf s → resolve (hw s) va = Some pa → pde_present s (pd_index va) = true.
Proof.
  intros Hwf. rewrite paging_resolve by done. unfold walk. by destruct (pde_present _ _).
Qed.

Lemma paging_low_mapped s : paging_wf s → low_mapped (hw s).
Proof. intros [Hon Hcr3 Hlow _ _]. by right. Qed.

(** The frame of any present table is page aligned and outside the directory
    and every other table. *)
Lemma table_frame s k :
  paging_wf s → 0 <= k < 1024 → pde_present s k = true →
  (k = 0 ∧ pde_frame s k = 0x81) ∨ (1 <= k ∧ 256 <= pde_frame s k < 1024).
Proof.
  intros [_ _ [Hd _] Hf _] Hk Hp. destruct (decide (k = 0)) as [->|].
  - left. split; [done|]. unfold pde_frame, pde.
    change (page_directory + 4 * 0) with 0x80000. by rewrite Hd.
  - right. split; [lia|]. by apply Hf; [lia|].
Qed.

Lemma table_frame_inj s j k :
  paging_wf s → 0 <= j < 1024 → 0 <= k < 1024 → pde_present s j = true → pde_present s k = true →
  pde_frame s j = pde_frame s k → j = k.
Proof.
  intros Hwf Hj Hk Hpj Hpk E.
  destruct (table_frame s j Hwf Hj Hpj) as [[-> ?]|[? ?]],
    (table_frame s k Hwf Hk Hpk) as [[-> ?]|[? ?]]; try lia.
  by apply (pg_inj s Hwf); [lia..| | |].
Qed.
End walk.

(** ** Setting an entry of a present table *)

Section set_entry.
Context `{FrameAllocator} (s : kstate) (va v : Z).
Context (Hwf : paging_wf s) (Hva : LOW_END <= va < 2 ^ 32).
Context (Hp : pde_present s (pd_index va) = true).

Definition entry_addr : Z := 4096 * pde_frame s (pd_index va) + 4 * pt_index va.
Definition with_entry : kstate := upd_mem (λ m, wr32 m entry_addr v) s.

Lemma va_index : 1 <= pd_index va < 1024.
Proof using Hva. unfold LOW_END in Hva. rewrite pd_index_div. zify_mod. Qed.

Lemma va_frame : 256 <= pde_frame s (pd_index va) < 1024.
Proof using Hwf Hva Hp. by apply (pg_frame s Hwf (pd_index va) va_index). Qed.

Lemma entry_in_frame :
  4096 * pde_frame s (pd_index va) <= entry_addr
    <= 4096 * pde_frame s (pd_index va) + 4092.
Proof using Type. pose proof (pt_index_range va). unfold entry_addr. lia. Qed.

Lemma entry_high a : a < 0x100000 → rd8 (mem (hw with_entry)) a = rd8 (mem (hw s)) a.
Proof using Hwf Hva Hp.
  intros Ha. pose proof entry_in_frame. pose proof va_frame. apply rd8_wr32_ne. lia.
Qed.

Lemma with_entry_pde k : 0 <= k < 1024 → pde with_entry k = pde s k.
Proof using Hwf Hva Hp.
  intros Hk. apply rd32_agree. intros b Hb. apply entry_high. pg_lia.
Qed.

Lemma with_entry_present k : 0 <= k < 1024 → pde_present with_entry k = pde_present s k.
Proof using Hwf Hva Hp. intros. unfold pde_present. by rewrite with_entry_pde. Qed.

Lemma with_entry_frame k : 0 <= k < 1024 → pde_frame with_entry k = pde_frame s k.
Proof using Hwf Hva Hp. intros. unfold pde_frame. by rewrite with_entry_pde. Qed.

Lemma with_entry_pte va' :
  0 <= va' < 2 ^ 32 → pde_present s (pd_index va') = true →
  pte with_entry va' = if decide (va' / 4096 = va / 4096) then u32 v else pte s va'.
Proof using Hwf Hva Hp.
  intros Hva' Hp'. pose proof (pd_index_range va' Hva') as Hk. pose proof va_index as Hk0.
  unfold pte. rewrite with_entry_frame by done.
  unfold with_entry, entry_addr. cbn [hw upd_mem on_hw set_mem mem].
  case_decide as E.
  - assert (pd_index va' = pd_index va ∧ pt_index va' = pt_index va) as [-> ->].
    { rewrite !pd_index_div, !pt_index_div. split; zify_mod. }
    apply rd32_wr32_eq.
  - pose proof (pt_index_range va). pose proof (pt_index_range va').
    destruct (decide (pde_frame s (pd_index va') = pde_frame s (pd_index va))) as [Ef|Ef].
    + apply table_frame_inj in Ef; [|done|lia|lia|done|done].
      assert (pt_index va' ≠ pt_index va) as Hne.
      { intros Et. apply E. rewrite !pd_index_div in Ef. rewrite !pt_index_div in Et. zify_mod. }
      rewrite Ef. apply rd32_wr32_ne. lia.
    + apply rd32_wr32_ne. lia.
Qed.

Lemma with_entry_walk va' :
  0 <= va' < 2 ^ 32 →
  walk with_entry va' =
    if decide (va' / 4096 = va / 4096)
    then if Z.testbit v 0 then Some (4096 * (u32 v / 4096) + va' mod 4096) else None
    else walk s va'.
Proof using Hwf Hva Hp.
  intros Hva'. pose proof (pd_index_range va' Hva') as Hk. unfold walk.
  rewrite with_entry_present by done. case_decide as E.
  - assert (pd_index va' = pd_index va) as Ek by (rewrite !pd_index_div; zify_mod).
    rewrite with_entry_pte by (done || by rewrite Ek). rewrite decide_True by done. rewrite Ek, Hp.
    unfold u32 at 1. rewrite Z.mod_pow2_bits_low by lia. done.
  - destruct (pde_present s (pd_index va')) eqn:Hp'; [|done].
    rewrite with_entry_pte by done. by rewrite decide_False.
Qed.

Lemma with_entry_stable :
  fa_inv s → fa_inv with_entry ∧ ∀ i, fa_free with_entry i ↔ fa_free s i.
Proof using Hwf Hva Hp.
  intros Hinv. apply fa_stable; [done| |done|].
  - apply (low_mapped_agree (hw s)); [done..| |by apply paging_low_mapped].
    intros a Ha. apply entry_high. unfold low_table_byte in Ha. lia.
  - intros a Ha%fa_private_low. apply entry_high. lia.
Qed.

Lemma with_entry_wf : fa_inv s → paging_wf with_entry.
Proof using Hwf Hva Hp.
  intros Hinv. destruct (with_entry_stable Hinv) as [_ Hfree]. pose proof Hwf as [Hon Hcr3 Hlow Hf Hinj].
  split; [done|done| | |].
  - apply (low_tables_agree (mem (hw s))); [|done]. intros a Ha. apply entry_high.
    unfold low_table_byte in Ha. lia.
  - intros k Hk. rewrite with_entry_present, with_entry_frame, Hfree by lia. by apply Hf.
  - intros j k Hj Hk. rewrite !with_entry_present, !with_entry_frame by lia. by apply Hinj.
Qed.
End set_entry.

(** ** Changes that leave the tables alone *)

(** Bytes of the first megabyte outside the directory and the first table. *)
Definition spares_tables (R : Z → Prop) : Prop :=
  ∀ a, R a → ¬ page_directory <= a < 0x82000 ∧ a < 0x100000.

Lemma spares_console `{FrameAllocator} : spares_tables (λ a, in_screen a ∨ fa_private a).
Proof. intros a [Ha|Ha%fa_private_low]; pg_lia. Qed.

Section frame.
Context `{FrameAllocator} (R : Z → Prop) (HR : spares_tables R) (s s' : kstate).
Context (Hwf : paging_wf s).
Context (Hframe : same_but R s s').
Context (Hfree : ∀ j, fa_free s' j → fa_free s j).

Lemma frame_table_byte a :
  page_directory <= a < 0x82000 ∨ 0x100000 <= a → rd8 (mem (hw s')) a = rd8 (mem (hw s)) a.
Proof using Hframe HR.
  intros Ha. apply (sb_mem _ _ _ Hframe). intros Hs%HR. pg_lia.
Qed.

Lemma frame_pde k : 0 <= k < 1024 → pde s' k = pde s k.
Proof using Hframe HR. intros. apply rd32_agree. intros b Hb. apply frame_table_byte. pg_lia. Qed.

Lemma frame_paging_wf : paging_wf s'.
Proof using Hwf Hframe Hfree HR.
  destruct Hwf as [Hon Hcr3 Hlow Hf Hinj].
  split.
  - unfold paging_on in *. by rewrite (sb_cr0 _ _ _ Hframe).
  - by rewrite (sb_cr3 _ _ _ Hframe).
  - apply (low_tables_agree (mem (hw s))); [|done]. intros a Ha. apply frame_table_byte.
    unfold low_table_byte in Ha. pg_lia.
  - intros k Hk. unfold pde_present, pde_frame. rewrite frame_pde by lia. intros Hp.
    destruct (Hf k Hk Hp) as [? Hn]. split; [done|]. intros Hc. by apply Hn, Hfree.
  - intros j k Hj Hk. unfold pde_present, pde_frame. rewrite !frame_pde by lia. by apply Hinj.
Qed.

Lemma frame_walk va : 0 <= va < 2 ^ 32 → walk s' va = walk s va.
Proof using Hwf Hframe HR.
  intros Hva. pose proof (pd_index_range va Hva) as Hk.
  unfold walk, pte, pde_present, pde_frame. rewrite frame_pde by done.
  destruct (Z.testbit (pde s (pd_index va)) 0) eqn:Hp; [|done].
  assert (rd32 (mem (hw s')) (4096 * (pde s (pd_index va) / 4096) + 4 * pt_index va)
    = rd32 (mem (hw s)) (4096 * (pde s (pd_index va) / 4096) + 4 * pt_index va)) as ->; [|done].
  apply rd32_agree. intros b Hb. apply frame_table_byte. pose proof (pt_index_range va).
  destruct (table_frame s (pd_index va) Hwf Hk Hp) as [[_ Hf]|[_ Hf]];
    unfold pde_frame in Hf; pg_lia.
Qed.
End frame.

(** ** Adding a table *)

Section add_table.
Context `{FrameAllocator} (s : kstate) (k i : Z) (m : memory).
Context (Hwf : paging_wf s) (Hinv : fa_inv s) (Hk : 1 <= k < 1024).
Context (Habs : pde_present s k = false).
Context (Hi : 256 <= i < 1024) (Hni : ¬ fa_free s i).
Context (Hnew : ∀ j, 1 <= j < 1024 → pde_present s j = true → pde_frame s j ≠ i).
Context (Hm : only_in (4096 * i) (4096 * i + 4096) (mem (hw s)) m).
Context (Hzero : ∀ j, 0 <= j < 1024 → rd32 m (4096 * i + 4 * j) = 0).

Definition with_table : kstate :=
  with_mem s (wr32 m (page_directory + 4 * k) (4096 * i + 3)).

Lemma with_table_byte a :
  ¬ 4096 * i <= a < 4096 * i + 4096 →
  ¬ page_directory + 4 * k <= a < page_directory + 4 * k + 4 →
  rd8 (mem (hw with_table)) a = rd8 (mem (hw s)) a.
Proof using Hm. intros ??. cbn. rewrite rd8_wr32_ne by lia. by apply Hm. Qed.

Lemma with_table_pde j :
  0 <= j < 1024 → pde with_table j = if decide (j = k) then 4096 * i + 3 else pde s j.
Proof using Hm Hi Hk.
  intros Hj. unfold pde. cbn. case_decide.
  - subst. rewrite rd32_wr32_eq. apply u32_small. lia.
  - rewrite rd32_wr32_ne by lia. apply (only_in_rd32 _ _ _ _ _ Hm). pg_lia.
Qed.

Lemma with_table_present j :
  0 <= j < 1024 → pde_present with_table j = bool_decide (j = k) || pde_present s j.
Proof using Hm Hi Hk.
  intros Hj. unfold pde_present. rewrite with_table_pde by done.
  case_decide; case_bool_decide; try done.
  rewrite Z.bit0_odd, Z.odd_add, Z.odd_mul. done.
Qed.

Lemma with_table_frame j :
  0 <= j < 1024 → pde_frame with_table j = if decide (j = k) then i else pde_frame s j.
Proof using Hm Hi Hk.
  intros Hj. unfold pde_frame. rewrite with_table_pde by done. case_decide; [|done].
  clear -Hi. zify_mod.
Qed.

Lemma with_table_stable : fa_inv with_table ∧ ∀ j, fa_free with_table j ↔ fa_free s j.
Proof using Hwf Hinv Hm Hi Hk.
  apply fa_stable; [done| |done|].
  - apply (low_mapped_agree (hw s)); [done..| |by apply paging_low_mapped].
    intros a Ha. apply with_table_byte; unfold low_table_byte in Ha; pg_lia.
  - intros a Ha%fa_private_low. apply with_table_byte; pg_lia.
Qed.

Lemma with_table_wf : paging_wf with_table.
Proof using All.
  destruct with_table_stable as [_ Hfree]. pose proof Hwf as [Hon Hcr3 Hlow Hf Hinj].
  split; [done|done| | |].
  - apply (low_tables_agree (mem (hw s))); [|done]. intros a Ha.
    apply with_table_byte; unfold low_table_byte in Ha; pg_lia.
  - intros j Hj. rewrite with_table_present, with_table_frame, Hfree by lia.
    case_bool_decide; case_decide; try done. by apply Hf.
  - intros j j' Hj Hj'. rewrite !with_table_present, !with_table_frame by lia.
    repeat case_bool_decide; repeat case_decide; try congruence; simpl; intros Hpj Hpj' E.
    + symmetry in E. by apply Hnew in E.
    + by apply Hnew in E.
    + by apply Hinj.
Qed.

Lemma with_table_walk va : 0 <= va < 2 ^ 32 → walk with_table va = walk s va.
Proof using Hwf Hk Habs Hi Hnew Hm Hzero.
  intros Hva. pose proof (pd_index_range va Hva) as Hkv. pose proof (pt_index_range va) as Ht.
  unfold walk, pte. rewrite with_table_present, with_table_frame by done.
  destruct (decide (pd_index va = k)) as [->|Hne].
  - rewrite bool_decide_eq_true_2, Habs by done. cbn [orb].
    assert (rd32 (mem (hw with_table)) (4096 * i + 4 * pt_index va) = 0) as ->; [|done].
    cbn. rewrite rd32_wr32_ne by pg_lia. by apply Hzero.
  - rewrite bool_decide_eq_false_2 by done. cbn [orb].
    destruct (pde_present s (pd_index va)) eqn:Hp; [|done].
    set (a := 4096 * pde_frame s (pd_index va) + 4 * pt_index va).
    assert (rd32 (mem (hw with_table)) a = rd32 (mem (hw s)) a) as ->; [|done].
    apply rd32_agree. intros b Hb.
    destruct (table_frame s (pd_index va) Hwf Hkv Hp) as [[_ Hf]|[Hk1 Hf]].
    + apply with_table_byte; pg_lia.
    + pose proof (Hnew (pd_index va) ltac:(lia) Hp). apply with_table_byte; pg_lia.
Qed.
End add_table.

(** ** [paging_map_page] *)

(** The fields of the entry it writes. *)
Lemma entry_fields pa flags :
  0 <= pa < 2 ^ 32 →
  Z.testbit (4096 * (pa / 4096) + flags mod 4096) 0 = Z.testbit flags 0 ∧
  u32 (4096 * (pa / 4096) + flags mod 4096) / 4096 = pa / 4096.
Proof.
  intros Hpa. split; [|zify_mod].
  rewrite <- (Z.mod_pow2_bits_low _ 12) by lia.
  rewrite Z.add_comm, (Z.mul_comm 4096). change 4096 with (2 ^ 12).
  rewrite Z.mod_add, Z.mod_mod by lia. apply Z.mod_pow2_bits_low. lia.
Qed.

Lemma flag_present x : flag x PAGE_PRESENT = Z.testbit x 0.
Proof.
  unfold flag. change PAGE_PRESENT with (Z.shiftl 1 0).
  rewrite land_shiftl_1 by lia. apply negb_involutive.
Qed.

Section map.
Context `{FrameAllocator}.

(** What mapping may write: the console, the allocator's memory, the
    directory and the tables. *)
Definition map_region (a : Z) : Prop :=
  in_screen a ∨ fa_private a ∨ page_directory <= a < page_directory + 4096
  ∨ 0x100000 <= a < LOW_END.

(** The translation of every address but those of one page is kept. *)
Definition remapped (s : kstate) (va : Z) (target : Z → option Z) (s' : kstate) : Prop :=
  ∀ va', 0 <= va' < 2 ^ 32 →
    resolve (hw s') va' = if decide (va' / 4096 = va / 4096) then target va' else resolve (hw s) va'.

(** Every table was there before or was made from a free frame. *)
Definition old_or_free (s s' : kstate) : Prop :=
  ∀ k, 0 <= k < 1024 → pde_present s' k = true → pde s' k = pde s k ∨ fa_free s (pde_frame s' k).

(** A byte of a used frame that holds no table: the contents of a page. *)
Definition data_byte (s : kstate) (a : Z) : Prop :=
  0x100000 <= a ∧ ¬ fa_free s (a / 4096) ∧
  ∀ k, 0 <= k < 1024 → pde_present s k = true → pde_frame s k ≠ a / 4096.

Definition data_kept (s s' : kstate) : Prop :=
  ∀ a, data_byte s a → rd8 (mem (hw s')) a = rd8 (mem (hw s)) a ∧ data_byte s' a.

#[global] Instance data_kept_preorder : PreOrder data_kept.
Proof.
  split; [by intros s a|]. intros s1 s2 s3 H12 H23 a Ha.
  destruct (H12 a Ha) as [E1 H2]. destruct (H23 a H2) as [E2 ?]. split; [congruence|done].
Qed.

Lemma data_keep s s' :
  (∀ a, data_byte s a → rd8 (mem (hw s')) a = rd8 (mem (hw s)) a) →
  (∀ j, fa_free s' j → fa_free s j) → old_or_free s s' → data_kept s s'.
Proof.
  intros Hm Hf Ht a Ha. split; [by apply Hm|]. pose proof Ha as (Hlo & Hu & Htab).
  split_and!; [done|by intros ?%Hf|]. intros k Hk Hp E.
  destruct (Ht k Hk Hp) as [Epde|Hfr]; [|by rewrite E in Hfr].
  unfold pde_present, pde_frame in *. rewrite Epde in *. by apply (Htab k Hk).
Qed.

(** A change of the first megabyte outside the tables. *)
Lemma data_spared R s s' :
  spares_tables R → same_but R s s' → (∀ j, fa_free s' j → fa_free s j) → data_kept s s'.
Proof.
  intros HR Hs Hf. apply data_keep; [|done|].
  - intros a (Ha & _). apply (frame_table_byte R HR s s' Hs). by right.
  - intros k Hk _. left. by apply (frame_pde R HR s s' Hs).
Qed.

(** The pager's invariants, and what has changed since [s]. *)
Record map_frame (s s' : kstate) : Prop := {
  mf_paging : paging_wf s';
  mf_inv : fa_inv s';
  mf_console : console_ok s';
  mf_frame : kframe map_region s s';
  mf_free : ∀ j, fa_free s' j → fa_free s j;
  mf_data : data_kept s s';
}.

(** The free frames after mapping [va]: one less if a table was needed. *)
Definition table_cost (s : kstate) (va : Z) (s' : kstate) : Prop :=
  if pde_present s (pd_index va) then ∀ j, fa_free s' j ↔ fa_free s j
  else ∃ i, fa_free s i ∧ ∀ j, fa_free s' j ↔ fa_free s j ∧ j ≠ i.

Lemma table_cost_mono s va s' j : table_cost s va s' → fa_free s' j → fa_free s j.
Proof. unfold table_cost. destruct (pde_present _ _); [naive_solver|]. intros (i & _ & Hf) [? _]%Hf. done. Qed.

Record mapped (s : kstate) (va pa flags : Z) (s' : kstate) : Prop := {
  mp_frame : map_frame s s';
  mp_walk : remapped s va (λ va', if Z.testbit flags 0
               then Some (4096 * (pa / 4096) + va' mod 4096) else None) s';
  mp_flush : head (events (hw s')) = Some (Invlpg va);
  mp_cost : table_cost s va s';
  mp_tables : old_or_free s s';
}.

(** A table for [va] is there, or a frame for it that the identity mapping
    reaches. *)
Definition table_reachable (s : kstate) (va : Z) : Prop :=
  pde_present s (pd_index va) = true ∨ ∃ i, fa_free s i ∧ i < 1024.

(** The first half of the function leaves a table for [va] and every
    translation as it was. *)
Record table_ready (s : kstate) (va table : Z) (s1 : kstate) : Prop := {
  tr_frame : map_frame s s1;
  tr_present : pde_present s1 (pd_index va) = true;
  tr_table : table = 4096 * pde_frame s1 (pd_index va);
  tr_walk : ∀ va', 0 <= va' < 2 ^ 32 → walk s1 va' = walk s va';
  tr_cost : table_cost s va s1;
  tr_tables : old_or_free s s1;
}.

Lemma private_map_region a : in_screen a ∨ fa_private a → map_region a.
Proof. unfold map_region. tauto. Qed.

Lemma wp_load_pde s va (Q : Z → kstate → Prop) (P : kstate → Prop) :
  paging_wf s → 0 <= va < 2 ^ 32 → Q (pde s (pd_index va)) s →
  wp (load32 (page_directory + 4 * Z.shiftr va 22)) Q P s.
Proof.
  intros Hwf Hva HQ. pose proof (pd_index_range va Hva).
  apply wp_load32_low; [by apply paging_low_mapped| |exact HQ].
  fold (pd_index va). pg_lia.
Qed.

(** Zeroing the new table and linking it. *)
Lemma wp_new_table s0 s1 va i (Q : Z → kstate → Prop) (P : kstate → Prop) :
  map_frame s0 s1 → LOW_END <= va < 2 ^ 32 → pde_present s1 (pd_index va) = false →
  256 <= i < 1024 → ¬ fa_free s1 i →
  (∀ j, 1 <= j < 1024 → pde_present s1 j = true → pde_frame s1 j ≠ i) →
  (∀ va', 0 <= va' < 2 ^ 32 → walk s1 va' = walk s0 va') →
  table_cost s0 va s1 → fa_free s0 i → (∀ k, 0 <= k < 1024 → pde s1 k = pde s0 k) →
  (∀ s2, table_ready s0 va (4096 * i) s2 → Q (4096 * i) s2) →
  wp (for_ (Z.to_nat PAGE_ENTRIES) 0 (λ entry, store32 (4096 * i + 4 * entry) 0);;
      store32 (page_directory + 4 * Z.shiftr va 22)
        (Z.lor (Z.lor (4096 * i) PAGE_PRESENT) PAGE_WRITE);;
      mret (4096 * i)) Q P s1.
Proof.
  intros [Hwf Hinv Hok F Hfree Hdata] Hva Habs Hi Hni Hnew Hwalk Hcost Hfi Hpde HQ.
  pose proof (va_index va Hva) as Hk.
  assert (∀ m, only_in (4096 * i) (4096 * i + 4096) (mem (hw s1)) m →
    low_mapped (hw (with_mem s1 m))) as Hlow.
  { intros m Hm. apply (low_mapped_agree (hw s1)); [done..| |by apply paging_low_mapped].
    intros a Ha. apply Hm. pg_lia. }
  wp_step. apply wp_fill_words.
  { intros m e Hm He. apply low_mapped_resolve; [by apply Hlow|].
    change (Z.of_nat (Z.to_nat PAGE_ENTRIES)) with 1024 in He. pg_lia. }
  intros m Hm Hz. change (4 * Z.of_nat (Z.to_nat PAGE_ENTRIES)) with 4096 in Hm.
  change (Z.of_nat (Z.to_nat PAGE_ENTRIES)) with 1024 in Hz.
  wp_step. apply wp_store32_low; [by apply Hlow|fold (pd_index va); pg_lia|]. wp_step.
  assert (Z.lor (Z.lor (4096 * i) PAGE_PRESENT) PAGE_WRITE = 4096 * i + 3) as ->.
  { rewrite <- Z.lor_assoc. change (Z.lor PAGE_PRESENT PAGE_WRITE) with 3.
    apply lor_page; [|lia]. rewrite Z.mul_comm. apply Z.mod_mul. lia. }
  fold (pd_index va). change (upd_mem _ (with_mem s1 m)) with (with_table s1 (pd_index va) i m).
  pose proof (with_table_stable s1 (pd_index va) i m Hwf Hinv Hk Hi Hm) as [Hinv' Hfree'].
  pose proof (with_table_wf s1 (pd_index va) i m Hwf Hinv Hk Habs Hi Hni Hnew Hm Hz) as Hwf'.
  assert (old_or_free s0 (with_table s1 (pd_index va) i m)) as Hold.
  { intros k Hkr _. unfold pde_frame. rewrite with_table_pde by done. case_decide.
    - right. replace ((4096 * i + 3) / 4096) with i; [done|]. clear. zify_mod.
    - left. by apply Hpde. }
  assert (∀ j, fa_free (with_table s1 (pd_index va) i m) j → fa_free s0 j) as Hmono.
  { intros j Hj. by apply Hfree, Hfree'. }
  apply HQ. split.
  - split; [done|done| | |done|].
    + destruct Hok. split; [done..|by apply paging_low_mapped].
    + etrans; [exact F|]. apply kframe_upd_mem. intros a Ha.
      apply (with_table_byte s1 (pd_index va) i m Hm); intros Hb; apply Ha; unfold map_region.
      * right. right. right. pg_lia.
      * right. right. left. pg_lia.
    + apply data_keep; [|done|done]. intros a Ha. pose proof Ha as (Hlo & Hu & _).
      etrans; [|by apply Hdata]. apply (with_table_byte s1 (pd_index va) i m Hm); [|pg_lia].
      intros Hb. apply Hu. by replace (a / 4096) with i by (clear -Hb; zify_mod).
  - rewrite with_table_present by (done || lia). by rewrite bool_decide_eq_true_2.
  - rewrite with_table_frame by (done || lia). by rewrite decide_True.
  - intros va' Hva'. rewrite <- Hwalk by done. by apply with_table_walk.
  - unfold table_cost in *. destruct (pde_present s0 _).
    + intros j. by rewrite Hfree'.
    + destruct Hcost as (f & ? & Hf). exists f. split; [done|]. intros j. by rewrite Hfree'.
  - done.
Qed.

Lemma map_frame_refl s : paging_wf s → fa_inv s → console_ok s → map_frame s s.
Proof. by split. Qed.

(** What a panic in normal mode leaves. *)
Definition stopped (s' : kstate) : Prop :=
  iflag (hw s') = false ∧ panik_called (panic s') = 1.

(** The frame just allocated becomes the table. *)
Lemma wp_fresh_table s va i s1 (Q : Z → kstate → Prop) (P : kstate → Prop) :
  paging_wf s → fa_inv s → LOW_END <= va < 2 ^ 32 → pde_present s (pd_index va) = false →
  gave_frame s i s1 → 4096 * i < LOW_END → (∀ t s', table_ready s va t s' → Q t s') →
  wp (for_ (Z.to_nat PAGE_ENTRIES) 0 (λ entry, store32 (4096 * i + 4 * entry) 0);;
      store32 (page_directory + 4 * Z.shiftr va 22)
        (Z.lor (Z.lor (4096 * i) PAGE_PRESENT) PAGE_WRITE);;
      mret (4096 * i)) Q P s1.
Proof.
  intros Hwf Hinv Hva Habs (Hi & _ & Hinv1 & Hok1 & F1 & Hfree1) Hlt HQ.
  pose proof (fa_free_high s i Hinv Hi). pose proof (va_index va Hva) as Hk.
  assert (∀ j, fa_free s1 j → fa_free s j) as Hmono by (intros j [? _]%Hfree1; done).
  assert (∀ k, 0 <= k < 1024 → pde s1 k = pde s k) as Hpde by (intros; by apply (frame_pde _ spares_console s s1 (kframe_same _ _ _ F1))).
  apply (wp_new_table s).
  - split; [by apply (frame_paging_wf _ spares_console s _ Hwf (kframe_same _ _ _ F1))|done..| |done|].
    + by apply (kframe_mono _ _ _ _ private_map_region).
    + by apply (data_spared _ _ _ spares_console (kframe_same _ _ _ F1)).
  - done.
  - unfold pde_present. by rewrite Hpde by lia.
  - unfold LOW_END in Hlt. lia.
  - intros [_ Hne]%Hfree1. done.
  - intros j Hj Hpj Ej. unfold pde_present, pde_frame in *. rewrite Hpde in Hpj, Ej by lia.
    destruct (pg_frame s Hwf j Hj Hpj) as [_ Hn]. apply Hn. unfold pde_frame. by rewrite Ej.
  - intros va' Hv. by apply (frame_walk _ spares_console s s1 Hwf (kframe_same _ _ _ F1)).
  - unfold table_cost. rewrite Habs. by exists i.
  - done.
  - done.
  - intros s2. apply HQ.
Qed.

Lemma wp_find_page_table s va (Q : Z → kstate → Prop) P :
  paging_wf s → fa_inv s → console_ok s → LOW_END <= va < 2 ^ 32 → table_reachable s va →
  (∀ t s', table_ready s va t s' → Q t s') →
  wp (find_page_table (Z.shiftr va 22)) Q P s.
Proof.
  intros Hwf Hinv Hok Hva Hreach HQ. unfold find_page_table.
  assert (0 <= va < 2 ^ 32) as Hva' by pg_lia. pose proof (va_index va Hva) as Hk.
  wp_step. apply wp_load_pde; [done..|]. rewrite flag_present.
  change (Z.testbit (pde s (pd_index va)) 0) with (pde_present s (pd_index va)).
  destruct (pde_present s (pd_index va)) eqn:Hp.
  - wp_step. apply wp_load_pde; [done..|]. wp_step. apply HQ.
    split; [by split|done|apply rd32_page|done| |by left]. unfold table_cost. by rewrite Hp.
  - destruct Hreach as [Hpres|(f & Hf & Hlt)]; [congruence|]. wp_step.
    destruct (fa_alloc_run s Hinv Hok) as (p & s1 & E & [(i & -> & Hg)|(-> & Hnone & _)]).
    + eapply wp_ok; [exact E|]. pose proof Hg as (Hi & Hmin & _).
      pose proof (fa_free_high s i Hinv Hi). pose proof (Hmin f Hf).
      destruct (Z.eqb_spec (4096 * i) 0) as [E0|_]; [lia|].
      wp_step. wp_step. eapply wp_fresh_table; [done..|pg_lia|done].
    + by apply Hnone in Hf.
Qed.

(** Recording an event disturbs neither. *)
Lemma flush_map_frame s va :
  paging_wf s → fa_inv s → console_ok s → map_frame s (on_hw (push_event (Invlpg va)) s).
Proof.
  intros Hwf Hinv Hok. set (s' := on_hw _ s).
  assert (kframe (λ a, in_screen a ∨ fa_private a) s s') as F.
  { split; try done. exists [Invlpg va]. split; [done|]. by repeat constructor. }
  destruct (fa_stable s s' Hinv) as [Hinv' Hfree']; [by apply paging_low_mapped in Hwf|done..|].
  assert (∀ j, fa_free s' j → fa_free s j) as Hmono by (intros j; apply Hfree').
  split; [by apply (frame_paging_wf _ spares_console s _ Hwf (kframe_same _ _ _ F))|done| | |done|].
  - destruct Hok. by split.
  - by apply (kframe_mono _ _ _ _ private_map_region).
  - by apply (data_spared _ _ _ spares_console (kframe_same _ _ _ F)).
Qed.

Lemma map_frame_trans s1 s2 s3 : map_frame s1 s2 → map_frame s2 s3 → map_frame s1 s3.
Proof. intros [? ? ? ? ? ?] [? ? ? ? ? ?]. split; [done..|by etrans|auto|by etrans]. Qed.

(** The second half: the entry is written and the address flushed. *)
Lemma entry_map_frame s va v :
  paging_wf s → fa_inv s → console_ok s → LOW_END <= va < 2 ^ 32 →
  pde_present s (pd_index va) = true → map_frame s (with_entry s va v).
Proof.
  intros Hwf Hinv Hok Hva Hp.
  destruct (with_entry_stable s va v Hwf Hva Hp Hinv) as [Hinv' Hfree'].
  pose proof (with_entry_wf s va v Hwf Hva Hp Hinv) as Hwf'. split; [done|done| | | |].
  - destruct Hok. split; [done..|by apply paging_low_mapped].
  - apply kframe_upd_mem. intros a Ha. apply rd8_wr32_ne.
    pose proof (va_frame s va Hwf Hva Hp) as Hf. pose proof (entry_in_frame s va) as Hin.
    assert (¬ (0x100000 <= a < LOW_END)) by (intros ?; apply Ha; unfold map_region; tauto). pg_lia.
  - intros j. apply Hfree'.
  - apply data_keep; [|intros j; apply Hfree'|].
    + intros a (_ & _ & Htab). apply rd8_wr32_ne. pose proof (va_index va Hva) as Hk.
      pose proof (Htab (pd_index va) ltac:(lia) Hp) as Hne. pose proof (entry_in_frame s va) as Hin.
      clear -Hne Hin. zify_mod.
    + intros k Hk _. left. by apply with_entry_pde.
Qed.

Lemma mapped_entry s va pa flags t s1 v :
  paging_wf s → table_ready s va t s1 → LOW_END <= va < 2 ^ 32 → 0 <= pa < 2 ^ 32 →
  v = 4096 * (pa / 4096) + flags mod 4096 →
  mapped s va pa flags (on_hw (push_event (Invlpg va)) (with_entry s1 va v)).
Proof.
  intros Hwf [F1 Hp _ Hwalk Hcost Htab] Hva Hpa ->. pose proof F1 as [Hwf1 Hinv1 Hok1 _ _ _].
  set (v := _ + _). pose proof (entry_map_frame s1 va v Hwf1 Hinv1 Hok1 Hva Hp) as F2.
  pose proof F2 as [Hwf2 Hinv2 Hok2 _ _ _].
  pose proof (flush_map_frame _ va Hwf2 Hinv2 Hok2) as F3.
  destruct (with_entry_stable s1 va v Hwf1 Hva Hp Hinv1) as [_ Hfree2].
  set (s3 := on_hw _ _) in *.
  assert (∀ j, fa_free s3 j ↔ fa_free s1 j) as Hfree3.
  { destruct (fa_stable (with_entry s1 va v) s3) as [_ Hst]; [done|apply F3|done|done|].
    intros j. by rewrite Hst. }
  split; [|  |done| |].
  - eapply map_frame_trans; [|exact F3]. by eapply map_frame_trans.
  - intros va' Hva'. rewrite !paging_resolve by (done || apply F3).
    change (walk s3 va') with (walk (with_entry s1 va v) va').
    rewrite with_entry_walk by done. case_decide; [|by apply Hwalk].
    unfold v. by destruct (entry_fields pa flags Hpa) as [-> ->].
  - unfold table_cost in *. destruct (pde_present s _).
    + intros j. by rewrite Hfree3.
    + destruct Hcost as (f & ? & Hf). exists f. split; [done|]. intros j. by rewrite Hfree3.
  - intros k Hk. change (pde s3 k) with (pde (with_entry s1 va v) k).
    change (pde_present s3 k) with (pde_present (with_entry s1 va v) k).
    change (pde_frame s3 k) with (pde_frame (with_entry s1 va v) k).
    rewrite with_entry_present, with_entry_pde, with_entry_frame by done. by apply Htab.
Qed.

Lemma wp_paging_map_page s va pa flags (Q : unit → kstate → Prop) P :
  paging_wf s → fa_inv s → console_ok s →
  LOW_END <= va < 2 ^ 32 → 0 <= pa < 2 ^ 32 → table_reachable s va →
  (∀ s', mapped s va pa flags s' → Q tt s') →
  wp (paging_map_page va pa flags) Q P s.
Proof.
  intros Hwf Hinv Hok Hva Hpa Hreach HQ. unfold paging_map_page. cbv zeta. wp_step.
  apply wp_find_page_table; [done..|].
  intros t s1 [[Hwf1 Hinv1 Hok1 F1 Hmono Hdata] Hp -> Hwalk Hcost Htab].
  set (v := Z.lor (Z.land pa 0xFFFFF000) (Z.land flags 0xFFF)).
  assert (v = 4096 * (pa / 4096) + flags mod 4096) as Ev.
  { unfold v. rewrite land_page_mask, land_fff by lia. rewrite lor_page by zify_mod. lia. }
  fold (pt_index va). change (4096 * pde_frame s1 (pd_index va) + 4 * pt_index va) with (entry_addr s1 va).
  pose proof (va_frame s1 va Hwf1 Hva Hp) as Hframe. pose proof (entry_in_frame s1 va) as Hin.
  wp_step. apply wp_store32_low; [by apply paging_low_mapped|pg_lia|]. wp_step.
  change (upd_mem _ s1) with (with_entry s1 va v).
  apply HQ. eapply mapped_entry; [done| |done..]. by split.
Qed.
End map.

(** ** [paging_init] *)

Lemma pte_word entry :
  0 <= entry < 1024 →
  Z.lor (Z.lor (Z.lor (entry * PAGE_SIZE) PAGE_PRESENT) PAGE_WRITE) PAGE_USER = entry * 4096 + 7.
Proof.
  intros He. rewrite <- !Z.lor_assoc.
  change (Z.lor PAGE_PRESENT (Z.lor PAGE_WRITE PAGE_USER)) with 7.
  apply lor_page; [apply Z.mod_mul|]; lia.
Qed.

(** The bytes [paging_init] writes besides the screen: directory and table. *)
Definition init_region (a : Z) : Prop := in_screen a ∨ page_directory <= a < 0x82000.

(** The directory and the first table, filled. *)
Definition tables_filled (m : memory) : Prop :=
  (∀ k, 1 <= k < 1024 → rd32 m (page_directory + 4 * k) = 2) ∧ low_tables m.

Section init.
Context (s : kstate) (Hoff : paging_on (hw s) = false).

Lemma resolve_off m va : resolve (hw (with_mem s m)) va = Some va.
Proof using Hoff.
  unfold resolve. change (paging_on (hw (with_mem s m))) with (paging_on (hw s)). by rewrite Hoff.
Qed.

Lemma wp_fill_tables (rest : M unit) (Q : unit → kstate → Prop) H :
  (∀ m, only_in page_directory 0x82000 (mem (hw s)) m → tables_filled m →
     wp rest Q H (with_mem s m)) →
  wp (for_ (Z.to_nat PAGE_ENTRIES) 0 (λ entry, store32 (page_directory + 4 * entry) 0x00000002);;
      for_ (Z.to_nat PAGE_ENTRIES) 0 (λ entry,
        store32 (first_page_table + 4 * entry)
          (Z.lor (Z.lor (Z.lor (entry * PAGE_SIZE) PAGE_PRESENT) PAGE_WRITE) PAGE_USER));;
      store32 (page_directory + 4 * 0) (Z.lor (Z.lor first_page_table PAGE_PRESENT) PAGE_WRITE);;
      rest) Q H s.
Proof using Hoff.
  intros HQ. change (Z.to_nat PAGE_ENTRIES) with (Z.to_nat 1024).
  wp_step. apply wp_fill_words; [intros; apply resolve_off|].
  rewrite Z2Nat.id by lia. change (4 * 1024) with 4096. intros m1 Hm1 Hd1.
  wp_step. apply wp_fill_words; [intros m e _ _; apply (resolve_off m)|].
  rewrite Z2Nat.id by lia. change (4 * 1024) with 4096. intros m2 Hm2 Ht2.
  wp_step. eapply wp_store32; [apply (resolve_off m2)|].
  change (mem (hw (with_mem s m1))) with m1 in Hm2.
  set (m3 := wr32 m2 (page_directory + 4 * 0)
    (Z.lor (Z.lor first_page_table PAGE_PRESENT) PAGE_WRITE)).
  assert (only_in page_directory (page_directory + 4) m2 m3) as Hm3 by (apply only_in_wr32; lia).
  apply (HQ m3).
  - intros a Ha. rewrite (Hm3 a) by pg_lia. rewrite (Hm2 a) by pg_lia. apply Hm1. pg_lia.
  - split; [|split].
    + intros k Hk. rewrite (only_in_rd32 _ _ _ _ _ Hm3) by lia.
      rewrite (only_in_rd32 _ _ _ _ _ Hm2) by pg_lia. rewrite Hd1 by lia. done.
    + change 0x80000 with (page_directory + 4 * 0). unfold m3. rewrite rd32_wr32_eq. done.
    + intros k Hk. change (0x81000 + 4 * k) with (first_page_table + 4 * k).
      rewrite (only_in_rd32 _ _ _ _ _ Hm3) by pg_lia. rewrite Ht2, pte_word by lia.
      apply u32_small. lia.
Qed.
End init.

(** Turning paging on over filled tables. *)
Lemma testbit_lor_pg x : Z.testbit (Z.lor x 0x80000000) 31 = true.
Proof. rewrite Z.lor_spec. by rewrite orb_true_r. Qed.

Section init_post.
Context `{FrameAllocator}.

(** The state [paging_init] leaves. *)
Record paged (s s' : kstate) : Prop := {
  pd_wf : paging_wf s';
  pd_inv : fa_inv s';
  pd_console : console_ok s';
  pd_walk : ∀ va, 0 <= va < 2 ^ 32 →
    resolve (hw s') va = if decide (va < LOW_END) then Some va else None;
  pd_mem : ∀ a, ¬ init_region a → rd8 (mem (hw s')) a = rd8 (mem (hw s)) a;
  pd_cr0 : cr0 (hw s') = Z.lor (cr0 (hw s)) 0x80000000;
  pd_ebp : ebp (hw s') = ebp (hw s);
  pd_iflag : iflag (hw s') = iflag (hw s);
  pd_rest : panic s' = panic s ∧ memmap s' = memmap s ∧ pmm s' = pmm s ∧ desc s' = desc s ∧
    syms s' = syms s;
  pd_free : ∀ i, fa_free s' i ↔ fa_free s i;
}.

Lemma tables_filled_walk s va :
  tables_filled (mem (hw s)) → paging_on (hw s) = true → cr3 (hw s) = page_directory →
  0 <= va < 2 ^ 32 → resolve (hw s) va = if decide (va < LOW_END) then Some va else None.
Proof.
  intros [Hd Hlow] Hon Hcr3 Hva. case_decide.
  - apply low_mapped_resolve; [by right|lia].
  - rewrite resolve_walk by done. unfold walk, pde_present, pde.
    pose proof (pd_index_range va Hva).
    assert (1 <= pd_index va) by (unfold LOW_END in *; rewrite pd_index_div; zify_mod).
    by rewrite Hd by lia.
Qed.

Lemma tables_filled_console s s' :
  console_frame s s' → tables_filled (mem (hw s)) → tables_filled (mem (hw s')).
Proof.
  intros F [Hd Hl]. split.
  - intros k Hk. rewrite <- (Hd k Hk). apply (console_frame_rd32 _ _ _ F). pg_lia.
  - apply (low_tables_agree (mem (hw s))); [|done].
    intros a Ha. by apply (cf_mem _ _ F), in_screen_not_table.
Qed.

Lemma tables_filled_wf s :
  tables_filled (mem (hw s)) → paging_on (hw s) = true → cr3 (hw s) = page_directory → paging_wf s.
Proof.
  intros [Hd Hlow] Hon Hcr3. split; [done..| |]; unfold pde_present, pde.
  - intros k Hk. by rewrite Hd by lia.
  - intros j k Hj Hk. by rewrite Hd by lia.
Qed.

Lemma wp_paging_init s (Q : unit → kstate → Prop) P :
  console_ok s → fa_inv s → paging_on (hw s) = false →
  (∀ s', paged s s' → Q tt s') → wp paging_init Q P s.
Proof.
  intros Hok Hinv Hoff HQ. unfold paging_init. wp_step.
  apply wp_printk; [done|reflexivity|]. intros _ s1 Hok1 F1.
  assert (paging_on (hw s1) = false) as Hoff1 by (unfold paging_on; by rewrite (cf_cr0 _ _ F1)).
  apply wp_fill_tables; [done|]. intros m Hm Hfill. set (s2 := with_mem s1 m).
  wp_step. apply wp_printk; [|reflexivity|].
  { destruct Hok1. split; [done..|]. by left. }
  intros _ s3 Hok3 F3. wp_steps.
  set (s4 := on_hw (set_cr0 _) _).
  assert (paging_on (hw s4) = true) as Hon4 by apply testbit_lor_pg.
  assert (tables_filled (mem (hw s4))) as Hfill4 by (by apply (tables_filled_console s2 s3)).
  apply wp_printk; [|reflexivity|].
  { destruct Hok3. split; [done..|]. right. split; [done|apply Hfill4]. }
  intros _ s5 Hok5 F5. wp_step. apply HQ.
  assert (paging_on (hw s5) = true) as Hon by (unfold paging_on in *; by rewrite (cf_cr0 _ _ F5)).
  assert (cr3 (hw s5) = page_directory) as Hcr3 by apply (cf_cr3 _ _ F5).
  assert (tables_filled (mem (hw s5))) as Hfill5 by (by apply (tables_filled_console s4)).
  assert (∀ a, ¬ init_region a → rd8 (mem (hw s5)) a = rd8 (mem (hw s)) a) as Hmem.
  { intros a Ha. unfold init_region in Ha.
    rewrite (cf_mem _ _ F5), (cf_mem _ _ F3) by tauto.
    change (rd8 m a = rd8 (mem (hw s)) a). rewrite (Hm a), (cf_mem _ _ F1) by tauto. done. }
  assert (pmm s5 = pmm s) as Hpmm
    by (rewrite (cf_pmm _ _ F5); etrans; [apply (cf_pmm _ _ F3)|apply (cf_pmm _ _ F1)]).
  destruct (fa_stable s s5) as [Hinv5 Hfree5]; [done|by destruct Hok5|done| |].
  { intros a Ha%fa_private_low. apply Hmem. unfold init_region. pg_lia. }
  split; [by apply tables_filled_wf|done|done| |done| | | | |done].
  - intros va. by apply tables_filled_walk.
  - rewrite (cf_cr0 _ _ F5). unfold s4. cbn. rewrite (cf_cr0 _ _ F3). cbn. by rewrite (cf_cr0 _ _ F1).
  - rewrite (cf_ebp _ _ F5). unfold s4. cbn. rewrite (cf_ebp _ _ F3). apply (cf_ebp _ _ F1).
  - rewrite (cf_iflag _ _ F5). unfold s4. cbn. rewrite (cf_iflag _ _ F3). apply (cf_iflag _ _ F1).
  - destruct F1, F3, F5. cbn in *. split_and!; congruence.
Qed.
End init_post.
