(* ===== verification/PagingProps.v ===== *)
(** * The properties of paging

    The identity mapping [paging_init] establishes, the exact effect of
    [paging_map_page] on every translation, its failure modes, and sequences of
    mappings.  All are proved for any [FrameAllocator]; the examples run them
    with the physical memory manager. *)

From Stdlib Require Import ZArith Lia String.
From stdpp Require Import base gmap list.
From S2P Require Import Prelude RingBuf Format Descriptors Machine State Vga Printk Panik MemoryMap Frame Pmm PmmProps Paging.

(** ** A machine with paging on *)

Lemma small_machine_inv : pmm_inv small_machine.
Proof.
  split; [exact small_machine_wf|]. intros i Hi.
  assert (Forall (λ j, used_bit small_machine j = true) (zrange 0 (Z.to_nat 256))) as Hall.
  { apply (bool_decide_unpack _). vm_compute. exact I. }
  rewrite Forall_forall in Hall. apply Hall, elem_of_zrange. lia.
Qed.

(** The state a run ends in. *)
Definition after {A} (m : M A) (s : kstate) : kstate :=
  match m s with Ok _ s' | Halted s' | Fault _ s' => s' | Undef _ => s end.

Definition returned {A} (o : outcome A) : option A :=
  match o with Ok a _ => Some a | _ => None end.

Lemma returned_ok {A} (o : outcome A) a : returned o = Some a → ∃ s', o = Ok a s'.
Proof. destruct o; simpl; intros E; simplify_eq. by eexists. Qed.

Lemma after_ok {A} (m : M A) s a s' : m s = Ok a s' → after m s = s'.
Proof. unfold after. by intros ->. Qed.

Definition paged_machine : kstate := after paging_init small_machine.

Lemma paged_after s :
  console_ok s → pmm_inv s → paging_on (hw s) = false → paged s (after paging_init s).
Proof.
  intros Hok Hinv Hoff.
  destruct (wp_run paging_init (λ _ s', paged s s') s) as ([] & s' & E & Hp).
  { by apply wp_paging_init. }
  unfold after. by rewrite E.
Qed.

Lemma paged_machine_ok : paged small_machine paged_machine.
Proof. apply paged_after; [exact small_machine_console|exact small_machine_inv|reflexivity]. Qed.

Lemma paged_machine_reachable va : table_reachable paged_machine va.
Proof.
  destruct paged_machine_ok. right. exists 256. split; [|lia].
  apply pd_free. split; [cbn; lia|]. vm_compute. reflexivity.
Qed.

Section paging.
Context `{FrameAllocator}.

(** C23: [paging_init] turns paging on with the first 4 MB mapped to
    themselves.  From any state with paging off in which the console works,
    it returns; afterwards every address below 4 MB translates to itself and
    no other address translates, so that the code, the stack, the bitmap and
    the screen stay where they were; only the directory, the first table and
    the console have been written. *)
Theorem paging_init_identity s :
  console_ok s → fa_inv s → paging_on (hw s) = false →
  ∃ s', paging_init s = Ok tt s' ∧
    (∀ va, 0 <= va < 2 ^ 32 →
       resolve (hw s') va = if decide (va < LOW_END) then Some va else None) ∧
    (∀ a, ¬ init_region a → rd8 (mem (hw s')) a = rd8 (mem (hw s)) a) ∧
    cr3 (hw s') = page_directory ∧ cr0 (hw s') = Z.lor (cr0 (hw s)) 0x80000000 ∧
    paging_wf s' ∧ fa_inv s' ∧ console_ok s' ∧ ∀ i, fa_free s' i ↔ fa_free s i.
Proof.
  intros Hok Hinv Hoff.
  destruct (wp_run paging_init (λ _ s', paged s s') s) as ([] & s' & E & []).
  { by apply wp_paging_init. }
  exists s'. pose proof (pg_cr3 _ pd_wf). by split_and!.
Qed.

(** C9: [paging_map_page] maps exactly one page.  Above the identity mapping,
    whenever a table for the address exists or a frame below 4 MB is free, the
    call returns and the page translates to the physical page given if the
    present flag is given, and to nothing otherwise; every other address of
    the whole 32-bit space translates as before, a TLB flush of the address is
    the last event, at most one frame has been taken, and the invariants of
    pager, allocator and console hold again. *)
Theorem paging_map_page_maps s va pa flags :
  paging_wf s → fa_inv s → console_ok s →
  LOW_END <= va < 2 ^ 32 → 0 <= pa < 2 ^ 32 → table_reachable s va →
  ∃ s', paging_map_page va pa flags s = Ok tt s' ∧
    (∀ va', 0 <= va' < 2 ^ 32 → resolve (hw s') va' =
       if decide (va' / 4096 = va / 4096)
       then if Z.testbit flags 0 then Some (4096 * (pa / 4096) + va' mod 4096) else None
       else resolve (hw s) va') ∧
    head (events (hw s')) = Some (Invlpg va) ∧ kframe map_region s s' ∧ table_cost s va s' ∧
    paging_wf s' ∧ fa_inv s' ∧ console_ok s'.
Proof.
  intros Hwf Hinv Hok Hva Hpa Hreach.
  destruct (wp_run (paging_map_page va pa flags) (λ _ s', mapped s va pa flags s') s)
    as ([] & s' & E & [[] ? ? ? ?]); [by apply wp_paging_map_page|].
  exists s'. by split_and!.
Qed.

(** Without a frame for the table the kernel stops.  When the directory
    entry is absent and the allocator returns NULL, [paging_map_page] in
    normal mode does not write through the null pointer: it halts in [panik]
    with interrupts disabled. *)
Theorem paging_map_page_out_of_memory s va pa flags s1 :
  paging_wf s → fa_inv s → console_ok s → current_panik_mode (panic s) = PANIK_MODE_NORMAL →
  LOW_END <= va < 2 ^ 32 → pde_present s (pd_index va) = false → fa_alloc s = Ok 0 s1 →
  ∃ s', paging_map_page va pa flags s = Halted s' ∧ stopped s'.
Proof.
  intros Hwf Hinv Hok Hmode Hva Habs E.
  destruct (fa_alloc_run s Hinv Hok) as (p & s1' & E' & Hg). rewrite E in E'.
  injection E' as <- <-. destruct Hg as [(i & Ei & Hi & _)|(_ & _ & _ & Hok1 & F1 & _)].
  { pose proof (fa_free_high s i Hinv Hi). lia. }
  assert (wp (paging_map_page va pa flags) (λ _ _, False) stopped s) as Hwp.
  { unfold paging_map_page, find_page_table. cbv zeta. wp_step. wp_step.
    apply wp_load_pde; [done|unfold LOW_END in *; lia|]. rewrite flag_present.
    change (Z.testbit (pde s (pd_index va)) 0) with (pde_present s (pd_index va)). rewrite Habs.
    wp_step. eapply wp_ok; [exact E|]. change (0 =? 0) with true. cbn iota. wp_step.
    apply wp_panik_halts; [done|by rewrite (kf_panic _ _ _ F1)|reflexivity|].
    by intros s2 [? ? _ _]. }
  unfold wp in Hwp. destruct (paging_map_page va pa flags s) as [|s'| |]; try done. by exists s'.
Qed.

(** C36: a table above 4 MB kills the kernel.  The new table is cleared through
    its physical address: when the allocator returns a frame that the tables do
    not map, as every frame from 4 MB on is until someone maps it, the
    first store of the clearing loop faults inside [paging_map_page]. *)
Theorem paging_map_page_faults_above_4mb s va pa flags p s1 :
  paging_wf s → LOW_END <= va < 2 ^ 32 → pde_present s (pd_index va) = false →
  fa_alloc s = Ok p s1 → p ≠ 0 → resolve (hw s1) p = None →
  ∃ s', paging_map_page va pa flags s = Fault p s' ∧ cr2 (hw s') = p.
Proof.
  intros Hwf Hva Habs E Hp Hres. pose proof (va_index va Hva) as Hk.
  assert (load32 (page_directory + 4 * Z.shiftr va 22) s = Ok (pde s (pd_index va)) s) as El.
  { unfold load32, access. fold (pd_index va). rewrite low_mapped_resolve; [done| |].
    - by apply paging_low_mapped.
    - unfold page_directory, PAGE_DIR_START_ADDR, LOW_END. lia. }
  assert (for_ (Z.to_nat PAGE_ENTRIES) 0 (λ entry, store32 (p + 4 * entry) 0) s1
    = Fault p (on_hw (set_cr2 p) s1)) as Ef.
  { apply (for_fault (Z.to_nat 1023)). unfold store32, access.
    replace (p + 4 * 0) with p by lia. by rewrite Hres. }
  unfold paging_map_page, find_page_table, mbind, M_bind. cbv zeta. rewrite El, flag_present.
  change (Z.testbit (pde s (pd_index va)) 0) with (pde_present s (pd_index va)). rewrite Habs, E.
  destruct (Z.eqb_spec p 0); [done|]. unfold mret, M_ret. cbv beta iota. rewrite Ef. by eexists.
Qed.
End paging.

Lemma paging_init_identity_witness :
  ∃ s', paging_init small_machine = Ok tt s' ∧
    (∀ va, 0 <= va < 2 ^ 32 →
       resolve (hw s') va = if decide (va < LOW_END) then Some va else None) ∧
    (∀ a, ¬ init_region a → rd8 (mem (hw s')) a = rd8 (mem (hw small_machine)) a) ∧
    cr3 (hw s') = page_directory ∧ cr0 (hw s') = Z.lor 1 0x80000000 ∧
    paging_wf s' ∧ fa_inv s' ∧ console_ok s' ∧ ∀ i, fa_free s' i ↔ fa_free small_machine i.
Proof.
  apply (paging_init_identity small_machine).
  - exact small_machine_console.
  - exact small_machine_inv.
  - reflexivity.
Defined.

(** Mapping a stack page on the small machine. *)
Lemma paging_map_page_maps_witness :
  ∃ s', paging_map_page 0xC2FF1000 0x105000 3 paged_machine = Ok tt s' ∧
    (∀ va', 0 <= va' < 2 ^ 32 → resolve (hw s') va' =
       if decide (va' / 4096 = 0xC2FF1000 / 4096)
       then if Z.testbit 3 0 then Some (4096 * (0x105000 / 4096) + va' mod 4096) else None
       else resolve (hw paged_machine) va') ∧
    head (events (hw s')) = Some (Invlpg 0xC2FF1000) ∧ kframe map_region paged_machine s' ∧
    table_cost paged_machine 0xC2FF1000 s' ∧ paging_wf s' ∧ fa_inv s' ∧ console_ok s'.
Proof.
  destruct paged_machine_ok as [Hwf Hinv Hok _ _ _ _ _ _ _].
  refine (paging_map_page_maps paged_machine 0xC2FF1000 0x105000 3 Hwf Hinv Hok _ _
    (paged_machine_reachable _)).
  - unfold LOW_END. lia.
  - lia.
Defined.

Example paged_machine_mapping :
  resolve (hw (after (paging_map_page 0xC2FF1000 0x105000 3) paged_machine)) 0xC2FF1ABC
  = Some 0x105ABC.
Proof. vm_compute. reflexivity. Qed.

(** A machine without a free frame, and one whose first free frame is at 4 MB. *)
Definition full_machine : kstate :=
  set_pmm (PmmVars BITMAP 256 256 264)
    (boot_state (put_bytes_at ∅ BITMAP (replicate 34 0xFF)) symbols_zero).

Definition tall_machine : kstate :=
  set_pmm (PmmVars BITMAP 1032 1024 1032)
    (boot_state (put_bytes_at ∅ BITMAP (replicate (Z.to_nat 128) 0xFF)) symbols_zero).

(** The console and the invariant of a machine given by its bitmap. *)
Ltac machine_ok :=
  split;
  [split; [apply ringbuf_zero_wf|by vm_compute..|by left]
  |split;
   [split; [split; [done|cbn; lia|by left]|cbn; lia|cbn; lia|vm_compute; reflexivity]
   |intros i Hi;
    match goal with |- used_bit ?s i = true =>
      assert (Forall (λ j, used_bit s j = true) (zrange 0 (Z.to_nat 256))) as Hall
        by (apply (bool_decide_unpack _); vm_compute; exact I);
      rewrite Forall_forall in Hall; apply Hall, elem_of_zrange; lia
    end]].

Lemma full_machine_ok : console_ok full_machine ∧ pmm_inv full_machine.
Proof. machine_ok. Qed.

Lemma tall_machine_ok : console_ok tall_machine ∧ pmm_inv tall_machine.
Proof. machine_ok. Qed.

Lemma paged_full_ok : paged full_machine (after paging_init full_machine).
Proof. destruct full_machine_ok. by apply paged_after. Qed.

Lemma paged_tall_ok : paged tall_machine (after paging_init tall_machine).
Proof. destruct tall_machine_ok. by apply paged_after. Qed.

Lemma full_machine_alloc :
  ∃ s1, fa_alloc (after paging_init full_machine) = Ok 0 s1.
Proof. apply returned_ok. vm_compute. reflexivity. Qed.

Lemma full_machine_absent : pde_present (after paging_init full_machine) (pd_index 0xC1001234) = false.
Proof. vm_compute. reflexivity. Qed.

Lemma tall_machine_alloc :
  ∃ s1, fa_alloc (after paging_init tall_machine) = Ok 0x400000 s1 ∧ resolve (hw s1) 0x400000 = None.
Proof.
  destruct (returned_ok (fa_alloc (after paging_init tall_machine)) 0x400000) as [s1 E].
  { vm_compute. reflexivity. }
  exists s1. split; [exact E|]. apply after_ok in E. rewrite <- E. clear E. vm_compute. reflexivity.
Qed.

Lemma tall_machine_absent : pde_present (after paging_init tall_machine) (pd_index 0xC1001234) = false.
Proof. vm_compute. reflexivity. Qed.

Lemma paging_map_page_out_of_memory_witness :
  ∃ s', paging_map_page 0xC1001234 0x105000 3 (after paging_init full_machine) = Halted s' ∧
    stopped s'.
Proof.
  destruct paged_full_ok as [Hwf Hinv Hok _ _ _ _ _ [Hp _] _]. destruct full_machine_alloc as [s1 E].
  refine (paging_map_page_out_of_memory (after paging_init full_machine) 0xC1001234 0x105000 3 s1
    Hwf Hinv Hok _ _ full_machine_absent E).
  - rewrite Hp. reflexivity.
  - unfold LOW_END. lia.
Defined.

Lemma paging_map_page_faults_above_4mb_witness :
  ∃ s', paging_map_page 0xC1001234 0x105000 3 (after paging_init tall_machine) = Fault 0x400000 s' ∧
    cr2 (hw s') = 0x400000.
Proof.
  destruct paged_tall_ok as [Hwf _ _ _ _ _ _ _ _ _]. destruct tall_machine_alloc as (s1 & E & Hres).
  refine (paging_map_page_faults_above_4mb (after paging_init tall_machine) 0xC1001234 0x105000 3
    0x400000 s1 Hwf _ tall_machine_absent E _ Hres).
  - unfold LOW_END. lia.
  - discriminate.
Defined.
