(* ===== verification/Arch.v ===== *)
(** * Descriptor tables at run time: [idt.c], [gdt.c] and [tss.c]

    The functions that fill the interrupt and global descriptor tables and the
    task state segment of the double-fault task, and load the processor's
    registers ([idt_flush.asm], [gdt_flush.asm], [ltr]).  The theorems read the
    tables the way the processor does. *)

From Stdlib Require Import ZArith Lia String.
From stdpp Require Import base gmap list.
From S2P Require Import Prelude RingBuf Format Descriptors Machine State Vga Printk.

Definition upd_desc (f : desc_vars → desc_vars) : M unit :=
  modify (λ s, set_desc (f (desc s)) s).

Definition with_idt (l : list idt_entry) (d : desc_vars) : desc_vars :=
  DescVars l (idt_ptr d) (gdt d) (gdtp d) (tss_df d) (double_fault_stack d).
Definition with_idt_ptr (p : idt_ptr_t) (d : desc_vars) : desc_vars :=
  DescVars (idt d) p (gdt d) (gdtp d) (tss_df d) (double_fault_stack d).
Definition with_gdt (l : list gdt_entry) (d : desc_vars) : desc_vars :=
  DescVars (idt d) (idt_ptr d) l (gdtp d) (tss_df d) (double_fault_stack d).
Definition with_gdtp (p : gdt_ptr) (d : desc_vars) : desc_vars :=
  DescVars (idt d) (idt_ptr d) (gdt d) p (tss_df d) (double_fault_stack d).
Definition with_tss (t : tss_entry) (d : desc_vars) : desc_vars :=
  DescVars (idt d) (idt_ptr d) (gdt d) (gdtp d) t (double_fault_stack d).

(** [idt[num] = e] and [gdt[num] = e] *)
Definition store_idt (num : Z) (e : idt_entry) : M unit :=
  d ← gets desc;
  if (0 <=? num) && (num <? zlen (idt d))
  then upd_desc (with_idt (<[Z.to_nat num := e]> (idt d))) else undef UbIndex.

Definition store_gdt (num : Z) (e : gdt_entry) : M unit :=
  d ← gets desc;
  if (0 <=? num) && (num <? zlen (gdt d))
  then upd_desc (with_gdt (<[Z.to_nat num := e]> (gdt d))) else undef UbIndex.

Definition load_idt (num : Z) : M idt_entry :=
  d ← gets desc;
  match idt d !! Z.to_nat num with
  | Some e => if 0 <=? num then mret e else undef UbIndex
  | None => undef UbIndex
  end.

Definition load_gdt (num : Z) : M gdt_entry :=
  d ← gets desc;
  match gdt d !! Z.to_nat num with
  | Some e => if 0 <=? num then mret e else undef UbIndex
  | None => undef UbIndex
  end.

Definition idt_set_gate (num base sel flags : Z) : M unit :=
  store_idt num (gate_entry base (u16 sel) (u8 flags)).

Definition set_task_gate (num sel : Z) : M unit :=
  store_idt num (task_gate_entry sel);;
  e ← load_idt num;
  printk (C "Set task gate %d: sel=0x%04x, flags=0x%02x\n") [AWord num; AWord sel; AWord (flags e)];;
  mret tt.

(** [idt_flush.asm]: [lidt] of its argument. *)
Definition idt_flush (ptr : Z) : M unit := emit (Lidt ptr).

Definition idt_init : M unit :=
  y ← gets syms;
  upd_desc (with_idt_ptr (IdtPtr (8 * IDT_ENTRIES - 1) (sym_idt y)));;
  for_ (Z.to_nat IDT_ENTRIES) 0 (λ i, store_idt i (IdtEntry 0 0 0 0 0));;
  set_task_gate 8 0x18;;
  idt_set_gate 14 (sym_isr_page_fault y) 0x08 0x8E;;
  idt_flush (sym_idt_ptr y).

Definition set_gdt_entry (num base limit access gran : Z) : M unit :=
  store_gdt num (make_gdt_entry base limit access gran).

(** [gdt_flush.asm]: [lgdt] of its argument. *)
Definition gdt_flush (ptr : Z) : M unit := emit (Lgdt ptr).

(** The selector the last [ltr] loaded, which [str] stores. *)
Fixpoint task_register (evs : list event) : Z :=
  match evs with
  | [] => 0
  | Ltr sel :: _ => sel
  | _ :: evs => task_register evs
  end.

(** The [ltr] instruction: the task register is loaded and the descriptor it
    selects becomes busy. *)
Definition ltr (sel : Z) : M unit :=
  e ← load_gdt (sel / 8);
  store_gdt (sel / 8) (set_busy e);;
  emit (Ltr sel).

Definition gdt_init : M unit :=
  y ← gets syms;
  set_gdt_entry 0 0 0 0 0;;
  set_gdt_entry 1 0 0xFFFFF 0x9A 0xCF;;
  set_gdt_entry 2 0 0xFFFFF 0x92 0xCF;;
  set_gdt_entry 3 (sym_tss_df y) (sizeof_tss - 1) 0x89 0x40;;
  upd_desc (with_gdtp (GdtPtr (8 * GDT_ENTRIES - 1) (sym_gdt y)));;
  gdt_flush (sym_gdtp y);;
  ltr 0x18;;
  current_tr ← gets (λ s, task_register (events (hw s)));
  printk (C "Current Task Register: 0x%04x (should be 0x18)\n") [AWord current_tr];;
  mret tt.

Definition DOUBLE_FAULT_STACK_SIZE : Z := 0x1000.

Definition init_tss : M unit :=
  upd_desc (with_tss tss_zero);;
  current_cr3 ← gets (λ s, cr3 (hw s));
  y ← gets syms;
  upd_desc (with_tss (tss_init (u32 (sym_double_fault_stack y + DOUBLE_FAULT_STACK_SIZE))
                        (sym_double_fault_handler y) current_cr3)).

Definition update_tss_cr3 : M unit :=
  current_cr3 ← gets (λ s, cr3 (hw s));
  upd_desc (λ d, with_tss (set_tss_cr3 current_cr3 (tss_df d)) d).

(** ** The tables as the processor reads them *)

(** The linker's addresses are 32-bit words. *)
Definition symbols_ok (y : symbols) : Prop :=
  Forall (λ a, 0 <= a < 2 ^ 32)
    [sym_kernel_start y; sym_kernel_end y; sym_idt y; sym_idt_ptr y; sym_gdt y; sym_gdtp y;
     sym_tss_df y; sym_double_fault_stack y; sym_isr_page_fault y; sym_double_fault_handler y].

Record tables_sized (s : kstate) : Prop := {
  ts_idt : zlen (idt (desc s)) = IDT_ENTRIES;
  ts_gdt : zlen (gdt (desc s)) = GDT_ENTRIES;
}.

(** The table [idt_init] leaves. *)
Definition idt_table (isr : Z) : list idt_entry :=
  <[14%nat := gate_entry isr 0x08 0x8E]>
    (<[8%nat := task_gate_entry 0x18]> (replicate (Z.to_nat IDT_ENTRIES) idt_entry_zero)).

Definition gdt_table (tss : Z) : list gdt_entry :=
  [make_gdt_entry 0 0 0 0; make_gdt_entry 0 0xFFFFF 0x9A 0xCF; make_gdt_entry 0 0xFFFFF 0x92 0xCF;
   set_busy (make_gdt_entry tss (sizeof_tss - 1) 0x89 0x40)].

Lemma wp_upd_desc f s (Q : unit → kstate → Prop) H :
  Q tt (set_desc (f (desc s)) s) → wp (upd_desc f) Q H s.
Proof. done. Qed.

Lemma wp_store_idt num e s (Q : unit → kstate → Prop) H :
  0 <= num < zlen (idt (desc s)) →
  Q tt (set_desc (with_idt (<[Z.to_nat num := e]> (idt (desc s))) (desc s)) s) →
  wp (store_idt num e) Q H s.
Proof.
  intros Hn HQ. unfold store_idt. do 2 wp_step.
  destruct (Z.leb_spec 0 num), (Z.ltb_spec num (zlen (idt (desc s)))); try lia. exact HQ.
Qed.

Lemma wp_store_gdt num e s (Q : unit → kstate → Prop) H :
  0 <= num < zlen (gdt (desc s)) →
  Q tt (set_desc (with_gdt (<[Z.to_nat num := e]> (gdt (desc s))) (desc s)) s) →
  wp (store_gdt num e) Q H s.
Proof.
  intros Hn HQ. unfold store_gdt. do 2 wp_step.
  destruct (Z.leb_spec 0 num), (Z.ltb_spec num (zlen (gdt (desc s)))); try lia. exact HQ.
Qed.

Lemma wp_load_idt num e s (Q : idt_entry → kstate → Prop) H :
  0 <= num → idt (desc s) !! Z.to_nat num = Some e → Q e s → wp (load_idt num) Q H s.
Proof.
  intros Hn He HQ. unfold load_idt. do 2 wp_step. rewrite He.
  destruct (Z.leb_spec 0 num); [by wp_step|lia].
Qed.

Lemma wp_load_gdt num e s (Q : gdt_entry → kstate → Prop) H :
  0 <= num → gdt (desc s) !! Z.to_nat num = Some e → Q e s → wp (load_gdt num) Q H s.
Proof.
  intros Hn He HQ. unfold load_gdt. do 2 wp_step. rewrite He.
  destruct (Z.leb_spec 0 num); [by wp_step|lia].
Qed.

Lemma set_desc_console d s : console_ok s → console_ok (set_desc d s).
Proof. by intros []. Qed.

Lemma set_desc_twice d d' s : set_desc d (set_desc d' s) = set_desc d s.
Proof. done. Qed.

(** Zeroing the table. *)
Lemma wp_zero_idt s (Q : unit → kstate → Prop) H :
  zlen (idt (desc s)) = IDT_ENTRIES →
  Q tt (set_desc (with_idt (replicate (Z.to_nat IDT_ENTRIES) idt_entry_zero) (desc s)) s) →
  wp (for_ (Z.to_nat IDT_ENTRIES) 0 (λ i, store_idt i (IdtEntry 0 0 0 0 0))) Q H s.
Proof.
  intros Hl HQ. unfold zlen, IDT_ENTRIES in *.
  apply (wp_for _ _ _ (λ i s', ∃ l, s' = set_desc (with_idt l (desc s)) s ∧
    length l = Z.to_nat 256 ∧ ∀ j, (j < Z.to_nat i)%nat → l !! j = Some idt_entry_zero)).
  - exists (idt (desc s)). split_and!; [by destruct s as [? ? ? ? ? ? [] ?]|lia|lia].
  - intros i s' Hi (l & -> & Hlen & Hz). apply wp_store_idt; [unfold zlen; cbn; lia|].
    exists (<[Z.to_nat i := idt_entry_zero]> l). split_and!; [done|by rewrite length_insert|].
    intros j Hj. destruct (decide (j = Z.to_nat i)) as [->|].
    + apply list_lookup_insert_eq. lia.
    + rewrite list_lookup_insert_ne by done. apply Hz. lia.
  - intros s' (l & -> & Hlen & Hz). assert (l = replicate (Z.to_nat 256) idt_entry_zero) as ->; [|done].
    apply list_eq. intros j. destruct (decide (j < Z.to_nat 256)%nat).
    + rewrite Hz, lookup_replicate_2 by lia. done.
    + rewrite !lookup_ge_None_2; [done|rewrite length_replicate; lia|lia].
Qed.

(** What these functions keep. *)
Record arch_frame (s s' : kstate) : Prop := {
  af_console : console_ok s';
  af_mem : screen_only (mem (hw s)) (mem (hw s'));
  af_cr0 : cr0 (hw s') = cr0 (hw s);
  af_cr3 : cr3 (hw s') = cr3 (hw s);
  af_ebp : ebp (hw s') = ebp (hw s);
  af_iflag : iflag (hw s') = iflag (hw s);
  af_panic : panic s' = panic s;
  af_memmap : memmap s' = memmap s;
  af_pmm : pmm s' = pmm s;
  af_syms : syms s' = syms s;
}.

Lemma arch_frame_trans s1 s2 s3 : arch_frame s1 s2 → arch_frame s2 s3 → arch_frame s1 s3.
Proof. intros [] []. split; try done; try congruence. by etrans. Qed.

Lemma arch_frame_console s s' : console_ok s' → console_frame s s' → arch_frame s s'.
Proof. by intros ? []. Qed.

Lemma arch_frame_desc s d : console_ok s → arch_frame s (set_desc d s).
Proof. by intros []. Qed.

Lemma arch_frame_event s e : console_ok s → arch_frame s (on_hw (push_event e) s).
Proof. by intros []. Qed.

Lemma wp_idt_init s (Q : unit → kstate → Prop) H :
  console_ok s → zlen (idt (desc s)) = IDT_ENTRIES →
  (∀ s', arch_frame s s' → head (events (hw s')) = Some (Lidt (sym_idt_ptr (syms s))) →
     desc s' = with_idt (idt_table (sym_isr_page_fault (syms s)))
       (with_idt_ptr (IdtPtr (8 * IDT_ENTRIES - 1) (sym_idt (syms s))) (desc s)) → Q tt s') →
  wp idt_init Q H s.
Proof.
  intros Hok Hl HQ. unfold idt_init. do 2 wp_step. wp_step. apply wp_upd_desc.
  wp_step. apply wp_zero_idt; [done|].
  wp_step. unfold set_task_gate. wp_step. apply wp_store_idt; [done|].
  wp_step. apply (wp_load_idt 8 (task_gate_entry 0x18)); [lia|reflexivity|].
  rewrite !set_desc_twice.
  wp_step. apply wp_printk; [by apply set_desc_console|reflexivity|]. intros _ s1 Hok1 F1. wp_step.
  pose proof (cf_desc _ _ F1) as Ed.
  wp_step. apply wp_store_idt; [by rewrite Ed|]. unfold idt_flush. wp_step.
  apply HQ; [|done|].
  - eapply arch_frame_trans; [by apply (arch_frame_desc s)|].
    eapply arch_frame_trans; [by apply arch_frame_console|].
    eapply arch_frame_trans; [by apply arch_frame_desc|].
    apply arch_frame_event. by apply set_desc_console.
  - cbn [desc set_desc on_hw]. rewrite Ed. reflexivity.
Qed.

Lemma wp_gdt_init s (Q : unit → kstate → Prop) H :
  console_ok s → zlen (gdt (desc s)) = GDT_ENTRIES →
  (∀ s', arch_frame s s' → task_register (events (hw s')) = 0x18 →
     Lgdt (sym_gdtp (syms s)) ∈ events (hw s') →
     desc s' = with_gdtp (GdtPtr (8 * GDT_ENTRIES - 1) (sym_gdt (syms s)))
       (with_gdt (gdt_table (sym_tss_df (syms s))) (desc s)) → Q tt s') →
  wp gdt_init Q H s.
Proof.
  intros Hok Hl HQ. unfold gdt_init, set_gdt_entry, gdt_flush. do 2 wp_step.
  do 4 (wp_step; apply wp_store_gdt;
    [cbn [gdt desc set_desc with_gdt]; rewrite ?zlen_insert, Hl; unfold GDT_ENTRIES; lia|]).
  wp_step. apply wp_upd_desc. wp_step. wp_step. rewrite !set_desc_twice.
  wp_step. unfold ltr. change (0x18 / 8) with 3. wp_step.
  apply (wp_load_gdt 3 (make_gdt_entry (sym_tss_df (syms s)) (sizeof_tss - 1) 0x89 0x40)); [lia| |].
  { cbn. unfold zlen, GDT_ENTRIES in Hl.
    destruct (gdt (desc s)) as [|a [|b [|c [|d []]]]]; simpl in Hl; try lia. reflexivity. }
  wp_step. apply wp_store_gdt.
  { cbn [gdt desc set_desc with_gdt with_gdtp on_hw]. rewrite !zlen_insert, Hl. unfold GDT_ENTRIES. lia. }
  wp_steps. set (s1 := on_hw _ _).
  assert (arch_frame s s1) as F1 by (destruct Hok; split; [by split|done..]).
  apply wp_printk; [apply F1|reflexivity|]. intros _ s2 Hok2 F2. wp_step.
  destruct (cf_events _ _ F2) as (evs & Ee & Hev). apply HQ.
  - eapply arch_frame_trans; [exact F1|]. by apply arch_frame_console.
  - rewrite Ee. clear -Hev. induction Hev as [|e evs He _ IH]; [done|]. by destruct e.
  - rewrite Ee. apply elem_of_app. right. right. left.
  - rewrite (cf_desc _ _ F2). unfold zlen, GDT_ENTRIES in Hl. cbn [desc set_desc on_hw s1].
    unfold with_gdt. cbn. destruct (gdt (desc s)) as [|a [|b [|c [|d []]]]]; simpl in Hl; try lia.
    reflexivity.
Qed.

Lemma wp_init_tss s (Q : unit → kstate → Prop) H :
  console_ok s →
  (∀ s', arch_frame s s' → events (hw s') = events (hw s) →
     desc s' = with_tss (tss_init (u32 (sym_double_fault_stack (syms s) + DOUBLE_FAULT_STACK_SIZE))
       (sym_double_fault_handler (syms s)) (cr3 (hw s))) (desc s) → Q tt s') →
  wp init_tss Q H s.
Proof.
  intros Hok HQ. unfold init_tss. wp_step. apply wp_upd_desc. wp_steps. apply wp_upd_desc.
  apply HQ; [|done|done]. by apply (arch_frame_desc s).
Qed.

Lemma wp_update_tss_cr3 s (Q : unit → kstate → Prop) H :
  console_ok s →
  (∀ s', s' = set_desc (with_tss (set_tss_cr3 (cr3 (hw s)) (tss_df (desc s))) (desc s)) s →
     arch_frame s s' → Q tt s') →
  wp update_tss_cr3 Q H s.
Proof.
  intros Hok HQ. unfold update_tss_cr3. wp_steps. apply wp_upd_desc. apply HQ; [done|].
  by apply arch_frame_desc.
Qed.

(** ** The properties of the tables *)

(** What the processor does on vector [n]: nothing (not present), a jump, or a
    task switch. *)
Inductive dispatch :=
  | NotPresent
  | Interrupt (sel offset : Z)
  | Task (sel : Z)
  | Other.

Definition dispatch_of (e : idt_entry) : dispatch :=
  if gate_present e then
    if gate_type e =? 0xE then Interrupt (sel e) (gate_offset e)
    else if gate_type e =? 0x5 then Task (sel e) else Other
  else NotPresent.

(** The interrupt table routes page faults to their handler and double
    faults to a task.  [idt_init] returns with all 256 entries written and the
    register loaded with their extent; vector 14 is an interrupt gate of ring 0
    to [isr_page_fault] in the code segment, vector 8 a task gate to selector
    [0x18], and every other vector is not present; nothing else has changed. *)
Theorem idt_init_gates s :
  console_ok s → zlen (idt (desc s)) = IDT_ENTRIES → symbols_ok (syms s) →
  ∃ s', idt_init s = Ok tt s' ∧ arch_frame s s' ∧
    (∀ n, (n < 256)%nat → ∃ e, idt (desc s') !! n = Some e ∧ gate_dpl e = 0 ∧
       dispatch_of e = if decide (n = 14%nat) then Interrupt 0x08 (sym_isr_page_fault (syms s))
                       else if decide (n = 8%nat) then Task 0x18 else NotPresent) ∧
    idt_ptr (desc s') = IdtPtr (8 * zlen (idt (desc s')) - 1) (sym_idt (syms s)) ∧
    head (events (hw s')) = Some (Lidt (sym_idt_ptr (syms s))) ∧
    gdt (desc s') = gdt (desc s) ∧ tss_df (desc s') = tss_df (desc s).
Proof.
  intros Hok Hl Hy.
  destruct (wp_run idt_init (λ _ s', arch_frame s s' ∧
    head (events (hw s')) = Some (Lidt (sym_idt_ptr (syms s))) ∧
    desc s' = with_idt (idt_table (sym_isr_page_fault (syms s)))
       (with_idt_ptr (IdtPtr (8 * IDT_ENTRIES - 1) (sym_idt (syms s))) (desc s))) s)
    as ([] & s' & E & F & Hev & Ed); [by apply wp_idt_init|].
  exists s'. rewrite Ed. split_and!; [done|done| |done|done|done|done].
  intros n Hn. cbn [idt with_idt]. unfold idt_table.
  assert (0 <= sym_isr_page_fault (syms s) < 2 ^ 32) as Hisr.
  { unfold symbols_ok in Hy. rewrite !Forall_cons in Hy. tauto. }
  destruct (decide (n = 14%nat)) as [->|]; [|destruct (decide (n = 8%nat)) as [->|]].
  - eexists. split; [apply list_lookup_insert_eq; by rewrite length_insert, length_replicate|].
    split; [done|]. transitivity (Interrupt 0x08
      (gate_offset (gate_entry (sym_isr_page_fault (syms s)) 0x08 0x8E))); [done|].
    by rewrite gate_entry_offset.
  - exists (task_gate_entry 0x18). split; [reflexivity|done].
  - exists idt_entry_zero. rewrite !list_lookup_insert_ne by done. split; [|done].
    apply lookup_replicate_2. unfold IDT_ENTRIES. lia.
Qed.

(** A kernel image as the linker script lays it out, at [0x10000]. *)
Definition linked : symbols :=
  Symbols 0x10000 0x1B000 0x18000 0x18800 0x18900 0x18920 0x18940 0x19000 0x10100 0x10200.

Lemma linked_ok : symbols_ok linked.
Proof. repeat constructor; discriminate. Qed.

Lemma idt_init_gates_witness :
  ∃ s', idt_init (boot_state ∅ linked) = Ok tt s' ∧ arch_frame (boot_state ∅ linked) s' ∧
    (∀ n, (n < 256)%nat → ∃ e, idt (desc s') !! n = Some e ∧ gate_dpl e = 0 ∧
       dispatch_of e = if decide (n = 14%nat) then Interrupt 0x08 0x10100
                       else if decide (n = 8%nat) then Task 0x18 else NotPresent) ∧
    idt_ptr (desc s') = IdtPtr (8 * zlen (idt (desc s')) - 1) 0x18000 ∧
    head (events (hw s')) = Some (Lidt 0x18800) ∧
    gdt (desc s') = gdt (desc (boot_state ∅ linked)) ∧
    tss_df (desc s') = tss_df (desc (boot_state ∅ linked)).
Proof.
  apply (idt_init_gates (boot_state ∅ linked)).
  - apply boot_state_console.
  - reflexivity.
  - exact linked_ok.
Defined.

(** A segment as the processor reads it: base, last byte offset, the access
    byte's present bit, code/data bit and type. *)
Definition segment (e : gdt_entry) : Z * Z * bool * bool * Z :=
  (gdt_entry_base e, gdt_entry_last e, Z.testbit (Descriptors.access e) 7,
   Z.testbit (Descriptors.access e) 4, Z.land (Descriptors.access e) 0x0F).

(** The segments are flat and the task register is valid.  [gdt_init]
    returns with four descriptors: null, a code segment (type [0xA]) and a data
    segment (type 2) that both cover all 2^32 bytes from 0, and a busy
    32-bit task state segment (type 11) whose base is [tss_df] and whose limit is
    its last byte; the register is loaded with the table's extent, and the task
    register holds the selector of the fourth. *)
Theorem gdt_init_segments s :
  console_ok s → zlen (gdt (desc s)) = GDT_ENTRIES → symbols_ok (syms s) →
  ∃ s', gdt_init s = Ok tt s' ∧ arch_frame s s' ∧
    (segment <$> gdt (desc s')) =
      [(0, 0, false, false, 0); (0, 2 ^ 32 - 1, true, true, 0xA); (0, 2 ^ 32 - 1, true, true, 2);
       (sym_tss_df (syms s), sizeof_tss - 1, true, false, 11)] ∧
    gdtp (desc s') = GdtPtr (8 * zlen (gdt (desc s')) - 1) (sym_gdt (syms s)) ∧
    Lgdt (sym_gdtp (syms s)) ∈ events (hw s') ∧
    task_register (events (hw s')) = 8 * 3 ∧ idt (desc s') = idt (desc s).
Proof.
  intros Hok Hl Hy.
  destruct (wp_run gdt_init (λ _ s', arch_frame s s' ∧ task_register (events (hw s')) = 0x18 ∧
    Lgdt (sym_gdtp (syms s)) ∈ events (hw s') ∧
    desc s' = with_gdtp (GdtPtr (8 * GDT_ENTRIES - 1) (sym_gdt (syms s)))
       (with_gdt (gdt_table (sym_tss_df (syms s))) (desc s))) s)
    as ([] & s' & E & F & Htr & Hld & Ed); [by apply wp_gdt_init|].
  exists s'. rewrite Ed. split_and!; [done|done| |done|done|done|done].
  cbn [gdt with_gdtp with_gdt]. unfold gdt_table. cbn [fmap list_fmap].
  assert (0 <= sym_tss_df (syms s) < 2 ^ 32) as Htss.
  { unfold symbols_ok in Hy. rewrite !Forall_cons in Hy. tauto. }
  do 3 f_equal. unfold segment at 1.
  rewrite set_busy_base, make_gdt_entry_base by done. reflexivity.
Qed.

Lemma gdt_init_segments_witness :
  ∃ s', gdt_init (boot_state ∅ linked) = Ok tt s' ∧ arch_frame (boot_state ∅ linked) s' ∧
    (segment <$> gdt (desc s')) =
      [(0, 0, false, false, 0); (0, 2 ^ 32 - 1, true, true, 0xA); (0, 2 ^ 32 - 1, true, true, 2);
       (0x18940, sizeof_tss - 1, true, false, 11)] ∧
    gdtp (desc s') = GdtPtr (8 * zlen (gdt (desc s')) - 1) 0x18900 ∧
    Lgdt 0x18920 ∈ events (hw s') ∧
    task_register (events (hw s')) = 8 * 3 ∧ idt (desc s') = idt (desc (boot_state ∅ linked)).
Proof.
  apply (gdt_init_segments (boot_state ∅ linked)).
  - apply boot_state_console.
  - reflexivity.
  - exact linked_ok.
Defined.

(** The calls of [kernel_main] that prepare the double-fault task. *)
Definition arch_setup : M unit := idt_init;; init_tss;; gdt_init.

(** C30: the double-fault task is wired completely but cannot be entered, since
    its descriptor is busy.  After
    the setup calls of [kernel_main] in their order, and [update_tss_cr3] once
    paging is on, the gate of vector 8 selects the fourth descriptor, whose base
    is the task state [tss_df] and whose limit covers it; that state starts at
    [double_fault_handler], with EFLAGS [0x202], at the top of the 4096 bytes of
    the double-fault stack, in the code and data segments of the table, and with
    the page directory in use.  But [gdt_init] loads the task register with the
    same selector, which makes the descriptor busy, and a task gate to a busy
    task is refused. *)
Theorem double_fault_task_wired s :
  console_ok s → tables_sized s → symbols_ok (syms s) →
  ∃ s', (arch_setup;; update_tss_cr3) s = Ok tt s' ∧
    (∃ e d, idt (desc s') !! 8%nat = Some e ∧ dispatch_of e = Task (8 * 3) ∧
       gdt (desc s') !! 3%nat = Some d ∧ gdt_entry_base d = sym_tss_df (syms s) ∧
       gdt_entry_last d = sizeof_tss - 1 ∧ tss_available d = false) ∧
    tss_df (desc s') = tss_init (u32 (sym_double_fault_stack (syms s) + 4096))
      (sym_double_fault_handler (syms s)) (cr3 (hw s)) ∧
    (∃ c d, gdt (desc s') !! Z.to_nat (tss_cs (tss_df (desc s')) / 8) = Some c ∧
       Z.land (Descriptors.access c) 0x0F = 0xA ∧
       gdt (desc s') !! Z.to_nat (tss_ss (tss_df (desc s')) / 8) = Some d ∧
       Z.land (Descriptors.access d) 0x0F = 2) ∧
    tss_cr3 (tss_df (desc s')) = cr3 (hw s') ∧ arch_frame s s'.
Proof.
  intros Hok [Hi Hg] Hy.
  assert (0 <= sym_tss_df (syms s) < 2 ^ 32) as Htss.
  { unfold symbols_ok in Hy. rewrite !Forall_cons in Hy. tauto. }
  destruct (wp_run (arch_setup;; update_tss_cr3) (λ _ s', arch_frame s s' ∧
    idt (desc s') = idt_table (sym_isr_page_fault (syms s)) ∧
    gdt (desc s') = gdt_table (sym_tss_df (syms s)) ∧
    tss_df (desc s') = tss_init (u32 (sym_double_fault_stack (syms s) + 4096))
      (sym_double_fault_handler (syms s)) (cr3 (hw s))) s) as ([] & s' & E & F & Ei & Eg & Et).
  { wp_step. unfold arch_setup. wp_step. apply wp_idt_init; [done..|]. intros s1 F1 _ E1.
    pose proof (af_console _ _ F1). pose proof (af_syms _ _ F1) as Y1. pose proof (af_cr3 _ _ F1) as C1.
    wp_step. apply wp_init_tss; [done|]. intros s2 F2 _ E2.
    pose proof (af_console _ _ F2). pose proof (af_syms _ _ F2) as Y2. pose proof (af_cr3 _ _ F2) as C2.
    apply wp_gdt_init; [done|by rewrite E2, E1|]. intros s3 F3 _ _ E3.
    pose proof (af_console _ _ F3). pose proof (af_cr3 _ _ F3) as C3.
    apply wp_update_tss_cr3; [done|]. intros s4 -> F4.
    split; [by do 3 (eapply arch_frame_trans; [done|])|].
    cbn [desc set_desc]. rewrite E3, E2, E1, Y2, Y1, C1, C3, C2, C1. done. }
  exists s'. rewrite Ei, Eg, Et. split_and!; [done| |done| | |done].
  - eexists _, _. split; [reflexivity|]. split; [reflexivity|]. split; [reflexivity|].
    split; [by apply make_gdt_entry_base|split; reflexivity].
  - eexists _, _. by split_and!.
  - by rewrite (af_cr3 _ _ F).
Qed.

Lemma double_fault_task_wired_witness :
  ∃ s', (arch_setup;; update_tss_cr3) (boot_state ∅ linked) = Ok tt s' ∧
    (∃ e d, idt (desc s') !! 8%nat = Some e ∧ dispatch_of e = Task (8 * 3) ∧
       gdt (desc s') !! 3%nat = Some d ∧ gdt_entry_base d = 0x18940 ∧
       gdt_entry_last d = sizeof_tss - 1 ∧ tss_available d = false) ∧
    tss_df (desc s') = tss_init (u32 (0x19000 + 4096)) 0x10200 0 ∧
    (∃ c d, gdt (desc s') !! Z.to_nat (tss_cs (tss_df (desc s')) / 8) = Some c ∧
       Z.land (Descriptors.access c) 0x0F = 0xA ∧
       gdt (desc s') !! Z.to_nat (tss_ss (tss_df (desc s')) / 8) = Some d ∧
       Z.land (Descriptors.access d) 0x0F = 2) ∧
    tss_cr3 (tss_df (desc s')) = cr3 (hw s') ∧ arch_frame (boot_state ∅ linked) s'.
Proof.
  apply (double_fault_task_wired (boot_state ∅ linked)).
  - apply boot_state_console.
  - split; reflexivity.
  - exact linked_ok.
Defined.
