(* ===== verification/PageFault.v ===== *)
(** * Page faults: [kernel/memory/page_fault.c] and [isr_page_fault.asm]

    The stub saves the registers on the stack and passes its address to the
    handler, which maps a frame for a fault in the kernel heap or just below
    the stack pointer, and otherwise reports the fault and halts.  The guard
    page below the stack has a branch of its own. *)

From Stdlib Require Import ZArith Lia String.
From stdpp Require Import base gmap list.
From S2P Require Import Prelude RingBuf Format Descriptors Machine State Vga Printk Panik MemoryMap Frame Pmm PmmProps Paging PagingProps.

(** From [pmm.h] *)
Definition KERNEL_HEAP_START : Z := 0xC1000000.
Definition KERNEL_HEAP_END : Z := 0xC2000000.
Definition KERNEL_STACK_TOP_VIRT : Z := 0xC3000000.
Definition KERNEL_STACK_BOTTOM_VIRT : Z := KERNEL_STACK_TOP_VIRT - 0x10000.

(** The offsets of the fields of [page_fault_stack_t] the handler reads: [ds],
    the eight registers of [pusha] from [edi] to [eax], [int_no], [error_code],
    [eip], ... *)
Definition frame_esp : Z := 4 * 4.
Definition frame_error_code : Z := 10 * 4.
Definition frame_eip : Z := 11 * 4.

(** ** The stub *)

(** The registers the model keeps elsewhere ([esp], [ebp], EFLAGS.IF) apart. *)
Record regs := Regs {
  r_eax : Z; r_ecx : Z; r_edx : Z; r_ebx : Z; r_esi : Z; r_edi : Z;
  r_ds : Z; r_es : Z; r_fs : Z; r_gs : Z;
}.

Definition push (v : Z) : M unit :=
  sp ← gets (λ s, esp (hw s));
  let sp := u32 (sp - 4) in
  store32 sp v;;
  modify (on_hw (set_esp sp)).

Fixpoint push_all (vs : list Z) : M unit :=
  match vs with
  | [] => mret tt
  | v :: vs => push v;; push_all vs
  end.

(** The first half of [isr_page_fault] saves the registers ([pusha]) and the
    segment selectors and passes the stack pointer. *)
Definition isr_page_fault_save (r : regs) : M Z :=
  cli;;
  sp ← gets (λ s, esp (hw s));
  bp ← gets (λ s, ebp (hw s));
  push_all [r_eax r; r_ecx r; r_edx r; r_ebx r; sp; bp; r_esi r; r_edi r];;
  push_all [r_ds r; r_es r; r_fs r; r_gs r];;
  frame ← gets (λ s, esp (hw s));
  push frame;;
  mret frame.

(** Before it, the processor pushes EFLAGS, CS, EIP and the error code. *)
Definition isr_page_fault_entry (r : regs) (eflags cs eip error : Z) : M Z :=
  push_all [eflags; cs; eip; error];;
  isr_page_fault_save r.

(** ** The handler *)

(** White on red, as the guard-page branch writes it. *)
Definition overflow_text : list Z := C "STACK OVERFLOW DETECTED!".

(** [for (i = 0; msg[i] != '\0'; i++) vga[i] = 0x4F00 | msg[i]] *)
Fixpoint overflow_message (i : Z) (msg : list Z) : M unit :=
  match msg with
  | [] => mret tt
  | c :: msg => store16 (0xB8000 + 2 * i) (Z.lor 0x4F00 c);; overflow_message (i + 1) msg
  end.

(** Mapping a new frame for the fault, the body of both recovering branches. *)
Definition map_fault_page `{FrameAllocator} (fault_address : Z) (oom : M unit) : M unit :=
  new_frame ← fa_alloc;
  (if new_frame =? 0 then oom else mret tt);;
  paging_map_page fault_address new_frame (Z.lor PAGE_PRESENT PAGE_WRITE).

(** The report of an unhandled fault; it ends in the [hlt] loop. *)
Definition report_bit (frame mask : Z) (set : bool) (fmt : list Z) : M unit :=
  error_code ← load32 (frame + frame_error_code);
  if Bool.eqb (flag error_code mask) set then printk fmt [];; mret tt else mret tt.

Definition report_fault (frame : Z) : M unit :=
  report_bit frame 0x1 false (C "[PAGE FAULT] Page not present.\n");;
  report_bit frame 0x2 true (C "[PAGE FAULT] Write access.\n");;
  report_bit frame 0x4 true (C "[PAGE FAULT] User mode access.\n");;
  report_bit frame 0x8 true (C "[PAGE FAULT] Reserved bit set.\n");;
  report_bit frame 0x10 true (C "[PAGE FAULT] Instruction fetch.\n");;
  halt.

Definition STACK_GROWTH_GAP : Z := 32.

(** The branch for the guard page: a red screen, the message, and a store
    through a null pointer. *)
Definition guard_page_alarm : M unit :=
  for_ (Z.to_nat (80 * 25)) 0 (λ i, store16 (0xB8000 + 2 * i) 0x4F20);;
  overflow_message 0 overflow_text;;
  store32 0x00000000 123.

(** What follows it. *)
Definition handle_fault `{FrameAllocator} (frame esp ebp fault_address : Z) : M unit :=
  error_code ← load32 (frame + frame_error_code);
  eip ← load32 (frame + frame_eip);
  printk (C "[PAGE FAULT] at address: 0x%x, error code: 0x%x [eip=0x%x, esp=0x%x, ebp=0x%x]\n")
    [AWord fault_address; AWord error_code; AWord eip; AWord esp; AWord ebp];;
  if (KERNEL_HEAP_START <=? fault_address) && (fault_address <? KERNEL_HEAP_END) then
    printk (C "[PAGE FAULT] Address within kernel heap region: allocating and mapping new page.\n") [];;
    map_fault_page fault_address
      (panik (C "Out of memory: Unable to allocate frame for page fault at address 0x%x")
         [AWord fault_address])
  else
    grows ←
      (if (KERNEL_STACK_BOTTOM_VIRT + PAGE_SIZE <=? fault_address)
          && (fault_address <? KERNEL_STACK_TOP_VIRT) then
         sp ← load32 (frame + frame_esp);
         mret ((u32 (sp - STACK_GROWTH_GAP) <=? fault_address) && (fault_address <? sp))
       else mret false);
    if (grows : bool) then
      sp ← load32 (frame + frame_esp);
      printk (C "[PF] Stack growth: mapping new stack page at 0x%x (esp=0x%x)\n")
        [AWord fault_address; AWord sp];;
      map_fault_page fault_address (panik (C "Out of memory in stack PF recovery") [])
    else report_fault frame.

Definition page_fault_handler `{FrameAllocator} (frame : Z) : M unit :=
  cli;;
  esp ← gets (λ s, esp (hw s));
  ebp ← gets (λ s, ebp (hw s));
  fault_address ← gets (λ s, cr2 (hw s));
  (if (KERNEL_STACK_BOTTOM_VIRT <=? fault_address)
      && (fault_address <? KERNEL_STACK_BOTTOM_VIRT + PAGE_SIZE) then guard_page_alarm
   else mret tt);;
  handle_fault frame esp ebp fault_address.

(** ** The saved frame *)

(** The stack between [lo] and [hi] is mapped at a fixed distance, whatever is
    written to it. *)
Definition stack_maps (lo hi d : Z) (s : kstate) : Prop :=
  ∀ m, only_in (lo + d) (hi + d) (mem (hw s)) m →
    ∀ a, lo <= a < hi → resolve (hw (with_mem s m)) a = Some (a + d).

(** [s'] is [s] with the words [vs] pushed. *)
Record pushed (d : Z) (s : kstate) (vs : list Z) (s' : kstate) : Prop := {
  pu_esp : esp (hw s') = esp (hw s) - 4 * zlen vs;
  pu_mem : only_in (esp (hw s') + d) (esp (hw s) + d) (mem (hw s)) (mem (hw s'));
  pu_word : ∀ k v, vs !! k = Some v →
    rd32 (mem (hw s')) (esp (hw s) - 4 * (Z.of_nat k + 1) + d) = u32 v;
  pu_cr0 : cr0 (hw s') = cr0 (hw s);
  pu_cr3 : cr3 (hw s') = cr3 (hw s);
  pu_ebp : ebp (hw s') = ebp (hw s);
  pu_iflag : iflag (hw s') = iflag (hw s);
  pu_cr2 : cr2 (hw s') = cr2 (hw s);
  pu_rest : pmm s' = pmm s ∧ log s' = log s ∧ vga s' = vga s ∧ desc s' = desc s ∧ syms s' = syms s;
}.

Lemma resolve_agree h h' va :
  mem h' = mem h → cr0 h' = cr0 h → cr3 h' = cr3 h → resolve h' va = resolve h va.
Proof. intros E0 E1 E2. unfold resolve, paging_on. by rewrite E0, E1, E2. Qed.

Lemma stack_maps_pushed lo hi d s s' :
  stack_maps lo hi d s → only_in (lo + d) (hi + d) (mem (hw s)) (mem (hw s')) →
  cr0 (hw s') = cr0 (hw s) → cr3 (hw s') = cr3 (hw s) → stack_maps lo hi d s'.
Proof.
  intros Hs Hm E0 E3 m Hm' a Ha. rewrite <- (Hs m) by (done || by etrans). by apply resolve_agree.
Qed.

Lemma stack_maps_resolve lo hi d s a :
  stack_maps lo hi d s → lo <= a < hi → resolve (hw s) a = Some (a + d).
Proof. intros Hs Ha. rewrite <- (Hs (mem (hw s))) by done. by apply resolve_agree. Qed.

Lemma pushed_nil d s : pushed d s [] s.
Proof. split; try done. zlen_lia. Qed.

Lemma pushed_app d s1 vs s2 ws s3 :
  pushed d s1 vs s2 → pushed d s2 ws s3 → pushed d s1 (vs ++ ws) s3.
Proof.
  intros [E1 M1 W1 ? ? ? ? ? R1] [E2 M2 W2 ? ? ? ? ? R2].
  pose proof (zlen_nonneg vs). pose proof (zlen_nonneg ws).
  split; [rewrite E2, E1; zlen_lia| | |congruence..|intuition congruence].
  - intros a Ha. rewrite M2, M1 by lia. done.
  - intros k v [Hk|[Hk Hv]]%lookup_app_Some.
    + pose proof (lookup_lt_Some _ _ _ Hk). unfold zlen in *.
      rewrite (only_in_rd32 _ _ _ _ _ M2) by lia. by apply W1.
    + rewrite <- (W2 _ _ Hv), E1. f_equal. unfold zlen. lia.
Qed.

Lemma pushed_maps lo hi d s vs s' :
  stack_maps lo hi d s → pushed d s vs s' → lo <= esp (hw s') → esp (hw s) <= hi →
  stack_maps lo hi d s'.
Proof.
  intros Hs [] Hlo Hhi. apply (stack_maps_pushed _ _ _ s); [done| |done|done].
  intros a Ha. apply pu_mem0. lia.
Qed.

Lemma wp_push lo hi d v s (Q : unit → kstate → Prop) P :
  stack_maps lo hi d s → 0 <= lo → hi < 2 ^ 32 → lo + 4 <= esp (hw s) <= hi →
  (∀ s', pushed d s [v] s' → Q tt s') → wp (push v) Q P s.
Proof.
  intros Hs Hlo Hhi Hsp HQ. unfold push. do 2 wp_step. cbv zeta.
  rewrite u32_small by lia. wp_step.
  eapply wp_store32; [apply (stack_maps_resolve lo hi d); [done|lia]|]. wp_step. apply HQ.
  split; try done.
  - apply only_in_wr32; cbn; lia.
  - intros k w Hk. destruct k as [|k]; [|done]. injection Hk as ->. cbn.
    replace (esp (hw s) - 4 * 1 + d) with (esp (hw s) - 4 + d) by lia. apply rd32_wr32_eq.
Qed.

Lemma wp_push_all lo hi d vs s (Q : unit → kstate → Prop) P :
  stack_maps lo hi d s → 0 <= lo → hi < 2 ^ 32 → lo + 4 * zlen vs <= esp (hw s) <= hi →
  (∀ s', pushed d s vs s' → Q tt s') → wp (push_all vs) Q P s.
Proof.
  revert s. induction vs as [|v vs IH]; intros s Hs Hlo Hhi Hsp HQ; simpl.
  { wp_step. apply HQ, pushed_nil. }
  rewrite zlen_cons in Hsp. pose proof (zlen_nonneg vs). wp_step.
  apply (wp_push lo hi d); [done|lia|lia|lia|]. intros s1 H1.
  assert (esp (hw s1) = esp (hw s) - 4) as E1.
  { rewrite (pu_esp _ _ _ _ H1), zlen_cons, zlen_nil. lia. }
  apply IH; [by apply (pushed_maps lo hi d s [v]); [done|done|lia|lia]|lia|lia|lia|].
  intros s2 H2. apply HQ. change (v :: vs) with ([v] ++ vs). by eapply pushed_app.
Qed.

(** The words the stub pushes. *)
Definition saved_words (r : regs) (sp bp : Z) : list Z :=
  [r_eax r; r_ecx r; r_edx r; r_ebx r; sp; bp; r_esi r; r_edi r] ++
  [r_ds r; r_es r; r_fs r; r_gs r].

Lemma wp_isr_save lo hi d r s (Q : Z → kstate → Prop) P :
  stack_maps lo hi d s → 0 <= lo → hi < 2 ^ 32 → lo + 52 <= esp (hw s) <= hi →
  (∀ s', pushed d (on_hw (set_iflag false) s)
           (saved_words r (esp (hw s)) (ebp (hw s)) ++ [esp (hw s) - 48]) s' →
     Q (esp (hw s) - 48) s') →
  wp (isr_page_fault_save r) Q P s.
Proof.
  intros Hs Hlo Hhi Hsp HQ. unfold isr_page_fault_save.
  do 2 wp_step. set (s1 := on_hw _ (on_hw _ s)).
  assert (stack_maps lo hi d s1) as Hs1 by (by apply (stack_maps_pushed _ _ _ s)).
  do 4 wp_step. change (esp (hw s1)) with (esp (hw s)). change (ebp (hw s1)) with (ebp (hw s)).
  wp_step. apply (wp_push_all lo hi d); [done|lia|lia|cbn; unfold zlen; simpl; lia|]. intros s2 H2.
  assert (esp (hw s2) = esp (hw s) - 32) as E2.
  { rewrite (pu_esp _ _ _ _ H2). unfold zlen. simpl. lia. }
  pose proof (pushed_maps lo hi d s1 _ s2 Hs1 H2 ltac:(lia) ltac:(cbn; lia)) as Hs2.
  wp_step. apply (wp_push_all lo hi d); [done|lia|lia|rewrite E2; unfold zlen; simpl; lia|].
  intros s3 H3.
  assert (esp (hw s3) = esp (hw s) - 48) as E3.
  { rewrite (pu_esp _ _ _ _ H3), E2. unfold zlen. simpl. lia. }
  pose proof (pushed_maps lo hi d s2 _ s3 Hs2 H3 ltac:(lia) ltac:(lia)) as Hs3.
  do 3 wp_step. apply (wp_push lo hi d); [done|lia|lia|lia|]. intros s4 H4. wp_step.
  rewrite E3 in *. apply HQ. unfold saved_words. rewrite <- app_assoc.
  assert (pushed d s1 ([r_eax r; r_ecx r; r_edx r; r_ebx r; esp (hw s); ebp (hw s); r_esi r; r_edi r]
    ++ [r_ds r; r_es r; r_fs r; r_gs r] ++ [esp (hw s) - 48]) s4) as [].
  { eapply pushed_app; [exact H2|]. by eapply pushed_app. }
  by split.
Qed.

(** All the words of the frame, in the order they are pushed. *)
Definition frame_words (r : regs) (eflags cs eip error sp bp : Z) : list Z :=
  [eflags; cs; eip; error] ++ saved_words r sp bp.

Lemma pushed_iflag d s vs s' b :
  pushed d s vs s' → pushed d (on_hw (set_iflag b) s) vs (on_hw (set_iflag b) s').
Proof. intros []. by split. Qed.

Lemma pushed_frame d r eflags cs eip error s s1 s2 :
  pushed d s [eflags; cs; eip; error] s1 →
  pushed d (on_hw (set_iflag false) s1)
    (saved_words r (esp (hw s1)) (ebp (hw s1)) ++ [esp (hw s1) - 48]) s2 →
  pushed d (on_hw (set_iflag false) s)
    (frame_words r eflags cs eip error (esp (hw s) - 16) (ebp (hw s)) ++ [esp (hw s) - 64]) s2.
Proof.
  intros H1 H2. assert (esp (hw s1) = esp (hw s) - 16) as E1.
  { rewrite (pu_esp _ _ _ _ H1). unfold zlen. simpl. lia. }
  rewrite E1, (pu_ebp _ _ _ _ H1) in H2.
  replace (esp (hw s) - 16 - 48) with (esp (hw s) - 64) in H2 by lia.
  unfold frame_words. rewrite <- app_assoc. eapply pushed_app; [|exact H2]. by apply pushed_iflag.
Qed.

Lemma wp_isr_entry lo hi d r eflags cs eip error s (Q : Z → kstate → Prop) P :
  stack_maps lo hi d s → 0 <= lo → hi < 2 ^ 32 → lo + 68 <= esp (hw s) <= hi →
  (∀ s', pushed d (on_hw (set_iflag false) s)
           (frame_words r eflags cs eip error (esp (hw s) - 16) (ebp (hw s)) ++ [esp (hw s) - 64]) s' →
     Q (esp (hw s) - 64) s') →
  wp (isr_page_fault_entry r eflags cs eip error) Q P s.
Proof.
  intros Hs Hlo Hhi Hsp HQ. unfold isr_page_fault_entry. wp_step.
  apply (wp_push_all lo hi d); [done|lia|lia|unfold zlen; simpl; lia|]. intros s1 H1.
  assert (esp (hw s1) = esp (hw s) - 16) as E1 by (rewrite (pu_esp _ _ _ _ H1); unfold zlen; simpl; lia).
  pose proof (pushed_maps lo hi d s _ s1 Hs H1 ltac:(lia) ltac:(lia)) as Hs1.
  apply (wp_isr_save lo hi d); [done|lia|lia|lia|]. intros s2 H2.
  replace (esp (hw s1) - 48) with (esp (hw s) - 64) by lia. apply HQ. by apply (pushed_frame _ _ _ _ _ _ _ s1).
Qed.

(** ** Demand paging *)

Section demand.
Context `{FrameAllocator}.

(** Frames for the page and, if there is no table yet, for the table. *)
Definition frames_for (s : kstate) (va : Z) : Prop :=
  ∃ i, fa_free s i ∧ (pde_present s (pd_index va) = true ∨
    ∃ j, fa_free s j ∧ i < j < 1024).

(** The frames a repair takes: the page's and, perhaps, the table's. *)
Definition two_taken (s : kstate) (i : Z) (s' : kstate) : Prop :=
  ∃ j, ∀ k, fa_free s' k ↔ fa_free s k ∧ k ≠ i ∧ k ≠ j.

(** The page of [va] is mapped to the frame [i], which was free. *)
Record demand_mapped (s : kstate) (va i : Z) (s' : kstate) : Prop := {
  dm_free : fa_free s i;
  dm_frame : map_frame s s';
  dm_walk : remapped s va (λ va', Some (4096 * i + va' mod 4096)) s';
  dm_private : ∀ k, 0 <= k < 1024 → pde_present s' k = true → pde_frame s' k ≠ i;
  dm_taken : ¬ fa_free s' i;
  dm_cost : two_taken s i s';
}.

(** Bytes that do not matter to pager and allocator: those of the first
    megabyte outside the tables and the allocator's, and the contents of
    pages. *)
Definition idle (s : kstate) (a : Z) : Prop :=
  (0 <= a < 0x100000 ∧ ¬ page_directory <= a < 0x82000 ∧ ¬ fa_private a) ∨ data_byte s a.

Lemma idle_same s s' a :
  (∀ i, fa_free s' i ↔ fa_free s i) → (∀ k, 0 <= k < 1024 → pde s' k = pde s k) →
  idle s a → idle s' a.
Proof.
  intros Hf Hp [?|(Hlo & Hu & Ht)]; [by left|right]. split_and!; [done|by rewrite Hf|].
  intros k Hk. unfold pde_present, pde_frame. rewrite Hp by done. by apply Ht.
Qed.

Section idle_change.
Context (s s' : kstate) (Hwf : paging_wf s) (Hinv : fa_inv s).
Context (F : same_but (idle s) s s') (Ep : pmm s' = pmm s).

Lemma idle_low a :
  0 <= a < 0x100000 → page_directory <= a < 0x82000 ∨ fa_private a →
  rd8 (mem (hw s')) a = rd8 (mem (hw s)) a.
Proof using F. intros Ha Hb. apply (sb_mem _ _ _ F). intros [Hc|[Hc _]]; [tauto|lia]. Qed.

Lemma idle_pde k : 0 <= k < 1024 → pde s' k = pde s k.
Proof using F.
  intros Hk. apply rd32_agree. intros b Hb. unfold page_directory, PAGE_DIR_START_ADDR in Hb.
  apply idle_low; [lia|]. left. unfold page_directory, PAGE_DIR_START_ADDR. lia.
Qed.

Lemma idle_low_table a : low_table_byte a → rd8 (mem (hw s')) a = rd8 (mem (hw s)) a.
Proof using F.
  unfold low_table_byte. intros Ha. apply idle_low; [lia|]. left.
  unfold page_directory, PAGE_DIR_START_ADDR. lia.
Qed.

Lemma idle_free : fa_inv s' ∧ ∀ i, fa_free s' i ↔ fa_free s i.
Proof using Hwf Hinv F Ep.
  apply fa_stable; [done| |done|].
  - apply (low_mapped_agree (hw s)); [apply F|apply F|apply idle_low_table|by apply paging_low_mapped].
  - intros a Ha. pose proof (fa_private_low a Ha). apply idle_low; [lia|by right].
Qed.

Lemma idle_wf : paging_wf s'.
Proof using Hwf Hinv F Ep.
  destruct idle_free as [_ Hfree]. destruct Hwf as [Hon Hcr3 Hlow Hf Hinj]. split.
  - unfold paging_on in *. by rewrite (sb_cr0 _ _ _ F).
  - by rewrite (sb_cr3 _ _ _ F).
  - by apply (low_tables_agree (mem (hw s)) _ idle_low_table).
  - intros k Hk. unfold pde_present, pde_frame. rewrite idle_pde by lia. intros Hp.
    destruct (Hf k Hk Hp) as [? Hn]. split; [done|]. intros Hc. by apply Hn, Hfree.
  - intros j k Hj Hk. unfold pde_present, pde_frame. rewrite !idle_pde by lia. by apply Hinj.
Qed.

Lemma idle_resolve va : 0 <= va < 2 ^ 32 → resolve (hw s') va = resolve (hw s) va.
Proof using Hwf Hinv F Ep.
  intros Hva. rewrite !paging_resolve by (done || apply idle_wf).
  pose proof (pd_index_range va Hva) as Hk. pose proof (pt_index_range va) as Hpt.
  unfold walk, pte, pde_present, pde_frame. rewrite idle_pde by done.
  destruct (Z.testbit (pde s (pd_index va)) 0) eqn:Hp; [|done].
  assert (rd32 (mem (hw s')) (4096 * (pde s (pd_index va) / 4096) + 4 * pt_index va)
    = rd32 (mem (hw s)) (4096 * (pde s (pd_index va) / 4096) + 4 * pt_index va)) as ->; [|done].
  apply rd32_agree. intros b Hb.
  destruct (table_frame s (pd_index va) Hwf Hk Hp) as [[_ Hf]|[_ Hf]]; unfold pde_frame in Hf.
  - apply idle_low_table. unfold low_table_byte. lia.
  - apply (sb_mem _ _ _ F). intros [[Hc _]|(_ & _ & Hd)]; [lia|].
    apply (Hd (pd_index va) Hk Hp). unfold pde_frame. clear -Hb Hpt. zify_mod.
Qed.

Lemma idle_console : console_ok s → log s' = log s → vga s' = vga s → console_ok s'.
Proof using Hwf Hinv F Ep.
  intros [] El Ev. split; rewrite ?El, ?Ev; try done. apply paging_low_mapped, idle_wf.
Qed.

Lemma idle_change :
  paging_wf s' ∧ fa_inv s' ∧ (∀ i, fa_free s' i ↔ fa_free s i) ∧
  (∀ k, 0 <= k < 1024 → pde s' k = pde s k) ∧
  ∀ va, 0 <= va < 2 ^ 32 → resolve (hw s') va = resolve (hw s) va.
Proof using Hwf Hinv F Ep.
  destruct idle_free. split_and!; [apply idle_wf|done|done|exact idle_pde|exact idle_resolve].
Qed.
End idle_change.

(** Mapping a page keeps them, but for the screen. *)
Lemma map_frame_idle s s' a :
  map_frame s s' → idle s a → ¬ in_screen a →
  rd8 (mem (hw s')) a = rd8 (mem (hw s)) a ∧ idle s' a.
Proof.
  intros [_ _ _ F _ Hd] [Hlow|Ha] Hs.
  - split; [|by left]. apply (kf_mem _ _ _ F). unfold map_region, page_directory, PAGE_DIR_START_ADDR in *.
    intros [?|[?|?]]; [tauto..|lia].
  - destruct (Hd a Ha). split; [done|by right].
Qed.

(** The bytes the console and a store through a null pointer write. *)
Definition harmless (a : Z) : Prop := in_screen a ∨ 0 <= a < 4.

Lemma harmless_idle s a : harmless a → idle s a.
Proof.
  intros Ha. left. unfold harmless, in_screen, VGA_ADDRESS, VGA_SIZE, VGA_WIDTH, VGA_HEIGHT in Ha.
  unfold page_directory, PAGE_DIR_START_ADDR. split_and!; [lia..|].
  intros Hp%fa_private_low. lia.
Qed.

Lemma harmless_change s s' :
  paging_wf s → fa_inv s → same_but harmless s s' → pmm s' = pmm s →
  paging_wf s' ∧ fa_inv s' ∧ (∀ i, fa_free s' i ↔ fa_free s i) ∧
  (∀ k, 0 <= k < 1024 → pde s' k = pde s k) ∧
  ∀ va, 0 <= va < 2 ^ 32 → resolve (hw s') va = resolve (hw s) va.
Proof.
  intros Hwf Hinv F Ep. apply idle_change; [done|done| |done].
  by apply (same_but_mono _ _ _ _ (harmless_idle s)).
Qed.

Lemma console_same_but s s' : console_frame s s' → same_but harmless s s'.
Proof. intros []. split; [|done..]. intros a Ha. apply cf_mem. intros ?. apply Ha. by left. Qed.

(** An allocation keeps the pager's invariants. *)
Lemma gave_frame_map_frame s i s1 : paging_wf s → gave_frame s i s1 → map_frame s s1.
Proof.
  intros Hwf (_ & _ & Hinv1 & Hok1 & F1 & Hfree1).
  assert (∀ j, fa_free s1 j → fa_free s j) as Hmono by (intros j [? _]%Hfree1; done).
  split; [by apply (frame_paging_wf _ spares_console s _ Hwf (kframe_same _ _ _ F1))|done|done| |done|].
  - by apply (kframe_mono _ _ _ _ private_map_region).
  - by apply (data_spared _ _ _ spares_console (kframe_same _ _ _ F1)).
Qed.

(** No table lies in the frame just given out. *)
Lemma gave_frame_private s i s1 k :
  paging_wf s → fa_inv s → gave_frame s i s1 → 0 <= k < 1024 → pde_present s1 k = true →
  pde_frame s1 k ≠ i.
Proof.
  intros Hwf Hinv (Hi & _ & _ & _ & F1 & _) Hk. unfold pde_present, pde_frame.
  rewrite (frame_pde _ spares_console s s1 (kframe_same _ _ _ F1)) by done. intros Hp E.
  destruct (table_frame s k Hwf Hk Hp) as [[_ Hf]|[Hk1 _]].
  - pose proof (fa_free_high s i Hinv Hi). unfold pde_frame in Hf. lia.
  - destruct (pg_frame s Hwf k ltac:(lia) Hp) as [_ Hn]. apply Hn. unfold pde_frame. by rewrite E.
Qed.

Lemma wp_map_fault_page s va oom (Q : unit → kstate → Prop) P :
  paging_wf s → fa_inv s → console_ok s → LOW_END <= va < 2 ^ 32 → frames_for s va →
  (∀ i s', demand_mapped s va i s' → Q tt s') → wp (map_fault_page va oom) Q P s.
Proof.
  intros Hwf Hinv Hok Hva (f & Hf & Htab) HQ. unfold map_fault_page. wp_step.
  destruct (fa_alloc_run s Hinv Hok) as (p & s1 & E & [(i & -> & Hg)|(-> & Hnone & _)]);
    [|by apply Hnone in Hf].
  eapply wp_ok; [exact E|]. pose proof Hg as (Hi & Hmin & Hinv1 & Hok1 & F1 & Hfree1).
  pose proof (fa_free_high s i Hinv Hi) as Hhi. pose proof (Hmin f Hf) as Hif.
  destruct (Z.eqb_spec (4096 * i) 0); [lia|]. wp_step. wp_step.
  pose proof (gave_frame_map_frame s i s1 Hwf Hg) as MF1. pose proof (mf_paging _ _ MF1) as Hwf1.
  pose proof (va_index va Hva) as Hk.
  change (Z.lor PAGE_PRESENT PAGE_WRITE) with 3.
  apply wp_paging_map_page; [done|done|done|done|lia| |].
  { destruct Htab as [Hp|(j & Hj & Hlt)].
    - left. unfold pde_present. rewrite (frame_pde _ spares_console s s1 (kframe_same _ _ _ F1)) by lia. exact Hp.
    - right. exists j. split; [|lia]. apply Hfree1. split; [done|lia]. }
  intros s2 [MF2 Hw _ Hcost Htabs]. apply (HQ i). split.
  - done.
  - by eapply map_frame_trans.
  - intros va' Hva'. rewrite Hw by done.
    replace (4096 * i / 4096) with i by (clear; zify_mod).
    change (Z.testbit 3 0) with true. cbv iota. case_decide; [done|].
    rewrite !paging_resolve by done. by apply (frame_walk _ spares_console s s1 Hwf (kframe_same _ _ _ F1)).
  - intros k Hkr Hp. destruct (Htabs k Hkr Hp) as [Epde|Hfr].
    + assert (pde_frame s2 k = pde_frame s1 k) as -> by (unfold pde_frame; by rewrite Epde).
      apply (gave_frame_private s i s1 k); [done..|]. unfold pde_present in *. by rewrite <- Epde.
    + intros Ei. rewrite Ei in Hfr. by apply Hfree1 in Hfr as [_ ?].
  - intros Hc. by apply (mf_free _ _ MF2), Hfree1 in Hc as [_ ?].
  - unfold table_cost in Hcost. destruct (pde_present s1 _).
    + exists i. intros k. rewrite Hcost, Hfree1. tauto.
    + destruct Hcost as (j & _ & Hj). exists j. intros k. rewrite Hj, Hfree1. tauto.
Qed.

(** A word written to a used frame that holds no table is a harmless change,
    and it is read back. *)
Definition frame_store (i va v : Z) (s : kstate) : kstate :=
  upd_mem (λ m, wr32 m (4096 * i + va mod 4096) v) s.

Section frame_store.
Context (s : kstate) (i va v : Z) (Hwf : paging_wf s) (Hinv : fa_inv s).
Context (Hi : 256 <= i) (Hu : ¬ fa_free s i).
Context (Hpriv : ∀ k, 0 <= k < 1024 → pde_present s k = true → pde_frame s k ≠ i).
Context (Hoff : va mod 4096 <= 4092).

Lemma frame_store_byte a :
  a / 4096 ≠ i → rd8 (mem (hw (frame_store i va v s))) a = rd8 (mem (hw s)) a.
Proof using Hoff.
  intros Ha. apply rd8_wr32_ne. clear -Ha Hoff. zify_mod.
Qed.

Lemma frame_store_idle : same_but (idle s) s (frame_store i va v s).
Proof using Hi Hu Hpriv Hoff.
  split; [|done..]. intros a Ha. destruct (decide (a / 4096 = i)) as [Ea|]; [|by apply frame_store_byte].
  destruct Ha. right. unfold data_byte. rewrite Ea. split_and!; [clear -Hi Ea; zify_mod|done..].
Qed.

Lemma frame_store_run :
  0 <= va < 2 ^ 32 → resolve (hw s) va = Some (4096 * i + va mod 4096) →
  store32 va v s = Ok tt (frame_store i va v s) ∧
  load32 va (frame_store i va v s) = Ok (u32 v) (frame_store i va v s).
Proof using All.
  intros Hva Hres. split.
  - unfold store32, State.access. by rewrite Hres.
  - unfold load32, State.access.
    rewrite (idle_resolve s _ Hwf Hinv frame_store_idle eq_refl va Hva), Hres.
    unfold frame_store. cbn. by rewrite rd32_wr32_eq.
Qed.
End frame_store.
End demand.

(** ** The handler *)

Definition readable (s : kstate) (a : Z) : Prop :=
  0 <= a < 2 ^ 32 ∧ is_Some (resolve (hw s) a).

(** The state after [cli]. *)
Definition interrupts_off (s : kstate) : kstate :=
  on_hw (push_event Cli) (on_hw (set_iflag false) s).

Lemma interrupts_off_same s : same_but harmless s (interrupts_off s).
Proof. by split. Qed.

Lemma interrupts_off_console s : console_ok s → console_ok (interrupts_off s).
Proof. by intros []. Qed.

Lemma wp_load_readable s a (Q : Z → kstate → Prop) P :
  readable s a → (∀ v, Q v s) → wp (load32 a) Q P s.
Proof. intros [_ [pa Hres]] HQ. by eapply wp_load32. Qed.

Section handler.
Context `{FrameAllocator}.

Lemma console_pager s s' :
  paging_wf s → fa_inv s → console_frame s s' →
  paging_wf s' ∧ fa_inv s' ∧ (∀ i, fa_free s' i ↔ fa_free s i) ∧
  (∀ k, 0 <= k < 1024 → pde s' k = pde s k) ∧
  ∀ va, 0 <= va < 2 ^ 32 → resolve (hw s') va = resolve (hw s) va.
Proof.
  intros Hwf Hinv F. apply harmless_change; [done..|by apply console_same_but|apply (cf_pmm _ _ F)].
Qed.

Lemma frames_for_same s s' va :
  (∀ i, fa_free s' i ↔ fa_free s i) → (∀ k, 0 <= k < 1024 → pde s' k = pde s k) →
  0 <= va < 2 ^ 32 → frames_for s va → frames_for s' va.
Proof.
  intros Hf Hp Hva (i & Hi & Ht). exists i. split; [by apply Hf|].
  destruct Ht as [Ht|(j & Hj & ?)]; [left|right].
  - unfold pde_present. by rewrite Hp by by apply pd_index_range.
  - exists j. split; [by apply Hf|done].
Qed.

(** What a recovered fault leaves, seen from the faulting state. *)
Record recovered (s : kstate) (va i : Z) (s' : kstate) : Prop := {
  rc_free : fa_free s i;
  rc_walk : remapped s va (λ va', Some (4096 * i + va' mod 4096)) s';
  rc_private : ∀ k, 0 <= k < 1024 → pde_present s' k = true → pde_frame s' k ≠ i;
  rc_taken : ¬ fa_free s' i;
  rc_cost : two_taken s i s';
  rc_iflag : iflag (hw s') = false;
  rc_paging : paging_wf s';
  rc_inv : fa_inv s';
  rc_console : console_ok s';
  rc_kept : ∀ a, idle s a → ¬ harmless a → rd8 (mem (hw s')) a = rd8 (mem (hw s)) a;
  rc_idle : ∀ a, idle s a → idle s' a;
  rc_esp : esp (hw s') = esp (hw s);
  rc_ebp : ebp (hw s') = ebp (hw s);
  rc_rest : desc s' = desc s ∧ syms s' = syms s;
}.

(** The tail of both recovering branches: a message, then the mapping. *)
Lemma wp_recover s0 s va fmt args oom (Q : unit → kstate → Prop) P :
  paging_wf s0 → fa_inv s0 → same_but harmless s0 s → pmm s = pmm s0 → console_ok s →
  iflag (hw s) = false → esp (hw s) = esp (hw s0) → ebp (hw s) = ebp (hw s0) →
  desc s = desc s0 → syms s = syms s0 →
  LOW_END <= va < 2 ^ 32 → frames_for s0 va → message_ok fmt args = true →
  (∀ i s', recovered s0 va i s' → Q tt s') →
  wp (printk fmt args;; map_fault_page va oom) Q P s.
Proof.
  intros Hwf0 Hinv0 Hsame Hpmm Hok Hif Hesp Hebp Hdesc Hsyms Hva Hfr Hmsg HQ. wp_step.
  apply wp_printk; [done..|]. intros _ s1 Hok1 F1.
  assert (same_but harmless s0 s1) as Hsame1 by (etrans; [exact Hsame|by apply console_same_but]).
  destruct (harmless_change s0 s1 Hwf0 Hinv0) as (Hwf1 & Hinv1 & Hfree1 & Hpde1 & Hres1); [done| |].
  { by rewrite (cf_pmm _ _ F1). }
  apply wp_map_fault_page; [done..| |].
  { by apply (frames_for_same s0); [done|done|unfold LOW_END in *; lia|]. }
  intros i s2 [Hi MF Hw Hpriv Ht [j Hj]]. apply (HQ i). pose proof MF as [? ? ? F2 _ _].
  split; [by apply Hfree1| |done|done| | |done..| | | | |].
  - intros va' Hva'. rewrite Hw by done. case_decide; [done|]. by apply Hres1.
  - exists j. intros k. by rewrite Hj, Hfree1.
  - by rewrite (kf_iflag _ _ _ F2), (cf_iflag _ _ F1).
  - intros a Ha Hh. pose proof (idle_same _ _ _ Hfree1 Hpde1 Ha) as Ha1.
    destruct (map_frame_idle s1 s2 a MF Ha1) as [-> _]; [|by apply (sb_mem _ _ _ Hsame1)].
    intros Hs. apply Hh. by left.
  - intros a Ha. destruct (decide (in_screen a)); [by apply harmless_idle; left|].
    apply (map_frame_idle s1 s2 a MF); [by apply (idle_same s0)|done].
  - by rewrite (kf_esp _ _ _ F2), (cf_esp _ _ F1).
  - by rewrite (kf_ebp _ _ _ F2), (cf_ebp _ _ F1).
  - by rewrite (kf_desc _ _ _ F2), (cf_desc _ _ F1), (kf_syms _ _ _ F2), (cf_syms _ _ F1).
Qed.

Lemma wp_handler_heap frame s va (Q : unit → kstate → Prop) P :
  paging_wf s → fa_inv s → console_ok s → cr2 (hw s) = va →
  KERNEL_HEAP_START <= va < KERNEL_HEAP_END → frames_for s va →
  readable s (frame + frame_error_code) → readable s (frame + frame_eip) →
  (∀ i s', recovered s va i s' → Q tt s') →
  wp (page_fault_handler frame) Q P s.
Proof.
  intros Hwf Hinv Hok Hcr2 Hva Hfr Hr1 Hr2 HQ. unfold page_fault_handler.
  do 8 wp_step. fold (interrupts_off s).
  change (cr2 (hw (interrupts_off s))) with (cr2 (hw s)). rewrite Hcr2.
  destruct (Z.leb_spec KERNEL_STACK_BOTTOM_VIRT va) as [Hb|_];
    [unfold KERNEL_STACK_BOTTOM_VIRT, KERNEL_STACK_TOP_VIRT, KERNEL_HEAP_END in *; lia|].
  cbn [andb]. do 2 wp_step. unfold handle_fault.
  do 2 (wp_step; apply wp_load_readable; [done|]; intros ?). wp_step.
  apply wp_printk; [by apply interrupts_off_console|reflexivity|]. intros _ s1 Hok1 F1.
  destruct (Z.leb_spec KERNEL_HEAP_START va), (Z.ltb_spec va KERNEL_HEAP_END);
    unfold KERNEL_HEAP_START, KERNEL_HEAP_END in *; try lia. cbn [andb].
  apply (wp_recover s); [done|done| | |done| | | | | |unfold LOW_END; lia|done|reflexivity|done].
  - etrans; [apply interrupts_off_same|by apply console_same_but].
  - apply (cf_pmm _ _ F1).
  - apply (cf_iflag _ _ F1).
  - apply (cf_esp _ _ F1).
  - apply (cf_ebp _ _ F1).
  - apply (cf_desc _ _ F1).
  - apply (cf_syms _ _ F1).
Qed.

(** C12: a fault in the kernel heap is repaired.  For every address of the heap,
    with two free frames below 4 MB (or one, if a table exists), the handler
    returns with the page of the address mapped to a frame that was free and
    holds no table, every other translation of the address space unchanged,
    interrupts disabled and all invariants restored; and the access that
    faulted then succeeds: a word stored at the address is read back. *)
Theorem heap_fault_repaired frame s va :
  paging_wf s → fa_inv s → console_ok s → cr2 (hw s) = va →
  KERNEL_HEAP_START <= va < KERNEL_HEAP_END → frames_for s va →
  readable s (frame + frame_error_code) → readable s (frame + frame_eip) →
  ∃ i s', page_fault_handler frame s = Ok tt s' ∧ fa_free s i ∧
    (∀ va', 0 <= va' < 2 ^ 32 → resolve (hw s') va' =
       if decide (va' / 4096 = va / 4096) then Some (4096 * i + va' mod 4096)
       else resolve (hw s) va') ∧
    iflag (hw s') = false ∧ paging_wf s' ∧ fa_inv s' ∧ console_ok s' ∧
    (∀ v, va mod 4096 <= 4092 →
       ∃ s'', store32 va v s' = Ok tt s'' ∧ load32 va s'' = Ok (u32 v) s'').
Proof.
  intros Hwf Hinv Hok Hcr2 Hva Hfr Hr1 Hr2.
  destruct (wp_run (page_fault_handler frame) (λ _ s', ∃ i, recovered s va i s') s)
    as ([] & s' & E & i & [Hi Hw Hpriv Ht _ Hif Hwf' Hinv' Hok' _ _ _ _ _]).
  { apply (wp_handler_heap frame s va); [done..|]. intros i s' Hs'. by exists i. }
  exists i, s'. split_and!; [done..|]. intros v Hoff.
  assert (0 <= va < 2 ^ 32) as Hva' by (unfold KERNEL_HEAP_START, KERNEL_HEAP_END in Hva; lia).
  exists (frame_store i va v s'). apply frame_store_run; [done|done| |done|done|done|done|].
  - pose proof (fa_free_high s i Hinv Hi). lia.
  - rewrite Hw by done. by rewrite decide_True.
Qed.

(** ** Faults that are not repaired *)

(** Nothing differs but the console and bytes of [R]. *)
Record reported (R : Z → Prop) (s s' : kstate) : Prop := {
  rp_same : same_but R s s';
  rp_pmm : pmm s' = pmm s;
  rp_iflag : iflag (hw s') = iflag (hw s);
  rp_console : console_ok s';
}.

Lemma reported_trans R s1 s2 s3 : reported R s1 s2 → reported R s2 s3 → reported R s1 s3.
Proof. intros [] []. split; [by etrans|congruence..|done]. Qed.

Lemma reported_refl R s : console_ok s → reported R s s.
Proof. by split. Qed.

Lemma reported_console s s' : console_ok s' → console_frame s s' → reported in_screen s s'.
Proof. intros Hok []. by split. Qed.

Lemma reported_harmless s s' : reported in_screen s s' → reported harmless s s'.
Proof. intros []. split; [|done..]. eapply same_but_mono; [|done]. by left. Qed.

Lemma reported_change s s' :
  paging_wf s → fa_inv s → reported harmless s s' →
  paging_wf s' ∧ fa_inv s' ∧ ∀ va, 0 <= va < 2 ^ 32 → resolve (hw s') va = resolve (hw s) va.
Proof.
  intros Hwf Hinv [Hsame Hpmm _ _].
  by destruct (harmless_change s s') as (? & ? & _ & _ & ?).
Qed.

Lemma reported_readable s s' a :
  paging_wf s → fa_inv s → reported harmless s s' → readable s a → readable s' a.
Proof.
  intros Hwf Hinv Hrep [Ha Hr]. destruct (reported_change s s') as (_ & _ & Hres); [done..|].
  split; [done|]. by rewrite Hres.
Qed.

Lemma wp_report_bit s0 s frame mask set fmt (Q : unit → kstate → Prop) P :
  paging_wf s0 → fa_inv s0 → readable s0 (frame + frame_error_code) → reported in_screen s0 s →
  message_ok fmt [] = true → (∀ s', reported in_screen s s' → Q tt s') →
  wp (report_bit frame mask set fmt) Q P s.
Proof.
  intros Hwf Hinv Hr Hs Hmsg HQ. unfold report_bit. wp_step.
  apply wp_load_readable; [by apply (reported_readable s0); [..|apply reported_harmless|]|]. intros v.
  pose proof (rp_console _ _ _ Hs) as Hok. destruct (Bool.eqb _ _).
  - wp_step. apply wp_printk; [done..|]. intros _ s' Hok' F. wp_step.
    apply HQ. by apply reported_console.
  - wp_step. apply HQ. by apply reported_refl.
Qed.

Lemma wp_report_fault s0 s frame (Q : unit → kstate → Prop) (P : kstate → Prop) :
  paging_wf s0 → fa_inv s0 → readable s0 (frame + frame_error_code) → reported in_screen s0 s →
  (∀ s', reported in_screen s s' → P s') → wp (report_fault frame) Q P s.
Proof.
  intros Hwf Hinv Hr Hs HP. unfold report_fault.
  do 5 (wp_step; apply (wp_report_bit s0); [done|done|done| |reflexivity|];
    [repeat (eassumption || eapply reported_trans)|intros ? ?]).
  apply HP. repeat (eassumption || eapply reported_trans).
Qed.

Definition in_guard_page (va : Z) : Prop :=
  KERNEL_STACK_BOTTOM_VIRT <= va < KERNEL_STACK_BOTTOM_VIRT + 4096.

Definition in_stack (va : Z) : Prop :=
  KERNEL_STACK_BOTTOM_VIRT + 4096 <= va < KERNEL_STACK_TOP_VIRT.

(** Outside the heap and the stack everything after the guard branch only
    reports. *)
Lemma wp_handle_fault_report s0 s frame sp bp va (Q : unit → kstate → Prop) (P : kstate → Prop) :
  paging_wf s0 → fa_inv s0 → readable s0 (frame + frame_error_code) →
  readable s0 (frame + frame_eip) → reported in_screen s0 s →
  ¬ KERNEL_HEAP_START <= va < KERNEL_HEAP_END → ¬ in_stack va →
  (∀ s', reported in_screen s s' → P s') → wp (handle_fault frame sp bp va) Q P s.
Proof.
  intros Hwf Hinv Hr1 Hr2 Hs Hheap Hstack HP. unfold handle_fault.
  do 2 (wp_step; apply wp_load_readable; [by apply (reported_readable s0); [..|apply reported_harmless|]|]; intros ?). wp_step.
  apply wp_printk; [apply Hs|reflexivity|]. intros _ s1 Hok1 F1.
  assert ((KERNEL_HEAP_START <=? va) && (va <? KERNEL_HEAP_END) = false) as ->.
  { apply not_true_is_false. intros [?%Z.leb_le ?%Z.ltb_lt]%andb_prop. by apply Hheap. }
  assert ((KERNEL_STACK_BOTTOM_VIRT + PAGE_SIZE <=? va) && (va <? KERNEL_STACK_TOP_VIRT) = false) as ->.
  { apply not_true_is_false. intros [?%Z.leb_le ?%Z.ltb_lt]%andb_prop. by apply Hstack. }
  do 2 wp_step. pose proof (reported_console _ _ Hok1 F1) as H1.
  apply (wp_report_fault s0); [done..|by eapply reported_trans|].
  intros s2 H2. apply HP. by eapply reported_trans.
Qed.

(** Stores of half-words on the screen. *)
Lemma wp_screen16 s m off v (Q : unit → kstate → Prop) P :
  low_mapped (hw s) → screen_only (mem (hw s)) m → 0 <= off <= VGA_SIZE - 2 →
  (∀ m', screen_only (mem (hw s)) m' → Q tt (with_mem s m')) →
  wp (store16 (0xB8000 + off) v) Q P (with_mem s m).
Proof.
  intros Hlow Hm Hoff HQ. unfold VGA_SIZE, VGA_WIDTH, VGA_HEIGHT in *.
  apply wp_store16_low; [by apply low_mapped_with_mem|unfold LOW_END; lia|].
  apply (HQ (wr16 m (0xB8000 + off) v)). intros a Ha. rewrite rd8_wr16_ne; [by apply Hm|].
  unfold in_screen, VGA_ADDRESS, VGA_SIZE, VGA_WIDTH, VGA_HEIGHT in Ha. lia.
Qed.

Lemma wp_overflow_message s m i msg (Q : unit → kstate → Prop) P :
  low_mapped (hw s) → screen_only (mem (hw s)) m → 0 <= i → i + zlen msg <= 2000 →
  (∀ m', screen_only (mem (hw s)) m' → Q tt (with_mem s m')) →
  wp (overflow_message i msg) Q P (with_mem s m).
Proof.
  intros Hlow. revert i m. induction msg as [|c msg IH]; intros i m Hm Hi Hlen HQ; simpl.
  { wp_step. by apply HQ. }
  rewrite zlen_cons in Hlen. pose proof (zlen_nonneg msg). wp_step.
  apply wp_screen16; [done|done|unfold VGA_SIZE, VGA_WIDTH, VGA_HEIGHT; lia|].
  intros m' Hm'. apply IH; [done|lia|lia|done].
Qed.

Lemma wp_guard_page_alarm s (Q : unit → kstate → Prop) P :
  console_ok s → paging_wf s →
  (∀ s', reported harmless s s' → rd32 (mem (hw s')) 0 = 123 → Q tt s') → wp guard_page_alarm Q P s.
Proof.
  intros Hok Hwf HQ. pose proof (co_low _ Hok) as Hlow. unfold guard_page_alarm. wp_step.
  apply (wp_for _ _ _ (λ _ s', ∃ m, s' = with_mem s m ∧ screen_only (mem (hw s)) m)).
  - exists (mem (hw s)). by rewrite with_mem_id.
  - intros i s' Hi (m & -> & Hm). change (Z.of_nat (Z.to_nat (80 * 25))) with 2000 in Hi.
    apply wp_screen16; [done|done|unfold VGA_SIZE, VGA_WIDTH, VGA_HEIGHT; lia|].
    intros m' Hm'. by exists m'.
  - intros s1 (m & -> & Hm). wp_step.
    apply wp_overflow_message; [done|done|lia|by vm_compute|]. intros m' Hm'.
    apply wp_store32_low; [by apply low_mapped_with_mem|unfold LOW_END; lia|].
    apply HQ; [|apply rd32_wr32_eq]. split; [|done|done|].
    + split; [|done..]. intros a Ha. unfold harmless in Ha. cbn.
      rewrite rd8_wr32_ne by lia. apply Hm'. tauto.
    + destruct Hok. split; [done..|].
      apply (low_mapped_agree (hw (with_mem s m'))); [done..| |by apply low_mapped_with_mem].
      intros a Ha. cbn. apply rd8_wr32_ne. unfold low_table_byte in Ha. lia.
Qed.

(** After [cli], the report of a fault that is not repaired. *)
Lemma reported_interrupts_off R s :
  console_ok s → reported R (interrupts_off s) (interrupts_off s).
Proof. intros Hok. by apply reported_refl, interrupts_off_console. Qed.

Lemma interrupts_off_pager s :
  paging_wf s → fa_inv s →
  paging_wf (interrupts_off s) ∧ fa_inv (interrupts_off s) ∧
  ∀ va, resolve (hw (interrupts_off s)) va = resolve (hw s) va.
Proof.
  intros Hwf Hinv. destruct (harmless_change s (interrupts_off s)) as (? & ? & _);
    [done|done|apply interrupts_off_same|done|]. split_and!; [done..|].
  intros va. by apply resolve_agree.
Qed.

Lemma halted_run {A} (m : M A) (P : kstate → Prop) s :
  wp m (λ _ _, False) P s → ∃ s', m s = Halted s' ∧ P s'.
Proof. unfold wp. destruct (m s); [done|eauto|done..]. Qed.

(** ** The text of a report *)

(** A word of the frame, off the screen. *)
Definition frame_word (s : kstate) (a v : Z) : Prop :=
  0 <= a < 2 ^ 32 ∧ ∃ pa, resolve (hw s) a = Some pa ∧ rd32 (mem (hw s)) pa = v ∧
    ∀ b, pa <= b < pa + 4 → ¬ in_screen b.

Definition fault_header (va error eip esp ebp : Z) : list Z :=
  C "[PAGE FAULT] at address: 0x" ++ hex_str va ++ C ", error code: 0x" ++ hex_str error ++
  C " [eip=0x" ++ hex_str eip ++ C ", esp=0x" ++ hex_str esp ++ C ", ebp=0x" ++ hex_str ebp ++ C "]\n".

(** A line for every bit of the error code that says something. *)
Definition fault_cause (error : Z) : list Z :=
  (if Z.testbit error 0 then [] else C "[PAGE FAULT] Page not present.\n") ++
  (if Z.testbit error 1 then C "[PAGE FAULT] Write access.\n" else []) ++
  (if Z.testbit error 2 then C "[PAGE FAULT] User mode access.\n" else []) ++
  (if Z.testbit error 3 then C "[PAGE FAULT] Reserved bit set.\n" else []) ++
  (if Z.testbit error 4 then C "[PAGE FAULT] Instruction fetch.\n" else []).

Lemma hex_str_nul_free w : nul_free (hex_str w).
Proof.
  destruct (num_str_numeral 16 (u32 w)) as (_ & Hd & _); [lia|apply u32_range|].
  eapply Forall_impl; [exact Hd|]. intros c [Hv E]. rewrite <- E. unfold digit_char.
  change (ch "0") with 48. change (ch "a") with 97. clear -Hv. destruct (_ <? 10); zify_mod.
Qed.

Lemma format_fault_header va error eip esp ebp :
  let txt := fault_header va error eip esp ebp in
  my_vsnprintf LOG_BUF_SIZE
    (C "[PAGE FAULT] at address: 0x%x, error code: 0x%x [eip=0x%x, esp=0x%x, ebp=0x%x]\n")
    [AWord va; AWord error; AWord eip; AWord esp; AWord ebp] = FOk txt ∧ c_str txt = txt.
Proof.
  intros txt. pose proof hex_str_nul_free as Hnul. unfold nul_free in Hnul. split.
  - rewrite (my_vsnprintf_render LOG_BUF_SIZE _ _
      ((Lit <$> C "[PAGE FAULT] at address: 0x") ++ Conv (ch " ") 0 (ch "x") ::
       (Lit <$> C ", error code: 0x") ++ Conv (ch " ") 0 (ch "x") ::
       (Lit <$> C " [eip=0x") ++ Conv (ch " ") 0 (ch "x") ::
       (Lit <$> C ", esp=0x") ++ Conv (ch " ") 0 (ch "x") ::
       (Lit <$> C ", ebp=0x") ++ Conv (ch " ") 0 (ch "x") :: (Lit <$> C "]\n")) txt);
      [|done|reflexivity| |reflexivity|by left].
    + rewrite ztake_ge; [done|]. unfold txt, fault_header. rewrite !zlen_app.
      pose proof (zlen_hex_str va). pose proof (zlen_hex_str error). pose proof (zlen_hex_str eip).
      pose proof (zlen_hex_str esp). pose proof (zlen_hex_str ebp). unfold LOG_BUF_SIZE.
      repeat match goal with |- context [zlen (C ?s)] =>
        let n := eval vm_compute in (zlen (C s)) in change (zlen (C s)) with n end. lia.
    + transitivity (Some (C "[PAGE FAULT] at address: 0x" ++ padded (ch " ") 0 (hex_str va) ++
        C ", error code: 0x" ++ padded (ch " ") 0 (hex_str error) ++
        C " [eip=0x" ++ padded (ch " ") 0 (hex_str eip) ++ C ", esp=0x" ++
        padded (ch " ") 0 (hex_str esp) ++ C ", ebp=0x" ++ padded (ch " ") 0 (hex_str ebp) ++ C "]\n"));
        [reflexivity|]. by rewrite !padded_none.
  - apply c_str_id. unfold txt, fault_header. rewrite !Forall_app. split_and!; try apply Hnul;
      apply (bool_decide_unpack _); reflexivity.
Qed.

(** A frame word stays what it is while messages are printed. *)
Lemma wp_load_frame s0 txt s a v (Q : Z → kstate → Prop) P :
  paging_wf s0 → fa_inv s0 → frame_word s0 a v → wrote s0 txt s → Q v s → wp (load32 a) Q P s.
Proof.
  intros Hwf Hinv (Ha & pa & Hres & Hv & Hoff) (Hok & F & _) HQ.
  pose proof (reported_console _ _ Hok F) as Hrep.
  destruct (reported_change s0 s Hwf Hinv (reported_harmless _ _ Hrep)) as (_ & _ & Hsame).
  apply (wp_load32 a pa); [by rewrite Hsame|].
  assert (rd32 (mem (hw s)) pa = v) as ->; [|done]. rewrite <- Hv. apply rd32_agree.
  intros b Hb. by apply (cf_mem _ _ F), Hoff.
Qed.

Lemma wp_report_bit_text s0 txt s frame e bit mask set fmt line (Q : unit → kstate → Prop) P :
  paging_wf s0 → fa_inv s0 → frame_word s0 (frame + frame_error_code) e → wrote s0 txt s →
  0 <= bit → mask = Z.shiftl 1 bit → split_level fmt = (None, fmt) → c_str fmt = fmt →
  my_vsnprintf LOG_BUF_SIZE fmt [] = FOk fmt →
  line = (if Bool.eqb (Z.testbit e bit) set then fmt else []) →
  (∀ s', wrote s0 (txt ++ line) s' → Q tt s') →
  wp (report_bit frame mask set fmt) Q P s.
Proof.
  intros Hwf Hinv He Hs Hbit -> El Ec Ef -> HQ. unfold report_bit. wp_step.
  apply (wp_load_frame s0 txt s _ e); [done..|]. unfold flag. rewrite land_shiftl_1, negb_involutive by done.
  destruct (Bool.eqb _ _).
  - wp_step. apply (wp_printk_wrote _ _ fmt s0 txt); [done..|]. intros _ s' Hs'. wp_step. by apply HQ.
  - wp_step. apply HQ. by rewrite app_nil_r.
Qed.

Lemma wp_report_fault_text s0 txt s frame e (Q : unit → kstate → Prop) (P : kstate → Prop) :
  paging_wf s0 → fa_inv s0 → frame_word s0 (frame + frame_error_code) e → wrote s0 txt s →
  (∀ s', wrote s0 (txt ++ fault_cause e) s' → P s') → wp (report_fault frame) Q P s.
Proof.
  intros Hwf Hinv He Hs HP. unfold report_fault.
  wp_step. eapply (wp_report_bit_text s0 _ _ _ e 0); [done..|reflexivity|]. intros s1 H1.
  wp_step. eapply (wp_report_bit_text s0 _ _ _ e 1); [done..|reflexivity|]. intros s2 H2.
  wp_step. eapply (wp_report_bit_text s0 _ _ _ e 2); [done..|reflexivity|]. intros s3 H3.
  wp_step. eapply (wp_report_bit_text s0 _ _ _ e 3); [done..|reflexivity|]. intros s4 H4.
  wp_step. eapply (wp_report_bit_text s0 _ _ _ e 4); [done..|reflexivity|]. intros s5 H5.
  apply HP. rewrite <- !app_assoc in H5. unfold fault_cause.
  by destruct (Z.testbit e 0), (Z.testbit e 1), (Z.testbit e 2), (Z.testbit e 3), (Z.testbit e 4).
Qed.

(** Below the stack pointer, within the gap, the stack grows. *)
Definition stack_grows (sp va : Z) : Prop := in_stack va ∧ u32 (sp - STACK_GROWTH_GAP) <= va < sp.

(** The handler after its guard branch, where it repairs nothing. *)
Lemma wp_handle_fault_text s0 frame va e eip fsp sp bp (Q : unit → kstate → Prop) (P : kstate → Prop) :
  paging_wf s0 → fa_inv s0 → console_ok s0 →
  frame_word s0 (frame + frame_error_code) e → frame_word s0 (frame + frame_eip) eip →
  frame_word s0 (frame + frame_esp) fsp →
  ¬ KERNEL_HEAP_START <= va < KERNEL_HEAP_END → ¬ stack_grows fsp va →
  (∀ s', wrote s0 (fault_header va e eip sp bp ++ fault_cause e) s' → P s') →
  wp (handle_fault frame sp bp va) Q P s0.
Proof.
  intros Hwf Hinv Hok He Hip Hsp Hheap Hgrow HP. pose proof (wrote_nothing s0 Hok) as H0.
  assert ((KERNEL_HEAP_START <=? va) && (va <? KERNEL_HEAP_END) = false) as Eheap.
  { apply not_true_is_false. intros [?%Z.leb_le ?%Z.ltb_lt]%andb_prop. by apply Hheap. }
  assert ((KERNEL_STACK_BOTTOM_VIRT + PAGE_SIZE <=? va) && (va <? KERNEL_STACK_TOP_VIRT) = true →
    (u32 (fsp - STACK_GROWTH_GAP) <=? va) && (va <? fsp) = false) as Egrow.
  { intros [Hlo%Z.leb_le Hhi%Z.ltb_lt]%andb_prop. apply not_true_is_false.
    intros [?%Z.leb_le ?%Z.ltb_lt]%andb_prop. apply Hgrow. split; [by split|done]. }
  unfold handle_fault. wp_step. apply (wp_load_frame s0 [] s0 _ e); [done..|].
  wp_step. apply (wp_load_frame s0 [] s0 _ eip); [done..|].
  destruct (format_fault_header va e eip sp bp) as [Ef Ec].
  wp_step. eapply wp_printk_wrote; [exact H0|reflexivity|exact Ec|exact Ef|]. intros _ s1 H1. rewrite app_nil_l in H1.
  rewrite Eheap. clear Ef Ec Eheap Hheap Hgrow.
  wp_step. eapply (wp_post _ (λ b s', b = false ∧ s' = s1)).
  - destruct ((KERNEL_STACK_BOTTOM_VIRT + PAGE_SIZE <=? va) && (va <? KERNEL_STACK_TOP_VIRT));
      [|by wp_step].
    wp_step. apply (wp_load_frame s0 _ s1 _ fsp _ _ Hwf Hinv Hsp H1). wp_step.
    exact (conj (Egrow eq_refl) eq_refl).
  - intros _ _ [-> ->]. exact (wp_report_fault_text s0 _ s1 frame e _ _ Hwf Hinv He H1 HP).
Qed.

(** C31: any other fault stops the kernel and is reported.  A fault outside the
    heap and the guard page, and outside the part of the stack range that the
    handler takes for growth, ends in the [hlt] loop with interrupts disabled:
    the handler never returns to the faulting instruction.  To the log and, in
    white, to the screen it has written the line with the address, the words it
    takes for error code and return address and the two stack registers, and
    then one line for the clear bit 0 and for each set bit 1 to 4 of that error
    code, and nothing else.  Nothing is mapped and no frame is taken; only the
    screen's memory is written.  (The frame lies off the screen.) *)
Theorem unhandled_fault_halts frame s va e eip fsp :
  paging_wf s → fa_inv s → console_ok s → cr2 (hw s) = va →
  frame_word s (frame + frame_error_code) e → frame_word s (frame + frame_eip) eip →
  frame_word s (frame + frame_esp) fsp →
  ¬ KERNEL_HEAP_START <= va < KERNEL_HEAP_END → ¬ in_guard_page va → ¬ stack_grows fsp va →
  ∃ s', page_fault_handler frame s = Halted s' ∧ iflag (hw s') = false ∧
    contents (log s') = lastn log_capacity (contents (log s) ++
      fault_header va e eip (esp (hw s)) (ebp (hw s)) ++ fault_cause e) ∧
    term_of s' = term_print WHITE_ON_BLACK (term_of s)
      (fault_header va e eip (esp (hw s)) (ebp (hw s)) ++ fault_cause e) ∧
    (∀ va', 0 <= va' < 2 ^ 32 → resolve (hw s') va' = resolve (hw s) va') ∧
    (∀ a, ¬ in_screen a → rd8 (mem (hw s')) a = rd8 (mem (hw s)) a) ∧ pmm s' = pmm s.
Proof.
  intros Hwf Hinv Hok Hcr2 He Hip Hsp Hheap Hguard Hgrow.
  destruct (interrupts_off_pager s Hwf Hinv) as (Hwf0 & Hinv0 & Hres0).
  assert (wp (page_fault_handler frame) (λ _ _, False) (wrote (interrupts_off s)
    (fault_header va e eip (esp (hw s)) (ebp (hw s)) ++ fault_cause e)) s) as Hwp.
  { unfold page_fault_handler. do 8 wp_step. fold (interrupts_off s).
    change (cr2 (hw (interrupts_off s))) with (cr2 (hw s)). rewrite Hcr2.
    destruct (Z.leb_spec KERNEL_STACK_BOTTOM_VIRT va), (Z.ltb_spec va (KERNEL_STACK_BOTTOM_VIRT + PAGE_SIZE));
      [by destruct Hguard|cbn [andb]..]; (do 2 wp_step;
      apply (wp_handle_fault_text (interrupts_off s) frame va e eip fsp); try done;
      by apply interrupts_off_console). }
  apply halted_run in Hwp as (s' & E & Hok' & F & L & T). exists s'.
  pose proof (reported_console _ _ Hok' F) as Hrep.
  destruct (reported_change _ _ Hwf0 Hinv0 (reported_harmless _ _ Hrep)) as (_ & _ & Hres).
  destruct Hrep as [[Hm _ _] Hpmm Hif _]. split_and!; [done|by rewrite Hif|exact L|exact T| |exact Hm|done].
  intros va' Hva'. rewrite Hres by done. apply Hres0.
Qed.

(** C34: the guard page raises no double fault.  The branch for a stack overflow
    means to provoke one by storing through a null pointer, but address 0 is
    identity mapped: the store succeeds and overwrites physical memory, the
    handler goes on with [printk] on the stack it calls corrupted, and ends in
    the ordinary report and [hlt] loop. *)
Theorem guard_page_no_double_fault frame s :
  paging_wf s → fa_inv s → console_ok s → in_guard_page (cr2 (hw s)) →
  readable s (frame + frame_error_code) → readable s (frame + frame_eip) →
  ∃ s', page_fault_handler frame s = Halted s' ∧ iflag (hw s') = false ∧
    rd32 (mem (hw s')) 0 = 123 ∧
    (∀ va', 0 <= va' < 2 ^ 32 → resolve (hw s') va' = resolve (hw s) va').
Proof.
  intros Hwf Hinv Hok Hguard Hr1 Hr2.
  destruct (interrupts_off_pager s Hwf Hinv) as (Hwf0 & Hinv0 & Hres0).
  set (alarmed := λ s', rd32 (mem (hw s')) 0 = 123 ∧ reported harmless (interrupts_off s) s').
  assert (wp (page_fault_handler frame) (λ _ _, False) alarmed s) as Hwp.
  { unfold page_fault_handler. do 8 wp_step. fold (interrupts_off s).
    change (cr2 (hw (interrupts_off s))) with (cr2 (hw s)). pose proof Hguard as Hg.
    unfold in_guard_page in Hg.
    destruct (Z.leb_spec KERNEL_STACK_BOTTOM_VIRT (cr2 (hw s))); [|lia].
    destruct (Z.ltb_spec (cr2 (hw s)) (KERNEL_STACK_BOTTOM_VIRT + PAGE_SIZE)); [|unfold PAGE_SIZE in *; lia].
    cbn [andb]. wp_step. apply wp_guard_page_alarm; [by apply interrupts_off_console|done|].
    intros s1 HA Ew. destruct (reported_change _ _ Hwf0 Hinv0 HA) as (Hwf1 & Hinv1 & _).
    apply (wp_handle_fault_report s1); [done|done| | | | | |].
    - by apply (reported_readable (interrupts_off s)).
    - by apply (reported_readable (interrupts_off s)).
    - by apply reported_refl, HA.
    - unfold KERNEL_STACK_BOTTOM_VIRT, KERNEL_STACK_TOP_VIRT, KERNEL_HEAP_END in *. lia.
    - unfold in_stack. lia.
    - intros s2 HB. split; [|by eapply reported_trans; [|apply reported_harmless]].
      rewrite <- Ew. apply rd32_agree. intros a Ha. destruct HB as [[Hm _ _] _ _ _]. apply Hm.
      unfold in_screen, VGA_ADDRESS. lia. }
  apply halted_run in Hwp as (s' & E & Ew & Hrep). exists s'.
  destruct (reported_change _ _ Hwf0 Hinv0 Hrep) as (_ & _ & Hres).
  split_and!; [done|by rewrite (rp_iflag _ _ _ Hrep)|done|].
  intros va' Hva'. rewrite Hres by done. apply Hres0.
Qed.
End handler.

#[local] Ltac read_word k :=
  match goal with Hread : ∀ k v, _ → _ → load32 _ _ = _ |- load32 ?a _ = Ok (u32 ?v) _ =>
    let E := fresh in
    pose proof (Hread k v eq_refl ltac:(lia)) as E; rewrite <- E; f_equal; lia
  end.

(** C35: the handler reads other words than it means to.  [page_fault_stack_t]
    has a slot for an interrupt number and one selector; the stub pushes no
    number and four selectors.  Run on any mapped stack, the stub returns a frame
    in which [frame->error_code] is the interrupted ECX, [frame->eip] is EAX and
    [frame->esp], which decides on stack growth, is EDI; the error code and the
    return address lie 8 bytes further on. *)
Theorem page_fault_frame_misread lo hi d r eflags cs eip error s :
  stack_maps lo hi d s → 0 <= lo → hi < 2 ^ 32 → lo + 68 <= esp (hw s) <= hi →
  ∃ frame s', isr_page_fault_entry r eflags cs eip error s = Ok frame s' ∧
    load32 (frame + frame_error_code) s' = Ok (u32 (r_ecx r)) s' ∧
    load32 (frame + frame_eip) s' = Ok (u32 (r_eax r)) s' ∧
    load32 (frame + frame_esp) s' = Ok (u32 (r_edi r)) s' ∧
    load32 (frame + frame_error_code + 8) s' = Ok (u32 error) s' ∧
    load32 (frame + frame_eip + 8) s' = Ok (u32 eip) s' ∧
    load32 (esp (hw s')) s' = Ok (u32 frame) s' ∧ iflag (hw s') = false.
Proof.
  intros Hs Hlo Hhi Hsp.
  destruct (wp_run (isr_page_fault_entry r eflags cs eip error) (λ frame s', frame = esp (hw s) - 64 ∧
    pushed d (on_hw (set_iflag false) s)
      (frame_words r eflags cs eip error (esp (hw s) - 16) (ebp (hw s)) ++ [esp (hw s) - 64]) s') s)
    as (frame & s' & E & -> & Hp).
  { by apply (wp_isr_entry lo hi d). }
  assert (esp (hw s') = esp (hw s) - 68) as Esp by (rewrite (pu_esp _ _ _ _ Hp); unfold zlen; simpl; lia).
  assert (stack_maps lo hi d s') as Hs'.
  { eapply (pushed_maps lo hi d (on_hw (set_iflag false) s)); [by apply (stack_maps_pushed _ _ _ s)|exact Hp|lia|cbn; lia]. }
  assert (∀ k v, (frame_words r eflags cs eip error (esp (hw s) - 16) (ebp (hw s))
    ++ [esp (hw s) - 64]) !! k = Some v → (k < 17)%nat →
    load32 (esp (hw s) - 4 * (Z.of_nat k + 1)) s' = Ok (u32 v) s') as Hread.
  { intros k v Hv Hk. unfold load32, State.access.
    rewrite (stack_maps_resolve lo hi d) by (done || lia). f_equal. by apply (pu_word _ _ _ _ Hp). }
  exists (esp (hw s) - 64), s'. rewrite Esp. unfold frame_error_code, frame_eip, frame_esp.
  split_and!; [done| | | | | | |apply (pu_iflag _ _ _ _ Hp)].
  - read_word 5%nat.
  - read_word 4%nat.
  - read_word 11%nat.
  - read_word 3%nat.
  - read_word 2%nat.
  - read_word 16%nat.
Qed.

(** ** A machine that faults *)

(** A fault at [va], on the stack the boot loader sets up; 0x9FB00 - 64 is the
    address of the frame. *)
Definition faulting (va : Z) (s : kstate) : kstate := on_hw (set_esp 0x9FB00) (on_hw (set_cr2 va) s).

Definition fault_frame : Z := 0x9FB00 - 64.

Lemma faulting_ok `{FrameAllocator} va s :
  paging_wf s → fa_inv s → console_ok s →
  paging_wf (faulting va s) ∧ fa_inv (faulting va s) ∧ console_ok (faulting va s).
Proof.
  intros Hwf Hinv []. destruct (harmless_change s (faulting va s)) as (? & ? & _); [done..|].
  by split_and!.
Qed.

Lemma faulting_frames va s : frames_for s va → frames_for (faulting va s) va.
Proof. done. Qed.

Lemma low_stack_maps lo hi s :
  console_ok s → 0x82000 <= lo → hi <= LOW_END → stack_maps lo hi 0 s.
Proof.
  intros [_ _ _ Hlow] Hlo Hhi m Hm a Ha. rewrite Z.add_0_r. apply low_mapped_resolve; [|lia].
  apply (low_mapped_agree (hw s)); [done..| |done].
  intros b Hb. apply Hm. unfold low_table_byte in Hb. lia.
Qed.

Definition fault_machine (va : Z) : kstate := faulting va paged_machine.

Lemma fault_machine_ok va :
  paging_wf (fault_machine va) ∧ fa_inv (fault_machine va) ∧ console_ok (fault_machine va).
Proof. destruct paged_machine_ok as [Hwf Hinv Hok _ _ _ _ _ _ _]. exact (faulting_ok va paged_machine Hwf Hinv Hok). Qed.

Lemma fault_machine_low va a : 0 <= a < LOW_END → resolve (hw (fault_machine va)) a = Some a.
Proof.
  intros Ha. destruct (fault_machine_ok va) as (_ & _ & []). by apply low_mapped_resolve.
Qed.

Lemma fault_machine_readable va off : 0 <= off <= 60 → readable (fault_machine va) (fault_frame + off).
Proof.
  intros Hoff. unfold fault_frame. split; [lia|]. rewrite fault_machine_low by (unfold LOW_END; lia). done.
Qed.

Lemma fault_machine_stack va : stack_maps 0x9F000 0x9FB00 0 (fault_machine va).
Proof. apply low_stack_maps; [apply (fault_machine_ok va)|lia|unfold LOW_END; lia]. Qed.

Lemma fault_machine_frames va : frames_for (fault_machine va) va.
Proof.
  destruct paged_machine_ok as [_ _ _ _ _ _ _ _ _ Hfree].
  assert (frames_for paged_machine va) as Hfr; [|exact (faulting_frames va paged_machine Hfr)].
  exists 256. split; [|right; exists 257; split; [|lia]]; apply Hfree;
    (split; [cbn; lia|vm_compute; reflexivity]).
Qed.

Lemma heap_fault_repaired_witness :
  ∃ i s', page_fault_handler fault_frame (fault_machine 0xC1001234) = Ok tt s' ∧
    fa_free (fault_machine 0xC1001234) i ∧
    (∀ va', 0 <= va' < 2 ^ 32 → resolve (hw s') va' =
       if decide (va' / 4096 = 0xC1001234 / 4096) then Some (4096 * i + va' mod 4096)
       else resolve (hw (fault_machine 0xC1001234)) va') ∧
    iflag (hw s') = false ∧ paging_wf s' ∧ fa_inv s' ∧ console_ok s' ∧
    (∀ v, 0xC1001234 mod 4096 <= 4092 →
       ∃ s'', store32 0xC1001234 v s' = Ok tt s'' ∧ load32 0xC1001234 s'' = Ok (u32 v) s'').
Proof.
  destruct (fault_machine_ok 0xC1001234) as (Hwf & Hinv & Hok).
  refine (heap_fault_repaired fault_frame (fault_machine 0xC1001234) 0xC1001234 Hwf Hinv Hok
    eq_refl _ (fault_machine_frames _) (fault_machine_readable _ _ _) (fault_machine_readable _ _ _)).
  - unfold KERNEL_HEAP_START, KERNEL_HEAP_END. lia.
  - unfold frame_error_code. lia.
  - unfold frame_eip. lia.
Defined.

(** A null-pointer-like access far above everything that is mapped. *)
Lemma unhandled_fault_halts_witness :
  ∃ s', page_fault_handler fault_frame (fault_machine 0xDEADBEEF) = Halted s' ∧
    iflag (hw s') = false ∧
    contents (log s') = lastn log_capacity (contents (log (fault_machine 0xDEADBEEF)) ++
      fault_header 0xDEADBEEF 0 0 0x9FB00 0 ++ C "[PAGE FAULT] Page not present.\n") ∧
    term_of s' = term_print WHITE_ON_BLACK (term_of (fault_machine 0xDEADBEEF))
      (fault_header 0xDEADBEEF 0 0 0x9FB00 0 ++ C "[PAGE FAULT] Page not present.\n") ∧
    (∀ va', 0 <= va' < 2 ^ 32 → resolve (hw s') va' = resolve (hw (fault_machine 0xDEADBEEF)) va') ∧
    (∀ a, ¬ in_screen a → rd8 (mem (hw s')) a = rd8 (mem (hw (fault_machine 0xDEADBEEF))) a) ∧
    pmm s' = pmm (fault_machine 0xDEADBEEF).
Proof.
  destruct (fault_machine_ok 0xDEADBEEF) as (Hwf & Hinv & Hok).
  assert (∀ off, 0 <= off <= 60 → rd32 (mem (hw (fault_machine 0xDEADBEEF))) (fault_frame + off) = 0 →
    frame_word (fault_machine 0xDEADBEEF) (fault_frame + off) 0) as Hword.
  { intros off Hoff E0. unfold fault_frame in *. split; [lia|]. eexists.
    rewrite fault_machine_low by (unfold LOW_END; lia). split_and!; [reflexivity|exact E0|].
    intros b Hb. unfold in_screen, VGA_ADDRESS. lia. }
  refine (unhandled_fault_halts fault_frame (fault_machine 0xDEADBEEF) 0xDEADBEEF 0 0 0 Hwf Hinv Hok
    eq_refl (Hword _ _ _) (Hword _ _ _) (Hword _ _ _) _ _ _).
  - unfold frame_error_code. lia.
  - vm_compute. reflexivity.
  - unfold frame_eip. lia.
  - vm_compute. reflexivity.
  - unfold frame_esp. lia.
  - vm_compute. reflexivity.
  - unfold KERNEL_HEAP_START, KERNEL_HEAP_END. lia.
  - unfold in_guard_page, KERNEL_STACK_BOTTOM_VIRT, KERNEL_STACK_TOP_VIRT. lia.
  - intros [Hs _]. unfold in_stack, KERNEL_STACK_BOTTOM_VIRT, KERNEL_STACK_TOP_VIRT in Hs. lia.
Defined.

Lemma guard_page_no_double_fault_witness :
  ∃ s', page_fault_handler fault_frame (fault_machine 0xC2FF0FFC) = Halted s' ∧
    iflag (hw s') = false ∧ rd32 (mem (hw s')) 0 = 123 ∧
    (∀ va', 0 <= va' < 2 ^ 32 → resolve (hw s') va' = resolve (hw (fault_machine 0xC2FF0FFC)) va').
Proof.
  destruct (fault_machine_ok 0xC2FF0FFC) as (Hwf & Hinv & Hok).
  refine (guard_page_no_double_fault fault_frame (fault_machine 0xC2FF0FFC) Hwf Hinv Hok
    _ (fault_machine_readable _ _ _) (fault_machine_readable _ _ _)).
  - unfold in_guard_page, KERNEL_STACK_BOTTOM_VIRT, KERNEL_STACK_TOP_VIRT. cbn. lia.
  - unfold frame_error_code. lia.
  - unfold frame_eip. lia.
Defined.

Lemma page_fault_frame_misread_witness :
  ∃ frame s', isr_page_fault_entry (Regs 1 2 3 4 5 6 16 16 16 16) 0x202 8 0x10234 2
      (fault_machine 0xC1001234) = Ok frame s' ∧
    load32 (frame + frame_error_code) s' = Ok (u32 2) s' ∧
    load32 (frame + frame_eip) s' = Ok (u32 1) s' ∧
    load32 (frame + frame_esp) s' = Ok (u32 6) s' ∧
    load32 (frame + frame_error_code + 8) s' = Ok (u32 2) s' ∧
    load32 (frame + frame_eip + 8) s' = Ok (u32 0x10234) s' ∧
    load32 (esp (hw s')) s' = Ok (u32 frame) s' ∧ iflag (hw s') = false.
Proof.
  refine (page_fault_frame_misread 0x9F000 0x9FB00 0 (Regs 1 2 3 4 5 6 16 16 16 16)
    0x202 8 0x10234 2 (fault_machine 0xC1001234) (fault_machine_stack _) _ _ _).
  - lia.
  - lia.
  - cbn. lia.
Defined.
