(* ===== verification/Tlb.v ===== *)
(** * The translation cache: why [paging_map_page] ends in [invlpg]

    Elsewhere a linear address is translated by walking the tables.  The
    processor walks them ahead of time or keeps the result, and nothing tells it
    that an entry has been rewritten.  This file adds the cache: at any moment it
    may take up a current translation or drop one ([tlb_move]), [invlpg] drops
    one page ([flush]), and a step of the kernel runs between such moves
    ([cached]).  [Lifts] relates a computation to its version with a cache.
    Staleness is possible only between the store of [paging_map_page] and its
    [invlpg], and only for the page being mapped ([coherent_but]), which no access
    of the function touches; after it the cache is coherent.  So the translations
    of the other files, walked each time, are those the processor uses. *)

From Stdlib Require Import ZArith Lia String.
From stdpp Require Import base gmap list relations.
From S2P Require Import Prelude RingBuf Format Descriptors Machine State Vga Printk Panik MemoryMap Frame Pmm PmmProps Paging PagingProps PageFault.

(** Pages to frames. *)
Abbreviation tlb := (gmap Z Z).

(** A translation through the cache. *)
Definition tlb_lookup (t : tlb) (s : kstate) (va : Z) : option Z :=
  match t !! (va / 4096) with
  | Some f => Some (4096 * f + va mod 4096)
  | None => resolve (hw s) va
  end.

(** Only present translations are cached. *)
Definition current (s : kstate) (p f : Z) : Prop :=
  0 <= p < 2 ^ 20 ∧ resolve (hw s) (4096 * p) = Some (4096 * f).

Inductive tlb_move (s : kstate) : tlb → tlb → Prop :=
  | Tlb_fill t p f : current s p f → tlb_move s t (<[p := f]> t)
  | Tlb_evict t p : tlb_move s t (delete p t).

(** What an event does to the cache. *)
Definition flush (e : event) (t : tlb) : tlb :=
  match e with
  | Invlpg va => delete (va / 4096) t
  | _ => t
  end.

(** ** Computations with a cache

    A relation: the moves of the cache are the processor's choice. *)

Definition T (A : Type) : Type := tlb * kstate → A → tlb * kstate → Prop.

#[global] Instance T_ret : MRet T := λ A a st a' st', a' = a ∧ st' = st.
#[global] Instance T_bind : MBind T := λ A B f m st b st'',
  ∃ a st', m st a st' ∧ f a st' b st''.

(** The events of a step, newest first. *)
Definition new_events (s s' : kstate) : list event :=
  take (length (events (hw s')) - length (events (hw s))) (events (hw s')).

(** A step of the kernel, the cache moving before and after it and following
    its events. *)
Definition cached {A} (m : M A) : T A := λ '(t, s) a '(t', s'),
  m s = Ok a s' ∧
  ∃ t1, rtc (tlb_move s) t t1 ∧ rtc (tlb_move s') (foldr flush t1 (new_events s s')) t'.

Fixpoint for_cached (n : nat) (i : Z) (body : Z → T unit) : T unit :=
  match n with
  | O => mret tt
  | S n => body i;; for_cached n (i + 1) body
  end.

(** [paging_map_page] with a cache that moves between its loads and stores. *)
Definition find_page_table_cached `{FrameAllocator} (pdir_index : Z) : T Z :=
  pde ← cached (load32 (page_directory + 4 * pdir_index));
  if flag pde PAGE_PRESENT then
    pde ← cached (load32 (page_directory + 4 * pdir_index));
    mret (Z.land pde 0xFFFFF000)
  else
    page_table ← cached fa_alloc;
    (if page_table =? 0 then
       cached (panik (C "Out of memory: Unable to allocate frame for new page table") [])
     else mret tt);;
    for_cached (Z.to_nat PAGE_ENTRIES) 0 (λ entry, cached (store32 (page_table + 4 * entry) 0));;
    cached (store32 (page_directory + 4 * pdir_index)
      (Z.lor (Z.lor page_table PAGE_PRESENT) PAGE_WRITE));;
    mret page_table.

Definition paging_map_page_cached `{FrameAllocator} (virtual_addr physical_addr flags : Z) : T unit :=
  let pdir_index := Z.shiftr virtual_addr 22 in
  let ptable_index := Z.land (Z.shiftr virtual_addr 12) 0x03FF in
  page_table ← find_page_table_cached pdir_index;
  cached (store32 (page_table + 4 * ptable_index)
    (Z.lor (Z.land physical_addr 0xFFFFF000) (Z.land flags 0xFFF)));;
  cached (emit (Invlpg virtual_addr)).

(** ** A computation and its version with a cache

    [c] is [m] with a cache: the runs of [c] are the returning run of [m],
    whatever the cache does, and there is one from every cache. *)

Class Lifts {A} (c : T A) (m : M A) : Prop :=
  lifts t s a s' : m s = Ok a s' ↔ ∃ t', c (t, s) a (t', s').

#[global] Instance lifts_cached {A} (m : M A) : Lifts (cached m) m.
Proof.
  intros t s a s'. split; [|by intros (? & ? & _)]. intros E.
  exists (foldr flush t (new_events s s')). split; [done|]. exists t. split; reflexivity.
Qed.

#[global] Instance lifts_ret {A} (a : A) : Lifts (mret a) (mret a).
Proof.
  intros t s a' s'. split.
  - intros E. injection E as <- <-. exists t. by split.
  - by intros (t' & -> & [= -> ->]).
Qed.

#[global] Instance lifts_bind {A B} (c : T A) (m : M A) (f : A → T B) (g : A → M B) :
  Lifts c m → (∀ a, Lifts (f a) (g a)) → Lifts (c ≫= f) (m ≫= g).
Proof.
  intros Hc Hf t s b s'. unfold mbind at 1, M_bind. split.
  - destruct (m s) as [a s1|s1|va s1|u] eqn:E; try done.
    apply (Hc t) in E as (t1 & R). intros (t' & R')%(Hf a t1). exists t', a, (t1, s1). done.
  - intros (t' & a & [t1 s1] & R & R'). assert (m s = Ok a s1) as -> by (apply (Hc t); by exists t1).
    apply (Hf a t1). by exists t'.
Qed.

#[global] Instance lifts_if {A} (b : bool) (c1 c2 : T A) (m1 m2 : M A) :
  Lifts c1 m1 → Lifts c2 m2 → Lifts (if b then c1 else c2) (if b then m1 else m2).
Proof. by destruct b. Qed.

#[global] Instance lifts_for n i (c : Z → T unit) (m : Z → M unit) :
  (∀ k, Lifts (c k) (m k)) → Lifts (for_cached n i c) (for_ n i m).
Proof. intros Hb. revert i. induction n as [|n IH]; intros i; simpl; apply _. Qed.

#[global] Instance find_page_table_lifts `{FrameAllocator} k :
  Lifts (find_page_table_cached k) (find_page_table k).
Proof. unfold find_page_table_cached, find_page_table. repeat (apply _ || (apply lifts_bind; [|intros]) || apply lifts_if). Qed.

#[global] Instance paging_map_page_lifts `{FrameAllocator} va pa flags :
  Lifts (paging_map_page_cached va pa flags) (paging_map_page va pa flags).
Proof. unfold paging_map_page_cached, paging_map_page. apply _. Qed.

(** ** Coherence *)

(** Every cached translation, those of the pages in [X] apart, is current. *)
Definition coherent_but (X : Z → Prop) (t : tlb) (s : kstate) : Prop :=
  ∀ p f, t !! p = Some f → ¬ X p → current s p f.

Definition coherent : tlb → kstate → Prop := coherent_but (λ _, False).

Lemma coherent_empty s : coherent ∅ s.
Proof. intros p f E. by rewrite lookup_empty in E. Qed.

Lemma coherent_but_mono (X Y : Z → Prop) t s :
  (∀ p, X p → Y p) → coherent_but X t s → coherent_but Y t s.
Proof. intros HXY Hc p f E Hn. apply Hc; [done|]. auto. Qed.

Lemma coherent_delete X p t s : coherent_but X t s → coherent_but X (delete p t) s.
Proof. intros Hc q f [_ E]%lookup_delete_Some. by apply Hc. Qed.

(** Flushing the stale page restores coherence. *)
Lemma coherent_flush p t s : coherent_but (λ q, q = p) t s → coherent (delete p t) s.
Proof. intros Hc q f [Hne E]%lookup_delete_Some _. by apply Hc; [|congruence]. Qed.

Lemma coherent_moves X s t t' : rtc (tlb_move s) t t' → coherent_but X t s → coherent_but X t' s.
Proof.
  induction 1 as [|t t1 t' Hm _ IH]; [done|]. intros Hc. apply IH. destruct Hm as [t p f Hf|t p].
  - intros q g [[<- <-]|[_ E]]%lookup_insert_Some Hn; [done|]. by apply Hc.
  - by apply coherent_delete.
Qed.

(** A step that keeps the translations of the pages outside [X]. *)
Lemma coherent_keep X t s s' :
  (∀ p, 0 <= p < 2 ^ 20 → ¬ X p → resolve (hw s') (4096 * p) = resolve (hw s) (4096 * p)) →
  coherent_but X t s → coherent_but X t s'.
Proof. intros Hk Hc p f E Hn. destruct (Hc p f E Hn) as [Hp Hf]. split; [done|]. by rewrite Hk. Qed.

(** The cache returns what a walk would. *)
Lemma walk_page s va :
  0 <= va < 2 ^ 32 → walk s va = (λ pa, pa + va mod 4096) <$> walk s (4096 * (va / 4096)).
Proof.
  intros Hva. unfold walk, pte.
  assert (pd_index (4096 * (va / 4096)) = pd_index va) as ->.
  { rewrite !pd_index_div. clear -Hva. zify_mod. }
  assert (pt_index (4096 * (va / 4096)) = pt_index va) as ->.
  { rewrite !pt_index_div. change (2 ^ 12) with 4096. clear -Hva. zify_mod. }
  rewrite (Z.mul_comm 4096 (va / 4096)), Z.mod_mul by lia.
  destruct (pde_present _ _); [|done]. destruct (Z.testbit _ 0); [|done]. simpl. f_equal. lia.
Qed.

Section tlb.
Context `{FrameAllocator}.

Lemma coherent_but_lookup X t s va :
  paging_wf s → coherent_but X t s → 0 <= va < 2 ^ 32 → ¬ X (va / 4096) →
  tlb_lookup t s va = resolve (hw s) va.
Proof.
  intros Hwf Hc Hva Hn. unfold tlb_lookup. destruct (t !! _) as [f|] eqn:E; [|done].
  destruct (Hc _ _ E Hn) as [_ Hf]. rewrite paging_resolve in * by done.
  rewrite walk_page by done. by rewrite Hf.
Qed.

Lemma coherent_lookup t s va :
  paging_wf s → coherent t s → 0 <= va < 2 ^ 32 → tlb_lookup t s va = resolve (hw s) va.
Proof. intros. eapply coherent_but_lookup; [done..|tauto]. Qed.

Lemma coherent_flushes X l t s : coherent_but X t s → coherent_but X (foldr flush t l) s.
Proof.
  intros Hc. induction l as [|e l IH]; [done|]. destruct e; simpl; try done.
  by apply coherent_delete.
Qed.

Lemma cached_coherent {A} X (m : M A) t s a t' s' :
  cached m (t, s) a (t', s') →
  (∀ p, 0 <= p < 2 ^ 20 → ¬ X p → resolve (hw s') (4096 * p) = resolve (hw s) (4096 * p)) →
  coherent_but X t s → coherent_but X t' s'.
Proof.
  intros (_ & t1 & Hpre & Hpost) Hk Hc.
  eapply coherent_moves, coherent_flushes, coherent_keep, coherent_moves; eauto.
Qed.

Lemma cached_ok {A} (m : M A) t s a t' s' : cached m (t, s) a (t', s') → m s = Ok a s'.
Proof. by intros [? _]. Qed.

(** The flush itself. *)
Lemma cached_invlpg va t s u t' s' :
  cached (emit (Invlpg va)) (t, s) u (t', s') → coherent_but (λ q, q = va / 4096) t s →
  coherent t' s'.
Proof.
  intros (E & t1 & Hpre & Hpost) Hc. injection E as <- <-.
  assert (new_events s (on_hw (push_event (Invlpg va)) s) = [Invlpg va]) as El.
  { unfold new_events. cbn [hw on_hw events push_event]. cbn [length]. by rewrite Nat.sub_succ_l, Nat.sub_diag. }
  rewrite El in Hpost. apply (coherent_moves _ _ _ _ Hpost). cbn [foldr flush]. apply coherent_flush.
  apply (coherent_moves _ _ _ _ Hpre) in Hc. exact Hc.
Qed.

(** An invariant of the turns of a loop. *)
Lemma for_cached_inv n i body (I : tlb → kstate → Prop) t s u t' s' :
  (∀ k t s u t' s', i <= k < i + Z.of_nat n → I t s → body k (t, s) u (t', s') → I t' s') →
  I t s → for_cached n i body (t, s) u (t', s') → I t' s'.
Proof.
  revert i t s. induction n as [|n IH]; intros i t s Hb Hi.
  - by intros (_ & [= -> ->]).
  - intros ([] & [t1 s1] & R & R'). refine (IH (i + 1) t1 s1 _ _ R').
    + intros k t2 s2 u2 t3 s3 Hk. apply Hb. lia.
    + apply (Hb i _ _ _ _ _) in R; [done|lia|done].
Qed.

(** ** The search for the table *)

(** The state while the fresh frame [i] is cleared: only its contents have
    changed, and no translation. *)
Definition clearing (s s1 : kstate) (i : Z) (t : tlb) (s' : kstate) : Prop :=
  coherent t s' ∧ paging_wf s' ∧ (∀ va, 0 <= va < 2 ^ 32 → resolve (hw s') va = resolve (hw s) va) ∧
  ∃ m, s' = with_mem s1 m ∧ only_in (4096 * i) (4096 * i + 4096) (mem (hw s1)) m.

(** The frame just given out is no table. *)
Lemma fresh_frame_idle s i s1 a :
  paging_wf s → fa_inv s → gave_frame s i s1 → 4096 * i <= a < 4096 * i + 4096 → idle s1 a.
Proof.
  intros Hwf Hinv (Hi & _ & _ & _ & F & Hfree) Ha. pose proof (fa_free_high s i Hinv Hi).
  assert (a / 4096 = i) as Ei by (clear -Ha; zify_mod). right. unfold data_byte. rewrite Ei.
  split_and!; [lia|by rewrite Hfree; intros [_ ?]|]. intros k Hk.
  unfold pde_present, pde_frame. rewrite (frame_pde _ spares_console s s1 (kframe_same _ _ _ F)) by done.
  intros Hp E. destruct (table_frame s k Hwf Hk Hp) as [[_ Hf]|[Hk1 Hf]]; unfold pde_frame in Hf; [lia|].
  destruct (pg_frame s Hwf k) as [_ Hn]; [lia|done|]. apply Hn. unfold pde_frame. by rewrite E.
Qed.

Lemma clearing_mem s i s1 t m :
  paging_wf s → fa_inv s → gave_frame s i s1 → coherent t (with_mem s1 m) →
  only_in (4096 * i) (4096 * i + 4096) (mem (hw s1)) m → clearing s s1 i t (with_mem s1 m).
Proof.
  intros Hwf Hinv Hg Hc Hm. pose proof Hg as (_ & _ & Hinv1 & _ & F%kframe_same & Hfree).
  assert (paging_wf s1) as Hwf1 by (apply (frame_paging_wf _ spares_console s s1 Hwf F); intros j; apply Hfree).
  destruct (idle_change s1 (with_mem s1 m) Hwf1 Hinv1) as (Hwf' & _ & _ & _ & Hres); [|done|].
  { split; [|done..]. intros a Ha. apply Hm. intros Hb. by apply Ha, (fresh_frame_idle s i). }
  split_and!; [done|done| |by exists m]. intros va Hva. rewrite Hres, !paging_resolve by done.
  by apply (frame_walk _ spares_console s s1 Hwf F).
Qed.

(** It starts when the frame has been given out. *)
Lemma clearing_start s i p t s1 t1 :
  paging_wf s → fa_inv s → gave_frame s i s1 → coherent t s → cached fa_alloc (t, s) p (t1, s1) →
  clearing s s1 i t1 s1.
Proof.
  intros Hwf Hinv Hg Hc R.
  assert (∀ t, coherent t s1 → clearing s s1 i t s1) as Hcl.
  { intros t' Hc'. pose proof (clearing_mem s i s1 t' (mem (hw s1)) Hwf Hinv Hg) as H'.
    rewrite with_mem_id in H'. by apply H'. }
  apply Hcl. eapply cached_coherent; [exact R| |exact Hc]. intros q Hq _.
  destruct (Hcl ∅ (coherent_empty _)) as (_ & _ & Hres & _). apply Hres. lia.
Qed.

(** One store of the clearing loop. *)
Lemma clearing_store s i s1 e t s' u t' s'' :
  paging_wf s → fa_inv s → gave_frame s i s1 → 4096 * i < LOW_END → 0 <= e < 1024 →
  clearing s s1 i t s' → cached (store32 (4096 * i + 4 * e) 0) (t, s') u (t', s'') →
  clearing s s1 i t' s''.
Proof.
  intros Hwf Hinv Hg Hi He (Hc & Hwf' & Hres & m & -> & Hm) R.
  pose proof Hg as (Hfi & _). pose proof (fa_free_high s i Hinv Hfi) as Hhi.
  pose proof (cached_ok _ _ _ _ _ _ R) as E. unfold store32, access in E.
  rewrite low_mapped_resolve in E; [|by apply paging_low_mapped|unfold LOW_END in *; lia].
  injection E as _ <-. set (m' := wr32 m (4096 * i + 4 * e) 0) in *.
  assert (only_in (4096 * i) (4096 * i + 4096) (mem (hw s1)) m') as Hm'.
  { etrans; [exact Hm|]. apply only_in_wr32; lia. }
  change (upd_mem _ (with_mem s1 m)) with (with_mem s1 m') in *.
  destruct (clearing_mem s i s1 ∅ m' Hwf Hinv Hg (coherent_empty _) Hm') as (_ & _ & Hres' & _).
  apply clearing_mem; [done..| |done]. eapply cached_coherent; [exact R| |exact Hc].
  intros p Hp _. rewrite Hres, Hres' by lia. done.
Qed.

(** Reading the directory. *)
Lemma cached_load_pde s va t v t' s' :
  paging_wf s → 0 <= va < 2 ^ 32 → cached (load32 (page_directory + 4 * Z.shiftr va 22)) (t, s) v (t', s') →
  coherent t s → s' = s ∧ v = pde s (pd_index va) ∧ coherent t' s.
Proof.
  intros Hwf Hva R Hc. assert (s' = s ∧ v = pde s (pd_index va)) as [-> ->].
  { pose proof (wp_load_pde s va (λ v s', s' = s ∧ v = pde s (pd_index va)) no_halt Hwf Hva
      (conj eq_refl eq_refl)) as Hl.
    unfold wp in Hl. by rewrite (cached_ok _ _ _ _ _ _ R) in Hl. }
  split_and!; [done..|]. by eapply cached_coherent.
Qed.

(** The search keeps the cache coherent. *)
Lemma find_cached_coherent t s va tb t1 s1 :
  paging_wf s → fa_inv s → console_ok s → LOW_END <= va < 2 ^ 32 → table_reachable s va →
  coherent t s → find_page_table_cached (Z.shiftr va 22) (t, s) tb (t1, s1) →
  table_ready s va tb s1 ∧ coherent t1 s1.
Proof.
  intros Hwf Hinv Hok Hva Hreach Hc R.
  destruct (wp_run (find_page_table (Z.shiftr va 22)) (table_ready s va) s) as (tb' & s1' & E1 & Hr).
  { by apply wp_find_page_table. }
  assert (find_page_table (Z.shiftr va 22) s = Ok tb s1) as E by (apply (lifts t); by exists t1).
  rewrite E1 in E. injection E as -> ->. split; [done|].
  assert (∀ p, 0 <= p < 2 ^ 20 → resolve (hw s1) (4096 * p) = resolve (hw s) (4096 * p)) as Hres.
  { intros p Hp. destruct Hr as [[Hwf1 _ _ _ _ _] _ _ Hw _ _]. rewrite !paging_resolve by done. apply Hw. lia. }
  clear E1 Hr. assert (0 <= va < 2 ^ 32) as Hva' by (unfold LOW_END in Hva; lia).
  destruct R as (v & [t2 s2] & R & R'). apply cached_load_pde in R as (-> & -> & Hc2); [|done..].
  rewrite flag_present in R'. change (Z.testbit (pde s (pd_index va)) 0) with (pde_present s (pd_index va)) in R'.
  destruct (pde_present s (pd_index va)) eqn:Hp.
  - destruct R' as (v & [t3 s3] & R & _ & [= -> ->]). by apply cached_load_pde in R as (-> & _ & ?).
  - destruct Hreach as [?|(f & Hf & Hlt)]; [congruence|].
    destruct R' as (p & [t3 s3] & Ra & R'). destruct (fa_alloc_run s Hinv Hok) as (q & s3' & Ea & Hg).
    pose proof (cached_ok _ _ _ _ _ _ Ra) as E. rewrite Ea in E. injection E as -> ->.
    destruct Hg as [(i & -> & Hg)|(_ & Hnone & _)]; [|by apply Hnone in Hf].
    pose proof Hg as (Hi & Hmin & _). pose proof (fa_free_high s i Hinv Hi). pose proof (Hmin f Hf).
    destruct (Z.eqb_spec (4096 * i) 0) as [E0|_]; [lia|].
    destruct R' as (_ & ? & (_ & ->) & [] & [t4 s4] & Rl & [] & [t5 s5] & Rs & _ & [= -> ->]).
    assert (clearing s s3 i t4 s4) as (Hc4 & _ & Hres4 & _).
    { eapply (for_cached_inv _ _ _ (clearing s s3 i)); [| |exact Rl].
      - intros e t0 s0 u0 t0' s0' He. apply clearing_store; done || unfold LOW_END; lia.
      - by apply (clearing_start s i (4096 * i) t2). }
    eapply cached_coherent; [exact Rs| |exact Hc4]. intros p Hp' _. rewrite Hres4 by lia. by apply Hres.
Qed.

(** The store and the state it leaves, from a state with the table ready. *)
Lemma store_entry s va v :
  paging_wf s → LOW_END <= va < 2 ^ 32 → pde_present s (pd_index va) = true →
  store32 (4096 * pde_frame s (pd_index va) + 4 * pt_index va) v s = Ok tt (with_entry s va v).
Proof.
  intros Hwf Hva Hp. pose proof (va_frame s va Hwf Hva Hp). pose proof (entry_in_frame s va) as Hin.
  unfold entry_addr in Hin. unfold store32, access.
  rewrite low_mapped_resolve; [done|by apply paging_low_mapped|unfold LOW_END; lia].
Qed.

(** What a run with a cache leaves: the run without, and a coherent cache. *)
Lemma map_cached_run t s va pa flags u t' s' :
  paging_wf s → fa_inv s → console_ok s → LOW_END <= va < 2 ^ 32 → 0 <= pa < 2 ^ 32 →
  table_reachable s va → coherent t s →
  paging_map_page_cached va pa flags (t, s) u (t', s') →
  paging_map_page va pa flags s = Ok u s' ∧ mapped s va pa flags s' ∧ coherent t' s'.
Proof.
  intros Hwf Hinv Hok Hva Hpa Hreach Hc R.
  assert (paging_map_page va pa flags s = Ok u s') as E by (apply (lifts t); by exists t').
  split; [exact E|]. destruct (wp_run (paging_map_page va pa flags) (λ _ s', mapped s va pa flags s') s)
    as ([] & s'' & E' & Hm); [by apply wp_paging_map_page|]. rewrite E in E'. injection E' as -> ->.
  split; [done|]. destruct R as (table & [t1 s1] & R1 & [] & [t2 s2] & R2 & R3).
  destruct (find_cached_coherent t s va table t1 s1) as [[[Hwf1 Hinv1 Hok1 _ _ _] Hp -> Hwalk _ _] Hc1];
    [done..|].
  set (v := Z.lor (Z.land pa 0xFFFFF000) (Z.land flags 0xFFF)) in R2.
  pose proof (cached_ok _ _ _ _ _ _ R2) as E2. fold (pt_index va) in E2.
  rewrite store_entry in E2 by done. injection E2 as <-.
  pose proof (with_entry_wf s1 va v Hwf1 Hva Hp Hinv1) as Hwf2.
  pose proof (cached_ok _ _ _ _ _ _ R3) as E3. injection E3 as <-.
  eapply cached_invlpg; [exact R3|]. eapply cached_coherent; [exact R2| |].
  - intros p Hpg Hne. rewrite !paging_resolve by done. rewrite with_entry_walk by done || lia.
    rewrite decide_False; [done|]. intros Ep. apply Hne. rewrite <- Ep.
    rewrite Z.mul_comm, Z.div_mul; lia.
  - by eapply coherent_but_mono; [|exact Hc1].
Qed.

(** A run exists whenever the call returns. *)
Lemma map_cached_progress t s va pa flags :
  paging_wf s → fa_inv s → console_ok s → LOW_END <= va < 2 ^ 32 → 0 <= pa < 2 ^ 32 →
  table_reachable s va → ∃ t' s', paging_map_page_cached va pa flags (t, s) tt (t', s').
Proof.
  intros. destruct (wp_run (paging_map_page va pa flags) (λ _ s', mapped s va pa flags s') s)
    as ([] & s' & E & _); [by apply wp_paging_map_page|].
  apply (lifts t) in E as (t' & R). by exists t', s'.
Qed.

(** ** The kernel with a cache *)

(** What the kernel does between two looks at the cache: it maps a page above
    the identity mapping, takes a frame, or changes memory that is no table (it
    prints, or writes to its stack, its heap or its other data). *)
Inductive tlb_step : relation (tlb * kstate) :=
  | Step_map va pa flags t s t' s' :
      LOW_END <= va < 2 ^ 32 → 0 <= pa < 2 ^ 32 → table_reachable s va →
      paging_map_page_cached va pa flags (t, s) tt (t', s') → tlb_step (t, s) (t', s')
  | Step_alloc p t s t' s' : cached fa_alloc (t, s) p (t', s') → tlb_step (t, s) (t', s')
  | Step_memory {A} (m : M A) a t s t' s' :
      cached m (t, s) a (t', s') → same_but (idle s) s s' → pmm s' = pmm s → console_ok s' →
      tlb_step (t, s) (t', s')
  | Step_cache t s t' : tlb_move s t t' → tlb_step (t, s) (t', s).

Record tlb_inv (c : tlb * kstate) : Prop := {
  ti_paging : paging_wf c.2;
  ti_inv : fa_inv c.2;
  ti_console : console_ok c.2;
  ti_coherent : coherent c.1 c.2;
}.

(** A change that the allocator's memory and the screen contain. *)
Lemma tlb_inv_private {A} (m : M A) t s a t' s' :
  tlb_inv (t, s) → cached m (t, s) a (t', s') →
  kframe (λ a, in_screen a ∨ fa_private a) s s' → (∀ j, fa_free s' j → fa_free s j) →
  fa_inv s' → console_ok s' → tlb_inv (t', s').
Proof.
  intros [Hwf _ _ Hc] R F%kframe_same Hfree Hinv' Hok'.
  pose proof (frame_paging_wf _ spares_console s s' Hwf F Hfree) as Hwf'.
  split; [done..|]. eapply cached_coherent; [exact R| |exact Hc].
  intros p Hp _. simpl in *. rewrite !paging_resolve by done.
  apply (frame_walk _ spares_console s s' Hwf F). lia.
Qed.

Lemma tlb_step_inv c c' : tlb_step c c' → tlb_inv c → tlb_inv c'.
Proof.
  intros Hs Hi. pose proof Hi as [Hwf Hinv Hok Hc].
  destruct Hs as [va pa flags t s t' s' Hva Hpa Hreach R|p t s t' s' R|A m a t s t' s' R F Ep Hok'|t s t' Hm];
    simpl in *.
  - destruct (map_cached_run t s va pa flags tt t' s') as (_ & [[] _ _ _ _] & ?); done.
  - destruct (fa_alloc_run s Hinv Hok) as (q & s1 & E & Hg).
    pose proof (cached_ok _ _ _ _ _ _ R) as E'. rewrite E in E'. injection E' as -> ->.
    destruct Hg as [(i & _ & _ & _ & Hinv' & Hok' & F & Hfree)|(_ & _ & Hinv' & Hok' & F & Hfree)];
      apply (tlb_inv_private _ _ _ _ _ _ Hi R F); try done; intros j Hj; by apply Hfree.
  - destruct (idle_change s s' Hwf Hinv F Ep) as (Hwf' & Hinv' & _ & _ & Hres).
    split; [done..|]. eapply cached_coherent; [exact R| |exact Hc]. intros p Hp _. apply Hres. lia.
  - split; [done..|]. eapply coherent_moves; [by apply rtc_once|done].
Qed.

Lemma tlb_steps_inv c c' : rtc tlb_step c c' → tlb_inv c → tlb_inv c'.
Proof. induction 1; [done|]. intros. eauto using tlb_step_inv. Qed.

(** Printing is such a change of memory. *)
Lemma console_frame_idle s s' : console_frame s s' → same_but (idle s) s s'.
Proof.
  intros F. split; [|apply F..]. intros a Ha. apply (cf_mem _ _ F).
  intros Hs. apply Ha, harmless_idle. by left.
Qed.

(** C11: A mapping is in force when [paging_map_page] returns, whatever the
    processor had cached.  From a coherent cache a run of its steps exists; in
    every run, with cached translations added and dropped at any moment between
    the loads and stores, the state is the one of [paging_map_page], the cache is coherent
    again, the page translates through it to the new frame if the flags make it
    present, and every other address as before. *)
Theorem paging_map_page_through_tlb t s va pa flags :
  paging_wf s → fa_inv s → console_ok s → coherent t s →
  LOW_END <= va < 2 ^ 32 → 0 <= pa < 2 ^ 32 → table_reachable s va →
  (∃ t' s', paging_map_page_cached va pa flags (t, s) tt (t', s')) ∧
  ∀ t' s', paging_map_page_cached va pa flags (t, s) tt (t', s') →
    paging_map_page va pa flags s = Ok tt s' ∧ coherent t' s' ∧
    ∀ va', 0 <= va' < 2 ^ 32 → tlb_lookup t' s' va' =
      if decide (va' / 4096 = va / 4096)
      then if Z.testbit flags 0 then Some (4096 * (pa / 4096) + va' mod 4096) else None
      else tlb_lookup t s va'.
Proof.
  intros Hwf Hinv Hok Hc Hva Hpa Hreach. split; [by apply map_cached_progress|].
  intros t' s' R. destruct (map_cached_run t s va pa flags tt t' s') as (E & Hm & Hc'); [done..|].
  split; [exact E|]. split; [done|]. intros va' Hva'. destruct Hm as [[Hwf' _ _ _ _ _] Hw _ _ _].
  rewrite !coherent_lookup by done. by apply Hw.
Qed.

(** C10: The cache is never stale.  In every sequence of mappings, frame
    allocations and other changes of memory, interleaved with moves of the
    cache, every address of the 32-bit space translates through the cache as the
    tables say at that moment, and the invariants of pager, allocator and
    console hold. *)
Theorem tlb_never_stale t0 s0 t s :
  paging_wf s0 → fa_inv s0 → console_ok s0 → coherent t0 s0 → rtc tlb_step (t0, s0) (t, s) →
  (∀ va, 0 <= va < 2 ^ 32 → tlb_lookup t s va = resolve (hw s) va) ∧
  paging_wf s ∧ fa_inv s ∧ console_ok s.
Proof.
  intros Hwf Hinv Hok Hc Hs.
  assert (tlb_inv (t, s)) as [Hwf' Hinv' Hok' Hc'] by (by apply (tlb_steps_inv _ _ Hs)).
  split_and!; [|done..]. intros va Hva. by apply coherent_lookup.
Qed.

(** The flush is needed: after the store alone a cached page still translates to
    its old frame. *)
Lemma stale_before_flush t s va f v :
  paging_wf s → fa_inv s → LOW_END <= va < 2 ^ 32 → pde_present s (pd_index va) = true →
  t !! (va / 4096) = Some f → u32 v / 4096 ≠ f →
  tlb_lookup t (with_entry s va v) va ≠ resolve (hw (with_entry s va v)) va.
Proof.
  intros Hwf Hinv Hva Hp E Hne. pose proof (with_entry_wf s va v Hwf Hva Hp Hinv) as Hwf'.
  assert (0 <= va < 2 ^ 32) as Hva' by (unfold LOW_END in Hva; lia).
  rewrite paging_resolve, with_entry_walk by done. rewrite decide_True by done.
  unfold tlb_lookup. rewrite E. destruct (Z.testbit v 0); [|done]. intros Heq. simplify_eq. lia.
Qed.
End tlb.

(** ** A remapping, with the old translation cached *)

Lemma remap_run :
  ∃ t1 s1 t s, rtc tlb_step (∅, paged_machine) (t1, s1) ∧ t1 !! 0xC2FF1 = Some 0x105 ∧
    rtc tlb_step (t1, s1) (t, s) ∧ resolve (hw s) 0xC2FF1ABC = Some 0x106ABC.
Proof.
  destruct paged_machine_ok as [Hwf Hinv Hok _ _ _ _ _ _ _].
  assert (LOW_END <= 0xC2FF1000 < 2 ^ 32) as Hva by (unfold LOW_END; lia).
  pose proof (paged_machine_reachable 0xC2FF1000) as Hreach.
  destruct (map_cached_progress ∅ paged_machine 0xC2FF1000 0x105000 3) as (t1 & s1 & R1); [done..|].
  destruct (map_cached_run ∅ paged_machine 0xC2FF1000 0x105000 3 tt t1 s1)
    as (_ & [[Hwf1 Hinv1 Hok1 _ _ _] Hw1 _ _ _] & Hc1); [done..|apply coherent_empty|done|].
  assert (current s1 0xC2FF1 0x105) as Hcur by (split; [lia|]; by rewrite Hw1 by lia).
  assert (table_reachable s1 0xC2FF1000) as Hreach1.
  { left. apply (resolve_present s1 _ 0x105000 Hwf1). by rewrite Hw1 by lia. }
  destruct (map_cached_progress (<[0xC2FF1 := 0x105]> t1) s1 0xC2FF1000 0x106000 3) as (t2 & s2 & R2);
    [done..|].
  destruct (map_cached_run (<[0xC2FF1 := 0x105]> t1) s1 0xC2FF1000 0x106000 3 tt t2 s2)
    as (_ & [_ Hw2 _ _ _] & _); [done..| |done|].
  { eapply coherent_moves; [|exact Hc1]. apply rtc_once. by constructor. }
  exists (<[0xC2FF1 := 0x105]> t1), s1, t2, s2. split_and!.
  - eapply rtc_l; [by apply (Step_map 0xC2FF1000 0x105000 3 _ _ t1 s1)|].
    apply rtc_once. by do 2 constructor.
  - by rewrite lookup_insert.
  - apply rtc_once. by apply (Step_map 0xC2FF1000 0x106000 3).
  - by rewrite Hw2 by lia.
Qed.

Lemma paging_map_page_through_tlb_witness :
  (∃ t' s', paging_map_page_cached 0xC2FF1000 0x105000 3 (∅, paged_machine) tt (t', s')) ∧
  ∀ t' s', paging_map_page_cached 0xC2FF1000 0x105000 3 (∅, paged_machine) tt (t', s') →
    paging_map_page 0xC2FF1000 0x105000 3 paged_machine = Ok tt s' ∧ coherent t' s' ∧
    ∀ va', 0 <= va' < 2 ^ 32 → tlb_lookup t' s' va' =
      if decide (va' / 4096 = 0xC2FF1000 / 4096)
      then if Z.testbit 3 0 then Some (4096 * (0x105000 / 4096) + va' mod 4096) else None
      else tlb_lookup ∅ paged_machine va'.
Proof.
  destruct paged_machine_ok as [Hwf Hinv Hok _ _ _ _ _ _ _].
  refine (paging_map_page_through_tlb ∅ paged_machine 0xC2FF1000 0x105000 3 Hwf Hinv Hok
    (coherent_empty _) _ _ (paged_machine_reachable _)).
  - unfold LOW_END. lia.
  - lia.
Defined.

Lemma tlb_never_stale_witness :
  ∃ t1 s1 t s, rtc tlb_step (∅, paged_machine) (t1, s1) ∧ t1 !! 0xC2FF1 = Some 0x105 ∧
    rtc tlb_step (t1, s1) (t, s) ∧ tlb_lookup t s 0xC2FF1ABC = Some 0x106ABC.
Proof.
  destruct paged_machine_ok as [Hwf Hinv Hok _ _ _ _ _ _ _].
  destruct remap_run as (t1 & s1 & t & s & R1 & E1 & R2 & E2). exists t1, s1, t, s.
  split; [exact R1|]. split; [exact E1|]. split; [exact R2|]. rewrite <- E2.
  apply (tlb_never_stale ∅ paged_machine t s Hwf Hinv Hok (coherent_empty _)).
  - exact (transitivity R1 R2).
  - lia.
Defined.
