(* ===== verification/Cpu.v ===== *)
(** * Exceptions: what the processor does on a fault

    The code under [kernel/arch/x86/] runs when the processor reacts to a
    fault: it looks the vector up in the interrupt table, saves the interrupted
    context on the stack and jumps through the gate, or escalates when that is
    not possible.  [isr_page_fault] is here whole, to its [iret]; so is
    [double_fault_handler].  [retry] is an instruction run under these rules: it
    is executed again when its page fault has been repaired. *)

From Stdlib Require Import ZArith Lia String.
From stdpp Require Import base gmap list.
From S2P Require Import Prelude RingBuf Format Descriptors Machine State Vga Printk Panik MemoryMap Frame Pmm PmmProps Paging PagingProps Arch PageFault.

(** ** The end of the stub *)

Definition pop : M Z :=
  sp ← gets (λ s, esp (hw s));
  v ← load32 sp;
  modify (on_hw (set_esp (u32 (sp + 4))));;
  mret v.

(** [add esp, n] *)
Definition add_esp (n : Z) : M unit :=
  sp ← gets (λ s, esp (hw s));
  modify (on_hw (set_esp (u32 (sp + n)))).

(** The second half of [isr_page_fault], up to its [sti]: the argument is
    dropped, selectors and registers are restored ([popa] skips ESP) and the
    error code is dropped. *)
Definition isr_page_fault_restore : M regs :=
  add_esp 4;;
  gs ← pop;
  fs ← pop;
  es ← pop;
  ds ← pop;
  edi ← pop;
  esi ← pop;
  bp ← pop;
  modify (on_hw (set_ebp bp));;
  add_esp 4;;
  ebx ← pop;
  edx ← pop;
  ecx ← pop;
  eax ← pop;
  add_esp 4;;
  sti;;
  mret (Regs eax ecx edx ebx esi edi (u16 ds) (u16 es) (u16 fs) (u16 gs)).

(** What a fault interrupts, apart from [esp] and [ebp]. *)
Record context := Context { cx_regs : regs; cx_eflags : Z; cx_cs : Z; cx_eip : Z }.

#[global] Instance regs_eq_dec : EqDecision regs.
Proof. solve_decision. Defined.

#[global] Instance context_eq_dec : EqDecision context.
Proof. solve_decision. Defined.

(** EFLAGS.IF *)
Definition if_set (eflags : Z) : bool := Z.testbit eflags 9.

Definition iret (r : regs) : M context :=
  eip ← pop;
  cs ← pop;
  eflags ← pop;
  modify (on_hw (set_iflag (if_set eflags)));;
  mret (Context r eflags (u16 cs) eip).

Definition isr_page_fault `{FrameAllocator} (r : regs) : M context :=
  frame ← isr_page_fault_save r;
  page_fault_handler frame;;
  r ← isr_page_fault_restore;
  iret r.

(** ** The double-fault task *)

Definition MAGIC1 : Z := 0xDEADBEEF.
Definition MAGIC2 : Z := 0xCAFEBABE.
Definition MAGIC3 : Z := 0x12345678.

Definition double_fault_handler : M unit :=
  cli;;
  store32 0x15000 MAGIC1;;
  store32 0x15004 MAGIC2;;
  store32 0x15008 MAGIC3;;
  store16 0xB8000 0x4F44;;
  store16 0xB8002 0x4F46;;
  halt.

(** ** Delivery *)

(** A fault while a page fault is delivered.  A task is entered only if its
    descriptor is available; anything else is a third fault.  Where the switch
    would go on from an available task is not modelled: [gdt_init] leaves none. *)
Definition double_fault {A} : M A :=
  e ← load_idt 8;
  match dispatch_of e with
  | Task sel =>
      g ← load_gdt (sel / 8);
      if tss_available g then undef UbCpu else reset
  | NotPresent => reset
  | _ => undef UbCpu
  end.

(** [m], where a page fault is a fault during delivery. *)
Definition delivering {A} (m : M A) : M A := λ s,
  match m s with
  | Fault _ s' => double_fault s'
  | r => r
  end.

Definition deliver_page_fault `{FrameAllocator} (cx : context) (error : Z) : M context :=
  e ← load_idt 14;
  match dispatch_of e with
  | Interrupt _ offset =>
      delivering (push_all [cx_eflags cx; cx_cs cx; cx_eip cx; error]);;
      modify (on_hw (set_iflag false));;
      y ← gets syms;
      if offset =? sym_isr_page_fault y then isr_page_fault (cx_regs cx) else undef UbCpu
  | NotPresent => double_fault
  | _ => undef UbCpu
  end.

(** An exception other than a page fault, raised while an interrupt is delivered:
    without a gate of its own, it becomes a double fault. *)
Definition raise {A} (vector : Z) : M A :=
  e ← load_idt vector;
  match dispatch_of e with
  | NotPresent => double_fault
  | _ => undef UbCpu
  end.

Definition VECTOR_NOT_PRESENT : Z := 11.
Definition VECTOR_GENERAL_PROTECTION : Z := 13.

(** The types of a gate through which an interrupt can go: a task gate, and the
    interrupt and trap gates of 16 and 32 bits. *)
Definition gate_type_valid (e : idt_entry) : bool :=
  bool_decide (Z.land (flags e) 0x1F ∈ [0x5; 0x6; 0x7; 0xE; 0xF]).

(** An interrupt through the table.  A gate of no valid type, one that is not
    present and a task that is busy raise exceptions.  Where a gate leads that
    can be entered is not modelled: the table has one, for page faults. *)
Definition deliver_interrupt {A} (vector : Z) : M A :=
  e ← load_idt vector;
  match dispatch_of e with
  | Task sel =>
      g ← load_gdt (sel / 8);
      if tss_available g then undef UbCpu else raise VECTOR_GENERAL_PROTECTION
  | NotPresent =>
      raise (if gate_type_valid e then VECTOR_NOT_PRESENT else VECTOR_GENERAL_PROTECTION)
  | _ => undef UbCpu
  end.

(** A device asks for service between two instructions: the request is served if
    interrupts are enabled, and waits otherwise. *)
Definition device_request (vector : Z) : M unit :=
  on ← gets (λ s, iflag (hw s));
  if on : bool then deliver_interrupt vector else mret tt.

(** The error codes of a store to and of a load from a page that is not present. *)
Definition ERROR_WRITE : Z := 2.
Definition ERROR_READ : Z := 0.

(** One instruction, at [cx]. *)
Definition retry `{FrameAllocator} {A} (cx : context) (error : Z) (m : M A) : M A := λ s,
  match m s with
  | Fault _ s' => (cx' ← deliver_page_fault cx error; if decide (cx' = cx) then m else undef UbCpu) s'
  | r => r
  end.

Definition context_ok (cx : context) : Prop :=
  Forall (λ v, 0 <= v < 2 ^ 32)
    [r_eax (cx_regs cx); r_ecx (cx_regs cx); r_edx (cx_regs cx); r_ebx (cx_regs cx);
     r_esi (cx_regs cx); r_edi (cx_regs cx); cx_eflags cx; cx_eip cx] ∧
  Forall (λ v, 0 <= v < 2 ^ 16)
    [r_ds (cx_regs cx); r_es (cx_regs cx); r_fs (cx_regs cx); r_gs (cx_regs cx); cx_cs cx].

(** ** The stub's second half *)

Lemma wp_pop sp d v s (Q : Z → kstate → Prop) P :
  esp (hw s) = sp → 0 <= sp → sp + 4 < 2 ^ 32 → resolve (hw s) sp = Some (sp + d) →
  rd32 (mem (hw s)) (sp + d) = v → Q v (on_hw (set_esp (sp + 4)) s) → wp pop Q P s.
Proof.
  intros <- ?? Hres <- HQ. unfold pop. do 2 wp_step. wp_step. eapply wp_load32; [exact Hres|].
  do 2 wp_step. rewrite u32_small by lia. by wp_step.
Qed.

Lemma wp_add_esp sp n s (Q : unit → kstate → Prop) P :
  esp (hw s) = sp → 0 <= sp + n < 2 ^ 32 → Q tt (on_hw (set_esp (sp + n)) s) →
  wp (add_esp n) Q P s.
Proof.
  intros <- ? HQ. unfold add_esp. do 2 wp_step. rewrite u32_small by lia. by wp_step.
Qed.

(** The stack between [lo] and [hi], mapped at the distance [d], with the words
    [ws] just below [hi]. *)
Record stack_words (lo hi d : Z) (ws : list Z) (s : kstate) : Prop := {
  sw_maps : ∀ a, lo <= a < hi → resolve (hw s) a = Some (a + d);
  sw_word : ∀ k v, ws !! k = Some v →
    rd32 (mem (hw s)) (hi - 4 * (Z.of_nat k + 1) + d) = u32 v;
}.

(** [s'] is [s] but for the registers the stub and [iret] restore. *)
Record restored (s : kstate) (sp bp : Z) (b : bool) (s' : kstate) : Prop := {
  re_mem : mem (hw s') = mem (hw s);
  re_cr0 : cr0 (hw s') = cr0 (hw s);
  re_cr3 : cr3 (hw s') = cr3 (hw s);
  re_rest : pmm s' = pmm s ∧ log s' = log s ∧ vga s' = vga s ∧ desc s' = desc s ∧ syms s' = syms s;
  re_esp : esp (hw s') = sp;
  re_ebp : ebp (hw s') = bp;
  re_iflag : iflag (hw s') = b;
}.

Section stub.
Context (lo hi d : Z) (cx : context) (error sp bp last : Z) (s : kstate).
Context (Hlo : 0 <= lo) (Hlen : lo + 68 <= hi) (Hhi : hi < 2 ^ 32).
Context (Hcx : context_ok cx) (Hbp : 0 <= bp < 2 ^ 32).
Context (Hws : stack_words lo hi d
  (frame_words (cx_regs cx) (cx_eflags cx) (cx_cs cx) (cx_eip cx) error sp bp ++ [last]) s).

(** Reading the [k]th word of the frame. *)
Lemma wp_pop_word k v t (Q : Z → kstate → Prop) P :
  (frame_words (cx_regs cx) (cx_eflags cx) (cx_cs cx) (cx_eip cx) error sp bp) !! k = Some v →
  mem (hw t) = mem (hw s) → cr0 (hw t) = cr0 (hw s) → cr3 (hw t) = cr3 (hw s) →
  esp (hw t) = hi - 4 * (Z.of_nat k + 1) →
  Q (u32 v) (on_hw (set_esp (hi - 4 * Z.of_nat k)) t) → wp pop Q P t.
Proof using Hlo Hlen Hhi Hws.
  intros Hk Em E0 E3 Esp HQ. pose proof (lookup_lt_Some _ _ _ Hk) as Hlt. simpl in Hlt.
  apply (wp_pop (hi - 4 * (Z.of_nat k + 1)) d (u32 v)); [done|lia|lia| | |].
  - rewrite (resolve_agree (hw s)) by done. apply (sw_maps _ _ _ _ _ Hws). lia.
  - rewrite Em. apply (sw_word _ _ _ _ _ Hws). by apply lookup_app_l_Some.
  - by replace (hi - 4 * (Z.of_nat k + 1) + 4) with (hi - 4 * Z.of_nat k) by lia.
Qed.

#[local] Ltac pop_word k :=
  wp_step; eapply (wp_pop_word k); [reflexivity|done|done|done|cbn; lia|cbn beta].

Lemma wp_isr_return (Q : context → kstate → Prop) P :
  esp (hw s) = hi - 68 → (∀ s', restored s hi bp (if_set (cx_eflags cx)) s' → Q cx s') →
  wp (r ← isr_page_fault_restore; iret r) Q P s.
Proof using All.
  intros Esp HQ. destruct Hcx as [Hw Hh].
  repeat rewrite Forall_cons in Hw. repeat rewrite Forall_cons in Hh.
  unfold isr_page_fault_restore. wp_step.
  wp_step. apply (wp_add_esp (hi - 68)); [done|lia|].
  pop_word 15%nat. pop_word 14%nat. pop_word 13%nat. pop_word 12%nat.
  pop_word 11%nat. pop_word 10%nat. pop_word 9%nat. do 2 wp_step.
  wp_step. apply (wp_add_esp (hi - 36)); [cbn; lia|lia|].
  pop_word 7%nat. pop_word 6%nat. pop_word 5%nat. pop_word 4%nat.
  wp_step. apply (wp_add_esp (hi - 16)); [cbn; lia|lia|].
  do 3 wp_step. unfold iret.
  pop_word 2%nat. pop_word 1%nat. pop_word 0%nat. do 3 wp_step.
  assert (∀ v, 0 <= v < 2 ^ 16 → u16 (u32 v) = v) as H16 by (clear; intros; zify_mod).
  rewrite !H16 by tauto. rewrite !u32_small by (exact Hbp || apply Hw).
  assert (Context (Regs (r_eax (cx_regs cx)) (r_ecx (cx_regs cx)) (r_edx (cx_regs cx)) (r_ebx (cx_regs cx))
    (r_esi (cx_regs cx)) (r_edi (cx_regs cx)) (r_ds (cx_regs cx)) (r_es (cx_regs cx))
    (r_fs (cx_regs cx)) (r_gs (cx_regs cx))) (cx_eflags cx) (cx_cs cx) (cx_eip cx) = cx) as ->
    by (by destruct cx as [[]]).
  apply HQ. split; try done. cbn. lia.
Qed.
End stub.

(** ** Resuming after a repaired fault *)

(** A page is mapped or not as a whole. *)
Lemma resolve_page h va va' :
  paging_on h = true → resolve h va = None → va' / 4096 = va / 4096 → resolve h va' = None.
Proof.
  intros Hon. unfold resolve, page_walk, pde_addr, pte_addr. rewrite Hon. intros E Epage.
  assert (pd_index va' = pd_index va ∧ pt_index va' = pt_index va) as [-> ->].
  { rewrite !pd_index_div, !pt_index_div. split; zify_mod. }
  destruct (Z.testbit _ 0); [|done]. by destruct (Z.testbit _ 0).
Qed.

(** The gate [idt_init] stores for page faults. *)
Lemma dispatch_isr isr :
  0 <= isr < 2 ^ 32 → dispatch_of (gate_entry isr 0x08 0x8E) = Interrupt 0x08 isr.
Proof.
  intros Hisr. transitivity (Interrupt 0x08 (gate_offset (gate_entry isr 0x08 0x8E))); [done|].
  by rewrite gate_entry_offset.
Qed.

Lemma wp_delivering {A} (m : M A) Q P s : wp m Q P s → wp (delivering m) Q P s.
Proof. unfold wp, delivering. by destruct (m s). Qed.

Section resume.
Context `{FrameAllocator}.

(** 68 bytes of stack below [hi], the stack pointer, for the frame: mapped at a
    fixed distance to memory that pager, allocator and console do not use. *)
Record stack_ready (lo hi d : Z) (s : kstate) : Prop := {
  sr_range : 0 <= lo ∧ lo + 68 <= hi ∧ hi < 2 ^ 32;
  sr_esp : esp (hw s) = hi;
  sr_maps : ∀ a, lo <= a < hi → resolve (hw s) a = Some (a + d);
  sr_idle : ∀ a, lo <= a < hi → idle s (a + d) ∧ ¬ harmless (a + d);
}.

Lemma stack_ready_idle lo hi d s s' :
  stack_ready lo hi d s → only_in (lo + d) (hi + d) (mem (hw s)) (mem (hw s')) →
  cr0 (hw s') = cr0 (hw s) → cr3 (hw s') = cr3 (hw s) → same_but (idle s) s s'.
Proof.
  intros Hs Hm E0 E3. split; [|done..]. intros a Ha. apply Hm. intros Hr. apply Ha.
  replace a with (a - d + d) by lia. apply (sr_idle _ _ _ _ Hs). lia.
Qed.

Lemma stack_ready_maps lo hi d s :
  paging_wf s → fa_inv s → stack_ready lo hi d s → stack_maps lo hi d s.
Proof.
  intros Hwf Hinv Hs m Hm a Ha. rewrite <- (sr_maps _ _ _ _ Hs a Ha).
  destruct (sr_range _ _ _ _ Hs). apply (idle_resolve s (with_mem s m) Hwf Hinv); [|done|lia].
  by apply (stack_ready_idle lo hi d).
Qed.

Lemma cr2_set s va :
  paging_wf s → fa_inv s → console_ok s →
  let s' := on_hw (set_cr2 va) s in
  paging_wf s' ∧ fa_inv s' ∧ console_ok s' ∧ (∀ i, fa_free s' i ↔ fa_free s i) ∧
  ∀ k, 0 <= k < 1024 → pde s' k = pde s k.
Proof.
  intros Hwf Hinv Hok s'. destruct (idle_change s s') as (? & ? & ? & ? & ?); [done..|].
  split_and!; [done|done|by apply (idle_console s)|done|done].
Qed.

Lemma stack_ready_cr2 lo hi d s va :
  paging_wf s → fa_inv s → console_ok s → stack_ready lo hi d s →
  stack_ready lo hi d (on_hw (set_cr2 va) s).
Proof.
  intros Hwf Hinv Hok [? ? ? Hidle]. destruct (cr2_set s va Hwf Hinv Hok) as (_ & _ & _ & Hf0 & Hpde0).
  split; [done..|]. intros a Ha. destruct (Hidle a Ha). split; [by apply (idle_same s)|done].
Qed.

(** What a repaired fault leaves when the interrupted code goes on. *)
Record resumed (s : kstate) (va i : Z) (frame : Z → Prop) (s' : kstate) : Prop := {
  rs_free : fa_free s i;
  rs_walk : remapped s va (λ va', Some (4096 * i + va' mod 4096)) s';
  rs_private : ∀ k, 0 <= k < 1024 → pde_present s' k = true → pde_frame s' k ≠ i;
  rs_taken : ¬ fa_free s' i;
  rs_cost : two_taken s i s';
  rs_paging : paging_wf s';
  rs_inv : fa_inv s';
  rs_console : console_ok s';
  rs_kept : ∀ a, idle s a → ¬ harmless a → ¬ frame a →
    rd8 (mem (hw s')) a = rd8 (mem (hw s)) a;
  rs_idle : ∀ a, idle s a → idle s' a;
  rs_esp : esp (hw s') = esp (hw s);
  rs_ebp : ebp (hw s') = ebp (hw s);
  rs_iflag : iflag (hw s') = iflag (hw s);
  rs_rest : desc s' = desc s ∧ syms s' = syms s;
}.

Definition frame_bytes (hi d a : Z) : Prop := hi - 68 + d <= a < hi + d.

(** The processor's note of the address makes no difference. *)
Lemma resumed_cr2 s va i F s' :
  paging_wf s → fa_inv s → console_ok s → resumed (on_hw (set_cr2 va) s) va i F s' →
  resumed s va i F s'.
Proof.
  intros Hwf Hinv Hok Hr. destruct (cr2_set s va Hwf Hinv Hok) as (_ & _ & _ & Hf0 & Hpde0).
  destruct Hr as [Hi Hw Hpriv Ht [j Hj] Hwf1 Hinv1 Hok1 Hkept Hidle Esp Ebp Eif Erest]. split; try done.
  - by apply Hf0.
  - exists j. intros k. by rewrite Hj, Hf0.
  - intros a Ha. apply Hkept. by apply (idle_same s).
  - intros a Ha. by apply Hidle, (idle_same s).
Qed.

(** Nor does a word stored in the page just mapped. *)
Lemma resumed_store s va i F s1 v :
  fa_inv s → va mod 4096 <= 4092 → resumed s va i F s1 → resumed s va i F (frame_store i va v s1).
Proof.
  intros Hinv Hoff Hr.
  pose proof Hr as [Hi Hw Hpriv Ht [j Hj] Hwf1 Hinv1 Hok1 Hkept Hidle Esp Ebp Eif Erest].
  pose proof (fa_free_high s i Hinv Hi) as Hhi.
  pose proof (frame_store_idle s1 i va v ltac:(lia) Ht Hpriv Hoff) as F1.
  destruct (idle_change s1 _ Hwf1 Hinv1 F1 eq_refl) as (? & ? & Hf & Hpde & Hres). split; try done.
  - intros va' Hv. rewrite Hres by done. by apply Hw.
  - intros k Hk. unfold pde_present, pde_frame. rewrite Hpde by done. by apply Hpriv.
  - by rewrite Hf.
  - exists j. intros k. by rewrite Hf, Hj.
  - by apply (idle_console s1).
  - intros a Ha Hh Hfb. rewrite frame_store_byte; [by apply Hkept|done|].
    intros Ei. destruct Ha as [[Hlow _]|(_ & Hu & _)]; [clear -Ei Hhi Hlow; zify_mod|].
    apply Hu. by rewrite Ei.
  - intros a Ha. by apply (idle_same s1), Hidle.
Qed.

(** Saving the frame disturbs nothing. *)
Lemma saved_change lo hi d ws s s1 :
  paging_wf s → fa_inv s → console_ok s → stack_ready lo hi d s → zlen ws = 17 →
  pushed d (on_hw (set_iflag false) s) ws s1 →
  paging_wf s1 ∧ fa_inv s1 ∧ console_ok s1 ∧ (∀ j, fa_free s1 j ↔ fa_free s j) ∧
  (∀ k, 0 <= k < 1024 → pde s1 k = pde s k) ∧
  (∀ va, 0 <= va < 2 ^ 32 → resolve (hw s1) va = resolve (hw s) va) ∧
  only_in (hi - 68 + d) (hi + d) (mem (hw s)) (mem (hw s1)).
Proof.
  intros Hwf Hinv Hok Hs Hlen Hp. destruct (sr_range _ _ _ _ Hs) as (? & ? & ?).
  assert (only_in (hi - 68 + d) (hi + d) (mem (hw s)) (mem (hw s1))) as Hm.
  { intros a Ha. apply (pu_mem _ _ _ _ Hp). rewrite (pu_esp _ _ _ _ Hp), Hlen. cbn.
    rewrite (sr_esp _ _ _ _ Hs). lia. }
  assert (same_but (idle s) s s1) as F.
  { apply (stack_ready_idle lo hi d); [done| |apply (pu_cr0 _ _ _ _ Hp)|apply (pu_cr3 _ _ _ _ Hp)].
    intros a Ha. apply Hm. lia. }
  destruct (pu_rest _ _ _ _ Hp) as (Ep & El & Ev & _).
  destruct (idle_change s s1 Hwf Hinv F Ep) as (? & ? & ? & ? & ?).
  split_and!; [done|done|by apply (idle_console s)|done..].
Qed.

(** The frame is still there after the fault has been repaired. *)
Lemma frame_survives lo hi d ws s s1 s2 va i :
  paging_wf s → stack_ready lo hi d s → zlen ws = 17 → resolve (hw s) va = None →
  0 <= va < 2 ^ 32 → pushed d (on_hw (set_iflag false) s) ws s1 → recovered s1 va i s2 →
  (∀ j, fa_free s1 j ↔ fa_free s j) → (∀ k, 0 <= k < 1024 → pde s1 k = pde s k) →
  (∀ va, 0 <= va < 2 ^ 32 → resolve (hw s1) va = resolve (hw s) va) →
  stack_words lo hi d ws s2.
Proof.
  intros Hwf Hs Hlen Hnone Hva Hp Hrc Hf Hpde Hres.
  destruct (sr_range _ _ _ _ Hs) as (? & ? & ?). split.
  - intros a Ha. rewrite (rc_walk _ _ _ _ Hrc), Hres by lia. rewrite decide_False.
    { by apply (sr_maps _ _ _ _ Hs). }
    intros Epage. pose proof (sr_maps _ _ _ _ Hs a Ha) as Ea.
    rewrite (resolve_page (hw s) va a) in Ea by (done || apply Hwf). done.
  - intros k v Hk. rewrite <- (pu_word _ _ _ _ Hp k v Hk). cbn. rewrite (sr_esp _ _ _ _ Hs).
    apply rd32_agree. intros b Hb. pose proof (lookup_lt_Some _ _ _ Hk). unfold zlen in Hlen.
    destruct (sr_idle _ _ _ _ Hs (b - d)) as [Hi Hh]; [lia|].
    replace (b - d + d) with b in * by lia. apply (rc_kept _ _ _ _ Hrc); [|done].
    by apply (idle_same s).
Qed.

Section deliver.
Context (lo hi d : Z) (cx : context) (error va : Z) (s : kstate).
Context (Hwf : paging_wf s) (Hinv : fa_inv s) (Hok : console_ok s).
Context (Hcr2 : cr2 (hw s) = va) (Hva : KERNEL_HEAP_START <= va < KERNEL_HEAP_END).
Context (Hnone : resolve (hw s) va = None) (Hfr : frames_for s va).
Context (Hstack : stack_ready lo hi d s).
Context (Hcx : context_ok cx) (Hif : if_set (cx_eflags cx) = iflag (hw s)).
Context (Hbp : 0 <= ebp (hw s) < 2 ^ 32).

Definition all_words : list Z :=
  frame_words (cx_regs cx) (cx_eflags cx) (cx_cs cx) (cx_eip cx) error
    (esp (hw s) - 16) (ebp (hw s)) ++ [esp (hw s) - 64].

(** From the saved frame to the interrupted instruction. *)
Lemma wp_isr_rest s1 (Q : context → kstate → Prop) P :
  pushed d (on_hw (set_iflag false) s) all_words s1 →
  (∀ i s', resumed s va i (frame_bytes hi d) s' → Q cx s') →
  wp (page_fault_handler (esp (hw s) - 64);; r ← isr_page_fault_restore; iret r) Q P s1.
Proof using All.
  intros Hp HQ. destruct (sr_range _ _ _ _ Hstack) as (? & ? & ?).
  pose proof (sr_esp _ _ _ _ Hstack) as Esp.
  destruct (saved_change lo hi d all_words s s1) as (Hwf1 & Hinv1 & Hok1 & Hf1 & Hpde1 & Hres1 & Hm1);
    [done..|].
  assert (∀ a, lo <= a < hi → readable s1 a) as Hread.
  { intros a Ha. split; [lia|]. rewrite Hres1, (sr_maps _ _ _ _ Hstack) by lia. done. }
  assert (0 <= va < 2 ^ 32) as Hva' by (unfold KERNEL_HEAP_START, KERNEL_HEAP_END in Hva; lia).
  wp_step. apply (wp_handler_heap _ s1 va); [done|done|done|by rewrite (pu_cr2 _ _ _ _ Hp)|done| | | |].
  { by apply (frames_for_same s). }
  { apply Hread. unfold frame_error_code. lia. }
  { apply Hread. unfold frame_eip. lia. }
  intros i s2 Hrc. pose proof Hrc as [Hi Hw Hpriv Ht [j Hj] _ Hwf2 Hinv2 Hok2 Hkept Hidle2 Esp2 _ [Ed2 Ey2]].
  pose proof (frame_survives lo hi d all_words s s1 s2 va i Hwf Hstack ltac:(done) Hnone Hva' Hp Hrc
    Hf1 Hpde1 Hres1) as Hws.
  apply (wp_isr_return lo hi d cx error (esp (hw s) - 16) (ebp (hw s)) (esp (hw s) - 64)); [done..| |].
  { rewrite Esp2, (pu_esp _ _ _ _ Hp). cbn. rewrite Esp. done. }
  intros s3 [Em E0 E3 (Ep & El & Ev & Ed & Ey) Esp3 Ebp3 Eif3]. apply (HQ i).
  assert (same_but (idle s2) s2 s3) as F by (split; [by rewrite Em|done..]).
  destruct (idle_change s2 s3 Hwf2 Hinv2 F Ep) as (Hwf3 & Hinv3 & Hf3 & Hpde3 & Hres3).
  destruct (pu_rest _ _ _ _ Hp) as (_ & _ & _ & Ed1 & Ey1). split.
  - by apply Hf1.
  - intros va' Hv. rewrite Hres3, Hw by done. case_decide; [done|]. by apply Hres1.
  - intros k Hk. unfold pde_present, pde_frame. rewrite Hpde3 by done. by apply Hpriv.
  - by rewrite Hf3.
  - exists j. intros k. by rewrite Hf3, Hj, Hf1.
  - done.
  - done.
  - by apply (idle_console s2).
  - intros a Ha Hh Hfb. rewrite Em, Hkept by (done || by apply (idle_same s)). by apply Hm1.
  - intros a Ha. by apply (idle_same s2), Hidle2, (idle_same s).
  - by rewrite Esp3.
  - done.
  - by rewrite Eif3.
  - rewrite Ed, Ed2, Ed1, Ey, Ey2, Ey1. done.
Qed.

Lemma wp_deliver_page_fault (Q : context → kstate → Prop) P :
  idt (desc s) !! 14%nat = Some (gate_entry (sym_isr_page_fault (syms s)) 0x08 0x8E) →
  0 <= sym_isr_page_fault (syms s) < 2 ^ 32 →
  (∀ i s', resumed s va i (frame_bytes hi d) s' → Q cx s') →
  wp (deliver_page_fault cx error) Q P s.
Proof using All.
  intros Hgate Hisr HQ. destruct (sr_range _ _ _ _ Hstack) as (? & ? & ?).
  pose proof (sr_esp _ _ _ _ Hstack) as Esp.
  pose proof (stack_ready_maps lo hi d s Hwf Hinv Hstack) as Hmaps.
  unfold deliver_page_fault. wp_step. apply (wp_load_idt 14 _ s _ _ ltac:(lia) Hgate).
  rewrite dispatch_isr by done. wp_step. apply wp_delivering.
  apply (wp_push_all lo hi d); [done|lia|lia|unfold zlen; simpl; lia|]. intros s1 HP1.
  assert (esp (hw s1) = esp (hw s) - 16) as E1 by (rewrite (pu_esp _ _ _ _ HP1); unfold zlen; simpl; lia).
  pose proof (pushed_maps lo hi d s _ s1 Hmaps HP1 ltac:(lia) ltac:(lia)) as Hmaps1.
  do 4 wp_step. cbn [syms on_hw]. destruct (pu_rest _ _ _ _ HP1) as (_ & _ & _ & _ & ->).
  rewrite Z.eqb_refl. unfold isr_page_fault. wp_step.
  apply (wp_isr_save lo hi d); [by apply (stack_maps_pushed _ _ _ s1)|lia|lia|cbn; lia|].
  intros s2 HP2. cbn [hw on_hw set_iflag esp ebp] in HP2 |- *.
  replace (esp (hw s1) - 48) with (esp (hw s) - 64) by lia. apply wp_isr_rest; [|done].
  apply (pushed_frame _ _ _ _ _ _ _ s1); [done|]. destruct HP2. by split.
Qed.
End deliver.

Section store.
Context (lo hi d : Z) (cx : context) (va v : Z) (s : kstate).
Context (Hwf : paging_wf s) (Hinv : fa_inv s) (Hok : console_ok s).
Context (Hva : KERNEL_HEAP_START <= va < KERNEL_HEAP_END) (Hoff : va mod 4096 <= 4092).
Context (Hnone : resolve (hw s) va = None) (Hfr : frames_for s va).
Context (Hstack : stack_ready lo hi d s).
Context (Hcx : context_ok cx) (Hif : if_set (cx_eflags cx) = iflag (hw s)).
Context (Hbp : 0 <= ebp (hw s) < 2 ^ 32).
Context (Hgate : idt (desc s) !! 14%nat = Some (gate_entry (sym_isr_page_fault (syms s)) 0x08 0x8E)).
Context (Hisr : 0 <= sym_isr_page_fault (syms s) < 2 ^ 32).

(** The fault is delivered and repaired. *)
Lemma deliver_heap_fault :
  ∃ i s1, deliver_page_fault cx ERROR_WRITE (on_hw (set_cr2 va) s) = Ok cx s1 ∧
    resumed s va i (frame_bytes hi d) s1.
Proof using -(v Hoff).
  assert (0 <= va < 2 ^ 32) as Hva' by (unfold KERNEL_HEAP_START, KERNEL_HEAP_END in Hva; lia).
  set (s0 := on_hw (set_cr2 va) s). destruct (cr2_set s va Hwf Hinv Hok) as (Hwf0 & Hinv0 & Hok0 & Hf0 & Hpde0).
  destruct (wp_run (deliver_page_fault cx ERROR_WRITE)
    (λ cx' s', cx' = cx ∧ ∃ i, resumed s0 va i (frame_bytes hi d) s') s0) as (? & s1 & E & -> & i & Hr).
  { apply (wp_deliver_page_fault lo hi d _ _ va); try done.
    - by apply (frames_for_same s).
    - by apply stack_ready_cr2.
    - intros i s' Hr. split; [done|]. by exists i. }
  exists i, s1. split; [done|]. by apply resumed_cr2.
Qed.

Lemma retry_heap_store :
  ∃ i s', retry cx ERROR_WRITE (store32 va v) s = Ok tt s' ∧
    load32 va s' = Ok (u32 v) s' ∧ resumed s va i (frame_bytes hi d) s'.
Proof using All.
  destruct deliver_heap_fault as (i & s1 & E & Hr). exists i, (frame_store i va v s1).
  assert (0 <= va < 2 ^ 32) as Hva' by (unfold KERNEL_HEAP_START, KERNEL_HEAP_END in Hva; lia).
  pose proof (fa_free_high s i Hinv (rs_free _ _ _ _ _ Hr)) as Hhi.
  destruct (frame_store_run s1 i va v) as [E1 E2]; try apply Hr; [lia|done|done| |].
  { by rewrite (rs_walk _ _ _ _ _ Hr), decide_True. }
  split_and!; [|done|by apply resumed_store].
  unfold retry. unfold store32 at 1, State.access. rewrite Hnone. unfold mbind, M_bind.
  rewrite E. by rewrite decide_True.
Qed.
End store.
End resume.

(** ** Faults that cannot be delivered *)

(** The interrupt table routes double faults to a task that is busy. *)
Record task_busy (d : desc_vars) : Prop := {
  tb_gate : idt d !! 8%nat = Some (task_gate_entry 0x18);
  tb_task : ∃ g, gdt d !! 3%nat = Some g ∧ tss_available g = false;
}.

Lemma load_idt_run n e s :
  idt (desc s) !! Z.to_nat n = Some e → 0 <= n → load_idt n s = Ok e s.
Proof.
  intros E Hn. unfold load_idt, mbind, M_bind, gets. rewrite E.
  by destruct (Z.leb_spec 0 n); [|lia].
Qed.

Lemma load_gdt_run n e s :
  gdt (desc s) !! Z.to_nat n = Some e → 0 <= n → load_gdt n s = Ok e s.
Proof.
  intros E Hn. unfold load_gdt, mbind, M_bind, gets. rewrite E.
  by destruct (Z.leb_spec 0 n); [|lia].
Qed.

Lemma double_fault_resets {A} s : task_busy (desc s) → @double_fault A s = Undef (UbReset s).
Proof.
  intros [Hg (g & Hd & Ha)]. unfold double_fault, mbind, M_bind.
  rewrite (load_idt_run 8 (task_gate_entry 0x18)) by done.
  change (dispatch_of (task_gate_entry 0x18)) with (Task 0x18). cbv iota beta. change (0x18 / 8) with 3.
  rewrite (load_gdt_run 3 g) by done. by rewrite Ha.
Qed.

(** Without a stack to push on, a page fault becomes a double fault. *)
Lemma deliver_without_stack `{FrameAllocator} cx error s :
  idt (desc s) !! 14%nat = Some (gate_entry (sym_isr_page_fault (syms s)) 0x08 0x8E) →
  0 <= sym_isr_page_fault (syms s) < 2 ^ 32 → task_busy (desc s) →
  resolve (hw s) (u32 (esp (hw s) - 4)) = None →
  deliver_page_fault cx error s = Undef (UbReset (on_hw (set_cr2 (u32 (esp (hw s) - 4))) s)).
Proof.
  intros Hgate Hisr Hbusy Hnone.
  unfold deliver_page_fault, mbind at 1, M_bind at 1.
  rewrite (load_idt_run 14 _ s Hgate), dispatch_isr by done.
  unfold mbind at 1, M_bind at 1. unfold delivering, push_all, push.
  unfold mbind, M_bind, gets. cbv zeta. unfold store32, State.access. rewrite Hnone.
  by rewrite double_fault_resets.
Qed.

(** With the two gates of [idt_init] only, and the task of one of them busy, any
    interrupt but the fourteenth resets the machine. *)
Lemma interrupt_resets {A} isr s v :
  idt (desc s) = idt_table isr → task_busy (desc s) → 0 <= v < IDT_ENTRIES → v ≠ 14 →
  @deliver_interrupt A v s = Undef (UbReset s).
Proof.
  intros Ei Hbusy Hv H14.
  assert (∀ n, 0 <= n < IDT_ENTRIES → n ≠ 8 → n ≠ 14 →
    load_idt n s = Ok idt_entry_zero s) as Hnone.
  { intros n Hn H8 Hn14. apply load_idt_run; [|lia]. rewrite Ei. unfold idt_table, IDT_ENTRIES in *.
    rewrite !list_lookup_insert_ne by lia. apply lookup_replicate. split; [done|lia]. }
  assert (∀ n, 0 <= n < IDT_ENTRIES → n ≠ 8 → n ≠ 14 → @raise A n s = Undef (UbReset s)) as Hraise.
  { intros n Hn H8 Hn14. unfold raise, mbind, M_bind. rewrite Hnone by done.
    change (dispatch_of idt_entry_zero) with NotPresent. cbv iota. by apply double_fault_resets. }
  unfold deliver_interrupt, mbind, M_bind. destruct (decide (v = 8)) as [->|H8].
  - pose proof Hbusy as [Hg (g & Hd & Ha)].
    rewrite (load_idt_run 8 (task_gate_entry 0x18)) by done.
    change (dispatch_of (task_gate_entry 0x18)) with (Task 0x18). cbv iota beta. change (0x18 / 8) with 3.
    rewrite (load_gdt_run 3 g) by done. rewrite Ha.
    apply Hraise; unfold VECTOR_GENERAL_PROTECTION, IDT_ENTRIES; lia.
  - rewrite Hnone by done. change (dispatch_of idt_entry_zero) with NotPresent. 
    change (gate_type_valid idt_entry_zero) with false. cbv iota.
    apply Hraise; unfold VECTOR_GENERAL_PROTECTION, IDT_ENTRIES; lia.
Qed.

(** A request while interrupts are off waits. *)
Lemma device_request_masked v s : iflag (hw s) = false → device_request v s = Ok tt s.
Proof. intros E. unfold device_request, mbind, M_bind, gets. by rewrite E. Qed.

(** Once they are on, it is served. *)
Lemma device_request_served isr s v :
  idt (desc s) = idt_table isr → task_busy (desc s) → 0 <= v < IDT_ENTRIES → v ≠ 14 →
  ∃ r, (sti;; device_request v) s = Undef (UbReset r).
Proof.
  intros Ei Hbusy Hv H14. eexists. unfold sti, device_request, mbind, M_bind, modify, gets.
  cbn [iflag hw on_hw push_event set_iflag]. by apply (interrupt_resets isr).
Qed.
