(* ===== verification/Kernel.v ===== *)
(** * The kernel's main program: [kernel/main/kernel.c]

    The boot sequence, the debugging dumps, the mapping of the high stack and
    the overflow test.  The stack of C calls is not modelled elsewhere; here it
    is, as far as the source makes it visible: the switch of [esp] and the
    frames of the recursive test. *)

From Stdlib Require Import ZArith Lia String.
From stdpp Require Import base gmap list.
From S2P Require Import Prelude RingBuf Format Descriptors Machine State Vga Printk Panik MemoryMap Frame Pmm PmmProps Paging PagingProps Arch PageFault Cpu.

(** ** Dumps *)

Definition found (b : bool) : list Z := if b then C "(FOUND)" else C "(not found)".

Definition check_double_fault_breadcrumbs : M unit :=
  printk (C "Checking double fault breadcrumbs:\n") [];;
  magic1 ← load32 0x15000;
  printk (C "  Magic1 (0x15000): 0x%08x %s\n") [AWord magic1; AStr (Some (found (magic1 =? 0xDEADBEEF)))];;
  magic2 ← load32 0x15004;
  printk (C "  Magic2 (0x15004): 0x%08x %s\n") [AWord magic2; AStr (Some (found (magic2 =? 0xCAFEBABE)))];;
  magic3 ← load32 0x15008;
  printk (C "  Magic3 (0x15008): 0x%08x %s\n") [AWord magic3; AStr (Some (found (magic3 =? 0x12345678)))];;
  mret tt.

Definition debug_idt_entry (num : Z) : M unit :=
  printk (C "IDT Entry %d:\n") [AWord num];;
  e ← load_idt num;
  printk (C "  base_low:  0x%04x\n") [AWord (Descriptors.base_low e)];;
  printk (C "  base_high: 0x%04x\n") [AWord (Descriptors.base_high e)];;
  printk (C "  sel:       0x%04x\n") [AWord (sel e)];;
  printk (C "  always0:   0x%02x\n") [AWord (always0 e)];;
  printk (C "  flags:     0x%02x\n") [AWord (flags e)];;
  (if flag (flags e) 0x80 then printk (C "    Present: YES\n") []
   else printk (C "    Present: NO\n") []);;
  let gate_type := Z.land (flags e) 0x0F in
  (if gate_type =? 0x5 then printk (C "    Type: Task Gate\n") []
   else if gate_type =? 0xE then printk (C "    Type: Interrupt Gate\n") []
   else printk (C "    Type: 0x%x (unknown)\n") [AWord gate_type]);;
  mret tt.

Definition debug_gdt_entry (num : Z) : M unit :=
  printk (C "GDT Entry %d:\n") [AWord num];;
  e ← load_gdt num;
  printk (C "  base: 0x%08x\n")
    [AWord (Z.lor (Z.lor (Z.shiftl (gbase_high e) 24) (Z.shiftl (gbase_middle e) 16)) (gbase_low e))];;
  printk (C "  limit: 0x%05x\n")
    [AWord (Z.lor (Z.shiftl (Z.land (granularity e) 0x0F) 16) (limit_low e))];;
  printk (C "  access: 0x%02x\n") [AWord (Descriptors.access e)];;
  printk (C "  granularity: 0x%02x\n") [AWord (granularity e)];;
  (if flag (Descriptors.access e) 0x80 then printk (C "    Present: YES\n") []
   else printk (C "    Present: NO\n") []);;
  let desc_type := Z.land (Z.shiftr (Descriptors.access e) 3) 0x1 in
  (if desc_type =? 0 then printk (C "    Type: System\n") []
   else printk (C "    Type: Code/Data\n") []);;
  mret tt.

Definition debug_tss_contents : M unit :=
  printk (C "TSS Contents:\n") [];;
  t ← gets (λ s, tss_df (desc s));
  printk (C "  esp: 0x%08x\n") [AWord (tss_esp t)];;
  printk (C "  ss:  0x%04x\n") [AWord (tss_ss t)];;
  printk (C "  cs:  0x%04x\n") [AWord (tss_cs t)];;
  printk (C "  eip: 0x%08x\n") [AWord (tss_eip t)];;
  printk (C "  cr3: 0x%08x\n") [AWord (tss_cr3 t)];;
  printk (C "  ds:  0x%04x\n") [AWord (tss_ds t)];;
  mret tt.

Definition debug_print_esp_args (arg1 arg2 : Z) : M unit :=
  printk (C "switch_to_high_stack: [esp+4]=0x%08x [esp+8]=0x%08x\n") [AWord arg1; AWord arg2];;
  mret tt.

(** ** The high stack *)

(** One turn of the loop over the pages of the stack. *)
Definition map_stack_page (off : Z) : M unit :=
  let virt := u32 (KERNEL_STACK_BOTTOM_VIRT + off) in
  phys_frame ← pmm_alloc_frame;
  (if phys_frame =? 0 then
     printk (C "Failed to allocate stack frame for virt=0x%08x\n") [AWord virt];;
     panik (C "Stack frame allocation failed") []
   else mret tt);;
  printk (C "Mapping stack page: virt=0x%08x phys=0x%08x\n") [AWord virt; AWord phys_frame];;
  paging_map_page virt phys_frame (Z.lor PAGE_PRESENT PAGE_WRITE);;
  pmm_set_frame_bitmap phys_frame (u32 (phys_frame + PAGE_SIZE)).

(** The loop; the guard page, the first of the stack, stays unmapped. *)
Definition map_stack : M unit :=
  let stack_size := KERNEL_STACK_TOP_VIRT - KERNEL_STACK_BOTTOM_VIRT in
  printk (C "Mapping stack pages...\n") [];;
  addr_loop ADDR_FUEL PAGE_SIZE stack_size map_stack_page.

(** [kernel_entry.asm]: load [esp], jump to the function, never come back. *)
Definition switch_to_high_stack (new_esp : Z) (entry_func : M unit) : M unit :=
  modify (on_hw (set_esp new_esp));;
  entry_func.

(** The compiler chooses the size of a call's frame, at least the 512 bytes of
    [dummy], which is taken to lie at its lower end; the recursion has no end of
    its own.  [cpu] executes an instruction that may fault: it is [id] if a fault
    ends the run, [retry] if the fault is delivered. *)
Fixpoint test_stack_overflow (cpu : M unit → M unit) (fuel : nat) (frame_size depth : Z) : M unit :=
  match fuel with
  | O => undef UbDiverge
  | S fuel =>
      sp ← gets (λ s, esp (hw s));
      modify (on_hw (set_esp (u32 (sp - frame_size))));;
      current_esp ← gets (λ s, esp (hw s));
      cpu (store8 current_esp (u8 depth));;
      printk (C "Stack depth: %d, ESP=0x%08x\n") [AWord depth; AWord current_esp];;
      (if current_esp <=? KERNEL_STACK_BOTTOM_VIRT + PAGE_SIZE + 0x1000 then
         printk (C "WARNING: Approaching guard page at 0x%08x!\n") [AWord KERNEL_STACK_BOTTOM_VIRT];;
         printk (C "Current ESP: 0x%08x, Guard page: 0x%08x\n")
           [AWord current_esp; AWord KERNEL_STACK_BOTTOM_VIRT];;
         mret tt
       else mret tt);;
      test_stack_overflow cpu fuel frame_size (depth + 1)
  end.

Definition high_stack_entry (cpu : M unit → M unit) (fuel : nat) (frame_size : Z) : M unit :=
  printk (C "Switched to high virtual stack!\n") [];;
  cur_esp ← gets (λ s, esp (hw s));
  printk (C "ESP after stack switch: 0x%08x\n") [AWord cur_esp];;
  printk (C "Triggering demand-paged heap access...\n") [];;
  printk (C "Before accessing heap") [];;
  cpu (store32 (KERNEL_HEAP_START + 0x1234) 42);;
  printk (C "Heap page mapped and write succeeded!\n") [];;
  printk (C "Testing stack overflow...\n") [];;
  t ← gets (λ s, tss_df (desc s));
  printk (C "Current page directory CR3: 0x%08x\n") [AWord (tss_cr3 t)];;
  store16 0xB8000 0x4F41;;
  printk (C "VGA memory test: wrote to 0xB8000\n") [];;
  printk (C "About to trigger double fault test...\n") [];;
  printk (C "Testing double fault handler directly...\n") [];;
  printk (C "If you see this, double fault handler failed!\n") [];;
  test_stack_overflow cpu fuel frame_size 0.

(** ** Boot *)

Definition KERNEL_NAME : list Z := C "Kernel-V".
Definition KERNEL_VERSION : list Z := C "0.2".

Definition with_df_stack (l : list Z) (d : desc_vars) : desc_vars :=
  DescVars (idt d) (idt_ptr d) (gdt d) (gdtp d) (tss_df d) l.

(** [double_fault_stack[i] = v] *)
Definition store_df_stack (i v : Z) : M unit :=
  d ← gets desc;
  if (0 <=? i) && (i <? zlen (double_fault_stack d))
  then upd_desc (with_df_stack (<[Z.to_nat i := u8 v]> (double_fault_stack d)))
  else undef UbIndex.

Definition RULE : list Z := C "\n==================================================\n".

(** Lines 159 to 191: console, tables, and their dumps. *)
Definition boot_tables : M unit :=
  printk_init;;
  printk (C "%s v%s - Hello Devjit!\n") [AStr (Some KERNEL_NAME); AStr (Some KERNEL_VERSION)];;
  printk (C "Kernel-V is running! Welcome to your custom kernel, Devjit!\n") [];;
  check_double_fault_breadcrumbs;;
  idt_init;;
  init_tss;;
  gdt_init;;
  printk RULE [];;
  printk (C "DEBUG: IDT and GDT Setup\n") [];;
  debug_idt_entry 8;;
  debug_gdt_entry 3;;
  debug_tss_contents;;
  printk (drop 1 RULE) [];;
  stack ← gets (λ s, sym_double_fault_stack (syms s));
  printk (C "Double fault stack: 0x%08x to 0x%08x\n")
    [AWord stack; AWord (stack + DOUBLE_FAULT_STACK_SIZE)];;
  printk (C "Double fault stack size: %d bytes\n") [AWord DOUBLE_FAULT_STACK_SIZE];;
  for_ 16 0 (λ i, store_df_stack i (0xAA + i));;
  printk (C "Double fault stack test pattern written\n") [];;
  mret tt.

(** Lines 196 to 212: memory map and physical memory. *)
Definition boot_memory : M unit :=
  printk RULE [];;
  printk (C "Parsing BIOS Memory Map (E820)...\n") [];;
  parse_and_print_e820_map;;
  pmm_init;;
  pmm_reserve_memory_region RESERVED_TYPE_INIT;;
  pmm_reserve_memory_region RESERVED_TYPE_KERNEL;;
  pmm_reserve_memory_region RESERVED_TYPE_BITMAP;;
  frame1 ← pmm_alloc_frame;
  printk (if negb (frame1 =? 0) then C "Allocated frame at address: %p\n"
          else C "Failed to allocate frame\n") [AWord frame1];;
  frame2 ← pmm_alloc_frame;
  printk (if negb (frame2 =? 0) then C "Allocated another frame at address: %p\n"
          else C "Failed to allocate another frame\n") [AWord frame2];;
  mret tt.

(** The stack pointer the kernel goes on with. *)
Definition new_stack_ptr : Z := KERNEL_STACK_TOP_VIRT - 16.

(** Lines 217 to 257: paging and the stack. *)
Definition boot_paging : M unit :=
  printk RULE [];;
  printk (C "Initializing Paging...\n") [];;
  paging_init;;
  debug_page_tables;;
  pmm_reserve_memory_region RESERVED_TYPE_PAGE_TABLE;;
  update_tss_cr3;;
  printk RULE [];;
  printk (C "Double fault TSS configured:\n") [];;
  y ← gets syms;
  printk (C "  TSS address: 0x%08x\n") [AWord (sym_tss_df y)];;
  t ← gets (λ s, tss_df (desc s));
  printk (C "  Handler EIP: 0x%08x\n") [AWord (tss_eip t)];;
  printk (C "  Handler ESP: 0x%08x\n") [AWord (tss_esp t)];;
  printk (C "  Handler CR3: 0x%08x\n") [AWord (tss_cr3 t)];;
  printk RULE [];;
  map_stack;;
  printk (C "Paging initialized successfully!\n") [];;
  printk (C "About to switch to high virtual stack...\n") [];;
  printk (C "New stack pointer: 0x%08x\n") [AWord new_stack_ptr];;
  mret tt.

Definition kernel_setup : M unit :=
  boot_tables;;
  boot_memory;;
  boot_paging.

(** What follows the switch, the last line of the C function, is never reached. *)
Definition kernel_main (cpu : M unit → M unit) (fuel : nat) (frame_size : Z) : M unit :=
  kernel_setup;;
  switch_to_high_stack new_stack_ptr (high_stack_entry cpu fuel frame_size).

(** [kernel_entry.asm] *)
Definition _start (cpu : M unit → M unit) (fuel : nat) (frame_size : Z) : M unit :=
  modify (on_hw (set_esp 0x9FB00));;
  kernel_main cpu fuel frame_size.

(** ** The stack's pages *)

Definition STACK_PAGES : Z := 15.
Definition stack_page (k : Z) : Z := KERNEL_STACK_BOTTOM_VIRT + 4096 * (k + 1).

(** [n] different free frames below 4 MB. *)
Definition avail `{FrameAllocator} (s : kstate) (n : nat) : Prop :=
  ∃ l, NoDup l ∧ length l = n ∧ Forall (λ i, fa_free s i ∧ i < 1024) l.

Section avail.
Context `{FrameAllocator}.

Lemma avail_same s s' n : (∀ j, fa_free s' j ↔ fa_free s j) → avail s n → avail s' n.
Proof.
  intros Hf (l & Hnd & Hl & Hall). exists l. split_and!; [done..|].
  eapply Forall_impl; [exact Hall|]. intros i [? ?]. split; [by apply Hf|done].
Qed.

(** Taking one frame costs at most one, taking two at most two. *)
Lemma without_one (i : Z) l :
  NoDup l → (length l <= S (length (filter (λ j, j ≠ i) l)))%nat.
Proof.
  induction l as [|j l IH]; intros Hnd; [simpl; lia|].
  apply NoDup_cons in Hnd as [Hj Hnd]. rewrite filter_cons. case_decide as Hji; simpl.
  - specialize (IH Hnd). lia.
  - assert (filter (λ j, j ≠ i) l = l) as ->; [|lia].
    clear IH Hnd. induction l as [|k l IH]; [done|]. apply not_elem_of_cons in Hj as [Hjk Hj].
    rewrite filter_cons_True by congruence. by rewrite IH.
Qed.

Lemma avail_list s l n :
  NoDup l → (n <= length l)%nat → Forall (λ i, fa_free s i ∧ i < 1024) l → avail s n.
Proof.
  intros Hnd Hn Hall. exists (take n l). split_and!.
  - apply (NoDup_app (take n l) (drop n l)). by rewrite take_drop.
  - rewrite length_take. lia.
  - by apply Forall_take.
Qed.

Lemma avail_take s s' i n :
  (∀ j, fa_free s' j ↔ fa_free s j ∧ j ≠ i) → avail s (S n) → avail s' n.
Proof.
  intros Hf (l & Hnd & Hl & Hall). pose proof (without_one i l Hnd) as Hlen.
  apply (avail_list s' (filter (λ j, j ≠ i) l)); [by apply NoDup_filter|lia|].
  apply Forall_forall. intros j [Hji Hj]%list_elem_of_filter.
  rewrite Forall_forall in Hall. destruct (Hall j Hj) as [Hfj ?]. split; [by apply Hf|done].
Qed.

Lemma avail_take_two s s' i n : two_taken s i s' → avail s (S (S n)) → avail s' n.
Proof.
  intros [k Hf] (l & Hnd & Hl & Hall). pose proof (without_one i l Hnd) as Hi.
  pose proof (without_one k _ (NoDup_filter (λ j, j ≠ i) l Hnd)) as Hk.
  apply (avail_list s' (filter (λ j, j ≠ k) (filter (λ j, j ≠ i) l)));
    [by apply NoDup_filter, NoDup_filter|lia|].
  apply Forall_forall. intros j [Hjk [Hji Hj]%list_elem_of_filter]%list_elem_of_filter.
  rewrite Forall_forall in Hall. destruct (Hall j Hj) as [Hfj ?]. split; [by apply Hf|done].
Qed.

Lemma avail_mono s n m : (m <= n)%nat → avail s n → avail s m.
Proof.
  intros Hm (l & Hnd & Hl & Hall). by apply (avail_list s l); [|lia|].
Qed.

Lemma avail_head s n : avail s (S n) → ∃ i, fa_free s i ∧ i < 1024.
Proof. intros ([|i l] & _ & Hl & Hall); [done|]. exists i. by inversion Hall. Qed.
End avail.

(** A change that maps nothing: the tables and all translations are kept. *)
Record steady `{FrameAllocator} (s s' : kstate) : Prop := {
  st_frame : map_frame s s';
  st_pde : ∀ k, 0 <= k < 1024 → pde s' k = pde s k;
  st_walk : ∀ va, 0 <= va < 2 ^ 32 → resolve (hw s') va = resolve (hw s) va;
}.

Section steady.
Context `{FrameAllocator}.

Lemma steady_kframe s s' :
  paging_wf s → kframe (λ a, in_screen a ∨ fa_private a) s s' → fa_inv s' → console_ok s' →
  (∀ j, fa_free s' j → fa_free s j) → steady s s'.
Proof.
  intros Hwf F Hinv Hok Hfree. pose proof (kframe_same _ _ _ F) as Hs.
  pose proof (frame_paging_wf _ spares_console s s' Hwf Hs Hfree) as Hwf'. split.
  - split; [done..| |done|].
    + by apply (kframe_mono _ _ _ _ private_map_region).
    + by apply (data_spared _ _ _ spares_console Hs).
  - by apply (frame_pde _ spares_console).
  - intros va Hva. rewrite !paging_resolve by done. by apply (frame_walk _ spares_console).
Qed.

Lemma steady_console s s' :
  paging_wf s → fa_inv s → console_ok s' → console_frame s s' →
  steady s s' ∧ ∀ j, fa_free s' j ↔ fa_free s j.
Proof.
  intros Hwf Hinv Hok F. destruct (console_pager s s') as (_ & Hinv' & Hfree & _); [done..|].
  split; [|done]. apply steady_kframe; [done| |done|done|intros j; apply Hfree].
  apply console_kframe; [tauto|done].
Qed.

Lemma steady_alloc s i s' : paging_wf s → gave_frame s i s' → steady s s'.
Proof.
  intros Hwf (_ & _ & Hinv & Hok & F & Hfree). apply steady_kframe; [done..|].
  by intros j [? _]%Hfree.
Qed.

Lemma steady_present s s' k :
  steady s s' → 0 <= k < 1024 → pde_present s' k = pde_present s k.
Proof. intros [_ Hp _] Hk. unfold pde_present. by rewrite Hp. Qed.

Lemma steady_pde_frame s s' k :
  steady s s' → 0 <= k < 1024 → pde_frame s' k = pde_frame s k.
Proof. intros [_ Hp _] Hk. unfold pde_frame. by rewrite Hp. Qed.
End steady.

(** Marking a used frame again changes nothing the pager sees. *)
Lemma wp_mark_again s i (Q : unit → kstate → Prop) P :
  paging_wf s → pmm_inv s → console_ok s → ¬ pmm_free s i → 256 <= i < total_frames (pmm s) →
  (∀ s', steady s s' → (∀ j, pmm_free s' j ↔ pmm_free s j) → Q tt s') →
  wp (pmm_set_frame_bitmap (4096 * i) (u32 (4096 * i + PAGE_SIZE))) Q P s.
Proof.
  intros Hwf [Hpwf Hlow] Hok Hni Hi HQ. pose proof Hpwf as [_ Hmax Htot _].
  rewrite u32_small by (unfold PAGE_SIZE; lia).
  apply wp_reserve_range; [done..| |].
  { split; cbn; [unfold PAGE_SIZE; lia|]. unfold PAGE_SIZE. zify_mod. }
  intros s' [Hpwf' Hok' F Et Em Hb].
  assert (∀ j, 0 <= j < 2 ^ 20 → used_bit s' j = used_bit s j) as Hbits.
  { intros j Hj. rewrite Hb by done. cbn [existsb]. rewrite orb_false_r. unfold in_range.
    cbn [fst snd]. case_bool_decide as Hr; [|apply orb_false_r].
    replace j with i by (unfold PAGE_SIZE in Hr; clear -Hr; zify_mod).
    destruct (used_bit s i) eqn:E; [done|]. exfalso. apply Hni. split; [lia|done]. }
  assert (∀ j, pmm_free s' j ↔ pmm_free s j) as Hfree.
  { intros j. unfold pmm_free. rewrite Et. split; intros [Hj Hc]; (split; [done|]).
    - by rewrite <- Hbits by lia.
    - by rewrite Hbits by lia. }
  apply HQ; [|done]. apply steady_kframe; [done|exact F| |done|].
  - split; [done|]. intros j Hj. rewrite Hbits by lia. by apply Hlow.
  - intros j. apply Hfree.
Qed.

(** The page of [va] has been given the frame [i]; [n] frames are left. *)
Record page_added (s : kstate) (va i : Z) (n : nat) (s' : kstate) : Prop := {
  pa_free : pmm_free s i;
  pa_taken : ¬ pmm_free s' i;
  pa_frame : map_frame s s';
  pa_walk : remapped s va (λ va', Some (4096 * i + va' mod 4096)) s';
  pa_present : pde_present s' (pd_index va) = true;
  pa_tables : ∀ k, 0 <= k < 1024 → pde_present s' k = true →
    pde_frame s' k ≠ i ∧
    (pde_present s k = true ∧ pde_frame s' k = pde_frame s k ∨ pmm_free s (pde_frame s' k));
  pa_avail : avail s' n;
}.

(** Frames for the page, for its table if there is none, and [n] more. *)
Definition enough (s : kstate) (va : Z) (n : nat) : Prop :=
  pde_present s (pd_index va) = true ∧ avail s (S n) ∨ avail s (S (S n)).

Lemma enough_reachable s s1 i va n :
  enough s va (S n) → steady s s1 → (∀ j, pmm_free s1 j ↔ pmm_free s j ∧ j ≠ i) →
  0 <= va < 2 ^ 32 → table_reachable s1 va.
Proof.
  intros Hen Hst Hf Hva. destruct Hen as [[Hp _]|Ha].
  - left. by rewrite (steady_present s) by (done || by apply pd_index_range).
  - right. apply (avail_take s s1 i) in Ha; [|done]. by apply (avail_head _ _ Ha).
Qed.

(** What is left after the page's frame and the table's. *)
Lemma enough_left s s2 s3 i va n :
  enough s va n → steady s s2 → (∀ j, pmm_free s2 j ↔ pmm_free s j ∧ j ≠ i) →
  0 <= va < 2 ^ 32 → table_cost s2 va s3 → avail s3 n.
Proof.
  intros Hen Hst Hf Hva Hcost. unfold table_cost in Hcost.
  rewrite (steady_present s) in Hcost by (done || by apply pd_index_range).
  destruct Hen as [[Hp Ha]|Ha]; apply (avail_take s s2 i) in Ha; [|done| |done].
  - rewrite Hp in Hcost. by apply (avail_same s2).
  - destruct (pde_present s _).
    + apply (avail_same s2); [done|]. apply (avail_mono _ (S n)); [lia|done].
    + destruct Hcost as (t & _ & Ht). by apply (avail_take s2 _ t).
Qed.

Lemma wp_map_stack_page s off va n (Q : unit → kstate → Prop) P :
  paging_wf s → pmm_inv s → console_ok s → va = KERNEL_STACK_BOTTOM_VIRT + off →
  LOW_END <= va < 2 ^ 32 → enough s va (S n) →
  (∀ i s', page_added s va i (S n) s' → Q tt s') →
  wp (map_stack_page off) Q P s.
Proof.
  intros Hwf Hinv Hok Eva Hva Hen HQ. unfold map_stack_page. rewrite <- Eva.
  assert (0 <= va < 2 ^ 32) as Hva' by (unfold LOW_END in *; lia). rewrite u32_small by done. cbv zeta.
  assert (∃ f, pmm_free s f ∧ f < 1024) as (f & Hf & Hf4).
  { destruct Hen as [[_ Ha]|Ha]; by apply (avail_head _ _ Ha). }
  wp_step. destruct (@fa_alloc_run pmm_allocator s Hinv Hok) as (p & s1 & E & [(i & -> & Hg)|(-> & Hnone & _)]);
    [|by apply Hnone in Hf].
  eapply wp_ok; [exact E|]. pose proof Hg as (Hi & Hmin & Hinv1 & Hok1 & F1 & Hfree1).
  pose proof (pmm_free_high s i Hinv Hi) as Hhi. pose proof (Hmin f Hf) as Hif.
  destruct (Z.eqb_spec (4096 * i) 0); [lia|]. wp_step. wp_step. wp_step.
  pose proof (steady_alloc s i s1 Hwf Hg) as St1.
  apply wp_printk; [done|reflexivity|]. intros _ s2 Hok2 F2. wp_step.
  destruct (steady_console s1 s2) as [St2 Hfree2]; [apply St1|done..|].
  assert (steady s s2) as St.
  { destruct St1, St2. split; [by eapply map_frame_trans| |]; intros; rewrite ?st_pde1, ?st_walk1; auto. }
  assert (∀ j, pmm_free s2 j ↔ pmm_free s j ∧ j ≠ i) as Hfree by (intros j; by rewrite <- Hfree1).
  change (Z.lor PAGE_PRESENT PAGE_WRITE) with 3. pose proof (st_frame _ _ St) as MF2.
  apply wp_paging_map_page; [apply MF2|apply MF2|done|done|lia|by apply (enough_reachable s _ i _ n)|].
  intros s3 [MF3 Hw _ Hcost Htabs]. pose proof MF3 as [Hwf3 Hinv3 Hok3 _ Hmono3 _].
  pose proof (enough_left s s2 s3 i va (S n) Hen St Hfree Hva' Hcost) as Hleft.
  assert (¬ pmm_free s3 i) as Hni by (intros [_ ?]%Hmono3%Hfree; done).
  destruct (avail_head _ _ Hleft) as (j & Hj & _).
  apply wp_mark_again; [done..| |].
  { pose proof Hj as [? _]. apply Hmono3, Hfree in Hj as [Hj Hji]. pose proof (Hmin j Hj). lia. }
  intros s4 St4 Hfree4. apply (HQ i). pose proof (st_frame _ _ St4) as MF4.
  assert (remapped s va (λ va', Some (4096 * i + va' mod 4096)) s4) as Hw4.
  { intros va' Hv. rewrite (st_walk _ _ St4), Hw by done.
    replace (4096 * i / 4096) with i by (clear; zify_mod). change (Z.testbit 3 0) with true.
    cbv iota. by rewrite (st_walk _ _ St) by done. }
  split.
  - done.
  - by rewrite Hfree4.
  - eapply map_frame_trans; [exact MF2|]. by eapply map_frame_trans.
  - done.
  - eapply resolve_present; [apply MF4|]. rewrite Hw4 by done. by rewrite decide_True.
  - intros k Hk. rewrite (steady_present s3), (steady_pde_frame s3) by done. intros Hp.
    destruct (Htabs k Hk Hp) as [Epde|Hfr].
    + assert (pde_present s k = true ∧ pde_frame s3 k = pde_frame s k) as [Hps Ef].
      { rewrite <- (steady_present s s2), <- (steady_pde_frame s s2) by done.
        unfold pde_present, pde_frame in *. by rewrite <- Epde. }
      split; [|by left]. rewrite Ef, <- (steady_pde_frame s s1) by done.
      apply (gave_frame_private s i s1 k); [done..|]. by rewrite (steady_present s) by done.
    + apply Hfree in Hfr as [? ?]. split; [done|by right].
  - by apply (avail_same s3).
Qed.

(** The frame behind an address of the stack when the pages mapped so far have
    the frames [frames]. *)
Definition stack_frame (frames : list Z) (va : Z) : option Z :=
  if KERNEL_STACK_BOTTOM_VIRT + 4096 <=? va
  then frames !! Z.to_nat ((va - KERNEL_STACK_BOTTOM_VIRT) / 4096 - 1) else None.

(** The frames [frames], free in [s] and different from each other and from all
    page tables, back the stack's pages; nothing else has been mapped. *)
Record stack_mapped (s : kstate) (frames : list Z) (s' : kstate) : Prop := {
  sm_frame : map_frame s s';
  sm_nodup : NoDup frames;
  sm_free : Forall (pmm_free s) frames;
  sm_taken : Forall (λ i, ¬ pmm_free s' i) frames;
  sm_walk : ∀ va, 0 <= va < 2 ^ 32 → resolve (hw s') va =
    match stack_frame frames va with
    | Some i => Some (4096 * i + va mod 4096)
    | None => resolve (hw s) va
    end;
  sm_tables : ∀ k, 0 <= k < 1024 → pde_present s' k = true → pde_frame s' k ∉ frames;
}.

#[local] Ltac stack_lia :=
  unfold stack_page, STACK_PAGES, KERNEL_STACK_BOTTOM_VIRT, KERNEL_STACK_TOP_VIRT, LOW_END,
    PAGE_SIZE in *; zify_mod.

Lemma stack_page_index k : 0 <= k < STACK_PAGES → pd_index (stack_page k) = 0x30B.
Proof. intros Hk. rewrite pd_index_div. stack_lia. Qed.

Lemma stack_frame_snoc frames i va :
  zlen frames < STACK_PAGES →
  stack_frame (frames ++ [i]) va =
    if decide (va / 4096 = stack_page (zlen frames) / 4096) then Some i else stack_frame frames va.
Proof.
  intros Hlen. pose proof (zlen_nonneg frames). unfold stack_frame.
  destruct (Z.leb_spec (KERNEL_STACK_BOTTOM_VIRT + 4096) va) as [Hle|Hlt].
  - case_decide as Hva.
    + rewrite lookup_app_r by (unfold zlen in *; stack_lia).
      replace (_ - _)%nat with 0%nat by (unfold zlen in *; stack_lia). done.
    + destruct (decide (Z.to_nat ((va - KERNEL_STACK_BOTTOM_VIRT) / 4096 - 1) < length frames)%nat).
      * by rewrite lookup_app_l.
      * rewrite (lookup_ge_None_2 frames), lookup_ge_None_2; [done| |lia].
        rewrite length_app. simpl. unfold zlen in *. stack_lia.
  - rewrite decide_False; [done|]. unfold zlen in *. stack_lia.
Qed.

(** One more page. *)
Lemma stack_mapped_snoc s frames s1 i n s2 :
  stack_mapped s frames s1 → zlen frames < STACK_PAGES →
  page_added s1 (stack_page (zlen frames)) i n s2 → stack_mapped s (frames ++ [i]) s2.
Proof.
  intros [MF Hnd Hfree Htaken Hw Htab] Hlen [Hi Hni MF2 Hw2 Hp2 Htab2 _].
  rewrite Forall_forall in Htaken. split.
  - by eapply map_frame_trans.
  - apply NoDup_app. split_and!; [done| |apply NoDup_singleton].
    intros j Hj ->%list_elem_of_singleton. by apply (Htaken i).
  - apply Forall_app_2; [done|]. apply Forall_singleton. by apply (mf_free _ _ MF).
  - apply Forall_app_2; [|by apply Forall_singleton]. apply Forall_forall.
    intros j Hj Hf%(mf_free _ _ MF2). by apply (Htaken j).
  - intros va Hva. rewrite stack_frame_snoc, Hw2, Hw by done. by case_decide.
  - intros k Hk Hp. destruct (Htab2 k Hk Hp) as [Hne Hold].
    rewrite not_elem_of_app, not_elem_of_cons. split_and!; [|done|apply not_elem_of_nil].
    destruct Hold as [[Hp1 ->]|Hf]; [by apply Htab|]. intros Hin. by apply (Htaken _ Hin).
Qed.

Lemma wp_map_stack s n (Q : unit → kstate → Prop) P :
  paging_wf s → pmm_inv s → console_ok s → enough s (stack_page 0) (15 + n) →
  (∀ frames s', zlen frames = STACK_PAGES → stack_mapped s frames s' →
     enough s' (stack_page 0) n → Q tt s') →
  wp map_stack Q P s.
Proof.
  intros Hwf Hinv Hok Hen HQ. unfold map_stack. cbv zeta. wp_step.
  apply wp_printk; [done|reflexivity|]. intros _ s1 Hok1 F1.
  destruct (steady_console s s1) as [St1 Hfree1]; [done..|].
  apply (wp_addr_loop _ _ _ (λ j s', ∃ frames, zlen frames = j ∧ stack_mapped s frames s' ∧
    enough s' (stack_page 0) (Z.to_nat (15 - j) + n))).
  - done.
  - stack_lia.
  - exists []. split_and!; [done| |].
    + split; [apply St1|constructor|constructor|constructor| |].
      * intros va Hva. rewrite (st_walk _ _ St1) by done. unfold stack_frame. by destruct (_ <=? _).
      * intros k _ _. apply not_elem_of_nil.
    + change (Z.to_nat (15 - 0)) with 15%nat in *. destruct Hen as [[Hp Ha]|Ha].
      * left. split; [|by apply (avail_same s)]. by rewrite (steady_present s s1).
      * right. by apply (avail_same s).
  - intros j s' Hj (frames & Hlen & Hs' & Hen').
    change (pages PAGE_SIZE (KERNEL_STACK_TOP_VIRT - KERNEL_STACK_BOTTOM_VIRT)) with 15 in Hj.
    replace (Z.to_nat (15 - j) + n)%nat with (S (Z.to_nat (15 - (j + 1)) + n)) in Hen' by lia.
    pose proof (sm_frame _ _ _ Hs') as [Hwf' Hinv' Hok' _ _ _].
    apply (wp_map_stack_page s' _ (stack_page j) (Z.to_nat (15 - (j + 1)) + n)); [done..| | | |].
    + stack_lia.
    + stack_lia.
    + unfold enough in *. by rewrite stack_page_index in * by (unfold STACK_PAGES; lia).
    + intros i s2 Hs2. exists (frames ++ [i]). rewrite zlen_app, Hlen. split_and!; [done| |].
      * eapply stack_mapped_snoc; [done|unfold STACK_PAGES; lia|]. by rewrite Hlen.
      * left. destruct Hs2 as [_ _ _ _ Hp _ Ha]. split; [|done].
        by rewrite stack_page_index in * by (unfold STACK_PAGES; lia).
  - intros s' (frames & Hlen & Hs' & Hen'). by apply (HQ frames).
Qed.

Lemma stack_frame_outside frames va :
  zlen frames = STACK_PAGES → ¬ in_stack va → stack_frame frames va = None.
Proof.
  intros Hlen Hout. unfold stack_frame, in_stack in *.
  destruct (Z.leb_spec (KERNEL_STACK_BOTTOM_VIRT + 4096) va) as [Hle|]; [|done].
  apply lookup_ge_None_2. unfold zlen in Hlen. stack_lia.
Qed.

(** C14: the boot code maps the kernel stack and leaves its guard page.  From
    every state with paging on and 17 free frames below 4 MB (16 if the table
    exists), the loop returns with the fifteen pages above the guard page backed
    by fifteen different frames that were free, are free no longer and hold no
    page table; every address outside those pages, the guard page among them,
    translates as before, and all invariants hold. *)
Theorem map_stack_maps s :
  paging_wf s → pmm_inv s → console_ok s → enough s (stack_page 0) 15 →
  ∃ frames s', map_stack s = Ok tt s' ∧ zlen frames = STACK_PAGES ∧ NoDup frames ∧
    Forall (pmm_free s) frames ∧ Forall (λ i, ¬ pmm_free s' i) frames ∧
    (∀ k i va, frames !! k = Some i →
       stack_page (Z.of_nat k) <= va < stack_page (Z.of_nat k) + 4096 →
       resolve (hw s') va = Some (4096 * i + va mod 4096)) ∧
    (∀ va, 0 <= va < 2 ^ 32 → ¬ in_stack va → resolve (hw s') va = resolve (hw s) va) ∧
    (∀ k, 0 <= k < 1024 → pde_present s' k = true → pde_frame s' k ∉ frames) ∧
    paging_wf s' ∧ pmm_inv s' ∧ console_ok s'.
Proof.
  intros Hwf Hinv Hok Hen.
  destruct (wp_run map_stack (λ _ s', ∃ frames, zlen frames = STACK_PAGES ∧ stack_mapped s frames s') s)
    as ([] & s' & E & frames & Hlen & [[] ? ? ? Hw ?]).
  { apply (wp_map_stack s 0); [done..|]. intros frames s' ???. by exists frames. }
  exists frames, s'. split_and!; [done..| | |done|done|done|done].
  - intros k i va Hk Hva. pose proof (lookup_lt_Some _ _ _ Hk). unfold zlen in Hlen.
    rewrite Hw by stack_lia. unfold stack_frame.
    destruct (Z.leb_spec (KERNEL_STACK_BOTTOM_VIRT + 4096) va) as [_|]; [|stack_lia].
    replace (Z.to_nat _) with k by stack_lia. by rewrite Hk.
  - intros va Hva Hout. by rewrite Hw, (stack_frame_outside frames) by done.
Qed.

(** ** The overflow *)

(** The stack's pages are mapped to used frames that hold no table, its guard
    page is not. *)
Record stack_live (s : kstate) : Prop := {
  sl_paging : paging_wf s;
  sl_inv : pmm_inv s;
  sl_console : console_ok s;
  sl_stack : ∀ va, in_stack va → ∃ pa, resolve (hw s) va = Some pa ∧ data_byte s pa;
  sl_guard : ∀ va, in_guard_page va → resolve (hw s) va = None;
}.

(** A byte of the stack's pages. *)
Definition stack_byte (s : kstate) (a : Z) : Prop :=
  ∃ va, in_stack va ∧ resolve (hw s) va = Some a.

(** The same translations and descriptor tables, a stack that is still live, and
    the other frames in use as they were. *)
Record stays_live (s s' : kstate) : Prop := {
  st_live : stack_live s';
  st_data : ∀ a, data_byte s a →
    data_byte s' a ∧ (¬ stack_byte s a → rd8 (mem (hw s')) a = rd8 (mem (hw s)) a);
  st_resolve : ∀ va, 0 <= va < 2 ^ 32 → resolve (hw s') va = resolve (hw s) va;
  st_desc : desc s' = desc s;
  st_syms : syms s' = syms s;
}.

Lemma stays_live_refl s : stack_live s → stays_live s s.
Proof. by split. Qed.

Lemma stays_live_trans s1 s2 s3 : stays_live s1 s2 → stays_live s2 s3 → stays_live s1 s3.
Proof.
  intros [_ D1 E1 ? ?] [? D2 E2 ? ?]. split; [done| | |congruence..].
  - intros a Ha. destruct (D1 a Ha) as [Ha2 K1]. destruct (D2 a Ha2) as [Ha3 K2]. split; [done|].
    intros Hs. rewrite K2, K1; [done..|]. intros (va & Hva & E). apply Hs. exists va. split; [done|].
    by rewrite <- E1 by (unfold in_stack in Hva; stack_lia).
  - intros va Hva. by rewrite E2, E1.
Qed.

(** A change that keeps the pager's tables and the frames in use. *)
Lemma stays_live_keep s s' :
  stack_live s → paging_wf s' → pmm_inv s' → console_ok s' →
  (∀ a, data_byte s a →
     data_byte s' a ∧ (¬ stack_byte s a → rd8 (mem (hw s')) a = rd8 (mem (hw s)) a)) →
  (∀ va, 0 <= va < 2 ^ 32 → resolve (hw s') va = resolve (hw s) va) →
  desc s' = desc s → syms s' = syms s → stays_live s s'.
Proof.
  intros [_ _ _ Hst Hgu] ??? Hd Hw ??. split; [|done..]. split; [done..| |].
  - intros va Hva. destruct (Hst va Hva) as (pa & Hres & Hpa). exists pa.
    rewrite Hw by (unfold in_stack in Hva; stack_lia). split; [done|]. by apply Hd.
  - intros va Hva. rewrite Hw by (unfold in_guard_page in Hva; stack_lia). by apply Hgu.
Qed.

Lemma stays_live_steady s s' : stack_live s → steady s s' → stays_live s s'.
Proof.
  intros Hl St. pose proof (st_frame _ _ St) as [? ? ? F _ Hd].
  apply stays_live_keep; [done..| |apply St|apply F|apply F].
  intros a Ha. destruct (Hd a Ha) as [E ?]. by split.
Qed.

Lemma stays_live_console s s' :
  stack_live s → console_ok s' → console_frame s s' → stays_live s s'.
Proof.
  intros Hl Hok F. apply stays_live_steady; [done|]. pose proof Hl as [? ? _ _ _].
  by destruct (steady_console s s').
Qed.

(** A change of the processor's other registers and of the stack's contents. *)
Lemma stays_live_idle s s' :
  stack_live s → same_but (idle s) s s' → pmm s' = pmm s → log s' = log s → vga s' = vga s →
  desc s' = desc s → syms s' = syms s →
  (∀ a, data_byte s a → ¬ stack_byte s a → rd8 (mem (hw s')) a = rd8 (mem (hw s)) a) →
  stays_live s s'.
Proof.
  intros Hl F Ep El Ev ?? Hk. pose proof Hl as [Hwf Hinv Hok _ _].
  destruct (idle_change s s' Hwf Hinv F Ep) as (? & ? & Hfree & Hpde & ?).
  apply stays_live_keep; [done..| | |done|done|done].
  - by apply (idle_console s).
  - intros a Ha. split; [|by apply Hk].
    destruct (idle_same s s' a Hfree Hpde (or_intror Ha)) as [Hlo|]; [|done]. destruct Ha. lia.
Qed.

Lemma stays_live_esp s sp : stack_live s → stays_live s (on_hw (set_esp sp) s).
Proof. intros Hl. by apply stays_live_idle. Qed.

Lemma stays_live_cr2 s va : stack_live s → stays_live s (on_hw (set_cr2 va) s).
Proof. intros Hl. by apply stays_live_idle. Qed.

Lemma stays_live_byte s pa v :
  stack_live s → data_byte s pa → stack_byte s pa → stays_live s (upd_mem (λ m, wr8 m pa v) s).
Proof.
  intros Hl Hpa Hst. apply stays_live_idle; [done| |done..|].
  - split; [|done..]. intros a Ha. apply rd8_wr8_ne. intros <-. apply Ha. by right.
  - intros a _ Ha. apply rd8_wr8_ne. by intros <-.
Qed.

Lemma wp_store8_stack s va v (Q : unit → kstate → Prop) P :
  stack_live s → in_stack va → (∀ s', stays_live s s' → esp (hw s') = esp (hw s) → Q tt s') →
  wp (store8 va v) Q P s.
Proof.
  intros Hl Hva HQ. destruct (sl_stack s Hl va Hva) as (pa & E & Hpa).
  eapply wp_store8; [done|]. apply HQ; [|done]. apply stays_live_byte; [done..|]. by exists va.
Qed.

Lemma wp_print_live s fmt args :
  stack_live s → message_ok fmt args = true →
  wp (printk fmt args) (λ _ s', stays_live s s' ∧ esp (hw s') = esp (hw s)) no_halt s.
Proof.
  intros Hl Hmsg. apply wp_printk; [apply Hl|done|]. intros _ s' Hok F.
  split; [by apply stays_live_console|apply F].
Qed.

(** The warning near the guard page. *)
Lemma wp_warn_live s b sp1 sp2 guard :
  stack_live s →
  wp (if b : bool then
        printk (C "WARNING: Approaching guard page at 0x%08x!\n") [AWord sp1];;
        printk (C "Current ESP: 0x%08x, Guard page: 0x%08x\n") [AWord sp2; AWord guard];; mret tt
      else mret tt) (λ _ s', stays_live s s' ∧ esp (hw s') = esp (hw s)) no_halt s.
Proof.
  intros Hl. destruct b; [|by split; [apply stays_live_refl|]].
  wp_step. eapply wp_post; [apply wp_print_live; [done|reflexivity]|].
  intros _ s1 [L1 P1]. wp_step.
  eapply wp_post; [apply wp_print_live; [apply L1|reflexivity]|].
  intros _ s2 [L2 P2]. wp_step. split; [by eapply stays_live_trans|congruence].
Qed.

Lemma depth_message depth sp :
  - 2 ^ 31 < depth < 2 ^ 31 →
  message_ok (C "Stack depth: %d, ESP=0x%08x\n") [AWord depth; AWord sp] = true.
Proof.
  intros Hd. transitivity (negb (s32 depth =? INT_MIN) && true); [reflexivity|].
  rewrite s32_small by lia. by destruct (Z.eqb_spec depth INT_MIN); [unfold INT_MIN in *; lia|].
Qed.

(** The outcome of [m] satisfies [F]. *)
Definition ends {A} (m : M A) (F : outcome A → Prop) (s : kstate) : Prop := F (m s).

Lemma ends_mono {A} (m : M A) (F G : outcome A → Prop) s : ends m F s → (∀ o, F o → G o) → ends m G s.
Proof. unfold ends. auto. Qed.

Lemma ends_bind {A B} (m : M A) (f : A → M B) Q F s :
  wp m Q no_halt s → (∀ a s', Q a s' → ends (f a) F s') → ends (m ≫= f) F s.
Proof.
  unfold ends, wp, mbind, M_bind. destruct (m s); intros Hm HQ; [by apply HQ|done..].
Qed.

(** The recursion goes down the stack to the guard page, and ends there as the
    store does. *)
Section overflow.
Context (cpu : M unit → M unit).
Context (Hcpu : ∀ m Q s, wp m Q no_halt s → wp (cpu m) Q no_halt s).

Lemma overflow_ends fuel frame_size depth s s0 (F : outcome unit → Prop) :
  512 <= frame_size <= 4092 → - 2 ^ 31 < depth → depth + Z.of_nat fuel < 2 ^ 31 → stays_live s0 s →
  KERNEL_STACK_BOTTOM_VIRT + 4096 <= esp (hw s) <= KERNEL_STACK_TOP_VIRT →
  esp (hw s) - (KERNEL_STACK_BOTTOM_VIRT + 4096) < 512 * Z.of_nat fuel →
  (∀ va v (f : unit → M unit) s', KERNEL_STACK_BOTTOM_VIRT + 4 <= va < KERNEL_STACK_BOTTOM_VIRT + 4096 →
     stays_live s0 s' → esp (hw s') = va → ends (cpu (store8 va v) ≫= f) F s') →
  ends (test_stack_overflow cpu fuel frame_size depth) F s.
Proof using Hcpu.
  intros Hfs. revert depth s. induction fuel as [|fuel IH]; intros depth s Hd1 Hd2 Hl Hsp Hfuel HF; [lia|].
  cbn [test_stack_overflow]. set (sp := u32 (esp (hw s) - frame_size)).
  assert (sp = esp (hw s) - frame_size) as Esp by (apply u32_small; stack_lia).
  set (s1 := on_hw (set_esp sp) s).
  assert (stays_live s0 s1) as L1 by (eapply stays_live_trans; [exact Hl|by apply stays_live_esp, Hl]).
  apply (ends_bind _ _ (λ v s', v = esp (hw s) ∧ s' = s)); [done|]. intros _ _ [-> ->]. cbv beta zeta.
  apply (ends_bind _ _ (λ _ s', s' = s1)); [done|]. intros [] _ ->.
  apply (ends_bind _ _ (λ v s', v = sp ∧ s' = s1)); [done|]. intros _ _ [-> ->].
  destruct (Z.lt_ge_cases sp (KERNEL_STACK_BOTTOM_VIRT + 4096)) as [Hlt|Hge].
  { apply HF; [stack_lia|done|done]. }
  apply (ends_bind _ _ (λ _ s', stays_live s0 s' ∧ esp (hw s') = sp)).
  { apply Hcpu, wp_store8_stack; [apply L1|unfold in_stack; stack_lia|].
    intros s2 L2 E2. split; [by eapply stays_live_trans|done]. }
  intros [] s2 [L2 E2].
  apply (ends_bind _ _ (λ _ s', stays_live s0 s' ∧ esp (hw s') = sp)).
  { eapply wp_post; [apply wp_print_live; [apply L2|apply depth_message; lia]|].
    intros _ s3 [L3 E3]. split; [by eapply stays_live_trans|congruence]. }
  intros _ s3 [L3 E3].
  apply (ends_bind _ _ (λ _ s', stays_live s0 s' ∧ esp (hw s') = sp)).
  { eapply wp_post; [apply wp_warn_live, L3|].
    intros _ s4 [L4 E4]. split; [by eapply stays_live_trans|congruence]. }
  intros [] s4 [L4 E4]. apply IH; [lia|lia|done|rewrite E4; lia|rewrite E4; lia|done].
Qed.
End overflow.

Lemma guard_unmapped s0 s va :
  stays_live s0 s → in_guard_page va → resolve (hw s) va = None.
Proof. intros [Hl _ _ _] Hva. by apply (sl_guard s Hl). Qed.

(** C27: the guard page catches the overflow.  On a mapped stack, the unbounded
    recursion of [test_stack_overflow] always ends, whatever size between 512
    and 4092 bytes its frames have: in a page fault whose address is in the
    guard page, with CR2 and ESP there and every translation as at the start,
    within 128 calls.  The counter [depth] is any [int] that 128 calls do not overflow. *)
Theorem stack_overflow_hits_guard_page frame_size depth s :
  stack_live s → 512 <= frame_size <= 4092 → - 2 ^ 31 < depth < 2 ^ 31 - 128 →
  KERNEL_STACK_BOTTOM_VIRT + 4096 <= esp (hw s) <= KERNEL_STACK_TOP_VIRT →
  ∃ va s', test_stack_overflow id 128 frame_size depth s = Fault va s' ∧ in_guard_page va ∧
    cr2 (hw s') = va ∧ esp (hw s') = va ∧
    ∀ va', 0 <= va' < 2 ^ 32 → resolve (hw s') va' = resolve (hw s) va'.
Proof.
  intros Hl Hfs Hd Hsp.
  apply (overflow_ends id ltac:(done) 128 frame_size depth s s
    (λ o, ∃ va s', o = Fault va s' ∧ in_guard_page va ∧ cr2 (hw s') = va ∧ esp (hw s') = va ∧
      ∀ va', 0 <= va' < 2 ^ 32 → resolve (hw s') va' = resolve (hw s) va'));
    [done|lia|lia|by apply stays_live_refl|done|stack_lia|].
  intros va v f s' Hva L Esp. assert (in_guard_page va) as Hg by (unfold in_guard_page; stack_lia).
  exists va, (on_hw (set_cr2 va) s'). split_and!; [|done|done|done|apply L].
  unfold ends, id, mbind, M_bind, store8, State.access. by rewrite (guard_unmapped s s' va).
Qed.

(** An instruction that does not fault is executed once. *)
Lemma wp_retry `{FrameAllocator} {A} cx error (m : M A) (Q : A → kstate → Prop) s :
  wp m Q no_halt s → wp (retry cx error m) Q no_halt s.
Proof. unfold wp, retry. by destruct (m s). Qed.

(** The kernel [t] when the overflow test has used up the stack that it had in
    [s]: stack pointer and fault address are in the guard page, and nothing but
    the stack and the console has changed. *)
Record overflowed (s t : kstate) : Prop := {
  ov_live : stays_live s t;
  ov_esp : in_guard_page (esp (hw t));
  ov_cr2 : in_guard_page (cr2 (hw t));
}.

Lemma overflow_resets cx frame_size depth s :
  stack_live s → 512 <= frame_size <= 4092 → - 2 ^ 31 < depth < 2 ^ 31 - 128 →
  KERNEL_STACK_BOTTOM_VIRT + 4096 <= esp (hw s) <= KERNEL_STACK_TOP_VIRT →
  idt (desc s) !! 14%nat = Some (gate_entry (sym_isr_page_fault (syms s)) 0x08 0x8E) →
  0 <= sym_isr_page_fault (syms s) < 2 ^ 32 → task_busy (desc s) →
  ends (test_stack_overflow (retry cx ERROR_WRITE) 128 frame_size depth)
    (λ o, ∃ t, o = Undef (UbReset t) ∧ overflowed s t) s.
Proof.
  intros Hl Hfs Hd Hsp Hgate Hisr Hbusy.
  apply (overflow_ends _ (wp_retry cx ERROR_WRITE) 128 frame_size depth s s);
    [done|lia|lia|by apply stays_live_refl|done|stack_lia|].
  intros va v f s' Hva L Esp. unfold ends, mbind, M_bind, retry at 1, store8 at 1, State.access at 1.
  rewrite (guard_unmapped s s' va L) by (unfold in_guard_page; lia).
  assert (in_guard_page (va - 4)) as Hg by (unfold in_guard_page; lia).
  assert (u32 (esp (hw s') - 4) = va - 4) as E4 by (rewrite Esp; apply u32_small; stack_lia).
  exists (on_hw (set_cr2 (va - 4)) (on_hw (set_cr2 va) s')). split.
  - unfold mbind, M_bind. rewrite deliver_without_stack; cbn [desc syms on_hw];
      rewrite ?(st_desc _ _ L), ?(st_syms _ _ L); try done.
    + change (esp (hw (on_hw (set_cr2 va) s'))) with (esp (hw s')). by rewrite E4.
    + change (resolve (hw s') (u32 (esp (hw s') - 4)) = None). rewrite E4. by apply (guard_unmapped s s').
  - split; [|change (in_guard_page (esp (hw s'))); rewrite Esp; unfold in_guard_page; lia|done].
    eapply stays_live_trans; [exact L|]. eapply stays_live_trans; [apply stays_live_cr2, L|].
    apply stays_live_cr2, (stays_live_cr2 s' va), L.
Qed.

(** ** A machine with a stack *)

(** Frames 256 to 287 are free. *)
Definition roomy_machine : kstate :=
  set_pmm (PmmVars BITMAP 288 256 288)
    (boot_state (put_bytes_at ∅ BITMAP (replicate 32 0xFF)) symbols_zero).

Lemma roomy_machine_ok : console_ok roomy_machine ∧ pmm_inv roomy_machine.
Proof. machine_ok. Qed.

Definition roomy_paged : kstate := after paging_init roomy_machine.

Lemma roomy_paged_ok : paged roomy_machine roomy_paged.
Proof. destruct roomy_machine_ok. by apply paged_after. Qed.

Lemma roomy_enough : enough roomy_paged (stack_page 0) 15.
Proof.
  destruct roomy_paged_ok as [_ _ _ _ _ _ _ _ _ Hfree]. right. exists (zrange 256 17).
  split_and!; [apply NoDup_zrange|apply length_zrange|].
  apply Forall_forall. intros i Hi%elem_of_zrange. split; [|lia]. apply Hfree.
  assert (Forall (λ j, used_bit roomy_machine j = false) (zrange 256 17)) as Hall.
  { apply (bool_decide_unpack _). vm_compute. exact I. }
  rewrite Forall_forall in Hall. split; [cbn; lia|]. apply Hall, elem_of_zrange. lia.
Qed.

Lemma map_stack_maps_witness :
  ∃ frames s', map_stack roomy_paged = Ok tt s' ∧ zlen frames = STACK_PAGES ∧ NoDup frames ∧
    Forall (pmm_free roomy_paged) frames ∧ Forall (λ i, ¬ pmm_free s' i) frames ∧
    (∀ k i va, frames !! k = Some i →
       stack_page (Z.of_nat k) <= va < stack_page (Z.of_nat k) + 4096 →
       resolve (hw s') va = Some (4096 * i + va mod 4096)) ∧
    (∀ va, 0 <= va < 2 ^ 32 → ¬ in_stack va → resolve (hw s') va = resolve (hw roomy_paged) va) ∧
    (∀ k, 0 <= k < 1024 → pde_present s' k = true → pde_frame s' k ∉ frames) ∧
    paging_wf s' ∧ pmm_inv s' ∧ console_ok s'.
Proof.
  destruct roomy_paged_ok as [Hwf Hinv Hok _ _ _ _ _ _ _].
  exact (map_stack_maps roomy_paged Hwf Hinv Hok roomy_enough).
Defined.

(** What the loop leaves is a live stack, if the guard page was not mapped. *)
Lemma stack_mapped_live s frames s' :
  pmm_inv s → stack_mapped s frames s' → zlen frames = STACK_PAGES →
  (∀ va, in_guard_page va → resolve (hw s) va = None) → stack_live s'.
Proof.
  intros Hinv [[] _ Hfree Htaken Hw Htab] Hlen Hgu. split; [done..| |].
  - intros va Hva. unfold in_stack in Hva. rewrite Hw by stack_lia. unfold stack_frame.
    destruct (Z.leb_spec (KERNEL_STACK_BOTTOM_VIRT + 4096) va) as [_|]; [|lia].
    destruct (lookup_lt_is_Some_2 frames (Z.to_nat ((va - KERNEL_STACK_BOTTOM_VIRT) / 4096 - 1)))
      as [i Hi]; [unfold zlen in Hlen; stack_lia|].
    rewrite Hi. pose proof (list_elem_of_lookup_2 _ _ _ Hi) as Hin.
    rewrite Forall_forall in Hfree, Htaken. pose proof (pmm_free_high s i Hinv (Hfree i Hin)).
    exists (4096 * i + va mod 4096). split; [done|].
    assert ((4096 * i + va mod 4096) / 4096 = i) as Ei by (clear; zify_mod).
    unfold data_byte. rewrite Ei. split_and!; [zify_mod|by apply Htaken|].
    intros k Hk Hp <-. by apply (Htab k Hk Hp).
  - intros va Hva. pose proof Hva as Hr. unfold in_guard_page in Hr.
    rewrite Hw by stack_lia. unfold stack_frame.
    destruct (Z.leb_spec (KERNEL_STACK_BOTTOM_VIRT + 4096) va) as [|_]; [lia|]. by apply Hgu.
Qed.

(** The machine after [switch_to_high_stack]. *)
Definition high_stack : kstate := on_hw (set_esp (KERNEL_STACK_TOP_VIRT - 16)) (after map_stack roomy_paged).

Lemma high_stack_live : stack_live high_stack.
Proof.
  destruct roomy_paged_ok as [Hwf Hinv Hok Hwalk _ _ _ _ _ _].
  destruct (wp_run map_stack (λ _ s', ∃ frames, zlen frames = STACK_PAGES ∧
    stack_mapped roomy_paged frames s') roomy_paged) as ([] & s' & E & frames & Hlen & Hs').
  { apply (wp_map_stack roomy_paged 0); [exact Hwf|exact Hinv|exact Hok|exact roomy_enough|].
    intros frames s' ???. by exists frames. }
  unfold high_stack. rewrite (after_ok _ _ _ _ E). apply stays_live_esp.
  apply (stack_mapped_live roomy_paged frames); [exact Hinv|done..|].
  intros va Hva. unfold in_guard_page in Hva. rewrite Hwalk by stack_lia.
  rewrite decide_False; [done|]. stack_lia.
Qed.

Lemma stack_overflow_hits_guard_page_witness :
  ∃ va s', test_stack_overflow id 128 600 0 high_stack = Fault va s' ∧ in_guard_page va ∧
    cr2 (hw s') = va ∧ esp (hw s') = va ∧
    ∀ va', 0 <= va' < 2 ^ 32 → resolve (hw s') va' = resolve (hw high_stack) va'.
Proof.
  refine (stack_overflow_hits_guard_page 600 0 high_stack high_stack_live _ _ _).
  - lia.
  - lia.
  - unfold high_stack. cbn [hw on_hw set_esp esp].
    unfold KERNEL_STACK_BOTTOM_VIRT, KERNEL_STACK_TOP_VIRT. lia.
Defined.
