(* ===== verification/DoubleFault.v ===== *)
(** * Breadcrumbs of a double fault

    [double_fault_handler.asm] leaves three magic words in memory and two
    characters on the screen before it halts; the next boot looks for the words
    ([check_double_fault_breadcrumbs] in [kernel/main/kernel.c]).  The two agree. *)

From Stdlib Require Import ZArith Lia String.
From stdpp Require Import base gmap list.
From S2P Require Import Prelude RingBuf Format Descriptors Machine State Vga Printk Panik MemoryMap Frame Pmm PmmProps Paging PagingProps Arch PageFault Cpu Kernel.

(** ** [double_fault_handler] *)

Definition breadcrumbs (m : memory) : Prop :=
  rd32 m 0x15000 = MAGIC1 ∧ rd32 m 0x15004 = MAGIC2 ∧ rd32 m 0x15008 = MAGIC3.

Lemma wp_double_fault_handler s (Q : unit → kstate → Prop) (P : kstate → Prop) :
  low_mapped (hw s) →
  (∀ s', iflag (hw s') = false → breadcrumbs (mem (hw s')) →
     rd16 (mem (hw s')) 0xB8000 = 0x4F44 → rd16 (mem (hw s')) 0xB8002 = 0x4F46 →
     (∀ a, ¬ 0x15000 <= a < 0x1500C → ¬ 0xB8000 <= a < 0xB8004 →
        rd8 (mem (hw s')) a = rd8 (mem (hw s)) a) → P s') →
  wp double_fault_handler Q P s.
Proof.
  intros Hlow HP. unfold double_fault_handler. do 2 wp_step. set (s0 := on_hw _ (on_hw _ s)).
  assert (∀ m, (∀ a, ¬ 0x15000 <= a < 0x1500C → ¬ 0xB8000 <= a < 0xB8004 →
    rd8 m a = rd8 (mem (hw s0)) a) → low_mapped (hw (with_mem s0 m))) as Hl.
  { intros m Hm. apply (low_mapped_agree (hw s)); [done..| |done].
    intros a Ha. unfold low_table_byte in Ha. apply Hm; lia. }
  wp_step. apply wp_store32_low; [done|unfold LOW_END; lia|].
  wp_step. apply wp_store32_low; [|unfold LOW_END; lia|].
  { apply Hl. intros a ??. by rewrite rd8_wr32_ne by lia. }
  wp_step. apply wp_store32_low; [|unfold LOW_END; lia|].
  { apply Hl. intros a ??. cbn. by rewrite !rd8_wr32_ne by lia. }
  wp_step. apply wp_store16_low; [|unfold LOW_END; lia|].
  { apply Hl. intros a ??. cbn. by rewrite !rd8_wr32_ne by lia. }
  wp_step. apply wp_store16_low; [|unfold LOW_END; lia|].
  { apply Hl. intros a ??. cbn. rewrite rd8_wr16_ne by lia. by rewrite !rd8_wr32_ne by lia. }
  apply HP; cbn [hw upd_mem on_hw set_mem mem].
  - done.
  - unfold breadcrumbs.
    assert (∀ m a v b, b + 4 <= a → rd32 (wr16 m a v) b = rd32 m b) as H16.
    { intros m a v b Hb. apply rd32_agree. intros c Hc. apply rd8_wr16_ne. lia. }
    rewrite !H16 by lia. rewrite rd32_wr32_eq.
    rewrite (rd32_wr32_ne _ 0x15008), (rd32_wr32_ne _ 0x15004), rd32_wr32_eq by lia.
    rewrite (rd32_wr32_ne _ 0x15008 0x15004), rd32_wr32_eq by lia. done.
  - transitivity (u16 0x4F44); [|done]. etrans; [|apply rd16_wr16_eq].
    apply rd16_agree. intros b Hb. apply rd8_wr16_ne. lia.
  - by rewrite rd16_wr16_eq.
  - intros a Ha Hb. rewrite !rd8_wr16_ne by lia. by rewrite !rd8_wr32_ne by lia.
Qed.

(** ** Looking for them *)

(** One more message. *)
Lemma wp_message {A} fmt args out logged (k : M A) s0 t s (Q : A → kstate → Prop) P :
  message_post s0 logged t s → split_level fmt = (None, fmt) →
  my_vsnprintf LOG_BUF_SIZE fmt args = FOk out →
  (∀ s', message_post s0 (logged ++ out) (term_message t None out) s' → wp k Q P s') →
  wp (printk fmt args;; k) Q P s.
Proof.
  intros Hs Hl Hf HQ. wp_step. eapply wp_printk_text; [exact Hl|apply Hs|exact Hf|].
  intros s' Hs'. apply HQ. pose proof Hs as (_ & _ & _ & Et). rewrite Et in Hs'.
  eapply message_post_trans; [exact Hs|exact Hs'].
Qed.

(** A word that printing does not touch. *)
Lemma message_rd32 s logged t s' a :
  message_post s logged t s' → a + 4 <= VGA_ADDRESS → rd32 (mem (hw s')) a = rd32 (mem (hw s)) a.
Proof.
  intros (_ & F & _) Ha. apply rd32_agree. intros b Hb. apply (cf_mem _ _ F). unfold in_screen. lia.
Qed.

Definition breadcrumb_report : list Z :=
  C "Checking double fault breadcrumbs:\n" ++ C "  Magic1 (0x15000): 0xdeadbeef (FOUND)\n" ++
  C "  Magic2 (0x15004): 0xcafebabe (FOUND)\n" ++ C "  Magic3 (0x15008): 0x12345678 (FOUND)\n".

Lemma wp_check_found s (Q : unit → kstate → Prop) P :
  console_ok s → breadcrumbs (mem (hw s)) →
  (∀ t s', message_post s breadcrumb_report t s' → Q tt s') →
  wp check_double_fault_breadcrumbs Q P s.
Proof.
  intros Hok (E1 & E2 & E3) HQ. pose proof (message_post_refl s Hok) as H0.
  unfold check_double_fault_breadcrumbs.
  eapply wp_message; [exact H0|reflexivity|vm_compute; reflexivity|]. intros s1 H1. clear H0.
  wp_step. apply wp_load32_low; [apply H1|unfold LOW_END; lia|].
  rewrite (message_rd32 _ _ _ _ _ H1), E1 by (unfold VGA_ADDRESS; lia).
  eapply wp_message; [exact H1|reflexivity|vm_compute; reflexivity|]. intros s2 H2. clear H1.
  wp_step. apply wp_load32_low; [apply H2|unfold LOW_END; lia|].
  rewrite (message_rd32 _ _ _ _ _ H2), E2 by (unfold VGA_ADDRESS; lia).
  eapply wp_message; [exact H2|reflexivity|vm_compute; reflexivity|]. intros s3 H3. clear H2.
  wp_step. apply wp_load32_low; [apply H3|unfold LOW_END; lia|].
  rewrite (message_rd32 _ _ _ _ _ H3), E3 by (unfold VGA_ADDRESS; lia).
  eapply wp_message; [exact H3|reflexivity|vm_compute; reflexivity|]. intros s4 H4. wp_step.
  eapply HQ. exact H4.
Qed.

(** A double fault leaves traces the next boot finds.  From every state in
    which the first 4 MB are mapped, [double_fault_handler] ends in the [hlt]
    loop with interrupts disabled, has written nothing but its three words and
    two characters; and from every state with these words in memory,
    [check_double_fault_breadcrumbs] logs exactly that it has found all three. *)
Theorem breadcrumbs_found s :
  low_mapped (hw s) →
  ∃ s', double_fault_handler s = Halted s' ∧ iflag (hw s') = false ∧
    rd16 (mem (hw s')) 0xB8000 = 0x4F44 ∧ rd16 (mem (hw s')) 0xB8002 = 0x4F46 ∧
    (∀ a, ¬ 0x15000 <= a < 0x1500C → ¬ 0xB8000 <= a < 0xB8004 →
       rd8 (mem (hw s')) a = rd8 (mem (hw s)) a) ∧
    ∀ s1, console_ok s1 → (∀ a, 0x15000 <= a < 0x1500C → rd8 (mem (hw s1)) a = rd8 (mem (hw s')) a) →
      ∃ s2, check_double_fault_breadcrumbs s1 = Ok tt s2 ∧ console_frame s1 s2 ∧
        contents (log s2) = lastn log_capacity (contents (log s1) ++ breadcrumb_report).
Proof.
  intros Hlow.
  destruct (halted_run double_fault_handler (λ s', iflag (hw s') = false ∧ breadcrumbs (mem (hw s')) ∧
     rd16 (mem (hw s')) 0xB8000 = 0x4F44 ∧ rd16 (mem (hw s')) 0xB8002 = 0x4F46 ∧
     (∀ a, ¬ 0x15000 <= a < 0x1500C → ¬ 0xB8000 <= a < 0xB8004 →
        rd8 (mem (hw s')) a = rd8 (mem (hw s)) a)) s) as (s' & E & Hif & (E1 & E2 & E3) & Hd & Hf & Hm).
  { apply wp_double_fault_handler; [done|]. by intros. }
  exists s'. split_and!; [done..|]. intros s1 Hok Hsame.
  destruct (wp_run check_double_fault_breadcrumbs (λ _ s2, ∃ t, message_post s1 breadcrumb_report t s2) s1)
    as ([] & s2 & Ec & t & (_ & F & Hl & _)).
  { apply wp_check_found; [done| |by intros t s2 H2; exists t]. unfold breadcrumbs.
    rewrite <- E1, <- E2, <- E3. split_and!; apply rd32_agree; intros b Hb; apply Hsame; lia. }
  exists s2. exact (conj Ec (conj F Hl)).
Qed.

Lemma breadcrumbs_found_witness :
  ∃ s', double_fault_handler (boot_state ∅ linked) = Halted s' ∧ iflag (hw s') = false ∧
    rd16 (mem (hw s')) 0xB8000 = 0x4F44 ∧ rd16 (mem (hw s')) 0xB8002 = 0x4F46 ∧
    (∀ a, ¬ 0x15000 <= a < 0x1500C → ¬ 0xB8000 <= a < 0xB8004 →
       rd8 (mem (hw s')) a = rd8 (mem (hw (boot_state ∅ linked))) a) ∧
    ∀ s1, console_ok s1 → (∀ a, 0x15000 <= a < 0x1500C → rd8 (mem (hw s1)) a = rd8 (mem (hw s')) a) →
      ∃ s2, check_double_fault_breadcrumbs s1 = Ok tt s2 ∧ console_frame s1 s2 ∧
        contents (log s2) = lastn log_capacity (contents (log s1) ++ breadcrumb_report).
Proof.
  apply (breadcrumbs_found (boot_state ∅ linked)). left. reflexivity.
Defined.
