(* ===== verification/Boot.v ===== *)
(** * The whole boot: [kernel_main] from the boot loader's jump to its end

    The components put together.  From any machine the boot loader may leave,
    the three phases of [kernel_main] run to their end, each establishing what
    the next one needs, and the high stack is entered with the tables, the pager
    and the frame allocator in order.  What the kernel does there is followed to
    its end, too. *)

From Stdlib Require Import ZArith Lia String.
From stdpp Require Import base gmap list.
From S2P Require Import Prelude RingBuf Format Descriptors Machine State Vga Printk Panik MemoryMap Frame Pmm PmmProps Paging PagingProps Arch PageFault Cpu Kernel.

(** ** Code that only prints *)

Definition printed (s s' : kstate) : Prop := console_ok s' ∧ console_frame s s'.

Lemma printed_refl s : console_ok s → printed s s.
Proof. by split. Qed.

Section print.
Context {A : Type} (s0 : kstate).
Implicit Types (k : M A) (Q : A → kstate → Prop) (P : kstate → Prop).

Lemma wp_print fmt args k s Q P :
  printed s0 s → message_ok fmt args = true → (∀ s', printed s0 s' → wp k Q P s') →
  wp (printk fmt args;; k) Q P s.
Proof.
  intros [Hok F] Hm HQ. wp_step. apply wp_printk; [done..|]. intros _ s' Hok' F'.
  apply HQ. split; [done|by etrans].
Qed.

Lemma wp_print_last fmt args s P :
  printed s0 s → message_ok fmt args = true →
  wp (printk fmt args) (λ _ s', printed s0 s') P s.
Proof.
  intros [Hok F] Hm. apply wp_printk; [done..|]. intros _ s' Hok' F'. split; [done|by etrans].
Qed.

Lemma wp_print_if (b : bool) fmt1 args1 fmt2 args2 k s Q P :
  printed s0 s → message_ok fmt1 args1 = true → message_ok fmt2 args2 = true →
  (∀ s', printed s0 s' → wp k Q P s') →
  wp ((if b then printk fmt1 args1 else printk fmt2 args2);; k) Q P s.
Proof. destruct b; intros; by apply wp_print. Qed.

Lemma wp_print_load32 (f : Z → M A) va s Q P :
  printed s0 s → 0 <= va < LOW_END → (∀ v, wp (f v) Q P s) → wp (load32 va ≫= f) Q P s.
Proof. intros [Hok _] Hva HQ. wp_step. apply wp_load32_low; [apply Hok|done|apply HQ]. Qed.

Lemma wp_print_load_idt (f : idt_entry → M A) n s Q P :
  printed s0 s → 0 <= n < zlen (idt (desc s0)) → (∀ e, wp (f e) Q P s) →
  wp (load_idt n ≫= f) Q P s.
Proof.
  intros [_ F] Hn HQ. unfold zlen in Hn.
  destruct (lookup_lt_is_Some_2 (idt (desc s0)) (Z.to_nat n)) as [e He]; [lia|].
  wp_step. apply (wp_load_idt n e); [lia|by rewrite (cf_desc _ _ F)|apply HQ].
Qed.

Lemma wp_print_load_gdt (f : gdt_entry → M A) n s Q P :
  printed s0 s → 0 <= n < zlen (gdt (desc s0)) → (∀ e, wp (f e) Q P s) →
  wp (load_gdt n ≫= f) Q P s.
Proof.
  intros [_ F] Hn HQ. unfold zlen in Hn.
  destruct (lookup_lt_is_Some_2 (gdt (desc s0)) (Z.to_nat n)) as [e He]; [lia|].
  wp_step. apply (wp_load_gdt n e); [lia|by rewrite (cf_desc _ _ F)|apply HQ].
Qed.

(** A function that only prints. *)
Lemma wp_prints {B} (m : M B) (f : B → M A) s Q P :
  printed s0 s → wp m (λ _ s', printed s s') no_halt s →
  (∀ b s', printed s0 s' → wp (f b) Q P s') → wp (m ≫= f) Q P s.
Proof.
  intros [Hok F] Hm HQ. wp_step. eapply wp_mono; [exact Hm| |by intros ? []].
  intros b s' [Hok' F']. apply HQ. split; [done|by etrans].
Qed.
End print.

(** One step of such code. *)
#[local] Ltac say :=
  lazymatch goal with
  | |- wp (mbind _ (printk _ _)) _ _ _ => eapply wp_print; [eassumption|reflexivity|intros]
  | |- wp (mbind _ (if _ then printk _ _ else printk _ _)) _ _ _ =>
      eapply wp_print_if; [eassumption|reflexivity|reflexivity|intros]
  | |- wp (mbind _ (load32 _)) _ _ _ => eapply wp_print_load32; [eassumption|unfold LOW_END; lia|intros]
  | |- wp (mbind _ (load_idt _)) _ _ _ => eapply wp_print_load_idt; [eassumption|lia|intros]
  | |- wp (mbind _ (load_gdt _)) _ _ _ => eapply wp_print_load_gdt; [eassumption|lia|intros]
  | |- wp (mbind _ (gets _)) _ _ _ => wp_step; wp_step
  | |- wp (mret _) _ _ _ => wp_step; try eassumption
  end.

Lemma wp_check_breadcrumbs s :
  console_ok s → wp check_double_fault_breadcrumbs (λ _ s', printed s s') no_halt s.
Proof.
  intros Hok. pose proof (printed_refl s Hok). unfold check_double_fault_breadcrumbs.
  repeat say.
Qed.

(** An index can be printed. *)
Lemma index_printable n : 0 <= n < 2 ^ 31 → negb (s32 n =? INT_MIN) && true = true.
Proof.
  intros Hn. rewrite s32_small by lia. by destruct (Z.eqb_spec n INT_MIN); [unfold INT_MIN in *; lia|].
Qed.

Lemma wp_debug_idt_entry n s :
  console_ok s → 0 <= n < zlen (idt (desc s)) → n < 2 ^ 31 →
  wp (debug_idt_entry n) (λ _ s', printed s s') no_halt s.
Proof.
  intros Hok Hn Hmax. pose proof (printed_refl s Hok). unfold debug_idt_entry.
  eapply wp_print; [eassumption|apply index_printable; lia|intros]. repeat say.
  cbv zeta. wp_step. eapply (wp_post _ (λ _ st, printed s st)).
  { destruct (_ =? 0x5); [|destruct (_ =? 0xE)]; (eapply wp_print_last; [eassumption|reflexivity]). }
  intros _ st Hst. by wp_step.
Qed.

Lemma wp_debug_gdt_entry n s :
  console_ok s → 0 <= n < zlen (gdt (desc s)) → n < 2 ^ 31 →
  wp (debug_gdt_entry n) (λ _ s', printed s s') no_halt s.
Proof.
  intros Hok Hn Hmax. pose proof (printed_refl s Hok). unfold debug_gdt_entry.
  eapply wp_print; [eassumption|apply index_printable; lia|intros]. cbv zeta. repeat say.
Qed.

Lemma wp_debug_tss_contents s :
  console_ok s → wp debug_tss_contents (λ _ s', printed s s') no_halt s.
Proof. intros Hok. pose proof (printed_refl s Hok). unfold debug_tss_contents. repeat say. Qed.

Lemma wp_debug_page_tables s :
  console_ok s → wp debug_page_tables (λ _ s', printed s s') no_halt s.
Proof.
  intros Hok. pose proof (printed_refl s Hok). unfold debug_page_tables. cbv zeta.
  change (PAGE_TABLE_START_ADDR + 4 * (0xB8000 / PAGE_SIZE)) with 0x812E0.
  change (PAGE_DIR_START_ADDR + 4 * 0) with 0x80000. repeat say.
Qed.

(** A call of a function that only prints. *)
#[local] Ltac says tac :=
  lazymatch goal with
  | H : printed _ ?t |- wp (mbind _ _) _ _ ?t => eapply wp_prints; [exact H|tac H|clear t H; intros _ t H]
  end.

(** ** The first phase: console and descriptor tables *)

Lemma wp_fill_df_stack s (Q : unit → kstate → Prop) P :
  16 <= zlen (double_fault_stack (desc s)) →
  (∀ l, zlen l = zlen (double_fault_stack (desc s)) →
     Q tt (set_desc (with_df_stack l (desc s)) s)) →
  wp (for_ 16 0 (λ i, store_df_stack i (0xAA + i))) Q P s.
Proof.
  intros Hlen HQ.
  apply (wp_for _ _ _ (λ _ s', ∃ l, zlen l = zlen (double_fault_stack (desc s)) ∧
    s' = set_desc (with_df_stack l (desc s)) s)).
  - exists (double_fault_stack (desc s)). split; [done|]. by destruct s as [? ? ? ? ? ? [] ?].
  - intros i s' Hi (l & Hl & ->). unfold store_df_stack. do 2 wp_step.
    cbn [desc set_desc double_fault_stack with_df_stack]. rewrite Hl.
    destruct (Z.leb_spec 0 i), (Z.ltb_spec i (zlen (double_fault_stack (desc s)))); try lia.
    apply wp_upd_desc. exists (<[Z.to_nat i := u8 (0xAA + i)]> l). by rewrite zlen_insert.
  - intros s' (l & Hl & ->). by apply HQ.
Qed.

Record tables_up (s s' : kstate) : Prop := {
  tu_frame : arch_frame s s';
  tu_idt : idt (desc s') = idt_table (sym_isr_page_fault (syms s));
  tu_gdt : gdt (desc s') = gdt_table (sym_tss_df (syms s));
  tu_tss : tss_df (desc s') = tss_init (u32 (sym_double_fault_stack (syms s) + DOUBLE_FAULT_STACK_SIZE))
    (sym_double_fault_handler (syms s)) (cr3 (hw s));
}.

Lemma tables_up_printed s s1 s2 : tables_up s s1 → printed s1 s2 → tables_up s s2.
Proof.
  intros [F Ei Eg Et] [Hok F']. pose proof (cf_desc _ _ F') as Ed. split; rewrite ?Ed; [|done..].
  eapply arch_frame_trans; [exact F|by apply arch_frame_console].
Qed.

(** The three calls that fill and load the tables. *)
Lemma wp_install_tables {A} (k : M A) s (Q : A → kstate → Prop) P :
  console_ok s → tables_sized s →
  (∀ s', tables_up s s' → double_fault_stack (desc s') = double_fault_stack (desc s) → wp k Q P s') →
  wp (idt_init;; init_tss;; gdt_init;; k) Q P s.
Proof.
  intros Hok [Hi Hg] HQ. wp_step. apply wp_idt_init; [done..|]. intros s1 F1 _ E1.
  wp_step. apply wp_init_tss; [apply F1|]. intros s2 F2 _ E2. rewrite E1 in E2.
  wp_step. apply wp_gdt_init; [apply F2|by rewrite E2|]. intros s3 F3 _ _ E3. rewrite E2 in E3.
  rewrite (af_syms _ _ F2), (af_syms _ _ F1), (af_cr3 _ _ F1) in E3.
  apply HQ; [|by rewrite E3]. split; try by rewrite E3.
  eapply arch_frame_trans; [exact F1|]. by eapply arch_frame_trans.
Qed.

Lemma wp_boot_tables s (Q : unit → kstate → Prop) P :
  ringbuf_wf (log s) → low_mapped (hw s) → tables_sized s →
  16 <= zlen (double_fault_stack (desc s)) →
  (∀ s', tables_up s s' → Q tt s') → wp boot_tables Q P s.
Proof.
  intros Hl Hlow Hts Hstk HQ. unfold boot_tables.
  wp_step. apply wp_printk_init; [done..|]. intros s1 Hok1 F1 _ _.
  pose proof (conj Hok1 F1 : printed s s1) as Hs1. do 2 say.
  says ltac:(fun H => apply wp_check_breadcrumbs, H).
  match goal with H : printed s ?t |- wp _ _ _ ?t => destruct H as [Hok3 F3]; rename t into s3 end.
  pose proof (cf_desc _ _ F3) as Ed3. pose proof (cf_syms _ _ F3) as Es3.
  apply wp_install_tables; [done|destruct Hts; split; by rewrite Ed3|].
  intros s4 T4 Estk.
  assert (tables_up s s4) as T.
  { destruct T4 as [F ? ? ?]. split; rewrite <- ?Es3, <- ?(cf_cr3 _ _ F3); [|done..].
    eapply arch_frame_trans; [by apply arch_frame_console|done]. }
  pose proof (printed_refl s4 (af_console _ _ (tu_frame _ _ T))) as Hp. do 2 say.
  says ltac:(fun H => apply wp_debug_idt_entry; [apply H|by rewrite (cf_desc _ _ (proj2 H)), (tu_idt _ _ T)|lia]).
  says ltac:(fun H => apply wp_debug_gdt_entry; [apply H|by rewrite (cf_desc _ _ (proj2 H)), (tu_gdt _ _ T)|lia]).
  says ltac:(fun H => apply wp_debug_tss_contents, H).
  do 4 say.
  match goal with H : printed s4 ?t |- wp _ _ _ ?t => rename H into Hs5; rename t into s5 end.
  pose proof (tables_up_printed _ _ _ T Hs5) as T5.
  wp_step. apply wp_fill_df_stack.
  { rewrite (cf_desc _ _ (proj2 Hs5)), Estk, Ed3. done. }
  intros l Hl'. set (s6 := set_desc _ s5).
  assert (tables_up s s6) as T6.
  { destruct T5 as [F ? ? ?]. split; [|done..]. eapply arch_frame_trans; [exact F|].
    apply arch_frame_desc, F. }
  pose proof (printed_refl s6 (af_console _ _ (tu_frame _ _ T6))). say.
  wp_step. apply HQ. by eapply tables_up_printed.
Qed.

(** ** The second phase: memory map and frame allocator *)

(** What the BIOS map in memory comes to: the regions the kernel stores, the
    highest frame index, and the frames it makes available. *)
Definition boot_map (m : memory) : list memory_region_t :=
  ztake MAX_MEMORY_REGIONS (filter (λ r, available r = true) (e820_map m)).
Definition boot_top (m : memory) : Z := init_max 0 (boot_map m).
Definition boot_frames (m : memory) : list Z := visited (boot_top m) (boot_map m).

Lemma e820_map_agree m m' :
  screen_only m m' → e820_below_screen m → e820_map m' = e820_map m ∧ e820_below_screen m'.
Proof.
  intros Hm Hb.
  assert (rd16 m' E820_MAP_COUNT_PTR = rd16 m E820_MAP_COUNT_PTR) as Ec.
  { apply rd16_agree. intros b Hb'. apply Hm. unfold in_screen, E820_MAP_COUNT_PTR, VGA_ADDRESS in *. lia. }
  unfold e820_below_screen, e820_map in *. rewrite Ec. split; [|done].
  apply list_fmap_ext. intros k i Hi%list_elem_of_lookup_2%elem_of_zrange.
  apply e820_entry_agree; [done|lia|].
  unfold e820_base_addr, E820_MAP_ADDRESS, sizeof_e820_entry, VGA_ADDRESS in *. lia.
Qed.

(** The boot stack starts at [0x9FB00] and grows towards the bitmap; below this
    address the bitmap is out of its way. *)
Definition BOOT_STACK_LIMIT : Z := 0x9E000.

(** Enough memory for the boot, and not too much: the available regions lie below
    the last page and share no frame, the kernel image ends below the page
    directory, the bitmap below the boot stack,
    and [n] frames between 1 MB and 4 MB are available, counted by
    [total_frames] and outside the image. *)
Record memory_ok (s : kstate) (n : nat) : Prop := {
  mo_map : memmap_wf (memmap s);
  mo_empty : regions (memmap s) = [];
  mo_e820 : e820_below_screen (mem (hw s));
  mo_max : max_frame_idx (pmm s) = 0;
  mo_fits : Forall region_fits (boot_map (mem (hw s)));
  mo_nodup : NoDup (boot_frames (mem (hw s)));
  mo_top : 256 <= boot_top (mem (hw s));
  mo_kernel : Forall (range_ok (boot_top (mem (hw s)))) (kernel_ranges s);
  mo_image : sym_kernel_end (syms s) <= PAGE_DIR_START_ADDR;
  mo_stack : BITMAP + boot_top (mem (hw s)) / 8 < BOOT_STACK_LIMIT;
  mo_free : ∃ l, NoDup l ∧ length l = n ∧ Forall (λ i, 256 <= i < 1024 ∧
    i ∈ boot_frames (mem (hw s)) ∧ i < zlen (boot_frames (mem (hw s))) ∧
    existsb (in_range i) (kernel_ranges s) = false) l;
}.

(** What the first phase leaves of it. *)
Lemma memory_ok_screen s s' n :
  screen_only (mem (hw s)) (mem (hw s')) → memmap s' = memmap s → pmm s' = pmm s → syms s' = syms s →
  memory_ok s n → memory_ok s' n.
Proof.
  intros Hm Em Ep Es [Hmap Hempty He Hmax Hfit Hnd Htop Hk Himg Hstk Hfree].
  destruct (e820_map_agree _ _ Hm He) as [Emap He'].
  assert (boot_map (mem (hw s')) = boot_map (mem (hw s))) as Eb by (unfold boot_map; by rewrite Emap).
  split; unfold boot_frames, boot_top, kernel_ranges in *; rewrite ?Eb, ?Em, ?Ep, ?Es; done.
Qed.

(** The allocator is ready, with [n] frames below 4 MB. *)
Record memory_up (s : kstate) (n : nat) (s' : kstate) : Prop := {
  mu_inv : pmm_inv s';
  mu_console : console_ok s';
  mu_avail : avail s' n;
  mu_frame : ∃ v, kframe pmm_region (set_memmap v s) s';
}.

Lemma printed_pmm s s' :
  pmm_inv s → printed s s' → pmm_inv s' ∧ ∀ j, pmm_free s' j ↔ pmm_free s j.
Proof.
  intros Hinv [Hok F]. apply (@fa_stable pmm_allocator s s' Hinv); [apply Hok|apply (cf_pmm _ _ F)|].
  intros a Ha. apply (cf_mem _ _ F). cbn in Ha.
  unfold in_bitmap, in_screen, BITMAP, VGA_ADDRESS, VGA_SIZE, VGA_WIDTH, VGA_HEIGHT in *. lia.
Qed.

Lemma memory_up_printed s n s1 s2 : memory_up s n s1 → printed s1 s2 → memory_up s n s2.
Proof.
  intros [Hinv Hok Hav (v & F)] Hp. destruct (printed_pmm _ _ Hinv Hp) as [Hinv2 Hfree].
  destruct Hp as [Hok2 F2]. split; [done|done|by apply (avail_same s1)|]. exists v. etrans; [exact F|by apply pmm_region_console].
Qed.

(** Up to the reservations. *)
Lemma wp_reserve_boot {A} (k : M A) s (Q : A → kstate → Prop) P :
  pmm_wf s → console_ok s → 256 <= max_frame_idx (pmm s) →
  Forall (range_ok (max_frame_idx (pmm s))) (kernel_ranges s) →
  (∀ s', reserved s (low_ranges ++ kernel_ranges s ++ bitmap_ranges s) s' → wp k Q P s') →
  wp (pmm_reserve_memory_region RESERVED_TYPE_INIT;;
      pmm_reserve_memory_region RESERVED_TYPE_KERNEL;;
      pmm_reserve_memory_region RESERVED_TYPE_BITMAP;; k) Q P s.
Proof.
  intros Hwf Hok Hmax Hker HQ. pose proof Hwf as [[Hbm _ _] Hmax' _ _].
  wp_step. apply (wp_pmm_reserve RESERVED_TYPE_INIT); [done|done| |].
  { apply Forall_singleton. split; cbn; [lia|]. zify_mod. }
  intros s1 R1. pose proof R1 as [Hwf1 Hok1 F1 _ Em1 _].
  assert (kernel_ranges s1 = kernel_ranges s) as Ek1.
  { unfold kernel_ranges. by rewrite (kf_syms _ _ _ F1). }
  wp_step. apply (wp_pmm_reserve RESERVED_TYPE_KERNEL); [done|done| |].
  { rewrite Em1. change (reserve_ranges RESERVED_TYPE_KERNEL s1) with (kernel_ranges s1). by rewrite Ek1. }
  intros s2 R2. pose proof R2 as [Hwf2 Hok2 _ _ Em2 _].
  change (reserve_ranges RESERVED_TYPE_KERNEL s1) with (kernel_ranges s1) in R2. rewrite Ek1 in R2.
  assert (bitmap_ranges s2 = bitmap_ranges s) as Eb2.
  { unfold bitmap_ranges. pose proof Hwf2 as [[Hbm2 _ _] _ _ _]. by rewrite Hbm2, Hbm, Em2, Em1. }
  wp_step. apply (wp_pmm_reserve RESERVED_TYPE_BITMAP); [done|done| |].
  { change (reserve_ranges RESERVED_TYPE_BITMAP s2) with (bitmap_ranges s2). rewrite Eb2, Em2, Em1.
    apply Forall_singleton. unfold bitmap_ranges, BITMAP in *. rewrite Hbm. split; cbn; (clear -Hmax Hmax'; zify_mod). }
  intros s3 R3. change (reserve_ranges RESERVED_TYPE_BITMAP s2) with (bitmap_ranges s2) in R3.
  rewrite Eb2 in R3. apply HQ. eapply reserved_trans; [exact R1|]. by eapply reserved_trans.
Qed.

(** Available frames that no reservation covers are free. *)
Lemma reserved_free s s1 s2 i :
  init_ok s → init_post s s1 → max_frame_idx (pmm s1) < 2 ^ 20 →
  frame_bitmap (pmm s1) = BITMAP → 256 <= max_frame_idx (pmm s1) →
  reserved s1 (low_ranges ++ kernel_ranges s1 ++ bitmap_ranges s1) s2 →
  256 <= i < 1024 → i ∈ init_frames s → i < total_frames (pmm s1) →
  existsb (in_range i) (kernel_ranges s1) = false → pmm_free s2 i.
Proof.
  intros Hio [_ Hb] Hmax Hbm Htop [_ _ _ Et _ Hr] Hi Hin Hlt Hk.
  split; [rewrite Et; lia|]. rewrite Hr by lia. rewrite !existsb_app, Hk.
  rewrite Hb, bool_decide_eq_true_2; [|done|].
  - cbn [existsb low_ranges bitmap_ranges]. unfold bitmap_ranges. cbn [existsb]. unfold in_range.
    cbn [fst snd]. rewrite Hbm. unfold BITMAP.
    rewrite !bool_decide_eq_false_2; [done| |]; clear -Hi Hmax; zify_mod.
  - pose proof (visited_below _ _ _ Hin). zify_mod.
Qed.

(** One of the two allocations, with its message. *)
Lemma wp_boot_alloc {A} fmt1 fmt2 (k : M A) s0 n s (Q : A → kstate → Prop) P :
  memory_up s0 (S n) s → (∀ p, message_ok fmt1 [AWord p] = true) →
  (∀ p, message_ok fmt2 [AWord p] = true) → (∀ s', memory_up s0 n s' → wp k Q P s') →
  wp (frame ← pmm_alloc_frame;
      printk (if negb (frame =? 0) then fmt1 else fmt2) [AWord frame];; k) Q P s.
Proof.
  intros [Hinv Hok Hav (v & F)] Hm1 Hm2 HQ. wp_step.
  destruct (@fa_alloc_run pmm_allocator s Hinv Hok) as (p & s1 & E & [(i & -> & Hg)|(-> & Hnone & _)]).
  - eapply wp_ok; [exact E|]. destruct Hg as (_ & _ & Hinv1 & Hok1 & F1 & Hfree1).
    assert (memory_up s0 n s1) as U1.
    { split; [done|done|by apply (avail_take s s1 i)|]. exists v. by etrans. }
    eapply wp_print; [by apply printed_refl|by destruct (negb _)|]. intros s2 Hs2. apply HQ.
    by eapply memory_up_printed.
  - destruct (avail_head _ _ Hav) as (i & Hi & _). by apply Hnone in Hi.
Qed.

Lemma reserved_memory_up s v s1 s2 n :
  kframe pmm_region (set_memmap v s) s1 →
  reserved s1 (low_ranges ++ kernel_ranges s1 ++ bitmap_ranges s1) s2 → avail s2 n →
  memory_up s n s2.
Proof.
  intros F [Hwf Hok F2 _ _ Hb] Hav. split; [|done|done|exists v; by etrans].
  split; [done|]. intros i Hi. rewrite Hb, existsb_app by lia.
  assert (existsb (in_range i) low_ranges = true) as ->; [|apply orb_true_r].
  cbn [low_ranges existsb]. unfold in_range. cbn [fst snd].
  rewrite bool_decide_eq_true_2; [done|]. clear -Hi. zify_mod.
Qed.

(** The frames fit in the count. *)
Lemma boot_frames_count m :
  NoDup (boot_frames m) → Forall region_fits (boot_map m) →
  u32 (zlen (boot_frames m)) = zlen (boot_frames m).
Proof.
  intros Hnd Hfit. pose proof (init_max_bound 0 _ ltac:(lia) Hfit) as Ht. fold (boot_top m) in Ht.
  assert (boot_frames m ⊆+ zrange 0 (Z.to_nat (boot_top m))) as Hsub%submseteq_length.
  { apply NoDup_submseteq; [done|]. intros i Hi%visited_below. apply elem_of_zrange. lia. }
  rewrite length_zrange in Hsub. apply u32_small. unfold zlen. lia.
Qed.

Lemma kframe_memmap s s1 v :
  console_frame s s1 → kframe pmm_region (set_memmap v s) (set_memmap v s1).
Proof.
  intros F. apply (console_kframe pmm_region) in F; [|by left]. by destruct F.
Qed.

(** From the memory map to the first allocation. *)
Lemma wp_boot_pmm {A} (k : M A) s n (Q : A → kstate → Prop) P :
  console_ok s → memory_ok s n → (∀ s', memory_up s n s' → wp k Q P s') →
  wp (parse_and_print_e820_map;; pmm_init;;
      pmm_reserve_memory_region RESERVED_TYPE_INIT;;
      pmm_reserve_memory_region RESERVED_TYPE_KERNEL;;
      pmm_reserve_memory_region RESERVED_TYPE_BITMAP;; k) Q P s.
Proof.
  intros Hok [Hmap Hempty He Hmax Hfit Hnd Htop Hk _ _ (l & Hl & Hlen & Hall)] HQ.
  wp_step. apply wp_parse_e820; [done..|]. intros v s2 Hv Hok2 F2 Er.
  rewrite foldl_add_region, Hempty in Er by (rewrite zlen_regions by done; apply Hmap).
  change (regions v = boot_map (mem (hw s))) in Er.
  assert (memmap s2 = v) as Ev by apply (cf_memmap _ _ F2).
  assert (max_frame_idx (pmm s2) = 0) as Emax by (rewrite (cf_pmm _ _ F2); exact Hmax).
  assert (top s2 = boot_top (mem (hw s))) as Etop by (unfold top, rs; by rewrite Emax, Ev, Er).
  assert (init_frames s2 = boot_frames (mem (hw s))) as Efr.
  { unfold init_frames, boot_frames. rewrite Etop. unfold rs. by rewrite Ev, Er. }
  assert (init_ok s2) as Hio by (split; [done|by rewrite Ev|by rewrite Emax|by rewrite Ev, Er]).
  wp_step. apply wp_pmm_init; [done|]. intros s3 Hpost Hok3 F3.
  pose proof (init_post_wf s2 s3 Hio Hpost Hok3 ltac:(by rewrite Efr)) as Hwf3.
  pose proof (ip_pmm _ _ Hpost) as Epmm. rewrite Etop, Efr, boot_frames_count in Epmm by done.
  assert (kernel_ranges s3 = kernel_ranges s) as Ek.
  { unfold kernel_ranges. by rewrite (kf_syms _ _ _ F3), (cf_syms _ _ F2). }
  pose proof Hwf3 as [[Hbm _ _] Hmax3 _ _].
  apply wp_reserve_boot; [done|done|by rewrite Epmm|by rewrite Ek, Epmm|]. intros s4 R4.
  apply HQ, (reserved_memory_up s v s3); [|done|].
  { etrans; [by apply pmm_region_console|exact F3]. }
  exists l. split_and!; [done..|]. eapply Forall_impl; [exact Hall|]. intros i (Hi & Hin & Hlt & Hki).
  split; [|lia]. apply (reserved_free s2 s3); rewrite ?Efr; try done.
  - lia.
  - by rewrite Epmm.
  - by rewrite Epmm.
  - by rewrite Ek.
Qed.

Lemma wp_boot_memory s n (Q : unit → kstate → Prop) P :
  console_ok s → memory_ok s (S (S n)) →
  (∀ s', memory_up s n s' → Q tt s') → wp boot_memory Q P s.
Proof.
  intros Hok Hmem HQ. unfold boot_memory. pose proof (printed_refl s Hok) as Hp. do 2 say.
  match goal with H : printed s ?t |- wp _ _ _ ?t => destruct H as [Hok1 F1]; rename t into s1 end.
  apply (memory_ok_screen s s1) in Hmem; [|apply F1..].
  apply (wp_boot_pmm _ s1 (S (S n))); [done..|]. intros s2 U2.
  apply (wp_boot_alloc _ _ _ s1 (S n)); [done..|]. intros s3 U3.
  apply (wp_boot_alloc _ _ _ s1 n); [done..|]. intros s4 [Hinv Hok4 Hav (v & F)].
  wp_step. apply HQ. split; [done..|]. exists v. etrans; [by apply kframe_memmap|done].
Qed.

(** ** The third phase: paging and the stack *)

(** Paging is on with the first 4 MB mapped to themselves and nothing else, and
    [n] frames are left; interrupt and segment tables are those of [s]. *)
Record pager_up (s : kstate) (n : nat) (t : kstate) : Prop := {
  pu_wf : paging_wf t;
  pu_inv : pmm_inv t;
  pu_console : console_ok t;
  pu_avail : avail t n;
  pu_walk : ∀ va, 0 <= va < 2 ^ 32 →
    resolve (hw t) va = if decide (va < LOW_END) then Some va else None;
  pu_idt : idt (desc t) = idt (desc s);
  pu_gdt : gdt (desc t) = gdt (desc s);
  pu_syms : syms t = syms s;
  pu_ebp' : ebp (hw t) = ebp (hw s);
  pu_iflag' : iflag (hw t) = iflag (hw s);
}.

Lemma pager_up_steady s n t t' :
  pager_up s n t → steady t t' → (∀ j, pmm_free t' j ↔ pmm_free t j) → pager_up s n t'.
Proof.
  intros [] St Hfree. pose proof (st_frame _ _ St) as [? ? ? F _ _].
  split; [done|done|done|by apply (avail_same t)| |..].
  - intros va Hva. rewrite (st_walk _ _ St) by done. auto.
  - by rewrite (kf_desc _ _ _ F).
  - by rewrite (kf_desc _ _ _ F).
  - by rewrite (kf_syms _ _ _ F).
  - by rewrite (kf_ebp _ _ _ F).
  - by rewrite (kf_iflag _ _ _ F).
Qed.

Lemma pager_up_printed s n t t' : pager_up s n t → printed t t' → pager_up s n t'.
Proof.
  intros U [Hok F]. pose proof U as [Hwf Hinv _ _ _ _ _ _ _ _].
  destruct (steady_console t t' Hwf Hinv Hok F) as [St Hfree]. by apply (pager_up_steady s n t).
Qed.

Lemma pager_up_paged s n s1 s2 :
  console_frame s s1 → avail s1 n → paged s1 s2 → pager_up s n s2.
Proof.
  intros F Hav [Hwf Hinv Hok Hw _ _ Hbp Hif (_ & _ & _ & Hd & Hs) Hfree].
  split; try done.
  - by apply (avail_same s1).
  - by rewrite Hd, (cf_desc _ _ F).
  - by rewrite Hd, (cf_desc _ _ F).
  - by rewrite Hs, (cf_syms _ _ F).
  - by rewrite Hbp, (cf_ebp _ _ F).
  - by rewrite Hif, (cf_iflag _ _ F).
Qed.

(** The page tables are reserved already, with the rest of the first megabyte. *)
Lemma pager_up_reserved s n t t' :
  pager_up s n t → reserved t table_ranges t' → pager_up s n t'.
Proof.
  intros U [Hwf' Hok' F Et _ Hb]. pose proof U as [Hwf [Hpwf Hlow] _ _ _ _ _ _ _ _].
  assert (∀ j, 0 <= j < 2 ^ 20 → used_bit t' j = used_bit t j) as Hbits.
  { intros j Hj. rewrite Hb by done. destruct (existsb _ _) eqn:E; [|apply orb_false_r].
    rewrite Hlow; [done|]. cbn [table_ranges existsb] in E. unfold in_range in E. cbn [fst snd] in E.
    unfold PAGE_DIR_START_ADDR, PAGE_TABLE_START_ADDR in E.
    apply orb_prop in E as [E|E]; [|apply orb_prop in E as [E|E]; [|done]];
      apply bool_decide_eq_true in E; clear -E; zify_mod. }
  assert (∀ j, pmm_free t' j ↔ pmm_free t j) as Hfree.
  { pose proof Hpwf as [_ ? ? _]. intros j. unfold pmm_free. rewrite Et.
    split; intros [Hj Hc]; (split; [done|]).
    - by rewrite <- Hbits by lia.
    - by rewrite Hbits by lia. }
  apply (pager_up_steady s n t); [done| |done]. apply steady_kframe; [done|exact F| |done|].
  - split; [done|]. intros j Hj. rewrite Hbits by lia. by apply Hlow.
  - intros j. apply Hfree.
Qed.

Lemma pager_up_tss s n t v :
  pager_up s n t → pager_up s n (set_desc (with_tss v (desc t)) t).
Proof.
  intros [Hwf Hinv Hok Hav Hw ? ? ? ? ?]. set (t' := set_desc _ t).
  destruct (idle_change t t' Hwf Hinv) as (? & ? & Hfree & _ & Hres); [done|done|].
  split; try done.
  - by apply (idle_console t).
Qed.

(** Turning paging on. *)
Lemma wp_boot_pager {A} (k : M A) s0 s n (Q : A → kstate → Prop) P :
  printed s0 s → pmm_inv s → avail s (S n) → paging_on (hw s) = false →
  (∀ t, pager_up s0 (S n) t → tss_df (desc t) = set_tss_cr3 page_directory (tss_df (desc s)) →
     wp k Q P t) →
  wp (paging_init;; debug_page_tables;; pmm_reserve_memory_region RESERVED_TYPE_PAGE_TABLE;;
      update_tss_cr3;; k) Q P s.
Proof.
  intros [Hok F0] Hinv Hav Hoff HQ.
  wp_step. apply wp_paging_init; [done..|]. intros s1 Hpg.
  assert (desc s1 = desc s) as Ed1 by (destruct Hpg as [_ _ _ _ _ _ _ _ (_ & _ & _ & ? & _) _]; done).
  pose proof (pager_up_paged _ _ _ _ F0 Hav Hpg) as U1. clear Hpg.
  wp_step. eapply wp_mono; [apply wp_debug_page_tables, U1| |by intros ? []]. intros b2 s2 P2.
  pose proof (pager_up_printed _ _ _ _ U1 P2) as U2. pose proof (cf_desc _ _ (proj2 P2)) as Ed2.
  pose proof U2 as [Hwf2 [Hpwf2 _] Hok2 Hav2 _ _ _ _ _ _].
  assert (256 < max_frame_idx (pmm s2)) as Hmax.
  { destruct (avail_head _ _ Hav2) as (i & Hi & _). pose proof (pu_inv _ _ _ U2) as Hinv2.
    pose proof (pmm_free_high s2 i Hinv2 Hi). destruct Hi as [Hi _]. destruct Hpwf2 as [_ _ ? _]. lia. }
  wp_step. apply (wp_pmm_reserve RESERVED_TYPE_PAGE_TABLE); [done|done| |].
  { change (reserve_ranges RESERVED_TYPE_PAGE_TABLE s2) with table_ranges.
    unfold table_ranges, PAGE_DIR_START_ADDR, PAGE_TABLE_START_ADDR.
    rewrite Forall_cons, Forall_singleton. split; (split; cbn; [lia|clear -Hmax; zify_mod]). }
  intros s3 R3. change (reserve_ranges RESERVED_TYPE_PAGE_TABLE s2) with table_ranges in R3.
  pose proof (pager_up_reserved _ _ _ _ U2 R3) as U3.
  pose proof (kf_desc _ _ _ (rv_frame _ _ _ R3)) as Ed3.
  wp_step. apply wp_update_tss_cr3; [apply U3|]. intros s4 -> _.
  apply HQ; [by apply pager_up_tss|]. cbn [desc set_desc tss_df with_tss].
  by rewrite Ed3, Ed2, Ed1, (pg_cr3 _ (pu_wf _ _ _ U3)).
Qed.

(** The stack is live and [n] frames are left for the heap. *)
Record stack_up (s : kstate) (n : nat) (t : kstate) : Prop := {
  su_live : stack_live t;
  su_avail : avail t n;
  su_walk : ∀ va, 0 <= va < 2 ^ 32 → ¬ in_stack va →
    resolve (hw t) va = if decide (va < LOW_END) then Some va else None;
  su_idt : idt (desc t) = idt (desc s);
  su_gdt : gdt (desc t) = gdt (desc s);
  su_syms : syms t = syms s;
  su_ebp : ebp (hw t) = ebp (hw s);
  su_iflag : iflag (hw t) = iflag (hw s);
}.

Lemma pager_up_stack s m n t frames t' :
  pager_up s m t → zlen frames = STACK_PAGES → stack_mapped t frames t' →
  enough t' (stack_page 0) n → stack_up s (S n) t'.
Proof.
  intros [Hwf Hinv Hok _ Hw Ei Eg Es Eb Ef] Hlen Hs' Hen.
  pose proof Hs' as [[_ _ _ F _ _] _ _ _ Hw' _]. split.
  - apply (stack_mapped_live t frames); [done..|]. intros va Hva. unfold in_guard_page in Hva.
    assert (0 <= va < 2 ^ 32 ∧ ¬ va < LOW_END) as [Hr ?]
      by (unfold KERNEL_STACK_BOTTOM_VIRT, KERNEL_STACK_TOP_VIRT, LOW_END in *; lia).
    by rewrite Hw, decide_False.
  - destruct Hen as [[_ Ha]|Ha]; [done|]. by apply (avail_mono _ (S (S n))); [lia|].
  - intros va Hva Hout. rewrite Hw' by done. rewrite (stack_frame_outside frames) by done. by apply Hw.
  - by rewrite (kf_desc _ _ _ F).
  - by rewrite (kf_desc _ _ _ F).
  - by rewrite (kf_syms _ _ _ F).
  - by rewrite (kf_ebp _ _ _ F).
  - by rewrite (kf_iflag _ _ _ F).
Qed.

Lemma stack_up_printed s n t t' : stack_up s n t → printed t t' → stack_up s n t'.
Proof.
  intros [Hl Hav Hw ? ? ? ? ?] [Hok F]. pose proof Hl as [Hwf Hinv _ _ _].
  destruct (steady_console t t' Hwf Hinv Hok F) as [St Hfree].
  pose proof (cf_desc _ _ F) as Ed. split.
  - by apply (stays_live_console t).
  - by apply (avail_same t).
  - intros va Hva Hout. rewrite (st_walk _ _ St) by done. by apply Hw.
  - by rewrite Ed.
  - by rewrite Ed.
  - by rewrite (cf_syms _ _ F).
  - by rewrite (cf_ebp _ _ F).
  - by rewrite (cf_iflag _ _ F).
Qed.

Lemma wp_boot_paging s n (Q : unit → kstate → Prop) P :
  console_ok s → pmm_inv s → avail s (17 + n) → paging_on (hw s) = false →
  (∀ t, stack_up s (S n) t → tss_cr3 (tss_df (desc t)) = page_directory → Q tt t) →
  wp boot_paging Q P s.
Proof.
  intros Hok Hinv Hav Hoff HQ. unfold boot_paging. pose proof (printed_refl s Hok) as Hp. do 2 say.
  match goal with H : printed s ?t |- wp _ _ _ ?t => rename H into P1; rename t into s1 end.
  destruct (printed_pmm _ _ Hinv P1) as [Hinv1 Hfree1]. pose proof P1 as [Hok1 F1].
  apply (wp_boot_pager _ s s1 (16 + n)); [done|done|by apply (avail_same s)| |].
  { unfold paging_on in *. by rewrite (cf_cr0 _ _ F1). }
  intros t U Etss. pose proof (printed_refl t (pu_console _ _ _ U)) as Ht. do 9 say.
  match goal with H : printed t ?u |- wp _ _ _ ?u => rename H into P2; rename u into s2 end.
  pose proof (pager_up_printed _ _ _ _ U P2) as U2.
  wp_step. apply (wp_map_stack s2 n); [apply U2|apply U2|apply U2|right; apply U2|].
  intros frames s3 Hlen Hs3 Hen. pose proof (pager_up_stack _ _ _ _ _ _ U2 Hlen Hs3 Hen) as S3.
  assert (desc s3 = desc t) as Ed3.
  { rewrite (kf_desc _ _ _ (mf_frame _ _ (sm_frame _ _ _ Hs3))). apply (cf_desc _ _ (proj2 P2)). }
  pose proof (printed_refl s3 (sl_console _ (su_live _ _ _ S3))) as Hp3. do 3 say. wp_step.
  match goal with H : printed s3 ?u |- Q _ ?u => rename H into P4; rename u into s4 end.
  apply HQ; [by eapply stack_up_printed|]. by rewrite (cf_desc _ _ (proj2 P4)), Ed3, Etss.
Qed.

(** ** The setup as a whole *)

(** What the boot loader has to leave: paging off, the BIOS map in memory, the
    statics as the image holds them, and [n] frames besides the 19 the setup
    takes (two for show, fifteen for the stack, one for its table, one spare). *)
Record boot_ok (s : kstate) (n : nat) : Prop := {
  bt_log : ringbuf_wf (log s);
  bt_off : paging_on (hw s) = false;
  bt_tables : tables_sized s;
  bt_stack : 16 <= zlen (double_fault_stack (desc s));
  bt_syms : symbols_ok (syms s);
  bt_memory : memory_ok s (19 + n);
}.

(** The kernel as [kernel_setup] leaves it. *)
Record kernel_up (s : kstate) (n : nat) (t : kstate) : Prop := {
  ku_live : stack_live t;
  ku_avail : avail t n;
  ku_walk : ∀ va, 0 <= va < 2 ^ 32 → ¬ in_stack va →
    resolve (hw t) va = if decide (va < LOW_END) then Some va else None;
  ku_idt : idt (desc t) = idt_table (sym_isr_page_fault (syms s));
  ku_gdt : gdt (desc t) = gdt_table (sym_tss_df (syms s));
  ku_syms : syms t = syms s;
  ku_ebp : ebp (hw t) = ebp (hw s);
  ku_iflag : iflag (hw t) = iflag (hw s);
}.

Lemma wp_kernel_setup s n (Q : unit → kstate → Prop) P :
  boot_ok s n →
  (∀ t, kernel_up s (S n) t → tss_cr3 (tss_df (desc t)) = page_directory → Q tt t) →
  wp kernel_setup Q P s.
Proof.
  intros [Hl Hoff Hts Hstk _ Hmem] HQ. unfold kernel_setup.
  wp_step. apply wp_boot_tables; [done|by left|done|done|]. intros s1 [F1 Ei Eg _].
  wp_step. apply (wp_boot_memory s1 (17 + n)); [apply F1|by apply (memory_ok_screen s); [apply F1..|]|].
  intros s2 [Hinv2 Hok2 Hav2 (v & F2)].
  apply (wp_boot_paging s2 n); [done|done|done| |].
  { pose proof (kf_cr0 _ _ _ F2) as E0. cbn in E0. unfold paging_on in *. by rewrite E0, (af_cr0 _ _ F1). }
  pose proof (kf_desc _ _ _ F2) as Ed2. cbn in Ed2.
  intros t [Hlive Hav Hw Hi Hg Hs Hb Hf] Hcr3. apply HQ; [|done]. split; [done|done|done| | | | |].
  - by rewrite Hi, Ed2.
  - by rewrite Hg, Ed2.
  - rewrite Hs, (kf_syms _ _ _ F2). apply F1.
  - rewrite Hb, (kf_ebp _ _ _ F2). apply F1.
  - rewrite Hf, (kf_iflag _ _ _ F2). apply F1.
Qed.

Lemma tables_busy d isr tss : idt d = idt_table isr → gdt d = gdt_table tss → task_busy d.
Proof.
  intros Ei Eg. split; rewrite ?Ei, ?Eg; [reflexivity|].
  eexists. split; [reflexivity|]. reflexivity.
Qed.

(** C1: the kernel comes up.  The machine is as the boot loader leaves it, with
    paging off and the statics as the image holds them, zero, and its memory is
    within these bounds: no two available regions share a frame and, cut
    to 32 bits, they end by [0xFFFFF000]; memory ends below 1.75 GB, so that the
    bitmap ends below [0x9E000], clear of the boot stack; the image ends by
    [0x80000]; and 19 + [n] frames between 1 MB and 4 MB are available, outside
    the image and below the number of frames.  Then the part of [kernel_main]
    before the switch of stacks
    returns: no panic, no fault, no endless loop.  Paging is on; the first 4 MB
    are mapped to themselves, the fifteen stack pages to frames of their own,
    and nothing else; the allocator's invariant holds with frames to spare;
    interrupts are as they were; the interrupt and segment tables are complete,
    and the double-fault task has the page directory but is busy. *)
Theorem kernel_setup_comes_up s n :
  boot_ok s n →
  ∃ t, kernel_setup s = Ok tt t ∧ stack_live t ∧ avail t (S n) ∧
    (∀ va, 0 <= va < 2 ^ 32 → ¬ in_stack va →
       resolve (hw t) va = if decide (va < LOW_END) then Some va else None) ∧
    idt (desc t) = idt_table (sym_isr_page_fault (syms s)) ∧
    gdt (desc t) = gdt_table (sym_tss_df (syms s)) ∧
    tss_cr3 (tss_df (desc t)) = page_directory ∧ task_busy (desc t) ∧
    iflag (hw t) = iflag (hw s).
Proof.
  intros Hb. destruct (wp_run kernel_setup (λ _ t, kernel_up s (S n) t ∧
    tss_cr3 (tss_df (desc t)) = page_directory) s) as ([] & t & E & [] & Hcr3); [by apply (wp_kernel_setup s n)|].
  exists t. split_and!; [done..| |done]. by apply (tables_busy _ _ (sym_tss_df (syms s)) ku_idt0).
Qed.

(** ** On the high stack *)

(** What the code on the high stack starts from and keeps while it prints. *)
Record on_stack (s : kstate) (n : nat) (t : kstate) : Prop := {
  os_up : kernel_up s n t;
  os_esp : esp (hw t) = new_stack_ptr;
}.

Lemma kernel_up_idle s n t t' :
  kernel_up s n t → same_but (idle t) t t' → pmm t' = pmm t → log t' = log t → vga t' = vga t →
  desc t' = desc t → syms t' = syms t → ebp (hw t') = ebp (hw t) → iflag (hw t') = iflag (hw t) →
  (∀ a, data_byte t a → ¬ stack_byte t a → rd8 (mem (hw t')) a = rd8 (mem (hw t)) a) →
  kernel_up s n t'.
Proof.
  intros [Hl Hav Hw Hi Hg Hs Hb Hf] F Ep El Ev Ed Es Eb Ef Hk.
  pose proof (stays_live_idle t t' Hl F Ep El Ev Ed Es Hk) as L.
  destruct (idle_change t t' (sl_paging _ Hl) (sl_inv _ Hl) F Ep) as (_ & _ & Hfree & _ & Hres).
  split; rewrite ?Ed, ?Es, ?Eb, ?Ef; try done.
  - apply L.
  - by apply (avail_same t).
  - intros va Hva Hout. rewrite Hres by done. by apply Hw.
Qed.

Lemma on_stack_switch s n t : kernel_up s n t → on_stack s n (on_hw (set_esp new_stack_ptr) t).
Proof. intros Hup. split; [|done]. by apply (kernel_up_idle s n t). Qed.

Lemma kernel_up_printed s n t t' : kernel_up s n t → printed t t' → kernel_up s n t'.
Proof.
  intros [Hl Hav Hw Hi Hg Hs Hb Hf] [Hok F]. pose proof Hl as [Hwf Hinv _ _ _].
  destruct (steady_console t t' Hwf Hinv Hok F) as [St Hfree].
  pose proof (stays_live_console t t' Hl Hok F) as L. pose proof F as [_ _ _ _ _ Eb Ef _ _ _ _ Ed Es].
  split; rewrite ?Ed, ?Es, ?Eb, ?Ef; try done.
  - apply L.
  - by apply (avail_same t).
  - intros va Hva Hout. rewrite (st_walk _ _ St) by done. by apply Hw.
Qed.

Lemma ends_print {A} fmt args (k : M A) s n t (F : outcome A → Prop) :
  on_stack s n t → message_ok fmt args = true → (∀ t', on_stack s n t' → ends k F t') →
  ends (printk fmt args;; k) F t.
Proof.
  intros [Hup Hsp] Hm HQ. apply (ends_bind _ _ (λ _ t', on_stack s n t')); [|by intros _ t' Ht; apply HQ].
  apply wp_printk; [apply Hup|done|]. intros _ t' Hok F'. split; [by apply (kernel_up_printed s n t)|].
  by rewrite (cf_esp _ _ F').
Qed.

Lemma ends_gets {A B} (f : kstate → B) (k : B → M A) s (F : outcome A → Prop) :
  ends (k (f s)) F s → ends (gets f ≫= k) F s.
Proof. done. Qed.

(** The stack page the frame of the fault goes to. *)
Lemma resolve_offset `{FrameAllocator} s a a' pa :
  paging_wf s → 0 <= a → a / 4096 = a' / 4096 → resolve (hw s) a = Some pa →
  resolve (hw s) a' = Some (a' + (pa - a)).
Proof.
  intros Hwf Ha Epage. rewrite !paging_resolve by done. unfold walk, pte.
  assert (pd_index a' = pd_index a ∧ pt_index a' = pt_index a) as [-> ->].
  { rewrite !pd_index_div, !pt_index_div. split; zify_mod. }
  destruct (pde_present _ _); [|done]. destruct (Z.testbit _ 0); [|done].
  intros E. injection E as <-. f_equal. zify_mod.
Qed.

Lemma stack_live_ready t :
  stack_live t → esp (hw t) = new_stack_ptr →
  ∃ d, stack_ready (new_stack_ptr - 68) new_stack_ptr d t.
Proof.
  intros Hl Hsp. unfold new_stack_ptr, KERNEL_STACK_TOP_VIRT in *.
  assert (∀ a, 0xC3000000 - 16 - 68 <= a < 0xC3000000 - 16 → in_stack a) as Hin.
  { intros a Ha. unfold in_stack, KERNEL_STACK_BOTTOM_VIRT, KERNEL_STACK_TOP_VIRT. lia. }
  destruct (sl_stack t Hl (0xC3000000 - 84)) as (pa & E & _); [apply Hin; lia|].
  exists (pa - (0xC3000000 - 84)). split; [lia|done| |].
  - intros a Ha. apply (resolve_offset t (0xC3000000 - 84)); [apply Hl|lia| |done]. clear -Ha. zify_mod.
  - intros a Ha. destruct (sl_stack t Hl a) as (pa' & E' & Hd); [by apply Hin|].
    rewrite (resolve_offset t (0xC3000000 - 84) a pa) in E'; [|apply Hl|lia|clear -Ha; zify_mod|done].
    injection E' as <-. split; [by right|]. destruct Hd as [Hlo _].
    unfold harmless, in_screen, VGA_ADDRESS, VGA_SIZE, VGA_WIDTH, VGA_HEIGHT. lia.
Qed.

(** Two frames are enough for a page fault. *)
Lemma avail_frames_for `{FrameAllocator} s va : avail s 2 → frames_for s va.
Proof.
  intros ([|i [|j []]] & Hnd & Hlen & Hall); try done.
  rewrite !Forall_cons in Hall. destruct Hall as ([Hi ?] & [Hj ?] & _).
  apply NoDup_cons in Hnd as [Hij _]. rewrite list_elem_of_singleton in Hij.
  destruct (Z.lt_total i j) as [|[->|]]; [exists i|done|exists j]; (split; [done|right]).
  - exists j. split; [done|lia].
  - exists i. split; [done|lia].
Qed.

(** With the heap's page mapped, the stack is as it was. *)
Lemma resumed_live t va i (R : Z → Prop) t' :
  stack_live t → KERNEL_HEAP_START <= va < KERNEL_HEAP_END → resumed t va i R t' → stack_live t'.
Proof.
  intros Hl Hva [Hi Hw Hpriv Ht _ Hwf Hinv Hok _ Hidle _ _ _ _].
  assert (∀ a, KERNEL_STACK_BOTTOM_VIRT <= a < KERNEL_STACK_TOP_VIRT →
    resolve (hw t') a = resolve (hw t) a) as Hsame.
  { unfold KERNEL_HEAP_START, KERNEL_HEAP_END, KERNEL_STACK_BOTTOM_VIRT, KERNEL_STACK_TOP_VIRT in *.
    intros a Ha. rewrite Hw by (clear -Ha; lia). rewrite decide_False; [done|]. clear -Ha Hva. zify_mod. }
  split; [done|done|done| |].
  - intros a Ha. destruct (sl_stack t Hl a Ha) as (pa & E & Hd). exists pa.
    rewrite Hsame by (unfold in_stack in Ha; lia). split; [done|].
    destruct (Hidle pa (or_intror Hd)) as [Hlo|]; [|done]. destruct Hd. lia.
  - intros a Ha. rewrite Hsame; [by apply (sl_guard t Hl)|].
    unfold in_guard_page, KERNEL_STACK_BOTTOM_VIRT, KERNEL_STACK_TOP_VIRT in *. lia.
Qed.

(** The word at [va] is in a page that is in use, is not the stack's and holds no
    table. *)
Record holds (va v : Z) (t : kstate) : Prop := {
  ho_maps : ∃ pa, resolve (hw t) va = Some pa ∧ rd32 (mem (hw t)) pa = v ∧
    ∀ b, pa <= b < pa + 4 → data_byte t b ∧ ¬ stack_byte t b;
}.

Lemma holds_live va v t t' :
  0 <= va < 2 ^ 32 → stays_live t t' → holds va v t → holds va v t'.
Proof.
  intros Hva [_ Hd Hw _ _] [(pa & E & Ev & Hb)]. split. exists pa. rewrite Hw by done.
  split_and!; [done| |].
  - rewrite <- Ev. apply rd32_agree. intros b Hb'. destruct (Hb b Hb') as [H1 H2].
    by apply Hd.
  - intros b Hb'. destruct (Hb b Hb') as [H1 H2]. split; [by apply Hd|].
    intros (a & Ha & Ea). apply H2. exists a. split; [done|]. rewrite <- Hw; [done|].
    unfold in_stack, KERNEL_STACK_BOTTOM_VIRT, KERNEL_STACK_TOP_VIRT in Ha. lia.
Qed.

(** What a repaired fault leaves at its address: the frame was free, so it is
    none of the stack's. *)
Lemma resumed_holds t va i (R : Z → Prop) v t' :
  stack_live t → KERNEL_HEAP_START <= va < KERNEL_HEAP_END → va mod 4096 <= 4092 →
  resumed t va i R t' → load32 va t' = Ok v t' → holds va v t'.
Proof.
  intros Hl Hva Hoff [Hi Hw Hpriv Ht _ Hwf Hinv Hok _ _ _ _ _ _] Hld.
  assert (0 <= va < 2 ^ 32) as Hr by (unfold KERNEL_HEAP_START, KERNEL_HEAP_END in Hva; lia).
  pose proof (fa_free_high t i (sl_inv _ Hl) Hi) as Hhi.
  assert (resolve (hw t') va = Some (4096 * i + va mod 4096)) as E by (by rewrite Hw, decide_True).
  unfold load32, State.access in Hld. rewrite E in Hld. injection Hld as Ev.
  split. exists (4096 * i + va mod 4096). split_and!; [done|done|].
  intros b Hb. assert (b / 4096 = i) as Eb by (clear -Hb Hoff; zify_mod). split.
  - split_and!; [clear -Hb Hhi; zify_mod|by rewrite Eb|]. intros k Hk Hp. rewrite Eb. by apply Hpriv.
  - intros (a & Ha & Ea). assert (resolve (hw t) a = Some b) as Ea'.
    { unfold in_stack, KERNEL_STACK_BOTTOM_VIRT, KERNEL_STACK_TOP_VIRT in Ha.
      unfold KERNEL_HEAP_START, KERNEL_HEAP_END in Hva. rewrite Hw, decide_False in Ea; [done| |lia].
      clear -Ha Hva. zify_mod. }
    destruct (sl_stack t Hl a Ha) as (b' & Eb' & _ & Hused & _).
    assert (b' = b) as -> by congruence. apply Hused. by rewrite Eb.
Qed.

Section high_stack.
Context (s : kstate) (cx : context) (frame_size : Z).
Context (Hsyms : symbols_ok (syms s)) (Hfs : 512 <= frame_size <= 4092).
Context (Hcx : context_ok cx) (Hif : if_set (cx_eflags cx) = iflag (hw s)).
Context (Hbp : 0 <= ebp (hw s) < 2 ^ 32).

Lemma kernel_up_gates n t :
  kernel_up s n t →
  idt (desc t) !! 14%nat = Some (gate_entry (sym_isr_page_fault (syms t)) 0x08 0x8E) ∧
  0 <= sym_isr_page_fault (syms t) < 2 ^ 32 ∧ task_busy (desc t).
Proof using Hsyms.
  intros [_ _ _ Ei Eg Es _ _]. rewrite Es. split; [|split].
  - rewrite Ei. apply list_lookup_insert_eq. rewrite length_insert, length_replicate.
    unfold IDT_ENTRIES. clear. lia.
  - clear -Hsyms. unfold symbols_ok in Hsyms. rewrite !Forall_cons in Hsyms. tauto.
  - by apply (tables_busy _ _ _ Ei Eg).
Qed.

(** The heap access: it faults, and goes through. *)
Lemma ends_heap_store {A} va v (k : M A) t (F : outcome A → Prop) :
  on_stack s 2 t → KERNEL_HEAP_START <= va < KERNEL_HEAP_END → va mod 4096 <= 4092 →
  (∀ t', stack_live t' → esp (hw t') = new_stack_ptr → desc t' = desc t → syms t' = syms t →
     holds va (u32 v) t' → ends k F t') →
  ends (retry cx ERROR_WRITE (store32 va v);; k) F t.
Proof using Hsyms Hcx Hif Hbp.
  intros [Hup Hsp] Hva Hoff HQ. destruct (kernel_up_gates 2 t Hup) as (Hg & Hi & _).
  pose proof Hup as [Hl Hav Hw _ _ _ Eb Ef]. pose proof Hl as [Hwf Hinv Hok _ _].
  destruct (stack_live_ready t Hl Hsp) as (d & Hready).
  destruct (retry_heap_store (new_stack_ptr - 68) new_stack_ptr d cx va v t)
    as (i & t' & E & Hld & Hr); try done.
  - unfold KERNEL_HEAP_START, KERNEL_HEAP_END in Hva.
    rewrite Hw; [|lia|unfold in_stack, KERNEL_STACK_BOTTOM_VIRT, KERNEL_STACK_TOP_VIRT; lia].
    rewrite decide_False; [done|unfold LOW_END; lia].
  - by apply avail_frames_for.
  - by rewrite Ef.
  - by rewrite Eb.
  - unfold ends, mbind, M_bind. rewrite E. apply HQ.
    + by apply (resumed_live t va i (frame_bytes new_stack_ptr d)).
    + by rewrite (rs_esp _ _ _ _ _ Hr).
    + apply Hr.
    + apply Hr.
    + by apply (resumed_holds t va i _ (u32 v) _ Hl Hva Hoff Hr).
Qed.

(** What follows it. *)
Definition after_heap (t0 t : kstate) : Prop := stays_live t0 t ∧ esp (hw t) = new_stack_ptr.

Lemma ends_live_print {A} fmt args (k : M A) t0 t (F : outcome A → Prop) :
  after_heap t0 t → message_ok fmt args = true → (∀ t', after_heap t0 t' → ends k F t') →
  ends (printk fmt args;; k) F t.
Proof using Type.
  intros [L Hsp] Hm HQ. apply (ends_bind _ _ (λ _ t', after_heap t0 t')); [|intros _ t' Ht; by apply HQ].
  eapply wp_post; [apply wp_print_live; [apply L|done]|]. intros _ t' [L' Hsp'].
  split; [by eapply stays_live_trans|congruence].
Qed.

Lemma ends_live_vga {A} v (k : M A) t0 t (F : outcome A → Prop) :
  after_heap t0 t → (∀ t', after_heap t0 t' → ends k F t') →
  ends (store16 0xB8000 v;; k) F t.
Proof using Type.
  intros [L Hsp] HQ. apply (ends_bind _ _ (λ _ t', after_heap t0 t')); [|intros _ t' Ht; by apply HQ].
  pose proof (st_live _ _ L) as Hl.
  apply wp_store16_low; [apply (sl_console _ Hl)|unfold LOW_END; lia|]. split; [|done].
  eapply stays_live_trans; [exact L|]. apply stays_live_idle; [done| |done..|].
  2: { intros a [Hlo _] _. apply rd8_wr16_ne; lia. }
  split; [|done..]. intros a Ha. apply rd8_wr16_ne. clear -Ha.
  destruct (decide (0xB8000 <= a < 0xB8002)) as [Hin|]; [|lia].
  destruct Ha. apply harmless_idle. left. unfold in_screen, VGA_ADDRESS, VGA_SIZE, VGA_WIDTH, VGA_HEIGHT. lia.
Qed.

#[local] Ltac prints_live :=
  lazymatch goal with
  | |- ends (mbind _ (printk _ _)) _ _ => eapply ends_live_print; [eassumption|reflexivity|intros ? ?]
  | |- ends (mbind _ (store16 _ _)) _ _ => eapply ends_live_vga; [eassumption|intros ? ?]
  | |- ends (mbind _ (gets _)) _ _ => apply ends_gets; cbv beta
  end.

(** The end [r] of a kernel with the symbols [y]: its tables are loaded, paging
    is on and the stack mapped, the heap word that it wrote is in place in a page
    mapped after the setup, and the stack pointer has reached the guard page. *)
Record overflow_end (y : symbols) (r : kstate) : Prop := {
  oe_live : stack_live r;
  oe_idt : idt (desc r) = idt_table (sym_isr_page_fault y);
  oe_gdt : gdt (desc r) = gdt_table (sym_tss_df y);
  oe_heap : holds (KERNEL_HEAP_START + 0x1234) 42 r;
  oe_esp : in_guard_page (esp (hw r));
  oe_cr2 : in_guard_page (cr2 (hw r));
}.

Lemma high_stack_resets t :
  on_stack s 2 t → ends (high_stack_entry (retry cx ERROR_WRITE) 128 frame_size)
    (λ o, ∃ r, o = Undef (UbReset r) ∧ overflow_end (syms s) r) t.
Proof using Hsyms Hfs Hcx Hif Hbp.
  intros Hon. unfold high_stack_entry.
  eapply ends_print; [exact Hon|reflexivity|]. clear t Hon. intros t Hon. apply ends_gets. cbv beta.
  do 3 (eapply ends_print; [exact Hon|reflexivity|]; clear t Hon; intros t Hon).
  destruct (kernel_up_gates 2 t (os_up _ _ _ Hon)) as (Hgate & Hisr & Hbusy).
  pose proof (os_up _ _ _ Hon) as [_ _ _ Ei Eg _ _ _].
  apply ends_heap_store; [done|unfold KERNEL_HEAP_START, KERNEL_HEAP_END; lia|by vm_compute|].
  intros t1 Hl Hsp Ed Es Hh. change (u32 42) with 42 in Hh.
  assert (after_heap t1 t1) as Ht by (split; [by apply stays_live_refl|done]).
  repeat prints_live.
  match goal with H : after_heap t1 ?u |- ends _ _ ?u => destruct H as [L Esp]; rename u into t2 end.
  eapply ends_mono; [apply overflow_resets; rewrite ?(st_desc _ _ L), ?(st_syms _ _ L), ?Ed, ?Es; try done|].
  - apply L.
  - rewrite Esp. unfold new_stack_ptr, KERNEL_STACK_BOTTOM_VIRT, KERNEL_STACK_TOP_VIRT. lia.
  - intros o (r & -> & [L' Hesp Hcr2]). exists r. split; [done|].
    pose proof (stays_live_trans _ _ _ L L') as L2.
    split; rewrite ?(st_desc _ _ L2), ?Ed; try done; [apply L2|].
    apply (holds_live _ _ t1); [unfold KERNEL_HEAP_START; lia|done..].
Qed.
End high_stack.

(** C6: a store to the kernel heap goes through.  The store faults, the
    processor enters [isr_page_fault] through the interrupt table, the handler
    maps a page, the stub returns, and the store is executed again and is read
    back.  The interrupted code finds its registers, selectors, flags and return
    address, stack pointer, EBP and the interrupt flag as they were; memory that
    is not free differs only in the frame below the stack pointer, the screen
    and the tables, and every other page is mapped as before. *)
Theorem page_fault_resumes `{FrameAllocator} lo hi d cx va v s :
  paging_wf s → fa_inv s → console_ok s →
  KERNEL_HEAP_START <= va < KERNEL_HEAP_END → va mod 4096 <= 4092 →
  resolve (hw s) va = None → frames_for s va → stack_ready lo hi d s →
  context_ok cx → if_set (cx_eflags cx) = iflag (hw s) → 0 <= ebp (hw s) < 2 ^ 32 →
  idt (desc s) !! 14%nat = Some (gate_entry (sym_isr_page_fault (syms s)) 0x08 0x8E) →
  0 <= sym_isr_page_fault (syms s) < 2 ^ 32 →
  ∃ i s', retry cx ERROR_WRITE (store32 va v) s = Ok tt s' ∧
    load32 va s' = Ok (u32 v) s' ∧ resumed s va i (frame_bytes hi d) s'.
Proof. intros. by apply (retry_heap_store lo). Qed.

(** The overflow resets the machine.  With the tables as the kernel sets
    them up, the fault in the guard page cannot be delivered: the stack pointer
    itself is in the guard page.  The double fault that follows is routed to a
    task whose descriptor [ltr] has marked busy, so it cannot be delivered
    either; the handler that was written for this never runs. *)
Theorem stack_overflow_resets cx frame_size depth s :
  stack_live s → 512 <= frame_size <= 4092 → - 2 ^ 31 < depth < 2 ^ 31 - 128 →
  KERNEL_STACK_BOTTOM_VIRT + 4096 <= esp (hw s) <= KERNEL_STACK_TOP_VIRT →
  idt (desc s) !! 14%nat = Some (gate_entry (sym_isr_page_fault (syms s)) 0x08 0x8E) →
  0 <= sym_isr_page_fault (syms s) < 2 ^ 32 → task_busy (desc s) →
  ∃ r, test_stack_overflow (retry cx ERROR_WRITE) 128 frame_size depth s = Undef (UbReset r) ∧
    overflowed s r.
Proof.
  intros Hl Hfs Hd Hsp Hgate Hisr Hbusy.
  exact (overflow_resets cx frame_size depth s Hl Hfs Hd Hsp Hgate Hisr Hbusy).
Qed.

(** C37: enabling interrupts resets the machine.  From every machine the boot
    loader may leave, interrupts off, [kernel_setup] returns with tables in which
    no device can be served: as long as interrupts stay off a device's request
    waits and the kernel goes on, but after the [sti] that [high_stack_entry] has
    commented out the first request - the timer's comes as vector 8 - finds a
    gate to the busy task or none at all; the exception that follows has no gate,
    and neither has the double fault.  Only vector 14 leads anywhere. *)
Theorem enabling_interrupts_resets s n :
  boot_ok s n → iflag (hw s) = false →
  ∃ t, kernel_setup s = Ok tt t ∧
    ∀ v, 0 <= v < IDT_ENTRIES →
      device_request v t = Ok tt t ∧
      (v ≠ 14 → ∃ r, (sti;; device_request v) t = Undef (UbReset r)).
Proof.
  intros Hb Hoff. destruct (wp_run kernel_setup (λ _ t, kernel_up s (S n) t) s)
    as ([] & t & E & [_ _ _ Hi Hg _ _ Hf]); [apply (wp_kernel_setup s n); [done|by intros]|].
  exists t. split; [done|]. intros v Hv. split.
  - apply device_request_masked. by rewrite Hf.
  - intros H14. apply (device_request_served (sym_isr_page_fault (syms s))); [done| |done|done].
    by apply (tables_busy _ (sym_isr_page_fault (syms s)) (sym_tss_df (syms s))).
Qed.

Lemma kernel_run_resets cx frame_size s :
  boot_ok s 1 → context_ok cx → if_set (cx_eflags cx) = iflag (hw s) →
  0 <= ebp (hw s) < 2 ^ 32 → 512 <= frame_size <= 4092 →
  ∃ r, kernel_main (retry cx ERROR_WRITE) 128 frame_size s = Undef (UbReset r) ∧ overflow_end (syms s) r.
Proof.
  intros Hb Hcx Hif Hbp Hfs.
  destruct (wp_run kernel_setup (λ _ t, kernel_up s 2 t) s) as ([] & t & E & Hup).
  { apply (wp_kernel_setup s 1); [done|]. by intros. }
  unfold kernel_main, mbind, M_bind. rewrite E. unfold switch_to_high_stack, mbind, M_bind, modify.
  apply (high_stack_resets s); [apply Hb|done..|]. by apply on_stack_switch.
Qed.

(** The whole kernel run ends in a reset.  On the same machines, with one
    more frame, [kernel_main] comes up, switches to the high stack, recovers
    from the page fault of its first heap access, and runs its overflow test
    until the stack pointer is in the guard page; there the processor cannot
    deliver the fault, nor the double fault, and resets the machine. *)
Theorem kernel_main_resets cx frame_size s :
  boot_ok s 1 → context_ok cx → if_set (cx_eflags cx) = iflag (hw s) →
  0 <= ebp (hw s) < 2 ^ 32 → 512 <= frame_size <= 4092 →
  ∃ r, kernel_main (retry cx ERROR_WRITE) 128 frame_size s = Undef (UbReset r) ∧ overflow_end (syms s) r.
Proof. apply kernel_run_resets. Qed.

(** ** A machine that boots: the memory map of the boot log, the image of the
    linker script *)

Definition boot_machine : kstate := boot_state boot_e820 linked.

Lemma boot_machine_map :
  boot_map (mem (hw boot_machine)) = [Region 0 0x9FC00 1; Region 0x100000 0x7EE0000 1].
Proof. vm_compute. reflexivity. Qed.

Lemma boot_machine_top : boot_top (mem (hw boot_machine)) = 32736.
Proof. unfold boot_top. rewrite boot_machine_map. reflexivity. Qed.

Lemma boot_machine_frames i :
  i ∈ boot_frames (mem (hw boot_machine)) ↔ 0 <= i < 160 ∨ 256 <= i < 32736.
Proof.
  unfold boot_frames, visited. rewrite boot_machine_map, boot_machine_top.
  cbn [fmap list_fmap concat]. rewrite app_nil_r, elem_of_app. unfold region_frames.
  rewrite !list_elem_of_filter, !elem_of_zrange.
  change (region_first (Region 0 0x9FC00 1)) with 0.
  change (region_first (Region 0x100000 0x7EE0000 1)) with 256.
  change (region_pages (Region 0 0x9FC00 1)) with 160.
  change (region_pages (Region 0x100000 0x7EE0000 1)) with 32480. lia.
Qed.

Lemma boot_machine_nodup : NoDup (boot_frames (mem (hw boot_machine))).
Proof.
  unfold boot_frames, visited. rewrite boot_machine_map. cbn [fmap list_fmap concat].
  rewrite app_nil_r. apply NoDup_app. unfold region_frames.
  split_and!; [apply NoDup_filter, NoDup_zrange| |apply NoDup_filter, NoDup_zrange].
  intros i. rewrite !list_elem_of_filter, !elem_of_zrange.
  change (region_first (Region 0 0x9FC00 1)) with 0.
  change (region_first (Region 0x100000 0x7EE0000 1)) with 256.
  change (region_pages (Region 0 0x9FC00 1)) with 160. lia.
Qed.

Lemma boot_machine_count : 1024 <= zlen (boot_frames (mem (hw boot_machine))).
Proof.
  assert (zrange 256 1024 ⊆+ boot_frames (mem (hw boot_machine))) as Hl%submseteq_length.
  { apply NoDup_submseteq; [apply NoDup_zrange|]. intros i Hi%elem_of_zrange.
    apply boot_machine_frames. lia. }
  rewrite length_zrange in Hl. unfold zlen. lia.
Qed.

Lemma boot_machine_ok n : (n <= 100)%nat → boot_ok boot_machine n.
Proof.
  intros Hn. split.
  - apply ringbuf_zero_wf.
  - reflexivity.
  - split; reflexivity.
  - vm_compute. discriminate.
  - exact linked_ok.
  - split.
    + split; vm_compute; split; discriminate || reflexivity.
    + reflexivity.
    + vm_compute. discriminate.
    + reflexivity.
    + rewrite boot_machine_map. repeat constructor; vm_compute; discriminate.
    + exact boot_machine_nodup.
    + rewrite boot_machine_top. lia.
    + rewrite boot_machine_top. apply Forall_singleton. split; vm_compute; [split|]; discriminate.
    + vm_compute. discriminate.
    + rewrite boot_machine_top. reflexivity.
    + exists (zrange 256 (19 + n)).
      split_and!; [apply NoDup_zrange|apply length_zrange|].
      apply Forall_forall. intros i Hi%elem_of_zrange. pose proof boot_machine_count.
      split_and!; [lia|lia|apply boot_machine_frames; lia|lia|].
      cbn [kernel_ranges existsb boot_machine boot_state syms linked]. unfold in_range. cbn [fst snd].
      rewrite bool_decide_eq_false_2; [done|]. cbn. clear -Hi. zify_mod.
Qed.

Lemma kernel_setup_comes_up_witness :
  ∃ t, kernel_setup boot_machine = Ok tt t ∧ stack_live t ∧ avail t 1 ∧
    (∀ va, 0 <= va < 2 ^ 32 → ¬ in_stack va →
       resolve (hw t) va = if decide (va < LOW_END) then Some va else None) ∧
    idt (desc t) = idt_table (sym_isr_page_fault (syms boot_machine)) ∧
    gdt (desc t) = gdt_table (sym_tss_df (syms boot_machine)) ∧
    tss_cr3 (tss_df (desc t)) = page_directory ∧ task_busy (desc t) ∧
    iflag (hw t) = iflag (hw boot_machine).
Proof.
  refine (kernel_setup_comes_up boot_machine 0 (boot_machine_ok 0 _)).
  lia.
Defined.

(** The interrupted code, at an address of the image, with interrupts off. *)
Definition boot_context : context := Context (Regs 0 0 0 0 0 0 0x10 0x10 0x10 0x10) 0x2 0x08 0x10400.

Lemma boot_context_ok : context_ok boot_context.
Proof. split; repeat constructor; vm_compute; discriminate. Qed.

Lemma kernel_main_resets_witness :
  ∃ r, kernel_main (retry boot_context ERROR_WRITE) 128 600 boot_machine = Undef (UbReset r) ∧
    overflow_end linked r.
Proof.
  refine (kernel_main_resets boot_context 600 boot_machine (boot_machine_ok 1 _) boot_context_ok
    eq_refl _ _).
  - lia.
  - cbn. lia.
  - lia.
Defined.

(** The machine on its high stack. *)
Definition up_machine : kstate := on_hw (set_esp new_stack_ptr) (after kernel_setup boot_machine).

Lemma up_machine_ok n : (n <= 100)%nat → on_stack boot_machine (S n) up_machine.
Proof.
  intros Hn.
  destruct (wp_run kernel_setup (λ _ t, kernel_up boot_machine (S n) t) boot_machine) as ([] & t & E & Hup).
  { apply (wp_kernel_setup boot_machine n); [by apply boot_machine_ok|]. by intros. }
  unfold up_machine. rewrite (after_ok _ _ _ _ E). exact (on_stack_switch _ _ _ Hup).
Qed.

Lemma page_fault_resumes_witness :
  ∃ d i s', retry boot_context ERROR_WRITE (store32 0xC1001234 42) up_machine = Ok tt s' ∧
    load32 0xC1001234 s' = Ok (u32 42) s' ∧
    resumed up_machine 0xC1001234 i (frame_bytes new_stack_ptr d) s'.
Proof.
  destruct (up_machine_ok 1) as [Hup Hsp]; [clear; lia|]. pose proof Hup as [Hl Hav Hw _ _ _ Eb Ef].
  pose proof Hl as [Hwf Hinv Hok _ _]. destruct (kernel_up_gates boot_machine linked_ok 2 _ Hup) as (Hg & Hi & _).
  destruct (stack_live_ready _ Hl Hsp) as (d & Hready). exists d.
  refine (page_fault_resumes (new_stack_ptr - 68) new_stack_ptr d boot_context 0xC1001234 42 up_machine
    Hwf Hinv Hok _ _ _ (avail_frames_for _ _ Hav) Hready boot_context_ok _ _ Hg Hi).
  - clear. unfold KERNEL_HEAP_START, KERNEL_HEAP_END. lia.
  - vm_compute. discriminate.
  - rewrite Hw; [|clear; lia|clear; unfold in_stack, KERNEL_STACK_BOTTOM_VIRT, KERNEL_STACK_TOP_VIRT; lia].
    rewrite decide_False; [reflexivity|clear; unfold LOW_END; lia].
  - rewrite Ef. reflexivity.
  - rewrite Eb. clear. cbn. lia.
Defined.

Lemma stack_overflow_resets_witness :
  ∃ r, test_stack_overflow (retry boot_context ERROR_WRITE) 128 600 0 up_machine = Undef (UbReset r) ∧
    overflowed up_machine r.
Proof.
  destruct (up_machine_ok 1) as [Hup Hsp]; [clear; lia|]. pose proof Hup as [Hl _ _ _ _ _ _ _].
  destruct (kernel_up_gates boot_machine linked_ok 2 _ Hup) as (Hg & Hi & Hb).
  refine (stack_overflow_resets boot_context 600 0 up_machine Hl _ _ _ Hg Hi Hb).
  - clear. lia.
  - clear. lia.
  - rewrite Hsp. clear. unfold new_stack_ptr, KERNEL_STACK_BOTTOM_VIRT, KERNEL_STACK_TOP_VIRT. lia.
Defined.

Lemma enabling_interrupts_resets_witness :
  ∃ t, kernel_setup boot_machine = Ok tt t ∧
    ∀ v, 0 <= v < IDT_ENTRIES →
      device_request v t = Ok tt t ∧
      (v ≠ 14 → ∃ r, (sti;; device_request v) t = Undef (UbReset r)).
Proof.
  refine (enabling_interrupts_resets boot_machine 0 (boot_machine_ok 0 _) eq_refl).
  lia.
Defined.
