(* ===== verification/TlbFault.v ===== *)
(** * Page faults with a translation cache

    The stub, the handler and the delivery of a page fault, with the cache of
    [Tlb] free to move between their steps.  A fault finds no translation, and
    none is cached for a page that is not present; the handler only adds one, so
    the cache is coherent all the way ([deliver_coherent]). *)

From Stdlib Require Import ZArith Lia String.
From stdpp Require Import base gmap list relations.
From S2P Require Import Prelude RingBuf Format Descriptors Machine State Vga Printk Panik MemoryMap Frame Pmm PmmProps Paging PagingProps Arch PageFault Tlb Cpu.

(** ** The code with a cache *)

Definition map_fault_page_cached `{FrameAllocator} (fault_address : Z) (oom : M unit) : T unit :=
  new_frame ← cached fa_alloc;
  (if new_frame =? 0 then cached oom else mret tt);;
  paging_map_page_cached fault_address new_frame (Z.lor PAGE_PRESENT PAGE_WRITE).

Definition handle_fault_cached `{FrameAllocator} (frame esp ebp fault_address : Z) : T unit :=
  error_code ← cached (load32 (frame + frame_error_code));
  eip ← cached (load32 (frame + frame_eip));
  cached (printk (C "[PAGE FAULT] at address: 0x%x, error code: 0x%x [eip=0x%x, esp=0x%x, ebp=0x%x]\n")
    [AWord fault_address; AWord error_code; AWord eip; AWord esp; AWord ebp]);;
  if (KERNEL_HEAP_START <=? fault_address) && (fault_address <? KERNEL_HEAP_END) then
    cached (printk
      (C "[PAGE FAULT] Address within kernel heap region: allocating and mapping new page.\n") []);;
    map_fault_page_cached fault_address
      (panik (C "Out of memory: Unable to allocate frame for page fault at address 0x%x")
         [AWord fault_address])
  else
    grows ←
      (if (KERNEL_STACK_BOTTOM_VIRT + PAGE_SIZE <=? fault_address)
          && (fault_address <? KERNEL_STACK_TOP_VIRT) then
         sp ← cached (load32 (frame + frame_esp));
         mret ((u32 (sp - STACK_GROWTH_GAP) <=? fault_address) && (fault_address <? sp))
       else mret false);
    if (grows : bool) then
      sp ← cached (load32 (frame + frame_esp));
      cached (printk (C "[PF] Stack growth: mapping new stack page at 0x%x (esp=0x%x)\n")
        [AWord fault_address; AWord sp]);;
      map_fault_page_cached fault_address (panik (C "Out of memory in stack PF recovery") [])
    else cached (report_fault frame).

Definition page_fault_handler_cached `{FrameAllocator} (frame : Z) : T unit :=
  cached cli;;
  esp ← cached (gets (λ s, esp (hw s)));
  ebp ← cached (gets (λ s, ebp (hw s)));
  fault_address ← cached (gets (λ s, cr2 (hw s)));
  (if (KERNEL_STACK_BOTTOM_VIRT <=? fault_address)
      && (fault_address <? KERNEL_STACK_BOTTOM_VIRT + PAGE_SIZE) then cached guard_page_alarm
   else mret tt);;
  handle_fault_cached frame esp ebp fault_address.

Definition isr_page_fault_cached `{FrameAllocator} (r : regs) : T context :=
  frame ← cached (isr_page_fault_save r);
  page_fault_handler_cached frame;;
  r ← cached isr_page_fault_restore;
  cached (iret r).

Definition deliver_page_fault_cached `{FrameAllocator} (cx : context) (error : Z) : T context :=
  e ← cached (load_idt 14);
  match dispatch_of e with
  | Interrupt _ offset =>
      cached (delivering (push_all [cx_eflags cx; cx_cs cx; cx_eip cx; error]));;
      cached (modify (on_hw (set_iflag false)));;
      y ← cached (gets syms);
      if offset =? sym_isr_page_fault y then isr_page_fault_cached (cx_regs cx)
      else cached (undef UbCpu)
  | NotPresent => cached double_fault
  | _ => cached (undef UbCpu)
  end.

(** They run as without the cache. *)

#[local] Ltac lifts :=
  repeat (apply _ || (apply lifts_bind; [|intros]) || apply lifts_if).

Section lifts.
Context `{FrameAllocator}.

#[global] Instance map_fault_page_lifts va oom :
  Lifts (map_fault_page_cached va oom) (map_fault_page va oom).
Proof. unfold map_fault_page_cached, map_fault_page. lifts. Qed.

#[global] Instance handle_fault_lifts frame sp bp va :
  Lifts (handle_fault_cached frame sp bp va) (handle_fault frame sp bp va).
Proof. unfold handle_fault_cached, handle_fault. lifts. Qed.

#[global] Instance page_fault_handler_lifts frame :
  Lifts (page_fault_handler_cached frame) (page_fault_handler frame).
Proof. unfold page_fault_handler_cached, page_fault_handler. lifts. Qed.

#[global] Instance isr_page_fault_lifts r : Lifts (isr_page_fault_cached r) (isr_page_fault r).
Proof. unfold isr_page_fault_cached, isr_page_fault. lifts. Qed.

#[global] Instance deliver_page_fault_lifts cx error :
  Lifts (deliver_page_fault_cached cx error) (deliver_page_fault cx error).
Proof.
  unfold deliver_page_fault_cached, deliver_page_fault. apply lifts_bind; [apply _|]. intros e.
  destruct (dispatch_of e); lifts.
Qed.
End lifts.

(** ** What holds after every run *)

Definition wpc {A} (c : T A) (Q : A → tlb → kstate → Prop) (t : tlb) (s : kstate) : Prop :=
  ∀ a t' s', c (t, s) a (t', s') → Q a t' s'.

(** No translation differs. *)
Definition same_walks (s s' : kstate) : Prop :=
  ∀ va, 0 <= va < 2 ^ 32 → resolve (hw s') va = resolve (hw s) va.

#[global] Instance same_walks_preorder : PreOrder same_walks.
Proof. split; [done|]. intros s1 s2 s3 H12 H23 va Hva. by rewrite H23, H12. Qed.

(** A computation that writes neither memory nor the paging registers. *)
Definition reads_only {A} (m : M A) : Prop := ∀ s a s', m s = Ok a s' →
  mem (hw s') = mem (hw s) ∧ cr0 (hw s') = cr0 (hw s) ∧ cr3 (hw s') = cr3 (hw s).

Lemma reads_only_bind {A B} (m : M A) (f : A → M B) :
  reads_only m → (∀ a, reads_only (f a)) → reads_only (m ≫= f).
Proof.
  intros Hm Hf s b s''. unfold mbind, M_bind. destruct (m s) as [a s'|?|??|?] eqn:E; try done.
  intros E'. destruct (Hm _ _ _ E) as (<- & <- & <-). exact (Hf a _ _ _ E').
Qed.

Lemma reads_only_ret {A} (a : A) : reads_only (mret a).
Proof. intros s a' s' E. by injection E as _ <-. Qed.

Lemma reads_only_gets {A} (f : kstate → A) : reads_only (gets f).
Proof. intros s a s' E. by injection E as _ <-. Qed.

Lemma reads_only_on_hw f :
  (∀ h, mem (f h) = mem h ∧ cr0 (f h) = cr0 h ∧ cr3 (f h) = cr3 h) → reads_only (modify (on_hw f)).
Proof. intros Hf s a s' E. injection E as _ <-. apply Hf. Qed.

Lemma reads_only_sti : reads_only sti.
Proof. intros s a s' E. by injection E as _ <-. Qed.

Lemma load32_state va s v s' : load32 va s = Ok v s' → s' = s.
Proof. unfold load32, State.access. destruct (resolve _ _); [|done]. by intros [= _ ->]. Qed.

Lemma reads_only_load32 va : reads_only (load32 va).
Proof. by intros s v s' ->%load32_state. Qed.

Create HintDb reads_only.
#[export] Hint Resolve reads_only_bind reads_only_ret reads_only_gets reads_only_sti
  reads_only_load32 : reads_only.
#[export] Hint Extern 1 (reads_only (modify _)) => by apply reads_only_on_hw : reads_only.
#[export] Hint Extern 1 (∀ _, reads_only _) => intros ? : reads_only.

Lemma reads_only_pop : reads_only pop.
Proof. unfold pop. auto 10 with reads_only. Qed.

Lemma reads_only_add_esp n : reads_only (add_esp n).
Proof. unfold add_esp. auto 10 with reads_only. Qed.

#[export] Hint Resolve reads_only_pop reads_only_add_esp : reads_only.

Lemma reads_only_restore : reads_only isr_page_fault_restore.
Proof. unfold isr_page_fault_restore. auto 50 with reads_only. Qed.

Lemma reads_only_iret r : reads_only (iret r).
Proof. unfold iret. auto 10 with reads_only. Qed.

Lemma wpc_bind {A B} (c : T A) (f : A → T B) Q t s :
  wpc c (λ a t s, wpc (f a) Q t s) t s → wpc (c ≫= f) Q t s.
Proof. intros Hc b t' s' (a & [t1 s1] & R & R'). by apply (Hc _ _ _ R). Qed.

Lemma wpc_ret {A} (a : A) (Q : A → tlb → kstate → Prop) t s : Q a t s → wpc (mret a) Q t s.
Proof. by intros HQ a' t' s' (-> & [= -> ->]). Qed.

(** A step that keeps the translations keeps the cache coherent. *)
Lemma wpc_cached {A} (m : M A) (Q : A → tlb → kstate → Prop) t s :
  coherent t s →
  (∀ a s', m s = Ok a s' → same_walks s s' ∧ ∀ t', coherent t' s' → Q a t' s') →
  wpc (cached m) Q t s.
Proof.
  intros Hc Hm a t' s' R. destruct (Hm a s' (cached_ok _ _ _ _ _ _ R)) as [Hw HQ]. apply HQ.
  eapply cached_coherent; [exact R| |exact Hc]. intros p Hp _. apply Hw. lia.
Qed.

Lemma wpc_post {A} (c : T A) (Q Q' : A → tlb → kstate → Prop) t s :
  wpc c Q t s → (∀ a t s, Q a t s → Q' a t s) → wpc c Q' t s.
Proof. intros Hc HQ a t' s' R. by apply HQ, Hc. Qed.

(** The same, from a specification of the step. *)
Lemma wpc_cached_wp {A} (m : M A) (Q : A → tlb → kstate → Prop) P t s :
  coherent t s → wp m (λ a s', same_walks s s' ∧ ∀ t', coherent t' s' → Q a t' s') P s →
  wpc (cached m) Q t s.
Proof. intros Hc Hm. apply wpc_cached; [done|]. intros a s' E. unfold wp in Hm. by rewrite E in Hm. Qed.

Lemma wpc_reads_only {A} (m : M A) (Q : A → tlb → kstate → Prop) t s :
  coherent t s → reads_only m →
  (∀ a t' s', mem (hw s') = mem (hw s) → cr0 (hw s') = cr0 (hw s) → cr3 (hw s') = cr3 (hw s) →
    coherent t' s' → Q a t' s') →
  wpc (cached m) Q t s.
Proof.
  intros Hc Hm HQ. apply wpc_cached; [done|]. intros a s' E. destruct (Hm _ _ _ E) as (Em & E0 & E3).
  split; [|by auto]. intros va _. by apply resolve_agree.
Qed.

Lemma wpc_load32 va (Q : Z → tlb → kstate → Prop) t s :
  coherent t s → (∀ v t', coherent t' s → Q v t' s) → wpc (cached (load32 va)) Q t s.
Proof.
  intros Hc HQ. apply wpc_cached; [done|]. intros v s' ->%load32_state. split; [done|]. by auto.
Qed.

Lemma wpc_gets {A} (f : kstate → A) (Q : A → tlb → kstate → Prop) t s :
  coherent t s → (∀ t', coherent t' s → Q (f s) t' s) → wpc (cached (gets f)) Q t s.
Proof. intros Hc HQ. apply wpc_cached; [done|]. intros v s' [= <- <-]. by split. Qed.

(** ** The cache stays coherent while a heap fault is handled *)

Definition stays {A} (a : A) (t : tlb) (s : kstate) : Prop := coherent t s.

Section coherent.
Context `{FrameAllocator}.

Lemma gave_frame_walks s i s1 : paging_wf s → gave_frame s i s1 → same_walks s s1.
Proof.
  intros Hwf Hg va Hva. pose proof (mf_paging _ _ (gave_frame_map_frame s i s1 Hwf Hg)).
  destruct Hg as (_ & _ & _ & _ & F & _). rewrite !paging_resolve by done.
  by apply (frame_walk _ spares_console s s1 Hwf (kframe_same _ _ _ F)).
Qed.

Lemma map_fault_page_coherent s va oom t :
  paging_wf s → fa_inv s → console_ok s → LOW_END <= va < 2 ^ 32 → frames_for s va →
  coherent t s → wpc (map_fault_page_cached va oom) stays t s.
Proof.
  intros Hwf Hinv Hok Hva (f & Hf & Htab) Hc. unfold map_fault_page_cached. apply wpc_bind.
  destruct (fa_alloc_run s Hinv Hok) as (p & s1 & E & [(i & -> & Hg)|(-> & Hnone & _)]);
    [|by apply Hnone in Hf].
  apply wpc_cached; [done|]. intros a s' E'. rewrite E in E'. injection E' as <- <-.
  split; [by apply (gave_frame_walks s i)|]. intros t1 Hc1.
  pose proof Hg as (Hi & Hmin & Hinv1 & Hok1 & F1 & Hfree1).
  pose proof (fa_free_high s i Hinv Hi) as Hhi. pose proof (Hmin f Hf) as Hif.
  destruct (Z.eqb_spec (4096 * i) 0); [lia|]. apply wpc_bind, wpc_ret.
  pose proof (mf_paging _ _ (gave_frame_map_frame s i s1 Hwf Hg)) as Hwf1.
  intros u t' s' R. destruct (map_cached_run t1 s1 va (4096 * i) (Z.lor PAGE_PRESENT PAGE_WRITE) u t' s' Hwf1 Hinv1 Hok1 Hva)
    as (_ & _ & ?); [lia| |exact Hc1|exact R|done].
  destruct Htab as [Hp|(j & Hj & Hlt)].
  - left. unfold pde_present. pose proof (va_index va Hva).
    rewrite (frame_pde _ spares_console s s1 (kframe_same _ _ _ F1)) by lia. exact Hp.
  - right. exists j. split; [|lia]. apply Hfree1. split; [done|lia].
Qed.

(** Printing, and what it leaves for the pager. *)
Lemma wpc_printk fmt args (Q : Z → tlb → kstate → Prop) t s :
  paging_wf s → fa_inv s → console_ok s → coherent t s → message_ok fmt args = true →
  (∀ n t' s', paging_wf s' → fa_inv s' → console_ok s' → coherent t' s' →
    (∀ i, fa_free s' i ↔ fa_free s i) → (∀ k, 0 <= k < 1024 → pde s' k = pde s k) → Q n t' s') →
  wpc (cached (printk fmt args)) Q t s.
Proof.
  intros Hwf Hinv Hok Hc Hmsg HQ. apply (wpc_cached_wp _ _ no_halt); [done|].
  apply wp_printk; [done..|]. intros n s1 Hok1 F1.
  destruct (console_pager s s1 Hwf Hinv F1) as (? & ? & ? & ? & Hres).
  split; [exact Hres|]. intros t' Hc'. by apply HQ.
Qed.

Lemma handler_coherent frame s va t :
  paging_wf s → fa_inv s → console_ok s → cr2 (hw s) = va →
  KERNEL_HEAP_START <= va < KERNEL_HEAP_END → frames_for s va → coherent t s →
  wpc (page_fault_handler_cached frame) stays t s.
Proof.
  intros Hwf Hinv Hok Hcr2 Hva Hfr Hc. unfold page_fault_handler_cached.
  destruct (harmless_change s (interrupts_off s) Hwf Hinv (interrupts_off_same s) eq_refl)
    as (Hwf0 & Hinv0 & Hf0 & Hp0 & Hres0).
  pose proof (interrupts_off_console s Hok) as Hok0.
  apply wpc_bind, wpc_cached; [done|]. intros u s' E. injection E as _ <-. fold (interrupts_off s).
  split; [exact Hres0|]. intros t1 Hc1.
  do 3 (apply wpc_bind, wpc_gets; [done|]; clear dependent t1; intros t1 Hc1).
  change (cr2 (hw (interrupts_off s))) with (cr2 (hw s)). rewrite Hcr2.
  destruct (Z.leb_spec KERNEL_STACK_BOTTOM_VIRT va) as [Hb|_];
    [unfold KERNEL_STACK_BOTTOM_VIRT, KERNEL_STACK_TOP_VIRT, KERNEL_HEAP_END in *; lia|].
  cbn [andb]. apply wpc_bind, wpc_ret. unfold handle_fault_cached.
  do 2 (apply wpc_bind, wpc_load32; [done|]; clear Hc1 t1; intros ? t1 Hc1).
  apply wpc_bind, wpc_printk; [done..|]. intros _ t2 s2 Hwf2 Hinv2 Hok2 Hc2 Hf2 Hp2.
  destruct (Z.leb_spec KERNEL_HEAP_START va), (Z.ltb_spec va KERNEL_HEAP_END);
    unfold KERNEL_HEAP_START, KERNEL_HEAP_END in *; try lia. cbn [andb].
  apply wpc_bind, wpc_printk; [done..|]. intros _ t3 s3 Hwf3 Hinv3 Hok3 Hc3 Hf3 Hp3.
  apply map_fault_page_coherent; [done..|unfold LOW_END; lia| |done].
  apply (frames_for_same s2); [done|done|lia|].
  apply (frames_for_same (interrupts_off s)); [done|done|lia|].
  by apply (frames_for_same s); [| |lia|].
Qed.

(** What the processor pushes changes no translation. *)
Lemma pushed_walks lo hi d ws s s1 :
  paging_wf s → fa_inv s → stack_ready lo hi d s → pushed d s ws s1 → lo <= esp (hw s1) →
  same_walks s s1.
Proof.
  intros Hwf Hinv Hs Hp Hlo. destruct (pu_rest _ _ _ _ Hp) as (Ep & _).
  destruct (idle_change s s1 Hwf Hinv) as (_ & _ & _ & _ & Hres); [|done|exact Hres].
  apply (stack_ready_idle lo hi d); [done| |apply (pu_cr0 _ _ _ _ Hp)|apply (pu_cr3 _ _ _ _ Hp)].
  intros a Ha. apply (pu_mem _ _ _ _ Hp). rewrite (sr_esp _ _ _ _ Hs). lia.
Qed.

Section deliver.
Context (lo hi d : Z) (cx : context) (error va : Z) (s : kstate).
Context (Hwf : paging_wf s) (Hinv : fa_inv s) (Hok : console_ok s).
Context (Hcr2 : cr2 (hw s) = va) (Hva : KERNEL_HEAP_START <= va < KERNEL_HEAP_END).
Context (Hfr : frames_for s va) (Hstack : stack_ready lo hi d s).

(** From the saved frame on. *)
Lemma isr_rest_coherent s1 t :
  pushed d (on_hw (set_iflag false) s) (all_words cx error s) s1 → coherent t s1 →
  wpc (page_fault_handler_cached (esp (hw s) - 64);;
       r ← cached isr_page_fault_restore; cached (iret r)) stays t s1.
Proof using All.
  intros Hp Hc.
  destruct (saved_change lo hi d (all_words cx error s) s s1) as (Hwf1 & Hinv1 & Hok1 & Hf1 & Hpde1 & _ & _);
    [done..|].
  assert (0 <= va < 2 ^ 32) as Hva' by (unfold KERNEL_HEAP_START, KERNEL_HEAP_END in Hva; lia).
  apply wpc_bind. eapply wpc_post.
  { apply (handler_coherent _ s1 va); [done|done|done|by rewrite (pu_cr2 _ _ _ _ Hp)|done| |done].
    by apply (frames_for_same s). }
  intros u t2 s2 Hc2. apply wpc_bind, wpc_reads_only; [done|apply reads_only_restore|].
  intros r t3 s3 _ _ _ Hc3. apply wpc_reads_only; [done|apply reads_only_iret|]. by intros.
Qed.

Lemma deliver_coherent t :
  idt (desc s) !! 14%nat = Some (gate_entry (sym_isr_page_fault (syms s)) 0x08 0x8E) →
  0 <= sym_isr_page_fault (syms s) < 2 ^ 32 → coherent t s →
  wpc (deliver_page_fault_cached cx error) stays t s.
Proof using All.
  intros Hgate Hisr Hc. destruct (sr_range _ _ _ _ Hstack) as (? & ? & ?).
  pose proof (sr_esp _ _ _ _ Hstack) as Esp.
  pose proof (stack_ready_maps lo hi d s Hwf Hinv Hstack) as Hmaps.
  unfold deliver_page_fault_cached. apply wpc_bind, (wpc_cached_wp _ _ no_halt); [done|].
  apply (wp_load_idt 14 _ s _ _ ltac:(lia) Hgate). split; [done|]. intros t1 Hc1.
  rewrite dispatch_isr by done. apply wpc_bind, (wpc_cached_wp _ _ no_halt); [done|].
  apply wp_delivering, (wp_push_all lo hi d); [done|lia|lia|unfold zlen; simpl; lia|]. intros s1 HP1.
  assert (esp (hw s1) = esp (hw s) - 16) as E1 by (rewrite (pu_esp _ _ _ _ HP1); unfold zlen; simpl; lia).
  pose proof (pushed_maps lo hi d s _ s1 Hmaps HP1 ltac:(lia) ltac:(lia)) as Hmaps1.
  pose proof (pushed_walks lo hi d _ s s1 Hwf Hinv Hstack HP1 ltac:(lia)) as Hw1.
  split; [exact Hw1|]. clear dependent t1. intros t1 Hc1.
  apply wpc_bind, wpc_cached; [done|]. intros u s' E. injection E as _ <-.
  split; [intros a _; by apply resolve_agree|]. clear dependent t1. intros t1 Hc1.
  apply wpc_bind, wpc_gets; [done|]. clear dependent t1. intros t1 Hc1. cbn [syms on_hw].
  destruct (pu_rest _ _ _ _ HP1) as (_ & _ & _ & _ & ->).
  rewrite Z.eqb_refl. unfold isr_page_fault_cached. apply wpc_bind, (wpc_cached_wp _ _ no_halt); [done|].
  apply (wp_isr_save lo hi d); [by apply (stack_maps_pushed _ _ _ s1)|lia|lia|cbn; lia|].
  intros s2 HP2. cbn [hw on_hw set_iflag esp ebp] in HP2 |- *.
  replace (esp (hw s1) - 48) with (esp (hw s) - 64) by lia.
  assert (pushed d (on_hw (set_iflag false) s) (all_words cx error s) s2) as HP.
  { apply (pushed_frame _ _ _ _ _ _ _ s1); [done|]. destruct HP2. by split. }
  destruct (saved_change lo hi d (all_words cx error s) s s2) as (_ & _ & _ & _ & _ & Hres & _); [done..|].
  split; [|intros t2 Hc2; by apply isr_rest_coherent].
  intros a Ha. rewrite Hres, <- Hw1 by done. symmetry. by apply resolve_agree.
Qed.
End deliver.
End coherent.
