(* ===== verification/Heap.v ===== *)
(** * The demand-paged heap is memory

    The kernel heap of [pmm.h] has no page mapped at boot; pages appear when
    they are touched.  Seen from the code that uses it, it is a flat memory:
    any program that stores and loads in it behaves as on a flat memory,
    whatever faults on the way. *)

From Stdlib Require Import ZArith Lia String.
From stdpp Require Import base gmap list.
From S2P Require Import Prelude RingBuf Format Descriptors Machine State Vga Printk Panik MemoryMap Frame Pmm PmmProps Paging PagingProps Arch PageFault Cpu Kernel Boot.

(** ** Programs that use the heap, on the kernel and on a flat memory *)

Inductive heap_prog (A : Type) :=
  | HRet (a : A)
  | HLoad (va : Z) (k : Z → heap_prog A)
  | HStore (va v : Z) (p : heap_prog A).
Arguments HRet {A} a.
Arguments HLoad {A} va k.
Arguments HStore {A} va v p.

Fixpoint heap_run `{FrameAllocator} {A} (cx : context) (p : heap_prog A) : M A :=
  match p with
  | HRet a => mret a
  | HLoad va k => v ← retry cx ERROR_READ (load32 va); heap_run cx (k v)
  | HStore va v p => retry cx ERROR_WRITE (store32 va v);; heap_run cx p
  end.

Definition heap_word (va : Z) : Prop := KERNEL_HEAP_START <= va < KERNEL_HEAP_END ∧ va mod 4 = 0.

#[global] Instance heap_word_dec va : Decision (heap_word va).
Proof. unfold heap_word. apply _. Defined.

(** Some word of the page is written. *)
Definition touched (h : gmap Z Z) (va : Z) : bool :=
  existsb (λ w, w.1 / 4096 =? va / 4096) (map_to_list h).

(** The program on a flat memory: its result, the memory it leaves and the
    number of pages it writes to for the first time.  Words that were never
    written have no value. *)
Fixpoint flat_run {A} (p : heap_prog A) (h : gmap Z Z) : option (A * gmap Z Z * nat) :=
  match p with
  | HRet a => Some (a, h, O)
  | HLoad va k => v ← h !! va; flat_run (k v) h
  | HStore va v p =>
      if decide (heap_word va) then
        '(a, h', n) ← flat_run p (<[va := u32 v]> h);
        Some (a, h', if touched h va then n else S n)
      else None
  end.

Section heap.
Context `{FrameAllocator} (lo hi d : Z) (cx : context).

(** ** The invariant *)

Record heap_ready (s : kstate) : Prop := {
  hr_paging : paging_wf s;
  hr_inv : fa_inv s;
  hr_console : console_ok s;
  hr_stack : stack_ready lo hi d s;
  hr_data : ∀ va pa, KERNEL_HEAP_START <= va < KERNEL_HEAP_END → resolve (hw s) va = Some pa →
    data_byte s pa;
  hr_inj : ∀ va va' pa pa', KERNEL_HEAP_START <= va < KERNEL_HEAP_END →
    KERNEL_HEAP_START <= va' < KERNEL_HEAP_END → resolve (hw s) va = Some pa →
    resolve (hw s) va' = Some pa' → pa / 4096 = pa' / 4096 → va / 4096 = va' / 4096;
  hr_apart : ∀ va pa a, KERNEL_HEAP_START <= va < KERNEL_HEAP_END → resolve (hw s) va = Some pa →
    lo <= a < hi → pa / 4096 ≠ (a + d) / 4096;
  hr_gate : idt (desc s) !! 14%nat = Some (gate_entry (sym_isr_page_fault (syms s)) 0x08 0x8E);
  hr_isr : 0 <= sym_isr_page_fault (syms s) < 2 ^ 32;
  hr_flags : if_set (cx_eflags cx) = iflag (hw s);
  hr_ebp : 0 <= ebp (hw s) < 2 ^ 32;
}.

(** The words of [h] are in the heap. *)
Definition holds (s : kstate) (h : gmap Z Z) : Prop :=
  ∀ va v, h !! va = Some v → heap_word va ∧ ∃ pa, resolve (hw s) va = Some pa ∧ rd32 (mem (hw s)) pa = v.

Lemma resolve_low_bits s va pa :
  paging_wf s → resolve (hw s) va = Some pa → pa mod 4096 = va mod 4096.
Proof.
  intros Hwf. rewrite paging_resolve by done. unfold walk.
  destruct (pde_present _ _); [|done]. destruct (Z.testbit _ 0); [|done].
  intros E. injection E as <-. zify_mod.
Qed.

(** A word lies in one frame. *)
Lemma word_frame s va pa b :
  paging_wf s → heap_word va → resolve (hw s) va = Some pa → pa <= b < pa + 4 → b / 4096 = pa / 4096.
Proof.
  intros Hwf [_ Hal] E Hb. pose proof (resolve_low_bits s va pa Hwf E) as El.
  clear -Hal El Hb. zify_mod.
Qed.

(** Neighbours in a mapped word. *)
Lemma word_resolve s va pa k :
  paging_wf s → heap_word va → resolve (hw s) va = Some pa → 0 <= k < 4 →
  KERNEL_HEAP_START <= va + k < KERNEL_HEAP_END ∧ resolve (hw s) (va + k) = Some (pa + k).
Proof.
  intros Hwf [Hr Hal] E Hk. unfold KERNEL_HEAP_START, KERNEL_HEAP_END in *.
  split; [clear -Hr Hal Hk; zify_mod|].
  rewrite (resolve_offset s va (va + k) pa); [f_equal; lia|done|lia|clear -Hal Hk; zify_mod|done].
Qed.

(** Words at different addresses do not overlap. *)
Lemma words_apart s va va' pa pa' :
  heap_ready s → heap_word va → heap_word va' → va ≠ va' →
  resolve (hw s) va = Some pa → resolve (hw s) va' = Some pa' → pa + 4 <= pa' ∨ pa' + 4 <= pa.
Proof.
  intros Hs [Hr Hal] [Hr' Hal'] Hne E E'. pose proof (hr_paging s Hs) as Hwf.
  pose proof (resolve_low_bits s va pa Hwf E). pose proof (resolve_low_bits s va' pa' Hwf E').
  pose proof (hr_inj s Hs va va' pa pa' Hr Hr' E E') as Hinj.
  destruct (decide (pa / 4096 = pa' / 4096)) as [Ef|Ef].
  - specialize (Hinj Ef). clear -Hal Hal' Hne Hinj Ef H0 H1. zify_mod.
  - clear -Hal Hal' Ef H0 H1. zify_mod.
Qed.

(** A change of the contents of pages keeps all of it. *)
Lemma heap_ready_idle s s' :
  heap_ready s → same_but (idle s) s s' → pmm s' = pmm s → log s' = log s → vga s' = vga s →
  desc s' = desc s → syms s' = syms s → esp (hw s') = esp (hw s) → ebp (hw s') = ebp (hw s) →
  iflag (hw s') = iflag (hw s) →
  heap_ready s' ∧ (∀ i, fa_free s' i ↔ fa_free s i) ∧
  ∀ va, 0 <= va < 2 ^ 32 → resolve (hw s') va = resolve (hw s) va.
Proof.
  intros [Hwf Hinv Hok Hst Hd Hj Ha Hg Hi Hf Hb] F Ep El Ev Ed Ey Es Eb Ei.
  destruct (idle_change s s' Hwf Hinv F Ep) as (Hwf' & Hinv' & Hfree & Hpde & Hres).
  assert (∀ va, KERNEL_HEAP_START <= va < KERNEL_HEAP_END → resolve (hw s') va = resolve (hw s) va) as Hheap.
  { intros va Hva. apply Hres. unfold KERNEL_HEAP_START, KERNEL_HEAP_END in Hva. lia. }
  split_and!; [|done|done]. split.
  - done.
  - done.
  - by apply (idle_console s).
  - destruct Hst as [Hr Hsp Hm Hid]. split; [done|by rewrite Es| |].
    + intros a Ha'. rewrite Hres by lia. by apply Hm.
    + intros a Ha'. destruct (Hid a Ha'). split; [by apply (idle_same s)|done].
  - intros va pa Hva. rewrite Hheap by done. intros E. pose proof (Hd va pa Hva E) as Hdb.
    destruct (idle_same s s' pa Hfree Hpde (or_intror Hdb)) as [Hlo|]; [|done]. destruct Hdb. lia.
  - intros va va' pa pa' Hva Hva'. rewrite !Hheap by done. by apply Hj.
  - intros va pa a Hva. rewrite Hheap by done. by apply Ha.
  - by rewrite Ed, Ey.
  - by rewrite Ey.
  - by rewrite Ei.
  - by rewrite Eb.
Qed.

(** ** A store to a mapped page *)

Definition word_stored (pa v : Z) (s : kstate) : kstate := upd_mem (λ m, wr32 m pa v) s.

Lemma store_mapped s h va v pa :
  heap_ready s → holds s h → heap_word va → resolve (hw s) va = Some pa →
  heap_ready (word_stored pa v s) ∧ holds (word_stored pa v s) (<[va := u32 v]> h) ∧
  (∀ i, fa_free (word_stored pa v s) i ↔ fa_free s i) ∧
  ∀ va', 0 <= va' < 2 ^ 32 → resolve (hw (word_stored pa v s)) va' = resolve (hw s) va'.
Proof.
  intros Hs Hh Hva E. set (s' := word_stored pa v s). pose proof (hr_paging s Hs) as Hwf.
  assert (same_but (idle s) s s') as F.
  { split; [|done..]. intros a Ha. apply rd8_wr32_ne.
    destruct (decide (pa <= a < pa + 4)) as [Hin|]; [|lia]. destruct Ha. right.
    destruct (word_resolve s va pa (a - pa) Hwf Hva E) as [Hr Er]; [lia|].
    replace (pa + (a - pa)) with a in Er by lia. by apply (hr_data s Hs _ _ Hr). }
  destruct (heap_ready_idle s s' Hs F) as (Hs' & Hfree & Hres); [done..|].
  split_and!; [done| |done|done].
  assert (∀ w, heap_word w → resolve (hw s') w = resolve (hw s) w) as Hheap.
  { intros w [Hw _]. apply Hres. unfold KERNEL_HEAP_START, KERNEL_HEAP_END in Hw. lia. }
  intros w x. rewrite lookup_insert. case_decide as Ew.
  - intros [= <-]. subst w. split; [done|]. exists pa. rewrite Hheap by done.
    split; [done|]. apply rd32_wr32_eq.
  - intros Hx. destruct (Hh w x Hx) as (Hw & pw & Ep & Er). split; [done|]. exists pw.
    rewrite Hheap by done. split; [done|]. rewrite <- Er. apply rd32_wr32_ne.
    destruct (words_apart s va w pa pw) as [?|?]; [done..|lia|lia].
Qed.

(** ** A store that faults *)

Context (Hcx : context_ok cx).

Section faulting.
Context (s s' : kstate) (va i : Z) (Hs : heap_ready s) (Hva : heap_word va).
Context (Hnone : resolve (hw s) va = None) (Hrs : resumed s va i (frame_bytes hi d) s').

Lemma faulting_frame : 256 <= i.
Proof using Hs Hrs. pose proof (fa_free_high s i (hr_inv s Hs) (rs_free _ _ _ _ _ Hrs)). lia. Qed.

Lemma faulting_old w pw :
  0 <= w < 2 ^ 32 → resolve (hw s) w = Some pw → resolve (hw s') w = Some pw.
Proof using Hs Hnone Hrs.
  intros Hw E. rewrite (rs_walk _ _ _ _ _ Hrs) by done. rewrite decide_False; [done|]. intros Epage.
  rewrite (resolve_page (hw s) va w) in E; [done|apply (pg_on s (hr_paging s Hs))|done|done].
Qed.

(** A mapped page of the heap is the new one or an old one. *)
Lemma faulting_case w pw :
  KERNEL_HEAP_START <= w < KERNEL_HEAP_END → resolve (hw s') w = Some pw →
  (w / 4096 = va / 4096 ∧ pw / 4096 = i) ∨ resolve (hw s) w = Some pw.
Proof using Hrs.
  intros Hw. rewrite (rs_walk _ _ _ _ _ Hrs) by (unfold KERNEL_HEAP_START, KERNEL_HEAP_END in Hw; lia).
  case_decide; [|by right]. intros [= <-]. left. split; [done|]. clear. zify_mod.
Qed.

Lemma faulting_new pw : pw / 4096 = i → data_byte s' pw.
Proof using Hs Hrs.
  intros Ei. unfold data_byte. rewrite Ei. pose proof faulting_frame as Hhi.
  split_and!; [clear -Ei Hhi; zify_mod|apply Hrs|apply Hrs].
Qed.

(** An old page is not in the new frame, which was free. *)
Lemma faulting_apart pw : data_byte s pw → pw / 4096 ≠ i.
Proof using Hrs. intros (_ & Hu & _) E. apply Hu. rewrite E. apply Hrs. Qed.

Lemma faulting_ready : heap_ready s'.
Proof using Hs Hnone Hrs.
  pose proof Hs as [Hwf Hinv Hok Hst Hd Hj Ha Hg Hi Hf Hb].
  pose proof (rs_rest _ _ _ _ _ Hrs) as [Ed Ey]. split; try apply Hrs.
  - destruct Hst as [Hr Hsp Hm Hid]. split; [done|by rewrite (rs_esp _ _ _ _ _ Hrs)| |].
    + intros a Ha'. apply faulting_old; [lia|by apply Hm].
    + intros a Ha'. destruct (Hid a Ha'). split; [by apply (rs_idle _ _ _ _ _ Hrs)|done].
  - intros w pw Hw E. destruct (faulting_case w pw Hw E) as [[_ Ei]|E0]; [by apply faulting_new|].
    pose proof (Hd w pw Hw E0) as Hdb.
    destruct (rs_idle _ _ _ _ _ Hrs pw (or_intror Hdb)) as [Hlo|]; [|done]. destruct Hdb. lia.
  - intros w w' pw pw' Hw Hw' E E' Ef.
    destruct (faulting_case w pw Hw E) as [[Ep Ei]|E0], (faulting_case w' pw' Hw' E') as [[Ep' Ei']|E0'].
    + congruence.
    + destruct (faulting_apart pw'); [by apply (Hd w')|congruence].
    + destruct (faulting_apart pw); [by apply (Hd w)|congruence].
    + by apply (Hj w w' pw pw').
  - intros w pw a Hw E Hra. destruct (faulting_case w pw Hw E) as [[_ Ei]|E0]; [|by apply (Ha w)].
    rewrite Ei. intros Ea. destruct (sr_idle _ _ _ _ Hst a Hra) as [[[Hlo _]|Hdb] _].
    + pose proof faulting_frame as Hhi. clear -Ea Hlo Hhi. zify_mod.
    + by apply (faulting_apart (a + d)).
  - by rewrite Ed, Ey.
  - by rewrite Ey.
  - by rewrite (rs_iflag _ _ _ _ _ Hrs).
  - by rewrite (rs_ebp _ _ _ _ _ Hrs).
Qed.

(** The words stored before are where they were. *)
Lemma faulting_holds w x :
  heap_word w → (∃ pw, resolve (hw s) w = Some pw ∧ rd32 (mem (hw s)) pw = x) →
  ∃ pw, resolve (hw s') w = Some pw ∧ rd32 (mem (hw s')) pw = x.
Proof using Hs Hnone Hrs.
  intros Hw (pw & E & <-). pose proof (hr_paging s Hs) as Hwf. exists pw.
  split; [apply faulting_old; [|done]; destruct Hw as [Hw _]; unfold KERNEL_HEAP_START, KERNEL_HEAP_END in Hw; lia|].
  apply rd32_agree. intros b Hb.
  destruct (word_resolve s w pw (b - pw) Hwf Hw E) as [Hr Er]; [lia|].
  replace (pw + (b - pw)) with b in Er by lia. pose proof (hr_data s Hs _ _ Hr Er) as Hdb.
  apply (rs_kept _ _ _ _ _ Hrs); [by right| |].
  - destruct Hdb as [Hlo _]. unfold harmless, in_screen, VGA_ADDRESS, VGA_SIZE, VGA_WIDTH, VGA_HEIGHT. lia.
  - intros Hfb. unfold frame_bytes in Hfb. destruct (sr_range _ _ _ _ (hr_stack s Hs)) as (_ & ? & _).
    apply (hr_apart s Hs _ _ (b - d) Hr Er); [lia|]. by replace (b - d + d) with b by lia.
Qed.
End faulting.

Lemma store_faulting s h va v n :
  heap_ready s → holds s h → heap_word va → resolve (hw s) va = None → avail s (S (S n)) →
  ∃ s', retry cx ERROR_WRITE (store32 va v) s = Ok tt s' ∧ heap_ready s' ∧
    holds s' (<[va := u32 v]> h) ∧ avail s' n.
Proof.
  intros Hs Hh Hva Hnone Hav. pose proof Hs as [Hwf Hinv Hok Hst Hd Hj Ha Hg Hi Hf Hb].
  pose proof Hva as [Hr Hal].
  destruct (retry_heap_store lo hi d cx va v s) as (i & s' & E & El & Hrs); try done.
  { clear -Hal. zify_mod. }
  { apply avail_frames_for. by apply (avail_mono _ (S (S n))); [lia|]. }
  exists s'. split_and!; [done|by apply (faulting_ready s s' va i)| |].
  - intros w x. rewrite lookup_insert. case_decide as Ew.
    + intros [= <-]. subst w. split; [done|]. revert El. unfold load32, State.access.
      destruct (resolve (hw s') va) as [pw|]; [|done]. intros [= Er]. by exists pw.
    + intros Hx. destruct (Hh w x Hx) as (Hw & Hex). split; [done|].
      by apply (faulting_holds s s' va i).
  - by apply (avail_take_two s s' i); [apply Hrs|].
Qed.

Lemma touched_mapped s h va :
  heap_ready s → holds s h → heap_word va → touched h va = true → is_Some (resolve (hw s) va).
Proof.
  intros Hs Hh Hva Ht. apply existsb_exists in Ht as ([w x] & Hin & Ew%Z.eqb_eq).
  apply list_elem_of_In, elem_of_map_to_list in Hin. destruct (Hh w x Hin) as ([Hw _] & pw & E & _).
  destruct (resolve (hw s) va) eqn:Er; [done|].
  rewrite (resolve_page (hw s) va w) in E; [done|apply (pg_on s (hr_paging s Hs))|done|done].
Qed.

Lemma heap_store_run s h va v n :
  heap_ready s → holds s h → heap_word va → avail s (if touched h va then n else S (S n)) →
  ∃ s', retry cx ERROR_WRITE (store32 va v) s = Ok tt s' ∧ heap_ready s' ∧
    holds s' (<[va := u32 v]> h) ∧ avail s' n.
Proof.
  intros Hs Hh Hva Hav. destruct (resolve (hw s) va) as [pa|] eqn:Er.
  - destruct (store_mapped s h va v pa) as (? & ? & Hfree & _); [done..|]. exists (word_stored pa v s).
    split_and!; [unfold retry, store32, State.access; by rewrite Er|done..|]. apply (avail_same s); [done|].
    destruct (touched h va); [done|]. by apply (avail_mono _ (S (S n))); [lia|].
  - destruct (touched h va) eqn:Et; [|by apply store_faulting].
    destruct (touched_mapped s h va Hs Hh Hva Et). congruence.
Qed.

Lemma heap_run_flat {A} (p : heap_prog A) s h a h' n m :
  flat_run p h = Some (a, h', n) → heap_ready s → holds s h → avail s (2 * n + m) →
  ∃ s', heap_run cx p s = Ok a s' ∧ heap_ready s' ∧ holds s' h' ∧ avail s' m.
Proof.
  revert s h n. induction p as [a0|va k IH|va v p IH]; intros s h n E Hs Hh Hav; cbn [flat_run heap_run] in *.
  - injection E as -> -> <-. by exists s.
  - destruct (h !! va) as [v|] eqn:Ev; cbn in E; [|done]. destruct (Hh va v Ev) as (_ & pa & Er & <-).
    destruct (IH _ s h n E Hs Hh Hav) as (s' & E' & ?). exists s'. split; [|done].
    unfold mbind, M_bind, retry, load32, State.access. by rewrite Er.
  - case_decide as Hva; [|done].
    destruct (flat_run p _) as [[[a1 h1] n1]|] eqn:Ef; cbn in E; [|done]. injection E as -> -> <-.
    destruct (heap_store_run s h va v (2 * n1 + m)) as (s1 & E1 & Hs1 & Hh1 & Hav1); [done..| |].
    { destruct (touched h va); [done|].
      by replace (S (S (2 * n1 + m))) with (2 * S n1 + m)%nat by lia. }
    destruct (IH s1 _ n1 Ef Hs1 Hh1 Hav1) as (s' & E' & ?). exists s'. split; [|done].
    unfold mbind, M_bind. by rewrite E1.
Qed.

End heap.

(** ** The heap of the kernel that has come up *)

Lemma on_stack_heap_ready cx s n t :
  symbols_ok (syms s) → if_set (cx_eflags cx) = iflag (hw s) → 0 <= ebp (hw s) < 2 ^ 32 →
  on_stack s n t → ∃ d, heap_ready (new_stack_ptr - 68) new_stack_ptr d cx t.
Proof.
  intros Hsy Hif Hbp [Hup Hsp]. pose proof Hup as [Hl Hav Hw _ _ _ Eb Ef]. pose proof Hl as [Hwf Hinv Hok _ _].
  destruct (kernel_up_gates s Hsy n t Hup) as (Hg & Hi & _).
  destruct (stack_live_ready t Hl Hsp) as (d & Hready). exists d.
  assert (∀ va, KERNEL_HEAP_START <= va < KERNEL_HEAP_END → resolve (hw t) va = None) as Hnone.
  { intros va Hva. unfold KERNEL_HEAP_START, KERNEL_HEAP_END in Hva.
    rewrite Hw, decide_False; [done|unfold LOW_END; lia|lia|].
    unfold in_stack, KERNEL_STACK_BOTTOM_VIRT, KERNEL_STACK_TOP_VIRT. lia. }
  split; try done.
  - intros va pa Hva E. rewrite (Hnone va Hva) in E. discriminate E.
  - intros va va' pa pa' Hva _ E. rewrite (Hnone va Hva) in E. discriminate E.
  - intros va pa a Hva E. rewrite (Hnone va Hva) in E. discriminate E.
  - rewrite Ef. exact Hif.
  - rewrite Eb. exact Hbp.
Qed.

(** A linked list of the squares up to [n], its cells of two words each a page
    apart, and the sum along it. *)
Fixpoint build_list {A} (n : nat) (base : Z) (p : heap_prog A) : heap_prog A :=
  match n with
  | O => p
  | S n => HStore base (Z.of_nat (S n * S n))
             (HStore (base + 4) (if n is O then 0 else base + 4096) (build_list n (base + 4096) p))
  end.

Fixpoint sum_list (fuel : nat) (base acc : Z) : heap_prog Z :=
  match fuel with
  | O => HRet acc
  | S fuel => if base =? 0 then HRet acc
      else HLoad base (λ v, HLoad (base + 4) (λ next, sum_list fuel next (acc + v)))
  end.

Definition squares : heap_prog Z :=
  build_list 4 KERNEL_HEAP_START (sum_list 5 KERNEL_HEAP_START 0).

Lemma squares_flat : ∃ h, flat_run squares ∅ = Some (30, h, 4%nat).
Proof.
  destruct (flat_run squares ∅) as [[[a h] n]|] eqn:E; [|clear -E; vm_compute in E; discriminate].
  exists h. apply (f_equal (fmap (λ r, (r.1.1, r.2)))) in E. vm_compute in E. by injection E as <- <-.
Qed.

