(* ===== verification/TlbHeap.v ===== *)
(** * The demand-paged heap through the translation cache

    The programs of [Heap], one access at a time, each translated by the cache
    when it holds the page and by the tables when not.  A turn is a load, a store
    or a fault; between turns, and inside them, the cache moves.  Every run of
    turns ends, and in the result the program has on a flat memory. *)

From Stdlib Require Import ZArith Lia String.
From stdpp Require Import base gmap list relations.
From S2P Require Import Prelude RingBuf Format Descriptors Machine State Vga Printk Panik MemoryMap Frame Pmm PmmProps Paging PagingProps Arch PageFault Tlb Cpu TlbFault Kernel Boot Heap.

(** ** Accesses and turns *)

(** An access finds its page in the cache or in the tables. *)
Definition tlb_access {A} (va : Z) (k : Z → M A) : T A := λ '(t, s) a '(t', s'),
  ∃ t1 pa, rtc (tlb_move s) t t1 ∧ tlb_lookup t1 s va = Some pa ∧ k pa s = Ok a s' ∧
    rtc (tlb_move s') t1 t'.

Definition tlb_load32 (va : Z) : T Z := tlb_access va (λ pa s, Ok (rd32 (mem (hw s)) pa) s).
Definition tlb_store32 (va v : Z) : T unit := tlb_access va (λ pa s, Ok tt (word_stored pa v s)).

(** The access a program makes next, with the error code of its fault. *)
Definition next_access {A} (p : heap_prog A) : option (Z * Z) :=
  match p with
  | HRet _ => None
  | HLoad va _ => Some (va, ERROR_READ)
  | HStore va _ _ => Some (va, ERROR_WRITE)
  end.

(** Cache, kernel, the context the program runs in, and what is left of it. *)
Definition config (A : Type) : Type := tlb * kstate * context * heap_prog A.

(** A fault leaves the instruction to be executed again, in the context that the
    handler returns to. *)
Inductive heap_turn `{FrameAllocator} {A} : relation (config A) :=
  | Turn_load cx va k v t s t' s' :
      tlb_load32 va (t, s) v (t', s') → heap_turn (t, s, cx, HLoad va k) (t', s', cx, k v)
  | Turn_store cx va v p t s t' s' :
      tlb_store32 va v (t, s) tt (t', s') → heap_turn (t, s, cx, HStore va v p) (t', s', cx, p)
  | Turn_fault cx cx' p va error t s t1 t' s' :
      next_access p = Some (va, error) → rtc (tlb_move s) t t1 → tlb_lookup t1 s va = None →
      deliver_page_fault_cached cx error (t1, on_hw (set_cr2 va) s) cx' (t', s') →
      heap_turn (t, s, cx, p) (t', s', cx', p).

(** ** The invariant *)

Section heap.
Context `{FrameAllocator} (lo hi d : Z) (cx : context) (Hcx : context_ok cx).
Context {A : Type} (a : A) (h : gmap Z Z) (m : nat).

(** [p] ends in [a] and [h] on the flat memory [h0], and there are frames enough
    for that.  The page of the next store may have been mapped already. *)
Definition on_course (s : kstate) (h0 : gmap Z Z) (p : heap_prog A) : Prop :=
  match p with
  | HRet a0 => a0 = a ∧ h0 = h ∧ avail s m
  | HLoad va k => ∃ v n, h0 !! va = Some v ∧ flat_run (k v) h0 = Some (a, h, n) ∧ avail s (2 * n + m)
  | HStore va v p => heap_word va ∧ ∃ n, flat_run p (<[va := u32 v]> h0) = Some (a, h, n) ∧
      avail s (if resolve (hw s) va is Some _ then 2 * n + m else S (S (2 * n + m)))
  end.

Definition good (c : config A) : Prop :=
  let '(t, s, cx', p) := c in
  cx' = cx ∧ coherent t s ∧ heap_ready lo hi d cx s ∧ ∃ h0, holds s h0 ∧ on_course s h0 p.

Lemma on_course_start s p h0 n :
  heap_ready lo hi d cx s → holds s h0 → flat_run p h0 = Some (a, h, n) → avail s (2 * n + m) →
  on_course s h0 p.
Proof using Hcx.
  intros Hs Hh E Hav. destruct p as [a0|va k|va v p]; cbn [flat_run on_course] in *.
  - injection E as -> -> <-. done.
  - destruct (h0 !! va) as [v|] eqn:Ev; cbn in E; [|done]. by exists v, n.
  - case_decide as Hva; [|done]. split; [done|].
    destruct (flat_run p _) as [[[a1 h1] n1]|]; cbn in E; [|done]. injection E as -> -> <-.
    exists n1. split; [done|]. destruct (resolve (hw s) va) eqn:Er.
    + eapply avail_mono; [|exact Hav]. destruct (touched h0 va); lia.
    + destruct (touched h0 va) eqn:Et; [|by replace (S (S (2 * n1 + m))) with (2 * S n1 + m)%nat by lia].
      destruct (touched_mapped lo hi d cx s h0 va Hs Hh Hva Et). congruence.
Qed.

(** ** What a turn does *)

Lemma heap_word_range va : heap_word va → 0 <= va < 2 ^ 32.
Proof. unfold heap_word, KERNEL_HEAP_START, KERNEL_HEAP_END. lia. Qed.

Lemma moved_lookup t t1 s va :
  heap_ready lo hi d cx s → coherent t s → rtc (tlb_move s) t t1 → heap_word va →
  tlb_lookup t1 s va = resolve (hw s) va.
Proof.
  intros Hs Hc Hm Hva%heap_word_range. apply coherent_lookup; [apply (hr_paging _ _ _ _ _ Hs)| |done].
  by apply (coherent_moves _ _ _ _ Hm).
Qed.

(** A fault: the next access is a store to a page not mapped yet, and then it is. *)
Lemma good_fault t s p t1 va error cx' t' s' :
  good (t, s, cx, p) → next_access p = Some (va, error) → rtc (tlb_move s) t t1 →
  tlb_lookup t1 s va = None →
  deliver_page_fault_cached cx error (t1, on_hw (set_cr2 va) s) cx' (t', s') →
  good (t', s', cx', p) ∧ resolve (hw s) va = None ∧ is_Some (resolve (hw s') va).
Proof using Hcx.
  intros (_ & Hc & Hs & h0 & Hh & Hp) Hnext Hm Hnone R.
  destruct p as [a0|va0 k|va0 v p]; [done|..]; cbn in Hnext; injection Hnext as -> <-; cbn [on_course] in Hp.
  { destruct Hp as (v & _ & Hv & _). destruct (Hh va v Hv) as (Hva & pa & E & _).
    rewrite (moved_lookup t t1 s va) in Hnone by done. congruence. }
  destruct Hp as (Hva & n & Hf & Hav). rewrite (moved_lookup t t1 s va) in Hnone by done.
  rewrite Hnone in Hav. pose proof Hs as [Hwf Hinv Hok Hst _ _ _ Hg Hi Hif Hb].
  destruct Hva as [Hr Hal] eqn:Eva. clear Eva. pose proof (heap_word_range va Hva) as Hrange.
  assert (frames_for s va) as Hfr by (apply avail_frames_for; eapply avail_mono; [|exact Hav]; lia).
  destruct (deliver_heap_fault lo hi d cx va s) as (i & s1 & E & Hrs); [done..|].
  destruct (cr2_set s va Hwf Hinv Hok) as (Hwf0 & Hinv0 & Hok0 & Hf0 & Hpde0).
  assert (coherent t' s') as Hc'.
  { eapply (deliver_coherent lo hi d cx ERROR_WRITE va); [..|exact R]; try done.
    - by apply (frames_for_same s).
    - by apply stack_ready_cr2.
    - eapply coherent_keep; [|by apply (coherent_moves _ _ _ _ Hm)]. intros q _ _. by apply resolve_agree. }
  assert (deliver_page_fault cx ERROR_WRITE (on_hw (set_cr2 va) s) = Ok cx' s') as E' by (apply (lifts t1); by exists t').
  rewrite E in E'. injection E' as <- <-.
  pose proof (rs_walk _ _ _ _ _ Hrs va Hrange) as Hw. rewrite decide_True in Hw by done.
  split_and!; [|done|by eexists].
  split_and!; [done|done|by apply (faulting_ready lo hi d cx s s1 va i)|]. exists h0. split.
  - intros w x Hx. destruct (Hh w x Hx) as (Hw' & Hex). split; [done|].
    by apply (faulting_holds lo hi d cx s s1 va i).
  - cbn [on_course]. split; [done|]. exists n. split; [done|]. rewrite Hw.
    by apply (avail_take_two s s1 i); [apply Hrs|].
Qed.

(** A load returns what the flat memory holds. *)
Lemma good_loaded t s va k v t' s' :
  good (t, s, cx, HLoad va k) → tlb_load32 va (t, s) v (t', s') → good (t', s', cx, k v).
Proof using Hcx.
  intros (_ & Hc & Hs & h0 & Hh & v0 & n & Hv & Hf & Hav) (t1 & pa & Hm & El & [= <- <-] & Hm').
  destruct (Hh va v0 Hv) as (Hva & pa0 & E & Er). rewrite (moved_lookup t t1 s va), E in El by done.
  injection El as ->. rewrite Er. split_and!; [done| |done|].
  - by apply (coherent_moves _ _ _ _ Hm'), (coherent_moves _ _ _ _ Hm).
  - exists h0. split; [done|]. by apply (on_course_start _ _ _ n).
Qed.

(** A store updates it. *)
Lemma good_stored t s va v p t' s' :
  good (t, s, cx, HStore va v p) → tlb_store32 va v (t, s) tt (t', s') → good (t', s', cx, p).
Proof using Hcx.
  intros (_ & Hc & Hs & h0 & Hh & Hva & n & Hf & Hav) (t1 & pa & Hm & El & [= <-] & Hm').
  rewrite (moved_lookup t t1 s va) in El by done. rewrite El in Hav.
  destruct (store_mapped lo hi d cx s h0 va v pa) as (Hs' & Hh' & Hfree & Hres); [done..|].
  split_and!; [done| |done|].
  - apply (coherent_moves _ _ _ _ Hm'). eapply coherent_keep; [|by apply (coherent_moves _ _ _ _ Hm)].
    intros q Hq _. apply Hres. lia.
  - eexists. split; [exact Hh'|]. apply (on_course_start _ _ _ n); [done..|]. by apply (avail_same s).
Qed.

Lemma good_turn c c' : good c → heap_turn c c' → good c'.
Proof using Hcx.
  intros Hg Ht. destruct Ht; pose proof Hg as [-> _].
  - by eapply good_loaded.
  - by eapply good_stored.
  - by eapply good_fault.
Qed.

(** A program that is not at its end has a turn. *)
Lemma good_progress t s p :
  good (t, s, cx, p) → (∃ c, heap_turn (t, s, cx, p) c) ∨ p = HRet a.
Proof using Hcx.
  intros Hg. pose proof Hg as (_ & Hc & Hs & h0 & Hh & Hp).
  destruct p as [a0|va k|va v p]; cbn [on_course] in Hp; [right|left..].
  - by destruct Hp as [-> _].
  - destruct Hp as (v & _ & Hv & _). destruct (Hh va v Hv) as (Hva & pa & E & Er). eexists.
    apply (Turn_load _ _ _ v _ _ t s). exists t, pa. rewrite (moved_lookup t t s va), Er by done. done.
  - destruct Hp as (Hva & n & Hf & Hav). pose proof (moved_lookup t t s va Hs Hc ltac:(done) Hva) as El.
    destruct (resolve (hw s) va) as [pa|] eqn:E.
    + eexists. apply (Turn_store _ _ _ _ _ _ t (word_stored pa v s)). by exists t, pa.
    + pose proof Hs as [Hwf Hinv Hok Hst _ _ _ Hgt Hi Hif Hb]. destruct Hva as [Hr Hal].
      destruct (deliver_heap_fault lo hi d cx va s) as (i & s1 & Ed & Hrs); [done..| |done|done|done|done|done|done|].
      { apply avail_frames_for. eapply avail_mono; [|exact Hav]. lia. }
      apply (lifts t) in Ed as (t' & R). eexists. by eapply Turn_fault.
Qed.

(** ** Every run ends *)

Lemma store_turns_end va v p :
  (∀ t s, good (t, s, cx, p) → sn heap_turn (t, s, cx, p)) →
  ∀ t s, good (t, s, cx, HStore va v p) → sn heap_turn (t, s, cx, HStore va v p).
Proof using Hcx.
  intros IH.
  assert (∀ t s, good (t, s, cx, HStore va v p) → is_Some (resolve (hw s) va) →
    sn heap_turn (t, s, cx, HStore va v p)) as Hmapped.
  { intros t s Hg Hr. constructor. intros c' Ht. pose proof (good_turn _ _ Hg Ht) as Hg'.
    inversion Ht; subst; [by apply IH|].
    destruct (good_fault _ _ _ _ _ _ _ _ _ Hg ltac:(done) ltac:(done) ltac:(done) ltac:(done)) as (_ & E & _).
    match goal with Hn : next_access _ = _ |- _ => injection Hn as -> _ end. destruct Hr. congruence. }
  intros t s Hg. constructor. intros c' Ht. pose proof (good_turn _ _ Hg Ht) as Hg'.
  inversion Ht; subst; [by apply IH|].
  destruct (good_fault _ _ _ _ _ _ _ _ _ Hg ltac:(done) ltac:(done) ltac:(done) ltac:(done)) as (_ & _ & Hr).
  match goal with Hn : next_access _ = _ |- _ => injection Hn as -> _ end.
  pose proof Hg' as [-> _]. by apply Hmapped.
Qed.

Lemma turns_end p t s : good (t, s, cx, p) → sn heap_turn (t, s, cx, p).
Proof using Hcx.
  revert t s. induction p as [a0|va k IH|va v p IH]; intros t s Hg.
  - constructor. intros c' Ht. inversion Ht; subst. done.
  - constructor. intros c' Ht. pose proof (good_turn _ _ Hg Ht) as Hg'.
    inversion Ht; subst; [by apply IH|].
    destruct (good_fault _ _ _ _ _ _ _ _ _ Hg ltac:(done) ltac:(done) ltac:(done) ltac:(done)) as (_ & E & _).
    match goal with Hn : next_access _ = _ |- _ => injection Hn as -> _ end.
    destruct Hg as (_ & _ & _ & h0 & Hh & v & _ & Hv & _). destruct (Hh _ v Hv) as (_ & pa & Er & _).
    congruence.
  - apply store_turns_end; [exact IH|exact Hg].
Qed.

End heap.

(** ** The heap of the kernel that has come up *)

