(* ===== verification/Bios.v ===== *)
(** * The BIOS, and bytes in memory

    What the boot loader calls: the disks, the memory map, the video mode and the
    printing of strings, each a parameter with the behaviour its documentation
    promises.  And what a transfer from the disk leaves in memory: a list of bytes
    at an address, read back as bytes, words or descriptors. *)

From Stdlib Require Import ZArith Lia String.
From stdpp Require Import base gmap list.
From S2P Require Import Prelude Descriptors Machine.

(** ** Services *)

Inductive e820_reply :=
  | E820Carry
  | E820Reply (eax : Z) (entry : list Z) (ebx : Z).

Record bios := Bios {
  boot_drive : Z;                           (* the drive of the boot sector: DL on its entry *)
  lba_extension : Z → option Z;             (* int 13h, AH = 41h, by drive: BX, or carry *)
  disk : Z → Z → Z → option (list Z);       (* int 13h, AH = 42h: drive, LBA and count, or carry *)
  e820 : Z → e820_reply;                    (* int 15h, EAX = E820h, by its continuation *)
  video_mode_3 : memory → memory;           (* int 10h, AX = 3 *)
  write_string : Z → list Z → memory → memory;  (* int 10h, AX = 1301h, DX = 0: attribute, text *)
}.

Definition SMAP : Z := 0x534D4150.

Section services.
Context (b : bios).

(** From continuation [ebx] the BIOS lists the entries [l] and ends, with a zero
    continuation or with the carry flag. *)
Inductive serves : Z → list (list Z) → Prop :=
  | serves_carry ebx : e820 b ebx = E820Carry → serves ebx []
  | serves_last ebx e : e820 b ebx = E820Reply SMAP e 0 → serves ebx [e]
  | serves_more ebx e ebx' l :
      e820 b ebx = E820Reply SMAP e ebx' → ebx' ≠ 0 → serves ebx' l → serves ebx (e :: l).

(** Output leaves the memory of programs alone. *)
Record video_ok : Prop := {
  vi_mode : ∀ m a, 0x500 <= a < 0xA0000 → rd8 (video_mode_3 b m) a = rd8 m a;
  vi_string : ∀ c l m a, 0x500 <= a < 0xA0000 → rd8 (write_string b c l m) a = rd8 m a;
}.

(** A first hard disk with the extended functions, and the map [l]. *)
Record bios_services (l : list (list Z)) : Prop := {
  bo_lba : lba_extension b 0x80 = Some 0xAA55;
  bo_e820 : serves 0 l;
  bo_entry : Forall (λ e, (20 <= length e <= 24)%nat) l;
  bo_video : video_ok;
}.
End services.

(** ** Bytes at consecutive addresses *)

Fixpoint store_bytes (m : memory) (a : Z) (l : list Z) : memory :=
  match l with
  | [] => m
  | x :: l => store_bytes (wr8 m a x) (a + 1) l
  end.

(** The [n] bytes from [a] on. *)
Definition bytes_at (m : memory) (a n : Z) : list Z := rd8 m <$> zrange a (Z.to_nat n).

(** The bytes [l] stand at [a]. *)
Definition bytes_in (m : memory) (a : Z) (l : list Z) : Prop :=
  ∀ i x, l !! i = Some x → rd8 m (a + Z.of_nat i) = u8 x.

Lemma rd8_store_bytes_out m a l x :
  x < a ∨ a + zlen l <= x → rd8 (store_bytes m a l) x = rd8 m x.
Proof.
  revert m a. induction l as [|y l IH]; intros m a Hx; [done|]. cbn [store_bytes].
  rewrite zlen_cons in Hx. rewrite IH, rd8_wr8_ne; [done|..]; pose proof (zlen_nonneg l); lia.
Qed.

Lemma rd8_store_bytes_in m a l i x :
  l !! i = Some x → rd8 (store_bytes m a l) (a + Z.of_nat i) = u8 x.
Proof.
  revert m a i. induction l as [|y l IH]; intros m a [|i] E; cbn in E; [done|done| |].
  - injection E as ->. cbn [store_bytes]. rewrite rd8_store_bytes_out, Z.add_0_r by lia. apply rd8_wr8_eq.
  - cbn [store_bytes]. rewrite <- (IH (wr8 m a y) (a + 1) i E). f_equal. lia.
Qed.

Lemma rd16_store_bytes_out m a l x :
  x + 2 <= a ∨ a + zlen l <= x → rd16 (store_bytes m a l) x = rd16 m x.
Proof. intros Hx. apply rd16_agree. intros c Hc. apply rd8_store_bytes_out. lia. Qed.

(** Little-endian bytes as a number, and back. *)
Definition le_bytes (l : list Z) : Z := foldr (λ x n, u8 x + 2 ^ 8 * n) 0 l.

Fixpoint le_split (n : nat) (v : Z) : list Z :=
  match n with O => [] | S n => u8 v :: le_split n (Z.shiftr v 8) end.

(** A word from its bytes, as the kernel reads an entry. *)
Lemma rd32_le_bytes m a x0 x1 x2 x3 :
  rd8 m a = u8 x0 → rd8 m (a + 1) = u8 x1 → rd8 m (a + 2) = u8 x2 → rd8 m (a + 3) = u8 x3 →
  rd32 m a = le_bytes [x0; x1; x2; x3].
Proof. intros E0 E1 E2 E3. unfold rd32. rewrite E0, E1, E2, E3. cbn [le_bytes foldr]. lia. Qed.

Lemma le_bytes_app l k : le_bytes (l ++ k) = le_bytes l + 2 ^ (8 * zlen l) * le_bytes k.
Proof.
  induction l as [|x l IH]; [change (zlen (@nil Z)) with 0; cbn [app]; change (le_bytes []) with 0; lia|].
  cbn [app]. change (le_bytes (x :: ?l)) with (u8 x + 2 ^ 8 * le_bytes l). rewrite IH, zlen_cons.
  replace (8 * (1 + zlen l)) with (8 + 8 * zlen l) by lia. rewrite Z.pow_add_r by (pose proof (zlen_nonneg l); lia). ring.
Qed.

Section bytes_at.
Context (m : memory) (a : Z) (e : list Z).
Context (Hm : bytes_in m a e).

Lemma rd32_at k :
  (k + 4 <= length e)%nat → rd32 m (a + Z.of_nat k) = le_bytes (take 4 (drop k e)).
Proof using Hm.
  intros Hk.
  assert (∀ j, (j < 4)%nat → ∃ x, drop k e !! j = Some x ∧ rd8 m (a + Z.of_nat k + Z.of_nat j) = u8 x) as Hx.
  { intros j Hj. destruct (lookup_lt_is_Some_2 e (k + j)) as [x Ex]; [lia|]. exists x.
    rewrite lookup_drop. split; [done|]. rewrite <- (Hm (k + j)%nat x Ex). f_equal. lia. }
  destruct (Hx 0%nat) as (x0 & E0 & R0), (Hx 1%nat) as (x1 & E1 & R1), (Hx 2%nat) as (x2 & E2 & R2),
    (Hx 3%nat) as (x3 & E3 & R3); [lia..|].
  destruct (drop k e) as [|y0 [|y1 [|y2 [|y3 l]]]]; try discriminate.
  cbn in E0, E1, E2, E3. simplify_eq. rewrite Z.add_0_r in R0. by apply rd32_le_bytes.
Qed.

Lemma rd64_at k :
  (k + 8 <= length e)%nat → rd64 m (a + Z.of_nat k) = le_bytes (take 8 (drop k e)).
Proof using Hm.
  intros Hk. unfold rd64. replace (a + Z.of_nat k + 4) with (a + Z.of_nat (k + 4)) by lia.
  rewrite !rd32_at by lia.
  replace (take 8 (drop k e)) with (take 4 (drop k e) ++ take 4 (drop (k + 4) e))
    by (by rewrite <- drop_drop, take_take_drop).
  rewrite le_bytes_app. f_equal. unfold zlen. by rewrite length_take, length_drop, Nat.min_l by lia.
Qed.
End bytes_at.

Lemma bytes_in_store m a l : bytes_in (store_bytes m a l) a l.
Proof. intros i x. apply rd8_store_bytes_in. Qed.

Lemma bytes_in_agree m m' a l :
  (∀ x, a <= x < a + zlen l → rd8 m' x = rd8 m x) → bytes_in m a l → bytes_in m' a l.
Proof.
  intros Hm Hl i x E. pose proof (lookup_lt_Some _ _ _ E). rewrite Hm by (unfold zlen; lia). by apply Hl.
Qed.

Lemma bytes_in_app m a l k : bytes_in m a (l ++ k) ↔ bytes_in m a l ∧ bytes_in m (a + zlen l) k.
Proof.
  split.
  - intros H. split; intros i x E; [by apply H, lookup_app_l_Some|].
    replace (a + zlen l + Z.of_nat i) with (a + Z.of_nat (length l + i)) by (unfold zlen; lia).
    apply H. rewrite lookup_app_r by lia. rewrite <- E. f_equal. lia.
  - intros [Hl Hk] i x [E|[Hge E]]%lookup_app_Some; [by apply Hl|].
    replace (a + Z.of_nat i) with (a + zlen l + Z.of_nat (i - length l)) by (unfold zlen; lia). by apply Hk.
Qed.

(** Reading a text back. *)
Lemma bytes_at_in m a l : bytes_in m a l → Forall (λ x, 0 <= x < 256) l → bytes_at m a (zlen l) = l.
Proof.
  intros Hm Hl. unfold bytes_at, zlen. rewrite Nat2Z.id. apply list_eq. intros i.
  rewrite list_lookup_fmap. destruct (l !! i) as [x|] eqn:E.
  - pose proof (lookup_lt_Some _ _ _ E). rewrite lookup_zrange by done. cbn. f_equal.
    rewrite (Hm i x E). rewrite Forall_lookup in Hl. by apply u8_small, (Hl i x).
  - apply lookup_ge_None in E. rewrite (proj2 (lookup_ge_None _ _)); [done|]. by rewrite length_zrange.
Qed.

(** ** Segment descriptors in memory *)

(** What [lgdt] and [lidt] read: a limit and a base. *)
Definition table_pointer (m : memory) (a : Z) : Z * Z := (rd16 m a, rd32 m (a + 2)).

Definition read_descriptor (m : memory) (a : Z) : gdt_entry :=
  GdtEntry (rd16 m a) (rd16 m (a + 2)) (rd8 m (a + 4)) (rd8 m (a + 5)) (rd8 m (a + 6)) (rd8 m (a + 7)).

Definition descriptor_bytes (e : gdt_entry) : list Z :=
  le_split 2 (limit_low e) ++ le_split 2 (gbase_low e) ++
  [gbase_middle e; access e; granularity e; gbase_high e].

(** A segment register in protected mode: the descriptor must lie in the table
    and be one of a present segment of the right kind. *)
Definition load_segment (m : memory) (gdtr : Z * Z) (kind : gdt_entry → bool) (sel : Z) : option gdt_entry :=
  let e := read_descriptor m (gdtr.2 + sel) in
  if (sel + 7 <=? gdtr.1) && kind e then Some e else None.

Definition code_segment (e : gdt_entry) : bool := Z.land (access e) 0x98 =? 0x98.
Definition stack_segment (e : gdt_entry) : bool := Z.land (access e) 0x9A =? 0x92.

Record descriptor_ok (e : gdt_entry) : Prop := {
  de_limit : 0 <= limit_low e < 2 ^ 16;
  de_base : 0 <= gbase_low e < 2 ^ 16;
  de_bytes : Forall (λ x, 0 <= x < 2 ^ 8) [gbase_middle e; access e; granularity e; gbase_high e];
}.

Lemma rd16_le_split m a v : bytes_in m a (le_split 2 v) → rd16 m a = u16 v.
Proof.
  intros H. unfold rd16. pose proof (H O _ eq_refl) as E0. pose proof (H 1%nat _ eq_refl) as E1.
  rewrite Z.add_0_r in E0. change (a + Z.of_nat 1) with (a + 1) in E1. rewrite E0, E1.
  rewrite Z.shiftr_div_pow2 by lia. clear. unfold u8, u16. zify_mod.
Qed.

Lemma rd32_le_split m a v : bytes_in m a (le_split 4 v) → rd32 m a = u32 v.
Proof.
  intros H. pose proof (rd32_at m a _ H 0) as E. rewrite Z.add_0_r in E. rewrite E by (cbn; lia).
  cbn. rewrite !Z.shiftr_div_pow2 by lia. clear. unfold u8, u32. zify_mod.
Qed.

Lemma read_descriptor_bytes m a e :
  descriptor_ok e → bytes_in m a (descriptor_bytes e) → read_descriptor m a = e.
Proof.
  intros [Hl Hb Hy] (Hm0 & Hm)%bytes_in_app. apply bytes_in_app in Hm as (Hm2 & Hm).
  change (a + zlen (le_split 2 _)) with (a + 2) in *. replace (a + 2 + zlen (le_split 2 _)) with (a + 4) in Hm
    by (change (zlen (le_split 2 _)) with 2; lia).
  unfold read_descriptor. rewrite (rd16_le_split m a _ Hm0), (rd16_le_split m (a + 2) _ Hm2).
  pose proof (Hm O _ eq_refl) as E0. pose proof (Hm 1%nat _ eq_refl) as E1.
  pose proof (Hm 2%nat _ eq_refl) as E2. pose proof (Hm 3%nat _ eq_refl) as E3.
  repeat (apply Forall_cons in Hy as [? Hy]).
  replace (a + 4 + Z.of_nat 0) with (a + 4) in E0 by lia. replace (a + 4 + Z.of_nat 1) with (a + 5) in E1 by lia.
  replace (a + 4 + Z.of_nat 2) with (a + 6) in E2 by lia. replace (a + 4 + Z.of_nat 3) with (a + 7) in E3 by lia.
  rewrite E0, E1, E2, E3, !u8_small, !u16_small by done. by destruct e.
Qed.
