(* ===== verification/Loader.v ===== *)
(** * The boot loader: [bootloader/stage1.asm] and [stage2.asm]

    Both stages run in real mode on the services of the BIOS, which is a
    parameter: its disks, its memory map, its video mode and its output.  [boot]
    is the whole way from the boot sector to the kernel's first instruction, with
    the messages of the ways that do not get there.  With a BIOS that keeps its
    documentation, the kernel finds its image at [0x10000], the BIOS's memory map,
    entry by entry, where its parser reads it, and flat segments. *)

From Stdlib Require Import ZArith Lia String.
From stdpp Require Import base gmap list.
From S2P Require Import Prelude RingBuf Format Descriptors Machine State Vga Printk Panik MemoryMap Frame Pmm PmmProps Paging PagingProps Arch PageFault Cpu Kernel Boot Bios.

(** ** The data of the two stages *)

Definition stage1_MsgError_text : list Z := C "Disk Read Error: Stage II cannot be loaded" ++ [0x0A; 0x0D; 0].
Definition stage1_MsgSuccess_text : list Z := C "Disk Read Success: Stage II loaded" ++ [0x0A; 0x0D; 0].
Definition stage1_data : list Z := stage1_MsgError_text ++ stage1_MsgSuccess_text ++ replicate 16 0.

(** A 16-byte entry of the partition table, and the sector with the code [code]. *)
Definition partition : list Z :=
  [0x80; 0; 2; 0; 0x0F; 0xFF; 0xFF; 0xFF] ++ le_split 4 1 ++ le_split 4 (29 * 16 * 63 - 1).

Definition boot_sector (code : list Z) : list Z :=
  resize (Z.to_nat 0x1BE) 0 (code ++ stage1_data) ++ partition ++ replicate (16 * 3) 0 ++ [0x55; 0xAA].

Definition stage2_MsgError_text : list Z := C "Cannot Load Kernel" ++ [0x0A; 0x0D; 0].
Definition stage2_MsgSuccess_text : list Z := C "Successfully Loaded Kernel" ++ [0x0A; 0x0D; 0].
Definition stage2_MsgNoSupport_text : list Z := C "LBA extension support check failed" ++ [0x0A; 0x0D; 0].
Definition stage2_strings : list Z :=
  stage2_MsgError_text ++ stage2_MsgSuccess_text ++ stage2_MsgNoSupport_text.

(** The segments of the loader's table. *)
Definition CodeSegDes32 : gdt_entry := GdtEntry 0xFFFF 0 0 0x9A 0xCF 0.
Definition DataSegment32 : gdt_entry := GdtEntry 0xFFFF 0 0 0x92 0xCF 0.
Definition GDT32 : list gdt_entry := [gdt_entry_zero; CodeSegDes32; DataSegment32].
Definition GDT32_bytes : list Z := concat (descriptor_bytes <$> GDT32).

(** Where the data of each stage begins, after its code; the labels follow. *)
Record labels := Labels {
  stage1_MsgError : Z;
  stage2_MsgError : Z;
}.

Section labels.
Context (lab : labels).

Definition stage1_MsgSuccess : Z := stage1_MsgError lab + zlen stage1_MsgError_text.
Definition stage1_ReadPacket : Z := stage1_MsgSuccess + zlen stage1_MsgSuccess_text.

Definition stage2_MsgSuccess : Z := stage2_MsgError lab + zlen stage2_MsgError_text.
Definition stage2_MsgNoSupport : Z := stage2_MsgSuccess + zlen stage2_MsgSuccess_text.
Definition stage2_ReadPacket : Z := stage2_MsgNoSupport + zlen stage2_MsgNoSupport_text.
Definition memmap_count : Z := stage2_ReadPacket + 16.
Definition GDT32_label : Z := memmap_count + 2.
Definition GDT32Pointer : Z := GDT32_label + zlen GDT32_bytes.
Definition IDT32Pointer : Z := GDT32Pointer + 6.

Definition stage2_tables : list Z :=
  GDT32_bytes ++ le_split 2 (zlen GDT32_bytes - 1) ++ le_split 4 GDT32_label ++ le_split 2 0 ++ le_split 4 0.

Definition stage2_data : list Z := stage2_strings ++ replicate 18 0 ++ stage2_tables.

(** The second stage as assembled: its data stands at its label. *)
Definition stage2_has (st2 : list Z) : Prop :=
  ∃ code rest, st2 = code ++ stage2_data ++ rest ∧ zlen code = stage2_MsgError lab - 0x7E00.

(** Both stages are within the room they have. *)
Record labels_ok : Prop := {
  lo_stage1 : 0x7C00 <= stage1_MsgError lab ∧ stage1_ReadPacket + 16 <= 0x7C00 + 0x1BE;
  lo_stage2 : 0x7E00 <= stage2_MsgError lab ∧ IDT32Pointer + 6 <= 0x7E00 + 512 * 5;
}.

(** The labels as numbers. *)
Lemma stage1_labels :
  stage1_MsgSuccess = stage1_MsgError lab + 45 ∧ stage1_ReadPacket = stage1_MsgError lab + 82.
Proof using Type.
  unfold stage1_ReadPacket, stage1_MsgSuccess.
  change (zlen stage1_MsgError_text) with 45. change (zlen stage1_MsgSuccess_text) with 37. lia.
Qed.

Lemma stage2_labels :
  stage2_MsgSuccess = stage2_MsgError lab + 21 ∧ stage2_MsgNoSupport = stage2_MsgError lab + 50 ∧
  stage2_ReadPacket = stage2_MsgError lab + 87 ∧ memmap_count = stage2_MsgError lab + 103 ∧
  GDT32_label = stage2_MsgError lab + 105 ∧ GDT32Pointer = stage2_MsgError lab + 129 ∧
  IDT32Pointer = stage2_MsgError lab + 135.
Proof using Type.
  unfold IDT32Pointer, GDT32Pointer, GDT32_label, memmap_count, stage2_ReadPacket, stage2_MsgNoSupport, stage2_MsgSuccess.
  change (zlen stage2_MsgError_text) with 21. change (zlen stage2_MsgSuccess_text) with 29.
  change (zlen stage2_MsgNoSupport_text) with 37. change (zlen GDT32_bytes) with 24. lia.
Qed.
End labels.

(** Linear facts about the labels. *)
Ltac lab_lia lab :=
  pose proof (stage1_labels lab); pose proof (stage2_labels lab); lia.

Section loader.
Context (b : bios) (lab : labels).

(** ** The screen and the disk *)

(** The BIOS prints [cx] bytes from [bp]. *)
Definition print_string (bp cx : Z) (m : memory) : memory := write_string b 0x0A (bytes_at m bp cx) m.

Definition ReadPacket (m : memory) (si sectors offset segment lba : Z) : memory :=
  let m := wr16 m si 0x10 in
  let m := wr16 m (si + 2) sectors in
  let m := wr16 m (si + 4) offset in
  let m := wr16 m (si + 6) segment in
  let m := wr32 m (si + 8) lba in
  wr32 m (si + 12) 0.

(** The BIOS reads the packet from memory and stores the sectors. *)
Definition int13_read (drive : Z) (m : memory) (si : Z) : option memory :=
  bytes ← disk b drive (rd64 m (si + 8)) (rd16 m (si + 2));
  Some (store_bytes m (16 * rd16 m (si + 6) + rd16 m (si + 4)) bytes).

Definition LoadStage2 (m : memory) : option memory :=
  int13_read (boot_drive b) (ReadPacket m (stage1_ReadPacket lab) 0x05 0x7E00 0x00 0x01)
    (stage1_ReadPacket lab).

Definition LoadKernel (m : memory) : option memory :=
  int13_read 0x80 (ReadPacket m (stage2_ReadPacket lab) 0x30 0x00 0x1000 0x09) (stage2_ReadPacket lab).

(** ** The memory map *)

(** [None] when the fuel does not last: the loop has no bound of its own. *)
Fixpoint e820_loop (fuel : nat) (m : memory) (di ebx : Z) : option memory :=
  match fuel with
  | O => None
  | S fuel =>
      match e820 b ebx with
      | E820Carry => Some m
      | E820Reply eax entry ebx =>
          let m := store_bytes m di entry in
          if eax =? SMAP then
            let m := wr16 m (memmap_count lab) (rd16 m (memmap_count lab) + 1) in
            if ebx =? 0 then Some m else e820_loop fuel m (u16 (di + 24)) ebx
          else Some m
      end
  end.

Definition GetMemoryMap (fuel : nat) (m : memory) : option memory :=
  let m := wr16 m (memmap_count lab) 0 in
  m ← e820_loop fuel m 0x5000 0;
  let m := wr32 m 0x2000 0x5000 in
  Some (wr16 m 0x2004 (rd16 m (memmap_count lab))).

(** ** The two stages *)

Inductive boot_result :=
  | Entered (h : machine) (cs ds : gdt_entry)   (* at [0x10000], in protected mode *)
  | Stopped (text : list Z) (h : machine)       (* in the [hlt] loop, [text] printed last *)
  | Reset                                       (* an exception, and no table to handle it *)
  | OutOfFuel.

(** An error: its message and the [hlt] loop. *)
Definition stop (bp cx : Z) (h : machine) : boot_result :=
  Stopped (bytes_at (mem h) bp cx) (set_mem (print_string bp cx) h).

(** The data segments: [ds], [es], [gs], [fs] and [ss] get the same selector. *)
Definition PMEntry (cs : gdt_entry) (h : machine) : boot_result :=
  match load_segment (mem h) (table_pointer (mem h) (GDT32Pointer lab)) stack_segment 0x10 with
  | Some ds => Entered h cs ds
  | None => Reset
  end.

Definition SwitchToProtectedMode (h : machine) : boot_result :=
  let h := push_event Cli (set_iflag false h) in
  let h := push_event (Lgdt (GDT32Pointer lab)) h in
  let h := push_event (Lidt (IDT32Pointer lab)) h in
  let h := set_cr0 (Z.lor (cr0 h) 1) h in
  match load_segment (mem h) (table_pointer (mem h) (GDT32Pointer lab)) code_segment 0x08 with
  | Some cs => PMEntry cs h
  | None => Reset
  end.

Definition stage2 (fuel : nat) (h : machine) : boot_result :=
  if decide (lba_extension b 0x80 = Some 0xAA55) then
    let packet := ReadPacket (mem h) (stage2_ReadPacket lab) 0x30 0x00 0x1000 0x09 in
    match LoadKernel (mem h) with
    | None => stop (stage2_MsgError lab) (zlen stage2_MsgError_text) (set_mem (λ _, packet) h)
    | Some m =>
        match GetMemoryMap fuel m with
        | None => OutOfFuel
        | Some m => SwitchToProtectedMode (set_mem (λ _, video_mode_3 b m) h)
        end
    end
  else stop (stage2_MsgNoSupport lab) (zlen stage2_MsgNoSupport_text) h.

Definition boot (fuel : nat) (h : machine) : boot_result :=
  let h := push_event Cli (set_iflag false h) in
  let h := set_esp 0x7C00 h in
  let h := push_event Sti (set_iflag true h) in
  let packet := ReadPacket (mem h) (stage1_ReadPacket lab) 0x05 0x7E00 0x00 0x01 in
  match LoadStage2 (mem h) with
  | None => stop (stage1_MsgError lab) (zlen stage1_MsgError_text) (set_mem (λ _, packet) h)
  | Some m =>
      stage2 fuel (set_mem (λ _, print_string (stage1_MsgSuccess lab) (zlen stage1_MsgSuccess_text) m) h)
  end.

(** ** What the disks hold *)

(** The second stage on the drive of the boot sector, and [image] on the first
    hard disk from where the kernel should be. *)
Record bios_ok (l : list (list Z)) (image : list Z) : Prop := {
  bo_services : bios_services b l;
  bo_stage2 : ∃ st2, disk b (boot_drive b) 1 5 = Some st2 ∧ (length st2 <= 512 * 5)%nat ∧ stage2_has lab st2;
  bo_image : disk b 0x80 9 0x30 = Some image;
  bo_length : (length image <= 512 * 0x30)%nat;
}.

Definition region_of_bytes (e : list Z) : memory_region_t :=
  Region (le_bytes (take 8 e)) (le_bytes (take 8 (drop 8 e))) (le_bytes (take 4 (drop 16 e))).
End loader.

Lemma e820_entry_of_bytes m i e :
  (20 <= length e)%nat →
  bytes_in m (e820_base_addr i) e →
  e820_entry m i = region_of_bytes e.
Proof.
  intros Hlen Hm. unfold e820_entry, region_of_bytes, e820_length_addr, e820_type_addr.
  pose proof (rd64_at m _ e Hm 0) as E0. rewrite Z.add_0_r in E0. rewrite E0 by lia.
  change (e820_base_addr i + 8) with (e820_base_addr i + Z.of_nat 8).
  change (e820_base_addr i + 16) with (e820_base_addr i + Z.of_nat 16).
  by rewrite (rd64_at m _ e Hm 8), (rd32_at m _ e Hm 16) by lia.
Qed.

Lemma count_range lab : labels_ok lab → 0x7E00 <= memmap_count lab ∧ memmap_count lab + 2 <= 0x10000.
Proof. intros []. lab_lia lab. Qed.

(** ** The loop over the memory map *)

Section map.
Context (b : bios) (lab : labels) (Hlab : labels_ok lab).

Definition outside (lo hi x : Z) : Prop :=
  (x < lo ∨ hi <= x) ∧ (x < memmap_count lab ∨ memmap_count lab + 2 <= x).

(** One more entry at [a]. *)
Definition add_entry (m : memory) (a : Z) (e : list Z) : memory :=
  wr16 (store_bytes m a e) (memmap_count lab) (rd16 (store_bytes m a e) (memmap_count lab) + 1).

Lemma add_entry_out m a e x :
  outside a (a + zlen e) x → rd8 (add_entry m a e) x = rd8 m x.
Proof. intros [Hx Hc]. unfold add_entry. rewrite rd8_wr16_ne by done. by apply rd8_store_bytes_out. Qed.

Lemma add_entry_in m a e k x :
  0 <= a → a + zlen e <= 0x7E00 → e !! k = Some x → rd8 (add_entry m a e) (a + Z.of_nat k) = u8 x.
Proof using Hlab.
  intros Ha He Ek. pose proof (lookup_lt_Some _ _ _ Ek). destruct (count_range _ Hlab) as [Hc _].
  unfold add_entry. rewrite rd8_wr16_ne by (unfold zlen in *; lia). by apply rd8_store_bytes_in.
Qed.

Lemma add_entry_count m a e :
  0 <= a → a + zlen e <= 0x7E00 →
  rd16 (add_entry m a e) (memmap_count lab) = u16 (rd16 m (memmap_count lab) + 1).
Proof using Hlab.
  intros Ha He. destruct (count_range _ Hlab). unfold add_entry.
  rewrite rd16_wr16_eq, rd16_store_bytes_out by lia. done.
Qed.

(** What the loop leaves: the entries from [a] on, their number added to the
    count, and nothing else. *)
Record listed (m : memory) (a : Z) (l : list (list Z)) (m' : memory) : Prop := {
  li_out : ∀ x, outside a (a + 24 * zlen l) x → rd8 m' x = rd8 m x;
  li_count : rd16 m' (memmap_count lab) = u16 (rd16 m (memmap_count lab) + zlen l);
  li_entry : ∀ i e k x, l !! i = Some e → e !! k = Some x →
    rd8 m' (a + 24 * Z.of_nat i + Z.of_nat k) = u8 x;
}.

Lemma rd16_range m a : 0 <= rd16 m a < 2 ^ 16.
Proof. unfold rd16. pose proof (rd8_range m a). pose proof (rd8_range m (a + 1)). lia. Qed.

Lemma listed_nil m a : listed m a [] m.
Proof.
  split; [done| |by intros []]. change (zlen []) with 0. rewrite Z.add_0_r, u16_small; [done|].
  pose proof (rd16_range m (memmap_count lab)). lia.
Qed.

Lemma listed_cons m a e l m' :
  0 <= a → (length e <= 24)%nat → a + 24 * zlen (e :: l) <= 0x7C00 →
  listed (add_entry m a e) (a + 24) l m' → listed m a (e :: l) m'.
Proof using Hlab.
  intros Ha He Hl [Hout Hcount Hentry]. rewrite zlen_cons in *. pose proof (zlen_nonneg l).
  destruct (count_range _ Hlab). assert (zlen e <= 24) by (unfold zlen; lia).
  split.
  - intros x [Hx Hc]. rewrite zlen_cons in Hx. rewrite Hout by (split; [lia|done]).
    apply add_entry_out. split; [lia|done].
  - rewrite Hcount, add_entry_count, zlen_cons by lia. unfold u16. clear. zify_mod.
  - intros [|i] e' k x Ei Ek; cbn in Ei.
    + injection Ei as <-. pose proof (lookup_lt_Some _ _ _ Ek).
      rewrite Z.mul_0_r, Z.add_0_r, Hout by (split; lia). apply add_entry_in; [lia..|done].
    + rewrite <- (Hentry i e' k x Ei Ek). f_equal. lia.
Qed.

Lemma e820_loop_lists ebx l m a fuel :
  serves b ebx l → Forall (λ e, (20 <= length e <= 24)%nat) l → (length l < fuel)%nat →
  0 <= a → a + 24 * zlen l <= 0x7C00 →
  ∃ m', e820_loop b lab fuel m a ebx = Some m' ∧ listed m a l m'.
Proof using Hlab.
  intros Hs. revert m a fuel.
  induction Hs as [ebx E|ebx e E|ebx e ebx' l E Hne Hs IH]; intros m a [|fuel] Hall Hf Ha Hl;
    try (cbn in Hf; lia); cbn [e820_loop]; rewrite E.
  - exists m. split; [done|apply listed_nil].
  - apply Forall_cons in Hall as [He _]. change (SMAP =? SMAP) with true. change (0 =? 0) with true. cbv iota.
    eexists. split; [reflexivity|]. apply listed_cons; [done|lia|done|apply listed_nil].
  - apply Forall_cons in Hall as [He Hall]. change (SMAP =? SMAP) with true. cbv iota.
    destruct (Z.eqb_spec ebx' 0); [done|]. cbn in Hf. rewrite zlen_cons in Hl. pose proof (zlen_nonneg l).
    rewrite u16_small by lia.
    destruct (IH (add_entry m a e) (a + 24) fuel Hall) as (m' & E' & Hm'); [lia..|].
    exists m'. split; [exact E'|]. apply listed_cons; [done|lia|by rewrite zlen_cons; lia|done].
Qed.

(** The map as the kernel finds it, in memory that agrees with what the loader
    leaves between the BIOS's data and its video memory. *)
Lemma get_memory_map_lists l m fuel :
  serves b 0 l → Forall (λ e, (20 <= length e <= 24)%nat) l → (length l < fuel)%nat →
  0x5000 + 24 * zlen l <= 0x7C00 →
  ∃ m', GetMemoryMap b lab fuel m = Some m' ∧
    (∀ x, 0x7C00 <= x → x < memmap_count lab ∨ memmap_count lab + 2 <= x → rd8 m' x = rd8 m x) ∧
    ∀ m'', (∀ x, 0x500 <= x < 0xA0000 → rd8 m'' x = rd8 m' x) →
      e820_map m'' = region_of_bytes <$> l ∧ e820_below_screen m''.
Proof using Hlab.
  intros Hs Hall Hf Hl. unfold GetMemoryMap.
  destruct (e820_loop_lists 0 l (wr16 m (memmap_count lab) 0) 0x5000 fuel) as (m1 & E & [Hout Hcount Hentry]);
    [done..|lia|done|].
  rewrite E. cbn. eexists. split; [reflexivity|]. destruct (count_range _ Hlab).
  set (m2 := wr32 m1 _ _). set (m3 := wr16 m2 _ _). pose proof (zlen_nonneg l).
  rewrite rd16_wr16_eq in Hcount. change (u16 0) with 0 in Hcount.
  rewrite Z.add_0_l, u16_small in Hcount by lia.
  assert (∀ x, 0x2006 <= x → rd8 m3 x = rd8 m1 x) as H3.
  { intros x Hx. unfold m3, m2. rewrite rd8_wr16_ne, rd8_wr32_ne by lia. done. }
  split.
  { intros x Hx Hxc. rewrite H3, Hout by (unfold outside; lia). by apply rd8_wr16_ne. }
  intros m'' Hm''.
  assert (rd16 m'' E820_MAP_COUNT_PTR = zlen l) as Ec.
  { rewrite (rd16_agree m3) by (intros c Hc; unfold E820_MAP_COUNT_PTR in Hc; apply Hm''; lia).
    unfold m3, E820_MAP_COUNT_PTR. rewrite rd16_wr16_eq.
    rewrite (rd16_agree m1) by (intros c Hc; apply rd8_wr32_ne; lia). rewrite Hcount. apply u16_small. lia. }
  split.
  - unfold e820_map. rewrite Ec. unfold zlen. rewrite Nat2Z.id. apply list_eq. intros i.
    rewrite !list_lookup_fmap. destruct (l !! i) as [e|] eqn:Ei.
    + pose proof (lookup_lt_Some _ _ _ Ei) as Hi. rewrite lookup_zrange by done. cbn. f_equal.
      rewrite Forall_lookup in Hall. apply e820_entry_of_bytes; [apply (Hall i e Ei)|].
      intros k x Ek. pose proof (Hall i e Ei). pose proof (lookup_lt_Some _ _ _ Ek).
      unfold e820_base_addr, E820_MAP_ADDRESS, sizeof_e820_entry. unfold zlen in Hl.
      rewrite Hm'', H3 by lia. by apply (Hentry i e k x).
    + apply lookup_ge_None in Ei. rewrite (proj2 (lookup_ge_None _ _)); [done|]. by rewrite length_zrange.
  - unfold e820_below_screen. rewrite Ec.
    unfold e820_base_addr, E820_MAP_ADDRESS, sizeof_e820_entry, VGA_ADDRESS. lia.
Qed.
End map.

(** ** Reading through a packet *)

Lemma packet_out m si n off seg lba x :
  x < si ∨ si + 16 <= x → rd8 (ReadPacket m si n off seg lba) x = rd8 m x.
Proof. intros Hx. unfold ReadPacket. rewrite !rd8_wr32_ne, !rd8_wr16_ne by lia. done. Qed.

Lemma rd16_wr16_ne m a c v : c + 2 <= a ∨ a + 2 <= c → rd16 (wr16 m a v) c = rd16 m c.
Proof. intros. apply rd16_agree. intros. apply rd8_wr16_ne. lia. Qed.

Lemma rd16_wr32_ne m a c v : c + 2 <= a ∨ a + 4 <= c → rd16 (wr32 m a v) c = rd16 m c.
Proof. intros. apply rd16_agree. intros. apply rd8_wr32_ne. lia. Qed.

(** The BIOS gets what the code put into the packet. *)
Lemma int13_read_packet b d m si n off seg lba :
  0 <= n < 2 ^ 16 → 0 <= off < 2 ^ 16 → 0 <= seg < 2 ^ 16 → 0 <= lba < 2 ^ 32 →
  int13_read b d (ReadPacket m si n off seg lba) si =
    (λ bytes, store_bytes (ReadPacket m si n off seg lba) (16 * seg + off) bytes) <$> disk b d lba n.
Proof.
  intros Hn Hoff Hseg Hlba. unfold int13_read.
  assert (rd16 (ReadPacket m si n off seg lba) (si + 2) = n ∧
    rd16 (ReadPacket m si n off seg lba) (si + 4) = off ∧
    rd16 (ReadPacket m si n off seg lba) (si + 6) = seg) as (-> & -> & ->).
  { unfold ReadPacket. cbv zeta. rewrite !rd16_wr32_ne by lia.
    rewrite rd16_wr16_eq, !(rd16_wr16_ne _ (si + 6)), !(rd16_wr16_ne _ (si + 4)), !rd16_wr16_eq by lia.
    by rewrite !u16_small. }
  assert (rd64 (ReadPacket m si n off seg lba) (si + 8) = lba) as ->.
  { unfold rd64, ReadPacket. cbv zeta. replace (si + 8 + 4) with (si + 12) by lia.
    rewrite rd32_wr32_eq, rd32_wr32_ne, rd32_wr32_eq by lia.
    rewrite u32_small by lia. change (u32 0) with 0. lia. }
  by destruct (disk b d lba n).
Qed.

(** ** The second stage's own data in memory *)

Lemma stage2_has_parts lab st2 m :
  stage2_has lab st2 → bytes_in m 0x7E00 st2 →
  bytes_in m (stage2_MsgError lab) stage2_strings ∧ bytes_in m (GDT32_label lab) (stage2_tables lab).
Proof.
  intros (code & rest & -> & Hc) (_ & (Hd & _)%bytes_in_app)%bytes_in_app. rewrite Hc in Hd.
  replace (0x7E00 + _) with (stage2_MsgError lab) in Hd by lia.
  unfold stage2_data in Hd. apply bytes_in_app in Hd as (Hs & (_ & Ht)%bytes_in_app). split; [done|].
  change (zlen (replicate 18 0)) with 18 in Ht. change (zlen stage2_strings) with 87 in Ht.
  replace (GDT32_label lab) with (stage2_MsgError lab + 87 + 18) by lab_lia lab. done.
Qed.

Lemma zlen_tables lab : zlen (stage2_tables lab) = 36.
Proof. reflexivity. Qed.

Lemma GDT32_ok : Forall descriptor_ok GDT32.
Proof. repeat (apply Forall_cons; split); try apply Forall_nil; repeat split; try (repeat constructor); cbn; lia. Qed.

(** The selectors of the code find the two segments. *)
Lemma tables_load lab m :
  labels_ok lab → bytes_in m (GDT32_label lab) (stage2_tables lab) →
  load_segment m (table_pointer m (GDT32Pointer lab)) code_segment 0x08 = Some CodeSegDes32 ∧
  load_segment m (table_pointer m (GDT32Pointer lab)) stack_segment 0x10 = Some DataSegment32.
Proof.
  intros [_ [Hlo Hhi]] (Hg & (Hl & (Hb & _)%bytes_in_app)%bytes_in_app)%bytes_in_app.
  change (zlen GDT32_bytes) with 24 in *. change (zlen (le_split 2 _)) with 2 in Hb.
  assert (table_pointer m (GDT32Pointer lab) = (23, GDT32_label lab)) as ->.
  { unfold table_pointer. replace (GDT32Pointer lab) with (GDT32_label lab + 24) by lab_lia lab.
    rewrite (rd16_le_split _ _ _ Hl), (rd32_le_split _ _ _ Hb). by rewrite u32_small by lab_lia lab. }
  apply bytes_in_app in Hg as (_ & (Hc & (Hd & _)%bytes_in_app)%bytes_in_app).
  change (zlen (descriptor_bytes _)) with 8 in *.
  pose proof GDT32_ok as Hok. apply Forall_cons in Hok as [_ Hok]. apply Forall_cons in Hok as [Hokc Hok].
  apply Forall_cons in Hok as [Hokd _]. unfold load_segment. cbn [fst snd].
  replace (GDT32_label lab + 16) with (GDT32_label lab + 8 + 8) by lia.
  rewrite (read_descriptor_bytes _ _ _ Hokc Hc), (read_descriptor_bytes _ _ _ Hokd Hd). by split.
Qed.

(** ** The loader's result *)

Record loaded (lab : labels) (l : list (list Z)) (image : list Z) (h h' : machine) : Prop := {
  ld_map : e820_map (mem h') = region_of_bytes <$> l;
  ld_below : e820_below_screen (mem h');
  ld_image : ∀ i x, image !! i = Some x → rd8 (mem h') (0x10000 + Z.of_nat i) = u8 x;
  ld_tail : ∀ a, 0x16000 <= a < 0xA0000 → rd8 (mem h') a = rd8 (mem h) a;
  ld_cr0 : cr0 h' = Z.lor (cr0 h) 1;
  ld_iflag : iflag h' = false;
  ld_rest : cr2 h' = cr2 h ∧ cr3 h' = cr3 h ∧ ebp h' = ebp h;
  ld_tables : events h' = [Lidt (IDT32Pointer lab); Lgdt (GDT32Pointer lab); Cli; Sti; Cli] ++ events h;
}.

Lemma switch_enters lab h :
  labels_ok lab → bytes_in (mem h) (GDT32_label lab) (stage2_tables lab) →
  ∃ h', SwitchToProtectedMode lab h = Entered h' CodeSegDes32 DataSegment32 ∧ mem h' = mem h ∧
    cr0 h' = Z.lor (cr0 h) 1 ∧ iflag h' = false ∧ (cr2 h' = cr2 h ∧ cr3 h' = cr3 h ∧ ebp h' = ebp h) ∧
    events h' = [Lidt (IDT32Pointer lab); Lgdt (GDT32Pointer lab); Cli] ++ events h.
Proof.
  intros Hlab Ht. destruct (tables_load lab (mem h) Hlab Ht) as [Ec Ed].
  unfold SwitchToProtectedMode, PMEntry. cbn [mem set_cr0 push_event set_iflag cr0].
  rewrite Ec, Ed. eexists. split; [reflexivity|]. done.
Qed.

(** What the two stages write besides the entries: nothing of the second
    stage's tables. *)
Section tables_kept.
Context (b : bios) (lab : labels) (st2 image : list Z) (m m' : memory).
Context (Hlab : labels_ok lab) (Hvid : video_ok b) (Hst2 : stage2_has lab st2).

Definition stage2_memory : memory :=
  print_string b (stage1_MsgSuccess lab) (zlen stage1_MsgSuccess_text) (store_bytes m (16 * 0 + 0x7E00) st2).
Definition packet2_memory : memory := ReadPacket stage2_memory (stage2_ReadPacket lab) 0x30 0 0x1000 9.
Definition kernel_memory : memory := store_bytes packet2_memory (16 * 0x1000 + 0) image.

Lemma stage2_memory_parts :
  bytes_in stage2_memory (stage2_MsgError lab) stage2_strings ∧
  bytes_in stage2_memory (GDT32_label lab) (stage2_tables lab).
Proof using Hlab Hvid Hst2.
  destruct (stage2_has_parts lab st2 _ Hst2 (bytes_in_store m 0x7E00 st2)) as [Hs Ht].
  destruct (lo_stage2 _ Hlab). split; (eapply bytes_in_agree; [|eassumption]); intros x Hx;
    apply (vi_string _ Hvid); [change (zlen stage2_strings) with 87 in Hx|rewrite zlen_tables in Hx]; lab_lia lab.
Qed.

Lemma kernel_memory_tables : bytes_in kernel_memory (GDT32_label lab) (stage2_tables lab).
Proof using Hlab Hvid Hst2.
  destruct stage2_memory_parts as [_ Ht]. eapply bytes_in_agree; [|exact Ht]. intros x Hx.
  rewrite zlen_tables in Hx. destruct (lo_stage2 _ Hlab). unfold kernel_memory, packet2_memory.
  rewrite rd8_store_bytes_out, packet_out by lab_lia lab. done.
Qed.

(** Memory above the image and below the BIOS's. *)
Lemma kernel_memory_above x :
  (length st2 <= 512 * 5)%nat → (length image <= 512 * 0x30)%nat → 0x16000 <= x < 0xA0000 →
  rd8 kernel_memory x = rd8 m x.
Proof using Hlab Hvid.
  intros H2 Hi Hx. destruct (lo_stage2 _ Hlab). unfold kernel_memory, packet2_memory, stage2_memory, print_string.
  rewrite rd8_store_bytes_out by (unfold zlen; lia). rewrite packet_out by lab_lia lab.
  rewrite (vi_string _ Hvid) by lia. apply rd8_store_bytes_out. unfold zlen. lia.
Qed.
End tables_kept.

Lemma boot_loads b lab l image fuel h :
  bios_ok b lab l image → labels_ok lab → (length l < fuel)%nat → 0x5000 + 24 * zlen l <= 0x7C00 →
  ∃ h', boot b lab fuel h = Entered h' CodeSegDes32 DataSegment32 ∧ loaded lab l image h h'.
Proof.
  intros [[Hlba Hs Hent Hvid] (st2 & Hst2 & Hlen2 & Hhas) Himg Hlen] Hlab Hf Hl.
  unfold boot, LoadStage2, stage2, LoadKernel. cbn [mem push_event set_iflag set_esp set_mem].
  rewrite int13_read_packet, Hst2 by lia. cbn [fmap option_fmap option_map].
  rewrite decide_True by done. rewrite int13_read_packet, Himg by lia. cbn [fmap option_fmap option_map].
  set (p1 := ReadPacket (mem h) _ _ _ _ _). fold (stage2_memory b lab st2 p1).
  fold (packet2_memory b lab st2 p1). fold (kernel_memory b lab st2 image p1).
  pose proof (kernel_memory_tables b lab st2 image p1 Hlab Hvid Hhas) as Ht.
  pose proof (kernel_memory_above b lab st2 image p1 Hlab Hvid) as Habove.
  assert (bytes_in (kernel_memory b lab st2 image p1) 0x10000 image) as Hk by apply bytes_in_store.
  set (m1 := kernel_memory _ _ _ _ _) in *. clearbody m1.
  destruct (get_memory_map_lists b lab Hlab l m1 fuel Hs Hent Hf Hl) as (m2 & -> & Hhigh & Hmap).
  destruct (Hmap (video_mode_3 b m2)) as [He Hb]; [intros x Hx; by apply (vi_mode _ Hvid)|].
  destruct (lo_stage2 _ Hlab), (lo_stage1 _ Hlab).
  assert (∀ x, 0x7E00 <= x < 0xA0000 → x < memmap_count lab ∨ memmap_count lab + 2 <= x →
    rd8 (video_mode_3 b m2) x = rd8 m1 x) as Hrd.
  { intros x Hx Hc. rewrite (vi_mode _ Hvid) by lia. apply Hhigh; [lia|done]. }
  destruct (switch_enters lab (set_mem (λ _, video_mode_3 b m2) (set_mem (λ _, stage2_memory b lab st2 p1)
    (push_event Sti (set_iflag true (set_esp 0x7C00 (push_event Cli (set_iflag false h)))))))) as (h' & E & Em & E0 & Ei & Er & Ev);
    [done| |].
  { eapply bytes_in_agree; [|exact Ht]. intros x Hx. rewrite zlen_tables in Hx. apply Hrd; lab_lia lab. }
  exists h'. split; [exact E|]. cbn [set_mem mem] in Em. split; rewrite ?Em; try done.
  - intros i x Exi. pose proof (lookup_lt_Some _ _ _ Exi). rewrite Hrd by lab_lia lab. by apply Hk.
  - intros a Ha. rewrite Hrd by lab_lia lab. rewrite Habove by done. unfold p1. apply packet_out. lab_lia lab.
Qed.

(** ** The ways that do not reach the kernel *)

Lemma texts_are_bytes :
  Forall (λ x, 0 <= x < 256) stage1_MsgError_text ∧ Forall (λ x, 0 <= x < 256) stage2_MsgError_text ∧
  Forall (λ x, 0 <= x < 256) stage2_MsgNoSupport_text.
Proof. split_and!; apply (bool_decide_unpack _); vm_compute; exact I. Qed.

Lemma length_boot_sector code : length (boot_sector code) = 512%nat.
Proof. unfold boot_sector. rewrite !length_app, length_resize. reflexivity. Qed.

(** The data of the boot sector where its labels say. *)
Lemma boot_sector_data lab code m :
  labels_ok lab → zlen code = stage1_MsgError lab - 0x7C00 → bytes_in m 0x7C00 (boot_sector code) →
  bytes_in m (stage1_MsgError lab) stage1_MsgError_text.
Proof.
  intros [[_ Hhi] _] Hc Hm i x E. pose proof (lookup_lt_Some _ _ _ E) as Hi.
  assert (length stage1_MsgError_text = 45%nat) as El by reflexivity.
  replace (stage1_MsgError lab + Z.of_nat i) with (0x7C00 + Z.of_nat (length code + i)) by (unfold zlen in Hc; lia).
  apply Hm. unfold boot_sector. apply lookup_app_l_Some. unfold zlen in Hc.
  rewrite lookup_resize; [|lab_lia lab|rewrite length_app; change (length stage1_data) with 98%nat; lia].
  rewrite lookup_app_r by lia. replace (length code + i - length code)%nat with i by lia.
  by apply lookup_app_l_Some.
Qed.

(** The loader ends in its loop, interrupts enabled, with [text] on the screen. *)
Definition stops (b : bios) (lab : labels) (fuel : nat) (h : machine) (text : list Z) : Prop :=
  ∃ m h', boot b lab fuel h = Stopped text h' ∧ mem h' = write_string b 0x0A text m ∧ iflag h' = true.

Lemma stop_says b bp cx text h :
  cx = zlen text → bytes_in (mem h) bp text → Forall (λ x, 0 <= x < 256) text →
  stop b bp cx h = Stopped text (set_mem (write_string b 0x0A text) h).
Proof. intros -> Hm Ht. unfold stop, set_mem, print_string. by rewrite (bytes_at_in _ _ _ Hm Ht). Qed.

(** C22: the loader's errors.  If the second stage cannot be read from the drive
    of the boot sector, if the first hard disk has no extended functions, or if
    the kernel cannot be read from it, the loader stops, interrupts enabled, with
    the message of that error on the screen. *)
Theorem loader_stops_with_message b lab code fuel h :
  labels_ok lab → video_ok b → zlen code = stage1_MsgError lab - 0x7C00 →
  bytes_in (mem h) 0x7C00 (boot_sector code) →
  (disk b (boot_drive b) 1 5 = None → stops b lab fuel h stage1_MsgError_text) ∧
  ∀ st2, disk b (boot_drive b) 1 5 = Some st2 → stage2_has lab st2 →
    (lba_extension b 0x80 ≠ Some 0xAA55 → stops b lab fuel h stage2_MsgNoSupport_text) ∧
    (lba_extension b 0x80 = Some 0xAA55 → disk b 0x80 9 0x30 = None →
      stops b lab fuel h stage2_MsgError_text).
Proof.
  intros Hlab Hvid Hc Hm. destruct texts_are_bytes as (T1 & T2 & T3), (lo_stage1 _ Hlab), (lo_stage2 _ Hlab).
  unfold stops, boot, LoadStage2. cbn [mem push_event set_iflag set_esp set_mem].
  rewrite int13_read_packet by lia. set (p1 := ReadPacket (mem h) _ _ _ _ _). split.
  - intros ->. cbn [fmap option_fmap option_map]. rewrite (stop_says b _ _ stage1_MsgError_text); [|done| |done].
    + eexists _, _. split; [reflexivity|]. done.
    + eapply bytes_in_agree; [|by apply (boot_sector_data lab code)]. intros x Hx.
      change (zlen stage1_MsgError_text) with 45 in Hx. apply packet_out. lab_lia lab.
  - intros st2 -> Hhas. cbn [fmap option_fmap option_map]. fold (stage2_memory b lab st2 p1).
    destruct (stage2_memory_parts b lab st2 p1 Hlab Hvid Hhas) as [Hs _].
    set (m1 := stage2_memory _ _ _ _) in *. clearbody m1.
    apply bytes_in_app in Hs as (Hs1 & Hs). apply bytes_in_app in Hs as (_ & Hs3). unfold stage2, LoadKernel. split.
    + intros Hno. rewrite decide_False by done. rewrite (stop_says b _ _ stage2_MsgNoSupport_text); [|done..].
      eexists _, _. split; [reflexivity|]. done.
    + intros Hlba Hd. rewrite decide_True by done. cbn [mem set_mem]. rewrite int13_read_packet, Hd by lia.
      cbn [fmap option_fmap option_map]. rewrite (stop_says b _ _ stage2_MsgError_text); [|done| |done].
      * eexists _, _. split; [reflexivity|]. done.
      * eapply bytes_in_agree; [|exact Hs1]. intros x Hx. change (zlen stage2_MsgError_text) with 21 in Hx.
        apply packet_out. lab_lia lab.
Qed.

(** C21: the loader hands the kernel its image and the memory map.  With a BIOS
    that keeps its documentation - the disk is read, the E820 calls list the
    entries [l] and end - the two stages reach the kernel's entry.  The image
    stands at [0x10000], byte for byte; the map the kernel parses is exactly
    [l]; protected mode is on with the flat segments of the loader's table, paging
    and interrupts are off.  The loop ends for every map, and for maps of up to 469 entries it stays clear of the loader. *)
Theorem loader_hands_over b lab l image fuel h :
  bios_ok b lab l image → labels_ok lab → (length l < fuel)%nat → 0x5000 + 24 * zlen l <= 0x7C00 →
  paging_on h = false →
  ∃ h', boot b lab fuel h = Entered h' CodeSegDes32 DataSegment32 ∧ loaded lab l image h h' ∧
    paging_on h' = false ∧ Z.testbit (cr0 h') 0 = true.
Proof.
  intros Hb Hlab Hf Hl Hoff. destruct (boot_loads b lab l image fuel h Hb Hlab Hf Hl) as (h' & E & Hld).
  exists h'. split_and!; [done|done|..]; unfold paging_on in *; rewrite (ld_cr0 _ _ _ _ _ Hld), Z.lor_spec.
  - by rewrite Hoff.
  - apply orb_true_r.
Qed.

(** ** From power-on to the kernel *)

(** The kernel on machine [h], its statics as the image has them. *)
Definition image_state (h : machine) (y : symbols) : kstate :=
  on_hw (λ _, h) (boot_state ∅ y).

Definition usable (l : list (list Z)) : list memory_region_t :=
  ztake MAX_MEMORY_REGIONS (filter (λ r, available r = true) (region_of_bytes <$> l)).

(** The memory map has what [memory_ok] asks for. *)
Record enough_memory (rs : list memory_region_t) (y : symbols) (n : nat) : Prop := {
  em_fits : Forall region_fits rs;
  em_nodup : NoDup (visited (init_max 0 rs) rs);
  em_top : 256 <= init_max 0 rs;
  em_kernel : range_ok (init_max 0 rs) (sym_kernel_start y, sym_kernel_end y);
  em_image : sym_kernel_end y <= PAGE_DIR_START_ADDR;
  em_stack : BITMAP + init_max 0 rs / 8 < BOOT_STACK_LIMIT;
  em_free : ∃ l, NoDup l ∧ length l = n ∧ Forall (λ i, 256 <= i < 1024 ∧
    i ∈ visited (init_max 0 rs) rs ∧ i < zlen (visited (init_max 0 rs) rs) ∧
    in_range i (sym_kernel_start y, sym_kernel_end y) = false) l;
}.

Lemma image_memory_ok lab l image h h' y n :
  loaded lab l image h h' → enough_memory (usable l) y n → memory_ok (image_state h' y) n.
Proof.
  intros Hld [Hfit Hnd Htop Hker Himg Hstk (fs & Hfs & Hlen & Hall)].
  assert (boot_map (mem (hw (image_state h' y))) = usable l) as Eb.
  { unfold boot_map, usable. cbn. by rewrite (ld_map _ _ _ _ _ Hld). }
  split; unfold boot_frames, boot_top; rewrite ?Eb; try done.
  - apply Hld.
  - by apply Forall_singleton.
  - exists fs. split_and!; [done|done|]. eapply Forall_impl; [exact Hall|]. intros i (? & ? & ? & Hr).
    split_and!; [lia..|done|done|]. cbn. by rewrite orb_false_r.
Qed.

(** What [kernel_setup] starts from satisfies [boot_ok]. *)
Lemma loaded_boot_ok lab l image h h' y n :
  loaded lab l image h h' → paging_on h = false → symbols_ok y → enough_memory (usable l) y (19 + n) →
  boot_ok (on_hw (set_esp 0x9FB00) (image_state h' y)) n.
Proof.
  intros Hld Hoff Hy Hmem. split.
  - apply ringbuf_zero_wf.
  - change (Z.testbit (cr0 h') 31 = false). unfold paging_on in Hoff.
    rewrite (ld_cr0 _ _ _ _ _ Hld), Z.lor_spec, Hoff. done.
  - split; reflexivity.
  - vm_compute. discriminate.
  - done.
  - apply (memory_ok_screen (image_state h' y)); try done.
    by apply (image_memory_ok lab l image h).
Qed.

(** The kernel after its set-up, seen from the loader. *)
Record up_from (h' : machine) (y : symbols) (n : nat) (t : kstate) : Prop := {
  uf_setup : kernel_setup (on_hw (set_esp 0x9FB00) (image_state h' y)) = Ok tt t;
  uf_live : stack_live t;
  uf_avail : avail t n;
  uf_iflag : iflag (hw t) = false;
  uf_busy : task_busy (desc t);
  uf_walk : ∀ va, 0 <= va < 2 ^ 32 → ¬ in_stack va →
    resolve (hw t) va = if decide (va < LOW_END) then Some va else None;
}.

Lemma loaded_comes_up lab l image h h' y n :
  loaded lab l image h h' → paging_on h = false → symbols_ok y → enough_memory (usable l) y (19 + n) →
  ∃ t, up_from h' y (S n) t.
Proof.
  intros Hld Hoff Hy Hmem. pose proof (loaded_boot_ok lab l image h h' y n Hld Hoff Hy Hmem) as Hok.
  set (s := on_hw (set_esp 0x9FB00) (image_state h' y)) in *.
  destruct (wp_run kernel_setup (λ _ t, kernel_up s (S n) t) s) as ([] & t & Et & Hup).
  { apply (wp_kernel_setup s n); [exact Hok|]. intros t Hup _. exact Hup. }
  exists t. pose proof Hup as [Hlive Hav Hw Hi Hg _ _ Hif].
  split; [exact Et|exact Hlive|exact Hav| | |exact Hw].
  - rewrite Hif. apply Hld.
  - by apply (tables_busy _ _ _ Hi Hg).
Qed.

(** From power-on to a kernel that is up.  With such a BIOS, a machine whose
    paging is off, and enough memory in the BIOS's list for the boot, the loader
    reaches [_start] and the set-up of [kernel_main] returns: the high stack is
    mapped and live, the allocator sound with frames to spare, and exactly the
    first 4 MB and the stack are mapped, with interrupts off. *)
Theorem power_on_comes_up b lab l image fuel h y n :
  bios_ok b lab l image → labels_ok lab → (length l < fuel)%nat → 0x5000 + 24 * zlen l <= 0x7C00 →
  paging_on h = false → symbols_ok y → enough_memory (usable l) y (19 + n) →
  ∃ h' t, boot b lab fuel h = Entered h' CodeSegDes32 DataSegment32 ∧ up_from h' y (S n) t.
Proof.
  intros Hb Hlab Hf Hl Hoff Hy Hmem.
  destruct (boot_loads b lab l image fuel h Hb Hlab Hf Hl) as (h' & E & Hld).
  destruct (loaded_comes_up lab l image h h' y n Hld Hoff Hy Hmem) as (t & Ht).
  exists h', t. exact (conj E Ht).
Qed.

(** ** A BIOS: the machine of the boot log, 128 MB *)

Definition entry_bytes (r : memory_region_t) : list Z :=
  le_split 8 (r_base r) ++ le_split 8 (r_length r) ++ le_split 4 (r_type r).

Definition log_entries : list (list Z) := entry_bytes <$>
  [Region 0 0x9FC00 1; Region 0x9FC00 0x400 2; Region 0xF0000 0x10000 2;
   Region 0x100000 0x7EE0000 1; Region 0x7FE0000 0x20000 2; Region 0xFFFC0000 0x40000 2].

(** The continuation is the index of the entry. *)
Definition log_e820 (ebx : Z) : e820_reply :=
  match log_entries !! Z.to_nat ebx with
  | Some e => E820Reply SMAP e (if ebx =? 5 then 0 else ebx + 1)
  | None => E820Carry
  end.

Definition log_labels : labels := Labels 0x7C80 0x7E40.

Definition log_stage1 : list Z := boot_sector (replicate 128 0x90).
Definition log_stage2 : list Z := replicate 64 0x90 ++ stage2_data log_labels ++ replicate 100 0x90.
Definition log_image : list Z := replicate (512 * 0x30) 0x90.

(** A machine with one drive, which holds [d], its extended functions if it is a
    hard disk. *)
Definition log_bios_on (drive : Z) (d : Z → Z → option (list Z)) : bios :=
  Bios drive (λ x, if (x =? drive) && (128 <=? x) then Some 0xAA55 else None)
    (λ x, if x =? drive then d else λ _ _, None) log_e820 (λ m, m) (λ _ _ m, m).

Definition log_disk (lba n : Z) : option (list Z) :=
  if lba =? 9 then Some log_image else Some (resize (512 * 5) 0 log_stage2).

Definition log_bios : bios := log_bios_on 0x80 log_disk.

Lemma log_labels_ok : labels_ok log_labels.
Proof. split; vm_compute; split; discriminate. Qed.

Lemma log_video drive d : video_ok (log_bios_on drive d).
Proof. by split. Qed.

Lemma log_services d : bios_services (log_bios_on 0x80 d) log_entries.
Proof.
  split; [reflexivity| |repeat constructor|apply log_video].
  do 5 (eapply serves_more; [reflexivity|discriminate|]). apply serves_last. reflexivity.
Qed.

(** The five sectors read hold the second stage. *)
Lemma stage2_has_resize lab st2 n :
  stage2_has lab st2 → (length st2 <= n)%nat → stage2_has lab (resize n 0 st2).
Proof.
  intros (code & rest & -> & Hc) Hn. rewrite resize_ge by done. eexists code, _. split; [|done].
  by rewrite <- !app_assoc.
Qed.

Lemma log_stage2_has : stage2_has log_labels log_stage2.
Proof. eexists _, _. split; reflexivity. Qed.

Lemma log_stage2_read : stage2_has log_labels (resize (512 * 5) 0 log_stage2).
Proof. apply stage2_has_resize; [exact log_stage2_has|]. apply Nat.leb_le. vm_compute. reflexivity. Qed.

Lemma log_bios_ok : bios_ok log_bios log_labels log_entries log_image.
Proof.
  split; [apply log_services| |reflexivity|by unfold log_image; rewrite length_replicate].
  eexists. split; [reflexivity|]. split; [by rewrite length_resize|exact log_stage2_read].
Qed.

Definition power_on : machine := Machine ∅ 0x10 0 0 0 0 false [].

Lemma loader_hands_over_witness :
  ∃ h', boot log_bios log_labels 7 power_on = Entered h' CodeSegDes32 DataSegment32 ∧
    loaded log_labels log_entries log_image power_on h' ∧
    paging_on h' = false ∧ Z.testbit (cr0 h') 0 = true.
Proof.
  apply (loader_hands_over log_bios log_labels log_entries log_image 7 power_on log_bios_ok log_labels_ok).
  - vm_compute. lia.
  - vm_compute. discriminate.
  - reflexivity.
Defined.

Lemma log_usable : usable log_entries = boot_map (mem (hw boot_machine)).
Proof. rewrite boot_machine_map. vm_compute. reflexivity. Qed.

Lemma log_memory n : (n <= 100)%nat → enough_memory (usable log_entries) linked (19 + n).
Proof.
  intros Hn. destruct (bt_memory _ _ (boot_machine_ok n Hn)) as [_ _ _ _ Hfit Hnd Htop Hker Himg Hstk Hfree].
  unfold boot_top, boot_frames in *. rewrite log_usable. split; [exact Hfit|exact Hnd|exact Htop|exact (Forall_inv Hker)|discriminate|exact Hstk|].
  destruct Hfree as (fs & Hfs & Hlen & Hall). exists fs. split_and!; [exact Hfs|exact Hlen|].
  eapply Forall_impl; [exact Hall|]. cbv beta. intros i (? & ? & ? & Hr).
  split_and!; [lia..|assumption|assumption|]. cbn in Hr. by rewrite orb_false_r in Hr.
Qed.

Lemma power_on_comes_up_witness :
  ∃ h' t, boot log_bios log_labels 7 power_on = Entered h' CodeSegDes32 DataSegment32 ∧ up_from h' linked 3 t.
Proof.
  apply (power_on_comes_up log_bios log_labels log_entries log_image 7 power_on linked 2
    log_bios_ok log_labels_ok).
  - vm_compute. lia.
  - vm_compute. discriminate.
  - reflexivity.
  - exact linked_ok.
  - apply log_memory. lia.
Defined.

(** The same disk in a floppy drive: the second stage looks at the first hard
    disk, and there is none. *)
Definition floppy_machine : machine :=
  set_mem (λ _, store_bytes ∅ 0x7C00 log_stage1) power_on.

Lemma loader_stops_with_message_witness :
  stops (log_bios_on 0 log_disk) log_labels 7 floppy_machine stage2_MsgNoSupport_text ∧
  stops (log_bios_on 0 (λ _ _, None)) log_labels 7 floppy_machine stage1_MsgError_text ∧
  stops (log_bios_on 0x80 (λ lba n, if lba =? 9 then None else log_disk lba n)) log_labels 7 floppy_machine
    stage2_MsgError_text.
Proof.
  assert (bytes_in (mem floppy_machine) 0x7C00 log_stage1) as Hm by apply bytes_in_store.
  split; [|split].
  - refine (proj1 (proj2 (loader_stops_with_message _ _ (replicate 128 0x90) _ _ log_labels_ok (log_video _ _) _ Hm)
      (resize (512 * 5) 0 log_stage2) _ log_stage2_read) _); [reflexivity|reflexivity|discriminate].
  - refine (proj1 (loader_stops_with_message _ _ (replicate 128 0x90) _ _ log_labels_ok (log_video _ _) _ Hm) _);
      reflexivity.
  - refine (proj2 (proj2 (loader_stops_with_message _ _ (replicate 128 0x90) _ _ log_labels_ok (log_video _ _) _ Hm)
      (resize (512 * 5) 0 log_stage2) _ log_stage2_read) _ _); reflexivity.
Defined.

(** The loader's own segments, which the kernel runs on until [gdt_init]. *)
Example GDT32_flat :
  segment <$> GDT32 = [(0, 0, false, false, 0); (0, 2 ^ 32 - 1, true, true, 0xA);
                       (0, 2 ^ 32 - 1, true, true, 2)].
Proof. vm_compute. reflexivity. Qed.
