(* ===== verification/Image.v ===== *)
(** * The disk image: [kernel/linker/kernel.ld] and the [dd] rules of [Makefile]

    The linker script lays the kernel out from [0x10000]; the rules of the
    Makefile put boot sector, second stage and kernel on the disk; the loader
    reads them from fixed sectors.  Here the three fit together: a machine
    started from the built image reaches a kernel whose code, data and cleared
    [.bss] are where the linker placed them.  The older rules of
    [makefile_build/Makefile] do not fit the loader. *)

From Stdlib Require Import ZArith Lia String.
From stdpp Require Import base gmap list.
From S2P Require Import Prelude RingBuf Format Descriptors Machine State Vga Printk Panik MemoryMap Frame Pmm PmmProps Paging PagingProps Arch PageFault Cpu Kernel Boot Bios Loader.

(** ** The linker script *)

(** Output sections in the order of the script, each with the gap its alignment
    leaves before it; the first is [.text], which starts with the first object
    on the linker's command line, [kernel_entry.o]. *)
Record linked_kernel := Linked {
  sections : list (nat * list Z);
  bss_gap : nat;
  bss_size : nat;
}.

Definition section_bytes (s : nat * list Z) : list Z := replicate s.1 0 ++ s.2.

(** [objcopy -O binary]: the sections with contents, gaps filled with zeros. *)
Definition kernel_bin (k : linked_kernel) : list Z := concat (section_bytes <$> sections k).

Definition kernel_start : Z := 0x10000.
Definition bss_start (k : linked_kernel) : Z := kernel_start + zlen (kernel_bin k) + Z.of_nat (bss_gap k).
Definition bss_end (k : linked_kernel) : Z := bss_start k + Z.of_nat (bss_size k).
Definition kernel_end (k : linked_kernel) : Z := bss_end k.

(** ** The disk image *)

(** [dd if=bin of=img bs=512 seek=n conv=notrunc] *)
Definition dd (img : list Z) (seek : nat) (bin : list Z) : list Z :=
  resize (512 * seek) 0 img ++ bin ++ drop (512 * seek + length bin) img.

(** [dd if=/dev/zero bs=1K count=1440] *)
Definition FLOPPY : nat := Z.to_nat (1440 * 1024).

Definition DISK_IMG (stage1 stage2 kernel : list Z) : list Z :=
  dd (dd (dd (replicate FLOPPY 0) 0 stage1) 1 stage2) 9 kernel.

(** [makefile_build]: [count] sectors of each file. *)
Definition boot_img (stage1 stage2 kernel : list Z) : list Z :=
  dd (dd (dd (dd [] 0 (take (512 * 1) stage1)) 1 (take (512 * 5) stage2)) 6 (take (512 * 5) kernel))
    11 (replicate (512 * 1) 0).

(** A disk with this image: a read beyond its end fails. *)
Definition disk_of (img : list Z) (lba n : Z) : option (list Z) :=
  if bool_decide (0 <= lba ∧ 0 <= n ∧ 512 * (lba + n) <= zlen img) then
    Some (ztake (512 * n) (drop (Z.to_nat (512 * lba)) img))
  else None.

(** ** Reading back what was written *)

Lemma length_dd img n bin :
  length (dd img n bin) = (512 * n + length bin + (length img - (512 * n + length bin)))%nat.
Proof. unfold dd. rewrite !length_app, length_resize, length_drop. lia. Qed.

Lemma drop_dd img n bin : drop (512 * n) (dd img n bin) = bin ++ drop (512 * n + length bin) img.
Proof. unfold dd. by rewrite drop_app_length' by by rewrite length_resize. Qed.

(** What is behind the end of [bin] is as before. *)
Lemma drop_dd_behind img n bin k :
  (512 * n + length bin <= k)%nat → drop k (dd img n bin) = drop k img.
Proof.
  intros Hk. replace k with (512 * n + (length bin + (k - 512 * n - length bin)))%nat by lia.
  rewrite <- !drop_drop, drop_dd, drop_app_length', !drop_drop by done. f_equal. lia.
Qed.

(** And what is before it. *)
Lemma take_dd_before img n bin k :
  (k <= 512 * n)%nat → (512 * n <= length img)%nat → take k (dd img n bin) = take k img.
Proof.
  intros Hk Hlen. unfold dd. rewrite take_app_le by (rewrite length_resize; lia).
  rewrite resize_le by done. by rewrite take_take, Nat.min_l by lia.
Qed.

(** A sector range that a file was written to, the rest of the image zero. *)
Lemma take_zeros bin n m :
  (n <= length bin + m)%nat → take n (bin ++ replicate m 0) = resize n 0 bin.
Proof.
  intros Hn. destruct (Nat.le_ge_cases n (length bin)).
  - by rewrite take_app_le, resize_le by done.
  - rewrite take_app_ge, resize_ge, take_replicate by done. do 2 f_equal. lia.
Qed.

Lemma floppy_size : Z.of_nat FLOPPY = 1474560.
Proof. unfold FLOPPY. rewrite Z2Nat.id; lia. Qed.

Section floppy.
Context (s1 s2 k : list Z).
Context (H1 : (length s1 <= 512)%nat) (H2 : (length s2 <= 512 * 8)%nat).
Context (Hk : (length k <= FLOPPY - 512 * 9)%nat).

Lemma length_DISK_IMG : zlen (DISK_IMG s1 s2 k) = 1474560.
Proof using H1 H2 Hk.
  pose proof floppy_size. unfold zlen, DISK_IMG. rewrite !length_dd, length_replicate. lia.
Qed.

Lemma read_kernel n :
  0 <= n <= 2871 → disk_of (DISK_IMG s1 s2 k) 9 n = Some (resize (Z.to_nat (512 * n)) 0 k).
Proof using H1 H2 Hk.
  intros Hn. pose proof floppy_size. unfold disk_of. rewrite length_DISK_IMG.
  rewrite bool_decide_eq_true_2 by lia. f_equal. unfold ztake.
  change (Z.to_nat (512 * 9)) with (512 * 9)%nat. unfold DISK_IMG at 1. rewrite drop_dd.
  rewrite !drop_dd_behind by lia. rewrite drop_replicate. apply take_zeros. lia.
Qed.

Lemma read_stage2 n :
  0 <= n <= 8 → disk_of (DISK_IMG s1 s2 k) 1 n = Some (resize (Z.to_nat (512 * n)) 0 s2).
Proof using H1 H2 Hk.
  intros Hn. pose proof floppy_size. unfold disk_of. rewrite length_DISK_IMG.
  rewrite bool_decide_eq_true_2 by lia. f_equal. unfold ztake.
  change (Z.to_nat (512 * 1)) with (512 * 1)%nat. unfold DISK_IMG at 1.
  rewrite take_drop_commute, take_dd_before, <- take_drop_commute
    by (rewrite ?length_dd, ?length_replicate; lia).
  rewrite drop_dd, drop_dd_behind, drop_replicate by lia. apply take_zeros. lia.
Qed.
End floppy.

(** ** Booting from the image *)

(** The parts have the sizes the loader counts on: the boot sector, and a second
    stage within the five sectors the first one reads. *)
Record parts_ok (lab : labels) (s1 s2 : list Z) : Prop := {
  pa_stage1 : (length s1 <= 512)%nat;
  pa_stage2 : (length s2 <= 512 * 5)%nat;
  pa_data : stage2_has lab s2;
}.

(** The machine's hard disk, from which it starts, is this image. *)
Definition starts_from (b : bios) (img : list Z) : Prop :=
  boot_drive b = 0x80 ∧ ∀ lba c, disk b 0x80 lba c = disk_of img lba c.

Lemma image_bios_ok b lab l s1 s2 k :
  bios_services b l → starts_from b (DISK_IMG s1 s2 k) → parts_ok lab s1 s2 →
  (length k <= FLOPPY - 512 * 9)%nat → bios_ok b lab l (resize (512 * 0x30) 0 k).
Proof.
  intros Hb [Hdr Hd] [H1 H2 Hh] Hk. split; [done| | |by rewrite length_resize].
  - exists (resize (512 * 5) 0 s2). rewrite Hdr, Hd, read_stage2 by lia.
    split; [done|]. split; [by rewrite length_resize|]. by apply stage2_has_resize.
  - by rewrite Hd, read_kernel by lia.
Qed.

(** The linked kernel in memory: sections where the linker put them, [.bss] zero. *)
Record kernel_in_memory (k : linked_kernel) (m : memory) : Prop := {
  km_bin : ∀ i x, kernel_bin k !! i = Some x → rd8 m (kernel_start + Z.of_nat i) = u8 x;
  km_bss : ∀ a, bss_start k <= a < bss_end k → rd8 m a = 0;
}.

Lemma loaded_kernel lab l k h h' :
  loaded lab l (resize (512 * 0x30) 0 (kernel_bin k)) h h' → kernel_end k <= 0x16000 →
  kernel_in_memory k (mem h').
Proof.
  intros Hld Hend. pose proof (ld_image _ _ _ _ _ Hld) as Him.
  unfold kernel_end, bss_end, bss_start, kernel_start in *. rewrite resize_ge in Him by (unfold zlen in *; lia).
  split; unfold bss_start, bss_end, kernel_start.
  - intros i x Ei. apply Him. by apply lookup_app_l_Some.
  - intros a Ha. unfold bss_end, bss_start, kernel_start in Ha. unfold zlen in *.
    replace a with (0x10000 + Z.of_nat (Z.to_nat (a - 0x10000))) by lia.
    rewrite (Him _ 0); [done|]. rewrite lookup_app_r by lia. apply lookup_replicate. split; [done|lia].
Qed.

(** C4: the built disk boots.  The Makefile's image of boot sector, second stage
    and linked kernel, whose [.bss] ends by [0x16000], on a machine with a
    documented BIOS and memory within the bounds of [kernel_setup_comes_up] (no
    overlapping regions, none that ends above [0xFFFFF000], less than 1.75 GB,
    and 19 + [n] frames between 1 MB and 4 MB): the loader finds
    every part in its sectors, all of the kernel stands where the linker placed
    it - the [.bss] too, cleared by the zeros behind the kernel on the disk - and
    the set-up of [kernel_main] returns. *)
Theorem disk_image_boots b lab l s1 s2 k fuel h y n :
  bios_services b l → starts_from b (DISK_IMG s1 s2 (kernel_bin k)) →
  parts_ok lab s1 s2 → kernel_end k <= 0x16000 → labels_ok lab →
  (length l < fuel)%nat → 0x5000 + 24 * zlen l <= 0x7C00 → paging_on h = false →
  symbols_ok y → enough_memory (usable l) y (19 + n) →
  ∃ h' t, boot b lab fuel h = Entered h' CodeSegDes32 DataSegment32 ∧ kernel_in_memory k (mem h') ∧
    e820_map (mem h') = region_of_bytes <$> l ∧ up_from h' y (S n) t.
Proof.
  intros Hb Hd Hparts Hend Hlab Hf Hl Hoff Hy Hmem. pose proof floppy_size.
  assert (length (kernel_bin k) <= FLOPPY - 512 * 9)%nat as Hk.
  { unfold kernel_end, bss_end, bss_start, kernel_start, zlen in Hend. lia. }
  pose proof (image_bios_ok b lab l s1 s2 _ Hb Hd Hparts Hk) as Hbios.
  destruct (boot_loads b lab l _ fuel h Hbios Hlab Hf Hl) as (h' & E & Hld).
  destruct (loaded_comes_up lab l _ h h' y n Hld Hoff Hy Hmem) as (t & Ht).
  exists h', t. split; [exact E|]. split; [by apply (loaded_kernel lab l k h)|].
  exact (conj (ld_map _ _ _ _ _ Hld) Ht).
Qed.

(** What does not fit is not loaded.  The second stage reads 48 sectors
    whatever the size of the kernel: memory from [0x16000] on, where the rest of
    a larger kernel's data and [.bss] belongs, keeps what it held before. *)
Theorem kernel_tail_not_loaded b lab l s1 s2 k fuel h :
  bios_services b l → starts_from b (DISK_IMG s1 s2 (kernel_bin k)) →
  parts_ok lab s1 s2 → (length (kernel_bin k) <= FLOPPY - 512 * 9)%nat → labels_ok lab →
  (length l < fuel)%nat → 0x5000 + 24 * zlen l <= 0x7C00 →
  ∃ h', boot b lab fuel h = Entered h' CodeSegDes32 DataSegment32 ∧
    ∀ a, 0x16000 <= a < 0xA0000 → rd8 (mem h') a = rd8 (mem h) a.
Proof.
  intros Hb Hd Hparts Hk Hlab Hf Hl.
  pose proof (image_bios_ok b lab l s1 s2 _ Hb Hd Hparts Hk) as Hbios.
  destruct (boot_loads b lab l _ fuel h Hbios Hlab Hf Hl) as (h' & E & Hld).
  exists h'. exact (conj E (ld_tail _ _ _ _ _ Hld)).
Qed.

(** The older image does not boot.  [makefile_build] makes an image of twelve
    sectors with the kernel in the seventh; the second stage asks for 48 sectors
    from the tenth, which the disk does not have. *)
Theorem boot_img_read_error b lab s1 s2 k fuel h :
  lba_extension b 0x80 = Some 0xAA55 → starts_from b (boot_img s1 s2 k) →
  ∃ text h', boot b lab fuel h = Stopped text h'.
Proof.
  intros Hlba [Hdr Hd].
  assert (zlen (boot_img s1 s2 k) = 6144) as Hlen.
  { unfold zlen, boot_img. rewrite !length_dd, length_replicate, !length_take. cbn [length]. lia. }
  unfold boot, LoadStage2, stage2, LoadKernel. cbn [mem push_event set_iflag set_esp set_mem].
  rewrite int13_read_packet, Hdr, Hd by lia. unfold disk_of at 1. rewrite Hlen.
  rewrite bool_decide_eq_true_2 by lia. cbn [fmap option_fmap option_map].
  rewrite decide_True by done. rewrite int13_read_packet, Hd by lia. unfold disk_of at 1. rewrite Hlen.
  rewrite bool_decide_eq_false_2 by lia. cbn [fmap option_fmap option_map]. by eexists _, _.
Qed.

(** ** A disk *)

(** [_start] of [kernel_entry.asm], the rest of the code, data, and [.bss]. *)
Definition small_kernel : linked_kernel :=
  Linked [(O, [0xBC; 0x00; 0xFB; 0x09; 0x00] ++ replicate (9 * 1000) 0x90); (27%nat, replicate 3000 0x41);
          (8%nat, replicate 100 7)] 4 (9 * 1000).

Definition hard_disk_bios (img : list Z) : bios := log_bios_on 0x80 (disk_of img).
Definition built_disk_bios : bios := hard_disk_bios (DISK_IMG log_stage1 log_stage2 (kernel_bin small_kernel)).

Lemma hard_disk_starts img : starts_from (hard_disk_bios img) img.
Proof. by split. Qed.

Lemma small_parts : parts_ok log_labels log_stage1 log_stage2.
Proof.
  split; [unfold log_stage1; by rewrite length_boot_sector| |exact log_stage2_has].
  apply Nat.leb_le. vm_compute. reflexivity.
Qed.

Lemma disk_image_boots_witness :
  ∃ h' t, boot built_disk_bios log_labels 7 power_on = Entered h' CodeSegDes32 DataSegment32 ∧ kernel_in_memory small_kernel (mem h') ∧
    e820_map (mem h') = region_of_bytes <$> log_entries ∧ up_from h' linked 3 t.
Proof.
  apply (disk_image_boots built_disk_bios log_labels log_entries log_stage1 log_stage2 small_kernel 7
    power_on linked 2).
  - apply log_services.
  - apply hard_disk_starts.
  - exact small_parts.
  - vm_compute. discriminate.
  - exact log_labels_ok.
  - vm_compute. lia.
  - vm_compute. discriminate.
  - reflexivity.
  - exact linked_ok.
  - apply log_memory. lia.
Defined.

(** A kernel with a large table in its data. *)
Definition large_kernel : linked_kernel :=
  Linked [(O, [0xBC; 0x00; 0xFB; 0x09; 0x00] ++ replicate (30 * 1000) 0x90)] 0 4096.

Lemma kernel_tail_not_loaded_witness :
  ∃ h', boot (hard_disk_bios (DISK_IMG log_stage1 log_stage2 (kernel_bin large_kernel)))
      log_labels 7 power_on = Entered h' CodeSegDes32 DataSegment32 ∧
    ∀ a, 0x16000 <= a < 0xA0000 → rd8 (mem h') a = rd8 (mem power_on) a.
Proof.
  apply (kernel_tail_not_loaded _ log_labels log_entries log_stage1 log_stage2 large_kernel 7 power_on).
  - apply log_services.
  - apply hard_disk_starts.
  - exact small_parts.
  - assert (zlen (kernel_bin large_kernel) = 30005) as Hk by (vm_compute; reflexivity).
    pose proof floppy_size. unfold zlen in Hk. lia.
  - exact log_labels_ok.
  - vm_compute. lia.
  - vm_compute. discriminate.
Defined.

Lemma boot_img_read_error_witness :
  ∃ text h', boot (hard_disk_bios (boot_img log_stage1 log_stage2 (kernel_bin small_kernel)))
    log_labels 7 power_on = Stopped text h'.
Proof.
  apply (boot_img_read_error _ log_labels log_stage1 log_stage2 (kernel_bin small_kernel)).
  - reflexivity.
  - apply hard_disk_starts.
Defined.
