(* ===== verification/Power.v ===== *)
(** * The whole machine: power on, load, run, reset

    Loader and kernel in one state machine.  The processor starts in the boot
    sector, the loader enters the kernel, and the kernel's run ends in a halt, or
    in a reset that starts over with the same disk and whatever memory then
    holds.  The kernel as it is, with its overflow test at the end of
    [kernel_main], never halts: it comes up, recovers from its first page fault,
    overflows its stack and resets, and the machine boots over and over. *)

From Stdlib Require Import ZArith Lia String.
From stdpp Require Import base gmap list relations.
From S2P Require Import Prelude RingBuf Format Descriptors Machine State Vga Printk Panik MemoryMap Frame Pmm PmmProps Paging PagingProps Arch PageFault Cpu Kernel Boot Bios Loader Image.

Inductive phase :=
  | InBootSector (h : machine)   (* at [0x7C00] *)
  | InKernel (s : kstate)        (* at [_start] *)
  | InReset (r : kstate)         (* shut down after a third fault *)
  | AtRest.                      (* in a [hlt] loop *)

(** Real mode, as after a reset and in the BIOS. *)
Definition real_mode (h : machine) : Prop := paging_on h = false ∧ 0 <= ebp h < 2 ^ 32.

Section power.
Context (b : bios) (lab : labels) (fuel : nat) (y : symbols).

(** [cx] is the context of the store into the heap that faults, [frame_size] the
    size of a frame of the overflow test: the compiler's choices. *)
Inductive power_step : relation phase :=
  | Power_load h h' :
      boot b lab fuel h = Entered h' CodeSegDes32 DataSegment32 →
      power_step (InBootSector h) (InKernel (image_state h' y))
  | Power_error h text h' :
      boot b lab fuel h = Stopped text h' → power_step (InBootSector h) AtRest
  | Power_fault h h' :
      boot b lab fuel h = Reset → real_mode h' → power_step (InBootSector h) (InBootSector h')
  | Power_shutdown cx frame_size s r :
      context_ok cx → if_set (cx_eflags cx) = false → 512 <= frame_size <= 4092 →
      _start (retry cx ERROR_WRITE) 128 frame_size s = Undef (UbReset r) →
      power_step (InKernel s) (InReset r)
  | Power_reset r h :
      real_mode h → power_step (InReset r) (InBootSector h)
  | Power_halt cx frame_size s s' :
      context_ok cx → if_set (cx_eflags cx) = false → 512 <= frame_size <= 4092 →
      _start (retry cx ERROR_WRITE) 128 frame_size s = Halted s' →
      power_step (InKernel s) AtRest.

Context (l : list (list Z)) (image : list Z).
Context (Hbios : bios_ok b lab l image) (Hlab : labels_ok lab) (Hfuel : (length l < fuel)%nat).
Context (Hmap : 0x5000 + 24 * zlen l <= 0x7C00).
Context (Hsyms : symbols_ok y) (Hmem : enough_memory (usable l) y 20).

(** What holds in every phase: the loader has real mode, the kernel the state in
    which the loader entered it, and the processor shuts down at the end of the
    overflow test. *)
Definition phase_ok (p : phase) : Prop :=
  match p with
  | InBootSector h => real_mode h
  | InKernel s => ∃ h h', real_mode h ∧ loaded lab l image h h' ∧ s = image_state h' y
  | InReset r => overflow_end y r
  | AtRest => False
  end.

(** The phases of one round, in their order. *)
Definition in_turn (p q : phase) : Prop :=
  match p, q with
  | InBootSector _, InKernel _ | InKernel _, InReset _ | InReset _, InBootSector _ => True
  | _, _ => False
  end.

Lemma start_resets cx frame_size h h' :
  context_ok cx → if_set (cx_eflags cx) = false → 512 <= frame_size <= 4092 →
  real_mode h → loaded lab l image h h' →
  ∃ r, _start (retry cx ERROR_WRITE) 128 frame_size (image_state h' y) = Undef (UbReset r) ∧
    overflow_end y r.
Proof using Hsyms Hmem.
  intros Hcx Hif Hfs [Hoff Hbp] Hld.
  apply (kernel_run_resets cx frame_size (on_hw (set_esp 0x9FB00) (image_state h' y))).
  - by apply (loaded_boot_ok lab l image h).
  - done.
  - rewrite Hif. symmetry. apply Hld.
  - destruct (ld_rest _ _ _ _ _ Hld) as (_ & _ & E).
    change (0 <= ebp h' < 2 ^ 32). by rewrite E.
  - done.
Qed.

Lemma phase_ok_step p q : power_step p q → phase_ok p → phase_ok q ∧ in_turn p q.
Proof using All.
  intros [h h' E|h text h' E|h h' E Hr|cx frame_size s r Hcx Hif Hfs E|r h Hr|cx frame_size s s' Hcx Hif Hfs E]
    Hp; simpl in *.
  - destruct (boot_loads b lab l image fuel h Hbios Hlab Hfuel Hmap) as (h1 & E1 & Hld).
    assert (h1 = h') as -> by congruence. split; [by exists h, h'|done].
  - destruct (boot_loads b lab l image fuel h Hbios Hlab Hfuel Hmap) as (h1 & E1 & Hld). congruence.
  - destruct (boot_loads b lab l image fuel h Hbios Hlab Hfuel Hmap) as (h1 & E1 & Hld). congruence.
  - destruct Hp as (h & h' & Hr & Hld & ->).
    destruct (start_resets cx frame_size h h' Hcx Hif Hfs Hr Hld) as (r' & E' & Hend).
    rewrite E in E'. injection E' as ->. done.
  - done.
  - destruct Hp as (h & h' & Hr & Hld & ->).
    destruct (start_resets cx frame_size h h' Hcx Hif Hfs Hr Hld) as (r' & E' & _). by rewrite E in E'.
Qed.

Lemma phase_ok_reachable p q : rtc power_step p q → phase_ok p → phase_ok q.
Proof using All.
  induction 1 as [|p q r Hs _ IH]; [done|]. intros Hp. apply IH, (phase_ok_step p q Hs Hp).
Qed.

(** From every such phase a reset comes, after the load if it is still to do. *)
Lemma phase_ok_resets cx frame_size p h :
  context_ok cx → if_set (cx_eflags cx) = false → 512 <= frame_size <= 4092 →
  phase_ok p → real_mode h → tc power_step p (InBootSector h).
Proof using All.
  intros Hcx Hif Hfs Hp Hr.
  assert (∀ h0 h', real_mode h0 → loaded lab l image h0 h' →
    tc power_step (InKernel (image_state h' y)) (InBootSector h)) as Hreset.
  { intros h0 h' Hr0 Hld. destruct (start_resets cx frame_size h0 h' Hcx Hif Hfs Hr0 Hld) as (r & E & _).
    eapply tc_l; [by apply (Power_shutdown cx frame_size _ r)|]. apply tc_once. by constructor. }
  destruct p as [h0|s|r|]; [| | |done].
  - destruct (boot_loads b lab l image fuel h0 Hbios Hlab Hfuel Hmap) as (h' & E & Hld).
    eapply tc_l; [by constructor|]. by apply (Hreset h0).
  - destruct Hp as (h0 & h' & Hr0 & Hld & ->). by apply (Hreset h0).
  - apply tc_once. by constructor.
Qed.
End power.

(** C5: the machine boots for ever.  With a documented BIOS and memory within the
    bounds of [kernel_setup_comes_up], whatever contexts
    the compiler's code faults in and whatever memory holds after each reset,
    load, kernel run and reset follow each other for ever, and nothing else
    happens.  In every phase that the powered-on machine reaches: the kernel is
    entered with the image and the memory map loaded; it shuts down only at the
    end of its overflow test, in a machine that has come up - paging on, console
    and allocator in order, stack mapped, tables loaded - and has recovered from
    its first page fault - the heap page, which the setup had not mapped, is
    mapped and holds the 42 written to it - with stack pointer and fault address
    in the guard page; it never halts; and from every phase the processor comes
    back to the boot sector. *)
Theorem machine_boots_forever b lab fuel y l image cx frame_size h p :
  bios_ok b lab l image → labels_ok lab → (length l < fuel)%nat → 0x5000 + 24 * zlen l <= 0x7C00 →
  symbols_ok y → enough_memory (usable l) y 20 →
  context_ok cx → if_set (cx_eflags cx) = false → 512 <= frame_size <= 4092 →
  real_mode h → rtc (power_step b lab fuel y) (InBootSector h) p →
  phase_ok lab y l image p ∧ (∀ q, power_step b lab fuel y p q → in_turn p q) ∧
  ∀ h', real_mode h' → tc (power_step b lab fuel y) p (InBootSector h').
Proof.
  intros Hb Hlab Hf Hm Hy Hmem Hcx Hif Hfs Hr Hp.
  assert (phase_ok lab y l image p) as Hok by (by apply (phase_ok_reachable b lab fuel y l image) in Hp).
  split; [done|]. split.
  - intros q Hq. by apply (phase_ok_step b lab fuel y l image Hb Hlab Hf Hm Hy Hmem p q).
  - intros h' Hr'. by apply (phase_ok_resets b lab fuel y l image Hb Hlab Hf Hm Hy Hmem cx frame_size).
Qed.

(** The machine of the boot log with the built disk, after its first reset. *)
Lemma machine_boots_forever_witness :
  phase_ok log_labels linked log_entries (resize (512 * 0x30) 0 (kernel_bin small_kernel))
    (InBootSector (set_cr2 0xC2FF0FF8 power_on)) ∧
  (∀ q, power_step built_disk_bios log_labels 7 linked (InBootSector (set_cr2 0xC2FF0FF8 power_on)) q →
     in_turn (InBootSector (set_cr2 0xC2FF0FF8 power_on)) q) ∧
  ∀ h', real_mode h' → tc (power_step built_disk_bios log_labels 7 linked)
    (InBootSector (set_cr2 0xC2FF0FF8 power_on)) (InBootSector h').
Proof.
  assert (zlen (kernel_bin small_kernel) = 12140) as Hk by (vm_compute; reflexivity).
  assert (bios_ok built_disk_bios log_labels log_entries (resize (512 * 0x30) 0 (kernel_bin small_kernel))) as Hb.
  { apply (image_bios_ok _ _ _ log_stage1 log_stage2); [apply log_services|apply hard_disk_starts|exact small_parts|].
    pose proof floppy_size. unfold zlen in Hk. lia. }
  assert (real_mode power_on) as Hr0 by (split; [reflexivity|cbn; lia]).
  assert (real_mode (set_cr2 0xC2FF0FF8 power_on)) as Hr1 by (split; [reflexivity|cbn; lia]).
  assert (enough_memory (usable log_entries) linked 20) as Hmem by (apply log_memory; lia).
  refine (machine_boots_forever built_disk_bios log_labels 7 linked log_entries _ boot_context 600 power_on _
    Hb log_labels_ok _ _ linked_ok Hmem boot_context_ok eq_refl _ Hr0 _).
  - vm_compute. lia.
  - vm_compute. discriminate.
  - lia.
  - apply tc_rtc, (phase_ok_resets built_disk_bios log_labels 7 linked log_entries _ Hb log_labels_ok) with boot_context 600;
      [vm_compute; lia|vm_compute; discriminate|exact linked_ok|exact Hmem|exact boot_context_ok|reflexivity|lia
      |exact Hr0|exact Hr1].
Defined.
