(* ===== verification/Tests.v ===== *)
(** * The kernel's own tests: [kernel/tests/test_panik.c] and [test_printk.c]

    The tests are compiled in with KERNEL_TESTS.  The counters of [test_panik.c]
    are threaded through the functions; [__FILE__] is a parameter.  In test mode
    every panic returns, so the whole suite runs to its end, and it passes. *)

From Stdlib Require Import ZArith Lia String.
From stdpp Require Import base gmap list.
From S2P Require Import Prelude RingBuf Format Descriptors Machine State Vga Printk Panik.

(** ** [test_printk.c] *)

Definition run_printk_tests : M unit :=
  pr_info (C "Kernel initialized successfully.\n") [];;
  pr_emerg (C "Emergency test message\n") [];;
  pr_alert (C "Alert test message\n") [];;
  pr_crit (C "Critical test message\n") [];;
  pr_err (C "Error test message\n") [];;
  pr_warning (C "Warning test message\n") [];;
  pr_notice (C "Notice test message\n") [];;
  pr_debug (C "Debug test message\n") [];;
  printk (C "Regular printk message (defaults to INFO level)\n\n") [];;
  vga_print_string (C "Testing different colors:\n") WHITE_ON_BLACK;;
  vga_print_string (C "White on Black\n") WHITE_ON_BLACK;;
  vga_print_string (C "Red on White\n") RED_ON_WHITE;;
  vga_print_string (C "Green on Black\n") GREEN_ON_BLACK;;
  vga_print_string (C "Yellow on Black\n") YELLOW_ON_BLACK;;
  printk (C "\nTesting printk formatting:\n") [];;
  printk (C "String: %s\n") [AStr (Some (C "Hello World"))];;
  printk (C "Character: %c\n") [AWord (ch "A")];;
  printk (C "Decimal: %d\n") [AWord 42];;
  printk (C "Hexadecimal: 0x%x\n") [AWord 255];;
  printk (C "Pointer: %p\n") [AWord 0xDEADBEEF];;
  mret tt.

Definition run_printk_scrolling_test : M unit :=
  printk (C "\nScrolling test:\n") [];;
  for_ 30 0 (λ i,
    printk (C "Line %d - Testing kernel scrolling functionality\n") [AWord i];; mret tt).

(** ** [test_panik.c] *)

Record test_counters := Counters { tests_run : Z; tests_passed : Z; tests_failed : Z }.

Definition TEST_ASSERT (condition : bool) (message : list Z) (c : test_counters) : M test_counters :=
  if condition then
    pr_info (C "[PASS] %s\n") [AStr (Some message)];;
    mret (Counters (s32 (tests_run c + 1)) (s32 (tests_passed c + 1)) (tests_failed c))
  else
    pr_err (C "[FAIL] %s\n") [AStr (Some message)];;
    mret (Counters (s32 (tests_run c + 1)) (tests_passed c) (s32 (tests_failed c + 1))).

Definition test_null_pointer_panik (c : test_counters) : M test_counters :=
  pr_notice (C "Testing: Null pointer dereference detection\n") [];;
  reset_panik_state;;
  let ptr := 0 in
  (if ptr =? 0 then panik (C "Null pointer dereference at %p") [AWord ptr] else mret tt);;
  state ← get_panik_state;
  TEST_ASSERT (panik_called state =? 1) (C "Null pointer panik triggered") c.

Definition test_memory_corruption_panik (c : test_counters) : M test_counters :=
  pr_notice (C "Testing: Memory corruption detection\n") [];;
  reset_panik_state;;
  let magic := 0xDEADBEEF in
  let corrupted := 0x12345678 in
  (if negb (magic =? 0xDEADBEEF) then
     panik (C "Memory corruption detected: magic=0x%x expected=0x%x") [AWord corrupted; AWord magic]
   else mret tt);;
  panik (C "Stack canary corruption detected at 0x%x") [AWord 0xDEADBEEF];;
  state ← get_panik_state;
  TEST_ASSERT (panik_called state =? 1) (C "Memory corruption panik triggered") c.

Definition test_division_by_zero_panik (c : test_counters) : M test_counters :=
  pr_notice (C "Testing: Division by zero detection\n") [];;
  reset_panik_state;;
  let divisor := 0 in
  (if divisor =? 0 then panik (C "Division by zero in kernel code") [] else mret tt);;
  state ← get_panik_state;
  TEST_ASSERT (panik_called state =? 1) (C "Division by zero panik triggered") c.

Definition test_assert_failures (file : list Z) (c : test_counters) : M test_counters :=
  pr_notice (C "Testing: Kernel assertions\n") [];;
  reset_panik_state;;
  KASSERT (2 + 2 =? 5) (C "2 + 2 == 5") file 99 (C "test_assert_failures");;
  state ← get_panik_state;
  c ← TEST_ASSERT (panik_called state =? 1) (C "Assert failure triggered panik") c;
  reset_panik_state;;
  BUG_ON true file 106 (C "test_assert_failures");;
  state ← get_panik_state;
  TEST_ASSERT (panik_called state =? 1) (C "BUG_ON triggered panik") c.

Definition test_stack_overflow_panik (c : test_counters) : M test_counters :=
  pr_notice (C "Testing: Stack overflow detection\n") [];;
  reset_panik_state;;
  panik (C "Stack overflow detected: SP=0x%x limit=0x%x") [AWord 0x1000; AWord 0x2000];;
  state ← get_panik_state;
  TEST_ASSERT (panik_called state =? 1) (C "Stack overflow panik triggered") c.

Definition test_hardware_fault_panik (c : test_counters) : M test_counters :=
  pr_notice (C "Testing: Hardware fault handling\n") [];;
  reset_panik_state;;
  panik (C "Page fault in kernel mode: CR2=0x%x EIP=0x%x") [AWord 0xDEADBEEF; AWord 0x12345678];;
  state ← get_panik_state;
  TEST_ASSERT (panik_called state =? 1) (C "Hardware fault panik triggered") c.

Definition test_panik_with_real_formatting (c : test_counters) : M test_counters :=
  pr_notice (C "Testing: Real panik message formatting\n") [];;
  reset_panik_state;;
  panik (C "Unable to mount root fs on unknown-block(%d,%d)") [AWord 8; AWord 1];;
  state ← get_panik_state;
  c ← TEST_ASSERT (panik_called state =? 1) (C "Formatted panik message works") c;
  state ← get_panik_state;
  pr_info (C "panik message: %s\n") [AStr (Some (last_panik_msg state))];;
  mret c.

(** The tests one after the other. *)
Definition panik_tests (file : list Z) (c : test_counters) : M test_counters :=
  c ← test_null_pointer_panik c;
  c ← test_memory_corruption_panik c;
  c ← test_division_by_zero_panik c;
  c ← test_assert_failures file c;
  c ← test_stack_overflow_panik c;
  c ← test_hardware_fault_panik c;
  test_panik_with_real_formatting c.

Definition run_panik_unit_tests (file : list Z) (c : test_counters) : M test_counters :=
  pr_notice (C "=== KERNEL panik TESTS - Real Scenarios ===\n") [];;
  set_panik_mode PANIK_MODE_TEST;;
  pr_info (C "panik mode: TEST (safe for testing)\n") [];;
  c ← panik_tests file (Counters 0 0 (tests_failed c));
  pr_notice (C "\n=== TEST RESULTS ===\n") [];;
  pr_info (C "Tests run: %d\n") [AWord (tests_run c)];;
  pr_info (C "Tests passed: %d\n") [AWord (tests_passed c)];;
  pr_info (C "Tests failed: %d\n") [AWord (tests_run c - tests_passed c)];;
  (if tests_passed c =? tests_run c then
     pr_info (C "✓ All kernel panik scenarios tested successfully!\n") []
   else pr_err (C "✗ Some tests failed!\n") []);;
  state ← get_panik_state;
  pr_info (C "Total panik calls: %d\n") [AWord (panik_call_count state)];;
  pr_notice (C "=== END TESTS ===\n") [];;
  pr_warning (C "\nTo test REAL panik (system will halt):\n") [];;
  pr_warning (C "1. Edit this file and uncomment the manual test\n") [];;
  pr_warning (C "2. Run: make clean && make kernel && make run\n") [];;
  pr_warning (C "WARNING: System will require reset!\n") [];;
  mret c.

(** ** The block of [high_stack_entry] under KERNEL_TESTS *)

Definition kernel_tests (file : list Z) (c : test_counters) : M test_counters :=
  printk (C "\n==================================================\n") [];;
  printk (C "Tests Running...\n") [];;
  run_printk_tests;;
  run_printk_scrolling_test;;
  c ← run_panik_unit_tests file c;
  printk (C "==================================================\n") [];;
  mret c.

(** ** What the console tests print *)

(** A message with its level, which goes to the log and to the screen, or a
    string for the screen alone. *)
Inductive test_line :=
  | Logged (level : option loglevel) (text : list Z)
  | Shown (color : Z) (text : list Z).

Definition line_log (l : test_line) : list Z :=
  match l with Logged level text => prefix_text level ++ text | Shown _ _ => [] end.

Definition line_term (t : term) (l : test_line) : term :=
  match l with
  | Logged level text => term_message t level text
  | Shown color text => term_print color t (c_str text)
  end.

Definition level (i : nat) : option loglevel := loglevels !! i.

Definition printk_test_lines : list test_line := [
  Logged (level 6) (C "Kernel initialized successfully.\n");
  Logged (level 0) (C "Emergency test message\n");
  Logged (level 1) (C "Alert test message\n");
  Logged (level 2) (C "Critical test message\n");
  Logged (level 3) (C "Error test message\n");
  Logged (level 4) (C "Warning test message\n");
  Logged (level 5) (C "Notice test message\n");
  Logged (level 7) (C "Debug test message\n");
  Logged None (C "Regular printk message (defaults to INFO level)\n\n");
  Shown 0x0F (C "Testing different colors:\n");
  Shown 0x0F (C "White on Black\n");
  Shown 0xF4 (C "Red on White\n");
  Shown 0x02 (C "Green on Black\n");
  Shown 0x0E (C "Yellow on Black\n");
  Logged None (C "\nTesting printk formatting:\n");
  Logged None (C "String: Hello World\n");
  Logged None (C "Character: A\n");
  Logged None (C "Decimal: 42\n");
  Logged None (C "Hexadecimal: 0xff\n");
  Logged None (C "Pointer: 0xdeadbeef\n")].

Definition scrolling_line (i : Z) : test_line :=
  Logged None (C "Line " ++ dec_str i ++ C " - Testing kernel scrolling functionality\n").

Definition scrolling_test_lines : list test_line :=
  Logged None (C "\nScrolling test:\n") :: (scrolling_line <$> zrange 0 30).

(** The console after these lines. *)
Definition lines_post (s : kstate) (l : list test_line) (s' : kstate) : Prop :=
  message_post s (concat (line_log <$> l)) (foldl line_term (term_of s) l) s'.

Lemma lines_post_snoc s l x s1 s2 :
  lines_post s l s1 → message_post s1 (line_log x) (line_term (term_of s1) x) s2 →
  lines_post s (l ++ [x]) s2.
Proof.
  intros H1 H2. unfold lines_post. rewrite fmap_app, concat_app, foldl_snoc. cbn. rewrite app_nil_r.
  pose proof H1 as (_ & _ & _ & E). rewrite E in H2. by eapply message_post_trans.
Qed.

Lemma lines_post_start s : console_ok s → lines_post s [] s.
Proof. by apply message_post_refl. Qed.

Lemma wp_logged {A} fmt args lv body out (k : M A) s0 l s (Q : A → kstate → Prop) P :
  lines_post s0 l s → split_level fmt = (lv, body) → my_vsnprintf LOG_BUF_SIZE body args = FOk out →
  (∀ s', lines_post s0 (l ++ [Logged lv out]) s' → wp k Q P s') → wp (printk fmt args;; k) Q P s.
Proof.
  intros Hs Hl Hf HQ. wp_step. apply (wp_printk_text fmt args lv body out); [done|apply Hs|done|].
  intros s' Hs'. apply HQ. by apply (lines_post_snoc s0 l _ s).
Qed.

Lemma wp_shown {A} str color (k : M A) s0 l s (Q : A → kstate → Prop) P :
  lines_post s0 l s →
  (∀ s', lines_post s0 (l ++ [Shown color str]) s' → wp k Q P s') →
  wp (vga_print_string str color;; k) Q P s.
Proof.
  intros Hs HQ. wp_step. apply wp_halts. wp_call (wp_vga_print_string str color s); [apply Hs|].
  intros [] s' [(Hok & F & L & T) _]. apply HQ. apply (lines_post_snoc s0 l _ s); [done|].
  split_and!; [done|done| |done]. rewrite L. cbn [line_log]. rewrite app_nil_r.
  pose proof (message_post_refl s) as (_ & _ & E & _); [apply Hs|]. by rewrite app_nil_r in E.
Qed.

Ltac test_line :=
  lazymatch goal with
  | |- wp (printk _ _;; _) _ _ _ => eapply wp_logged; [eassumption|reflexivity|vm_compute; reflexivity|]
  | |- wp (vga_print_string _ _;; _) _ _ _ => eapply wp_shown; [eassumption|]
  end; let s := fresh "s" in let H := fresh "H" in intros s H.

Lemma wp_run_printk_tests s P :
  console_ok s → wp run_printk_tests (λ _ s', lines_post s printk_test_lines s') P s.
Proof.
  intros Hok. pose proof (lines_post_start s Hok) as H0.
  unfold run_printk_tests, pr_info, pr_emerg, pr_alert, pr_crit, pr_err, pr_warning, pr_notice, pr_debug.
  do 20 test_line. wp_step. eassumption.
Qed.

Lemma wp_run_printk_scrolling_test s P :
  console_ok s → wp run_printk_scrolling_test (λ _ s', lines_post s scrolling_test_lines s') P s.
Proof.
  intros Hok. pose proof (lines_post_start s Hok) as H0.
  unfold run_printk_scrolling_test. test_line. cbn [for_].
  do 30 (wp_step; test_line; wp_step). wp_step.
  lazymatch goal with H : lines_post s ?l ?s1 |- lines_post s _ ?s1 =>
    replace scrolling_test_lines with l by (vm_compute; reflexivity); exact H
  end.
Qed.

(** ** The suite passes *)

(** In test mode; only the console and the panic state have changed since [s]. *)
Record tested (s s' : kstate) : Prop := {
  te_console : console_ok s';
  te_mode : current_panik_mode (panic s') = PANIK_MODE_TEST;
  te_frame : console_frame (set_panic (panic s') s) s';
}.

Lemma console_frame_panic p s s' : console_frame s s' → console_frame (set_panic p s) (set_panic p s').
Proof. intros []. by split. Qed.

Lemma set_panic_id s : set_panic (panic s) s = s.
Proof. by destruct s. Qed.

Lemma tested_trans s1 s2 s3 : tested s1 s2 → tested s2 s3 → tested s1 s3.
Proof.
  intros [_ _ F1] [? ? F2]. split; [done..|]. etrans; [|exact F2].
  apply (console_frame_panic (panic s3)) in F1. exact F1.
Qed.

Lemma tested_printed s0 s s' : tested s0 s → console_ok s' → console_frame s s' → tested s0 s'.
Proof.
  intros Hs Hok F. eapply tested_trans; [exact Hs|]. destruct Hs as [_ Hm _].
  pose proof (cf_panic _ _ F) as Ep. split; [done|by rewrite Ep|].
  rewrite Ep. by rewrite set_panic_id.
Qed.

(** The counters after one more test that passed. *)
Definition passed (c : test_counters) : test_counters :=
  Counters (s32 (tests_run c + 1)) (s32 (tests_passed c + 1)) (tests_failed c).

Section suite.
Context (s0 : kstate).
Implicit Types (Q : test_counters → kstate → Prop) (P : kstate → Prop).

(** A message between two tests. *)
Lemma wp_say {A} fmt args (k : M A) s (Q : A → kstate → Prop) P :
  tested s0 s → message_ok fmt args = true →
  (∀ s', tested s0 s' → panic s' = panic s → wp k Q P s') → wp (printk fmt args;; k) Q P s.
Proof.
  intros Hs Hmsg HQ. wp_step. apply wp_printk; [apply Hs|done|]. intros _ s' Hok F.
  apply HQ; [by eapply tested_printed|apply F].
Qed.

Lemma wp_reset {A} (k : M A) s (Q : A → kstate → Prop) P :
  tested s0 s →
  (∀ s', tested s0 s' → panik_call_count (panic s') = 0 → wp k Q P s') →
  wp (reset_panik_state;; k) Q P s.
Proof.
  intros [[] Hm F] HQ. unfold reset_panik_state, upd_panic. do 2 wp_step. apply HQ; [|done].
  split; [by split|done|]. eapply console_frame_panic in F. exact F.
Qed.

(** A panic in test mode, in the middle of a test. *)
Lemma wp_survive {A} fmt args (k : M A) s (Q : A → kstate → Prop) P :
  tested s0 s → format_ok fmt args = true →
  (∀ out s', my_vsnprintf PANIK_MSG_SIZE fmt args = FOk out → tested s0 s' →
     panic s' = panik_after out (panic s) → wp k Q P s') →
  wp (panik fmt args;; k) Q P s.
Proof.
  intros [Hok Hm F] Hty HQ. wp_step.
  destruct (my_vsnprintf_typed PANIK_MSG_SIZE fmt args) as (out & Ef & Hlen); [done..|].
  apply (wp_panik_test _ _ out); [done..|]. intros s' (Hok' & F' & _ & _).
  pose proof (cf_panic _ _ F') as Ep. cbn in Ep. apply (HQ out); [done| |done].
  split; [done|by rewrite Ep|]. rewrite Ep. etrans; [|exact F'].
  apply (console_frame_panic (panik_after out (panic s))) in F. exact F.
Qed.

Lemma wp_test_assert message c s Q P :
  tested s0 s → (∀ s', tested s0 s' → panic s' = panic s → Q (passed c) s') →
  wp (TEST_ASSERT true message c) Q P s.
Proof.
  intros Hs HQ. unfold TEST_ASSERT. apply wp_say; [done|reflexivity|].
  intros s' Hs' Ep. wp_step. by apply HQ.
Qed.

(** The end of a test: the state is read and [panik_called] found set. *)
Lemma wp_check message c out p s Q P :
  tested s0 s → panic s = panik_after out p →
  (∀ s', tested s0 s' → panic s' = panic s → Q (passed c) s') →
  wp (state ← get_panik_state; TEST_ASSERT (panik_called state =? 1) message c) Q P s.
Proof.
  intros Hs Ep HQ. unfold get_panik_state. do 2 wp_step.
  rewrite Ep. change (panik_called _ =? 1) with true. by apply wp_test_assert.
Qed.

(** The tests that do nothing but panic once. *)
Lemma wp_simple_test notice fmt args message c s Q P :
  tested s0 s → message_ok (KERN_NOTICE ++ notice) [] = true →
  format_ok fmt args = true → (∀ s', tested s0 s' → Q (passed c) s') →
  wp (pr_notice notice [];; reset_panik_state;; panik fmt args;;
      state ← get_panik_state; TEST_ASSERT (panik_called state =? 1) message c) Q P s.
Proof.
  intros Hs Hn Hty HQ. unfold pr_notice. apply wp_say; [done..|]. intros s1 H1 _.
  apply wp_reset; [done|]. intros s2 H2 _. apply wp_survive; [done..|].
  intros out s3 _ H3 Ep. eapply wp_check; [done..|]. intros s4 H4 _. by apply HQ.
Qed.

Lemma wp_test_assert_failures file c s Q P :
  tested s0 s → (∀ s', tested s0 s' → Q (passed (passed c)) s') →
  wp (test_assert_failures file c) Q P s.
Proof.
  intros Hs HQ. unfold test_assert_failures, KASSERT, BUG_ON, BUG, pr_notice.
  change (negb (2 + 2 =? 5)) with true. cbv iota.
  apply wp_say; [done|reflexivity|]. intros s1 H1 _. apply wp_reset; [done|]. intros s2 H2 _.
  apply wp_survive; [done|reflexivity|]. intros out s3 _ H3 Ep.
  wp_step. eapply wp_ok; [reflexivity|]. cbv beta.
  rewrite Ep. change (panik_called (panik_after out (panic s2)) =? 1) with true.
  wp_step. apply wp_test_assert; [done|]. intros s4 H4 _. apply wp_reset; [done|]. intros s5 H5 _.
  apply wp_survive; [done|reflexivity|]. intros out' s6 _ H6 Ep6.
  eapply wp_check; [done..|]. intros s7 H7 _. by apply HQ.
Qed.

Definition real_message : list Z := C "Unable to mount root fs on unknown-block(8,1)".

Lemma format_real_message :
  my_vsnprintf PANIK_MSG_SIZE (C "Unable to mount root fs on unknown-block(%d,%d)")
    [AWord 8; AWord 1] = FOk real_message.
Proof. vm_compute. reflexivity. Qed.

Lemma wp_test_real_formatting c s Q P :
  tested s0 s →
  (∀ s', tested s0 s' → panik_call_count (panic s') = 1 →
     c_str (last_panik_msg (panic s')) = real_message → Q (passed c) s') →
  wp (test_panik_with_real_formatting c) Q P s.
Proof.
  intros Hs HQ. unfold test_panik_with_real_formatting, pr_notice, pr_info, get_panik_state.
  apply wp_say; [done|reflexivity|]. intros s1 H1 _. apply wp_reset; [done|]. intros s2 H2 E2.
  apply wp_survive; [done|reflexivity|]. intros out s3 Eout H3 Ep.
  rewrite format_real_message in Eout. injection Eout as <-.
  do 2 wp_step. rewrite Ep. change (panik_called _ =? 1) with true. wp_step.
  apply wp_test_assert; [done|]. intros s4 H4 E4. do 2 wp_step.
  apply wp_say; [done|reflexivity|]. intros s5 H5 E5. wp_step. apply HQ; [done| |].
  - rewrite E5, E4, Ep. cbn. by rewrite E2.
  - rewrite E5, E4, Ep. apply panik_after_msg.
Qed.

Lemma wp_test_memory_corruption c s Q P :
  tested s0 s → (∀ s', tested s0 s' → Q (passed c) s') →
  wp (test_memory_corruption_panik c) Q P s.
Proof.
  intros Hs HQ. unfold test_memory_corruption_panik, pr_notice. cbv zeta.
  change (negb (0xDEADBEEF =? 0xDEADBEEF)) with false. cbv iota.
  apply wp_say; [done|reflexivity|]. intros s1 H1 _. apply wp_reset; [done|]. intros s2 H2 _.
  do 2 wp_step. apply wp_survive; [done|reflexivity|]. intros out s3 _ H3 Ep.
  eapply wp_check; [done..|]. intros s4 H4 _. by apply HQ.
Qed.

Ltac simple_test t :=
  unfold t; cbv zeta; try (change (0 =? 0) with true; cbv iota);
  apply wp_simple_test; [done|reflexivity|reflexivity|].

Lemma wp_panik_tests file c s Q P :
  tested s0 s →
  (∀ s', tested s0 s' → panik_call_count (panic s') = 1 →
     c_str (last_panik_msg (panic s')) = real_message → Q (Nat.iter 8 passed c) s') →
  wp (panik_tests file c) Q P s.
Proof.
  intros Hs HQ. unfold panik_tests.
  wp_step. simple_test test_null_pointer_panik. intros s1 H1.
  wp_step. apply wp_test_memory_corruption; [done|]. intros s2 H2.
  wp_step. simple_test test_division_by_zero_panik. intros s3 H3.
  wp_step. apply wp_test_assert_failures; [done|]. intros s4 H4.
  wp_step. simple_test test_stack_overflow_panik. intros s5 H5.
  wp_step. simple_test test_hardware_fault_panik. intros s6 H6.
  by apply wp_test_real_formatting.
Qed.
End suite.

(** Entering test mode. *)
Lemma tested_start s :
  console_ok s →
  tested s (set_panic (PanikVars PANIK_MODE_TEST (panik_called (panic s)) (last_panik_msg (panic s))
              (panik_call_count (panic s))) s).
Proof. intros []. by split; [split| |]. Qed.

Lemma wp_run_panik_unit_tests file c s (Q : test_counters → kstate → Prop) P :
  console_ok s →
  (∀ s', tested s s' → panik_call_count (panic s') = 1 →
     c_str (last_panik_msg (panic s')) = real_message → Q (Counters 8 8 (tests_failed c)) s') →
  wp (run_panik_unit_tests file c) Q P s.
Proof.
  intros Hok HQ.
  unfold run_panik_unit_tests, set_panik_mode, upd_panic, get_panik_state, pr_notice, pr_info, pr_warning.
  wp_step. apply wp_printk; [done|reflexivity|]. intros _ s1 Hok1 F1. do 2 wp_step.
  assert (tested s (set_panic (PanikVars PANIK_MODE_TEST (panik_called (panic s1))
    (last_panik_msg (panic s1)) (panik_call_count (panic s1))) s1)) as H1.
  { destruct (tested_start s1 Hok1) as [? ? _]. split; [done..|]. by apply console_frame_panic. }
  apply (wp_say s); [done|reflexivity|]. intros s2 H2 _. wp_step.
  apply (wp_panik_tests s); [done|]. intros s3 H3 Hc3 Hm3.
  assert (∀ s', tested s s' → panic s' = panic s3 → Q (Nat.iter 8 passed (Counters 0 0 (tests_failed c))) s')
    as Hend.
  { intros s' Hs' Ep. apply HQ; [done| |]; by rewrite Ep. }
  clear Hm3 HQ. set (n := Nat.iter 8 passed _) in *.
  assert ((tests_passed n =? tests_run n) = true) as Eall by reflexivity.
  do 4 (apply (wp_say s); [done|reflexivity|]; intros ? ? ?).
  rewrite Eall. apply (wp_say s); [done|reflexivity|]. intros s4 Ht4 Ep4. do 2 wp_step.
  assert (panik_call_count (panic s4) = 1) as -> by congruence.
  do 6 (apply (wp_say s); [done|reflexivity|]; intros ? ? ?).
  wp_step. apply Hend; [done|congruence].
Qed.

(** C33: the kernel's panic tests pass.  From every state with a working console,
    whatever the panic mode, the panic state and the counters before,
    [run_panik_unit_tests] returns: eight assertions were checked and all eight
    held, test mode is left on, the last message is the formatted one, interrupts
    were never disabled, and only the console and the panic state have changed.
    The call counter, which every test resets, says 1 and not 8. *)
Theorem panik_unit_tests_pass file c s :
  console_ok s →
  ∃ s', run_panik_unit_tests file c s = Ok (Counters 8 8 (tests_failed c)) s' ∧
    current_panik_mode (panic s') = PANIK_MODE_TEST ∧ panik_call_count (panic s') = 1 ∧
    c_str (last_panik_msg (panic s')) = real_message ∧
    iflag (hw s') = iflag (hw s) ∧ console_ok s' ∧ console_frame (set_panic (panic s') s) s'.
Proof.
  intros Hok.
  destruct (wp_run (run_panik_unit_tests file c) (λ c' s', c' = Counters 8 8 (tests_failed c) ∧
    tested s s' ∧ panik_call_count (panic s') = 1 ∧ c_str (last_panik_msg (panic s')) = real_message) s)
    as (c' & s' & E & -> & [Hok' Hm F] & Hc & Hmsg).
  2: { exists s'. split_and!; [done..|apply (cf_iflag _ _ F)|done|done]. }
  apply wp_run_panik_unit_tests; [done|]. intros s' Hs' Hc Hm. by split_and!.
Qed.

(** The suite started in normal mode on the machine as booted. *)
Lemma panik_unit_tests_pass_witness :
  ∃ s', run_panik_unit_tests (C "kernel/tests/test_panik.c") (Counters 0 0 0)
          (boot_state ∅ symbols_zero) = Ok (Counters 8 8 0) s' ∧
    current_panik_mode (panic s') = PANIK_MODE_TEST ∧ panik_call_count (panic s') = 1 ∧
    c_str (last_panik_msg (panic s')) = real_message ∧
    iflag (hw s') = iflag (hw (boot_state ∅ symbols_zero)) ∧ console_ok s' ∧
    console_frame (set_panic (panic s') (boot_state ∅ symbols_zero)) s'.
Proof.
  exact (panik_unit_tests_pass (C "kernel/tests/test_panik.c") (Counters 0 0 0)
    (boot_state ∅ symbols_zero) (boot_state_console ∅ symbols_zero)).
Defined.

(** The console tests print what they should.  From every state with a
    working console, [run_printk_tests] followed by [run_printk_scrolling_test]
    returns; log and screen are as after exactly these lines: each level's tag
    and colour, the plain line without a tag, the colour samples, which are on
    the screen and not in the log, each conversion's rendering, and thirty
    numbered lines. *)
Theorem printk_tests_print s :
  console_ok s →
  ∃ s', (run_printk_tests;; run_printk_scrolling_test) s = Ok tt s' ∧
    contents (log s') = lastn log_capacity (contents (log s) ++
      concat (line_log <$> printk_test_lines ++ scrolling_test_lines)) ∧
    term_of s' = foldl line_term (term_of s) (printk_test_lines ++ scrolling_test_lines) ∧
    console_ok s' ∧ console_frame s s'.
Proof.
  intros Hok.
  destruct (wp_run (run_printk_tests;; run_printk_scrolling_test)
    (λ _ s', lines_post s (printk_test_lines ++ scrolling_test_lines) s') s)
    as ([] & s' & E & Hok' & F & L & T);
    [|exists s'; exact (conj E (conj L (conj T (conj Hok' F))))].
  wp_step. eapply wp_post; [by apply wp_run_printk_tests|]. intros [] s1 H1.
  eapply wp_post; [apply wp_run_printk_scrolling_test, H1|]. intros [] s2 H2.
  unfold lines_post in *. rewrite fmap_app, concat_app, foldl_app.
  pose proof H1 as (_ & _ & _ & E1). rewrite E1 in H2. by eapply message_post_trans.
Qed.

Lemma printk_tests_print_witness :
  ∃ s', (run_printk_tests;; run_printk_scrolling_test) (boot_state ∅ symbols_zero) = Ok tt s' ∧
    contents (log s') = lastn log_capacity (contents (log (boot_state ∅ symbols_zero)) ++
      concat (line_log <$> printk_test_lines ++ scrolling_test_lines)) ∧
    term_of s' = foldl line_term (term_of (boot_state ∅ symbols_zero))
      (printk_test_lines ++ scrolling_test_lines) ∧
    console_ok s' ∧ console_frame (boot_state ∅ symbols_zero) s'.
Proof. exact (printk_tests_print _ (boot_state_console ∅ symbols_zero)). Defined.

(** The whole block under KERNEL_TESTS, when it is reached. *)
Lemma kernel_tests_return file c s :
  console_ok s →
  ∃ s', kernel_tests file c s = Ok (Counters 8 8 (tests_failed c)) s' ∧ tested s s'.
Proof.
  intros Hok.
  destruct (wp_run (kernel_tests file c) (λ c' s', c' = Counters 8 8 (tests_failed c) ∧ tested s s') s)
    as (c' & s' & E & -> & Ht); [|exists s'; exact (conj E Ht)].
  unfold kernel_tests.
  wp_step. apply wp_printk; [done|reflexivity|]. intros _ s1 Hok1 F1.
  wp_step. apply wp_printk; [done|reflexivity|]. intros _ s2 Hok2 F2.
  wp_step. eapply wp_post; [by apply wp_run_printk_tests|]. intros [] s3 (Hok3 & F3 & _).
  wp_step. eapply wp_post; [by apply wp_run_printk_scrolling_test|]. intros [] s4 (Hok4 & F4 & _).
  wp_step. apply wp_run_panik_unit_tests; [done|]. intros s5 [Hok5 Hm5 F5] _ _.
  wp_step. apply wp_printk; [done|reflexivity|]. intros _ s6 Hok6 F6. wp_step. split; [done|].
  apply (tested_printed s s5); [|done..]. split; [done..|]. etrans; [|exact F5].
  apply console_frame_panic. do 3 (etrans; [eassumption|]). exact F4.
Qed.
